(* ===== verification/_CoqProject ===== *)
-Q . S2P
Prelude.v
PyFloat.v
Domain.v
RingBuffer.v
Session.v
Normalizer.v
NumberText.v
Json.v
PyText.v
FloatSum.v
Features.v
Events.v
Gate.v
Dedupe.v
Cooldown.v
Cluster.v
Composer.v
Telemetry.v
Jsonl.v
Pipeline.v
Scheduler.v
Health.v
Watchlist.v
Engine.v
Providers.v
Intelligence.v
Coordinator.v
Sidecar.v
Wire.v
Capabilities.v
Standalone.v
Doctor.v
Display.v
Daemon.v
Evaluation.v
Render.v
Tuning.v
Replay.v
Evidence.v
Compare.v
Cli.v
