(* ===== verification/Prelude.v ===== *)
(** * MarketSentinel: verification library, root file

    MarketSentinel (src/src/market_sentinel/) watches a list of stock symbols.  A provider's
    quotes are validated, kept in per-symbol ring buffers, turned into rolling features,
    matched by event rules, deduplicated, composed into episodes ("signals"), passed
    through an alert cooldown, and published by a daemon that answers a host's commands on
    JSON lines.  An adaptive scheduler decides which symbols are due, a health tracker
    judges the feed, telemetry records what happened, and an optional intelligence
    sidecar asks a language model about some alerts without ever delaying a tick.  A second
    host, an MCP server, offers read-only tools over its own engine.  Offline, telemetry is
    evaluated and candidate parameters are compared by replaying recorded quotes.

    ** How the parts interact

    [MarketDaemon] (Daemon.v) serialises commands and ticks.  A tick ([MarketEngine.tick],
    Engine.v) asks the scheduler (Scheduler.v) for the due symbols of the watchlist
    (Watchlist.v), fetches their quotes, appends them to the buffers (RingBuffer.v), computes
    features (Features.v over PyFloat.v, FloatSum.v and Session.v) and runs the signal pipeline
    (Pipeline.v): detector and rules (Events.v), deduper (Dedupe.v), composer (Composer.v with
    Cluster.v) and cooldown (Cooldown.v); both gates are instances of the interface of Gate.v.
    Health (Health.v) and the level of the symbol are updated on the way.  At its end the tick
    notifies the coordinator (Coordinator.v), which routes (Intelligence.v) and queues model
    calls.  Telemetry (Telemetry.v) is threaded through the pipeline, the coordinator and
    the daemon, and is written by the journal (Jsonl.v) as JSON lines (Json.v over
    NumberText.v).  Wire.v is the mapping of the engine's state to messages.

    The engine's provider is any step that satisfies [ProviderContract] (Engine.v); the fake,
    replay and Longbridge providers are its instances (Providers.v).  The sidecar's own
    provider (Sidecar.v) ends every call in the outcome the coordinator awaits.  The MCP server
    (Standalone.v) runs an engine of its own and answers tool calls through the facade of
    Capabilities.v, which takes its messages from Wire.v.  The evaluation (Evaluation.v) reads
    the journal back; the tuning commands capture parameters (Tuning.v), replay them through
    the same engine (Replay.v), join the user's feedback (Evidence.v) and compare the results
    (Compare.v).  The command line (Cli.v) starts all of these; its dashboard is Display.v, the
    text of a report Render.v, the diagnosis of the environment Doctor.v.

    ** Which file models what (all paths under src/src/market_sentinel/)

    - Prelude.v: exceptions as a result type, stable sorting, insertion-ordered
      dictionaries, shared tactics and the hint database [market].
    - PyFloat.v, FloatSum.v: binary64 arithmetic on the Standard Library's [SpecFloat], with
      exact rational meaning, monotonicity and the compensated [sum] of Python 3.12.
    - Domain.v: domain/ -- enums, snapshots, features, events, signals, states.
    - RingBuffer.v: market_data/ring_buffer.py, buffers.py.
    - Session.v: market_data/session.py.
    - Normalizer.v: market_data/normalizer.py.
    - Features.v: features/.
    - Events.v: events/.
    - Gate.v: the interface of a keyed gate; Dedupe.v, Cooldown.v: signals/dedupe.py and
      cooldown.py, its two instances.
    - Cluster.v: signals/cluster.py, copy.py; Composer.v: signals/composer.py.
    - Telemetry.v: telemetry/contract.py, collector.py, runtime.py, host_interaction.py,
      user_feedback.py.
    - NumberText.v, Json.v: the part of Python's [json] module the program uses, as text.
    - Jsonl.v: telemetry/jsonl.py, factory.py, paths.py, evaluation/reader.py.
    - Pipeline.v: signals/pipeline.py.
    - Scheduler.v: scheduler/, orchestration/warming.py; Health.v: health/.
    - PyText.v: the methods of [str] the program uses.
    - Providers.v: providers/, clock.py.
    - Watchlist.v: watchlist/watchlist.py.
    - Engine.v: runtime/, market_data/state.py.
    - Intelligence.v: intelligence/contract.py, view.py, registry.py, compress.py, router.py,
      parse.py; Coordinator.v: intelligence/coordinator.py, diagnostics.py; Sidecar.v: the rest
      of intelligence/ (model_settings.py, factory.py, bootstrap.py, redaction.py, fake.py,
      providers/dashscope.py).
    - Capabilities.v: capabilities/ and the tools of mcp_server/server.py; Standalone.v:
      mcp_server/runtime.py and [serve].
    - Wire.v: ipc/protocol.py, codec.py, dto.py, mapping.py; Daemon.v: ipc/daemon.py.
    - Evaluation.v: evaluation/aggregate.py, report.py, stats.py.
    - Tuning.v: tuning/config.py, store.py; Replay.v: tuning/replay.py; Evidence.v:
      tuning/feedback.py; Compare.v: tuning/report.py, compare.py.
    - Doctor.v, Display.v: cli/doctor.py, cli/display.py; Render.v: evaluation/render.py; Cli.v:
      the handlers of cli/main.py and cli/mcp.py.

    A class is a Record of its fields; a method is a function from the record to its result
    and the next record.  Code that can raise returns [result]; in Engine.v and Daemon.v the
    state reached when an exception escapes is kept ([Step]).  Clocks and uuid4 are oracle
    sequences with a cursor in the state of the component that reads them.  Integers are
    unbounded, as in Python; floats are binary64.

    ** What the theorems show

    - Engine and daemon: a tick completes and keeps the engine's invariant for any provider
      whose quotes passed the normalizer ([tick_spec]); a provider's exception is contained
      ([tick_failure]); no sequence of commands and ticks breaks the engine or kills the
      ticker ([daemon_safe]); the phases refine the protocol's machine ([phases_refine],
      [dispatch_refines]); a blank line is ignored, and any other answered once, by the fault
      found in it when it is no command ([dispatch_answers]); replacing the watchlist is
      atomic ([set_watchlist_atomic]).
    - Signals: the pipeline never raises, its updates are the signals composed from the
      accepted events, and each is an alert exactly when the cooldown allows it
      ([process_spec]); telemetry does not influence it ([process_observed]); the composer
      keeps one live episode per symbol, lineage and direction ([consume_batch_invariant]);
      the gates implement a specification over the whole history ([accept_all_history],
      [allow_all_history]).
    - Providers: each satisfies the engine's contract; Longbridge accounts for every call
      and failure ([longbridge_accounts]) and lets no credential into an error message
      ([credentials_hidden]).
    - MCP: no interleaving of loop rounds and tool calls breaks the standalone engine
      ([standalone_safe]); a call its schema refuses gets a tool error, any other an envelope,
      and the engine is left as it was but for health statuses ([tool_contract]); its views
      agree with each other ([views_agree]); a start that fails leaves nothing running
      ([startup_fails_closed]).
    - Data: ring buffer order, eviction and search; a batch keeps exactly its acceptable rows,
      in order, each with its row's values ([normalize_many_spec], [normalize_snapshot_ok]);
      features against a reference computation, without division by zero; minute bars.
    - Intelligence: routing, parsing and payload contracts; the coordinator's invariant over
      every interleaving, with its counters equal to the events of the history and no more
      model calls for an episode than its budget ([coordinator_safe]), stale results never
      stored ([finish_spec]), workers that drain ([workers_drain]); the sidecar is built or
      absent, never an exception ([sidecar_optional]); a request's text parses back to the
      payload ([request_carries_payload]); every answer of the transport ends in a checked
      completion or a recorded fallback ([model_call_contained]).
    - Telemetry: projection onto the allow list, an append-only log, command parsers; the
      journal refines an abstract bounded log under crashes and rotation ([journal_spec]) over
      a JSON printer and parser that round-trip ([loads_dumps], [loads_prefix]).
    - Evaluation: no report loses a field to the sanitiser ([report_complete]), its sections
      add up ([report_totals], [feedback_accounted]), its percentiles are ordered samples
      ([latency_bundle_spec]); priorities are never counted ([noise_misses_priorities]).
    - Tuning: candidate bodies are strict and round-trip ([config_strict]); snapshots are
      written once and read back ([snapshots_write_once]); a replay ticks every batch and
      keeps the invariant ([replay_complete]); feedback counts when its signal is in the
      evidence, the latest of a target winning ([feedback_joined]); a comparison replays the
      baseline and then the candidate on every fixture, and its metrics, totals and deltas are
      theirs ([comparison_adds]), survive the sanitiser ([comparison_published]), and count
      what the evaluation counts ([metrics_agree]).
    - Command line: [run] prints one dashboard per round, of the engine that round leaves,
      whatever its provider does, and a first Ctrl-C ends it by a [KeyboardInterrupt], not
      with exit code 0 ([run_survives]); the invocations of [watchlist] act as one watchlist
      ([watchlist_commands]); [tuning snapshot] publishes what was asked for or changes
      nothing ([snapshot_command]); doctor's exit code says what it found ([doctor_reports]);
      a report's text is a fixed layout of its figures, each beside its own label
      ([report_rendered]).
    - Scheduling and health: dwell times, waits that end when a symbol is due, feed statuses.

    ** Bounds and fuel

    Loops over lists are structural.  The binary search of RingBuffer.v and the day loop of
    Session.v carry fuel, with lemmas ([bisect_loop_spec], [overlap_loop_fuel]) that the fuel
    given is enough. The JSON scanner recurses on the interpreter's recursion limit, a
    parameter, and inside an object or array on the length of the text ([items_fuel],
    [members_fuel]).

    ** Not modelled

    Log lines, the escaped text of ipc/writer.py, the recursion limit of the JSON printer, the
    argument parser, cli/demo.py, file-system and network errors, the vendor SDK, [urlopen]
    and the gb18030 decoder (parameters), the log set-up and the messages on standard error,
    and the benchmark and probe scripts under tools/.  The MCP SDK's check of arguments is a
    parameter with stated laws (the interface [Schema]).  An interrupt that arrives inside a
    tick is not told apart from one between two rounds, and a boolean error code of the vendor
    is read as its integer.  Fixture, work and telemetry directories are finite maps.  A
    replay's monotonic clock stays where the code leaves it, at zero. Strings are UTF-8 bytes;
    [strip], letter classes, [int(str)] and [float(str)] follow their ASCII rules.  asyncio's
    scheduling appears as the order of steps.  *)
From Stdlib Require Import ZArith Lia Bool String Ascii Sorting.Sorted.
From stdpp Require Import prelude strings gmap.

(** ** Exceptions and fallible code

    Python code that can raise is a function into [result]; the state a method
    leaves behind when it raises is threaded explicitly by the caller. *)

Inductive exn :=
  | ValueError (msg : string)
  | OverflowError
  | ZeroDivisionError
  | KeyError
  | IndexError
  | TypeError
  | RuntimeError (msg : string)
  | TimeoutError (msg : string)
  | SnapshotValidationError (msg : string)
  | WatchlistFullError (msg : string)
  | WatchlistSymbolError (msg : string)
  | TuningConfigError (msg : string)
  | TuningSnapshotError (msg : string)
  | AttributeError
  | ProviderError (kind : string)
  | IntelligenceError (kind message : string)
  | CapabilityError (code message : string)
  | McpConfigError (msg : string).

Inductive result (A : Type) :=
  | Ok (a : A)
  | Err (e : exn).
Arguments Ok {A} a.
Arguments Err {A} e.

#[export] Instance exn_eq_dec : EqDecision exn.
Proof. solve_decision. Defined.
#[export] Instance result_eq_dec {A} `{!EqDecision A} : EqDecision (result A).
Proof. solve_decision. Defined.

#[export] Instance result_ret : MRet result := fun A a => Ok a.
#[export] Instance result_bind : MBind result := fun A B k r =>
  match r with Ok a => k a | Err e => Err e end.
#[export] Instance result_fmap : FMap result := fun A B f r =>
  match r with Ok a => Ok (f a) | Err e => Err e end.

Definition of_option {A} (e : exn) (o : option A) : result A :=
  match o with Some a => Ok a | None => Err e end.

Definition is_ok {A} (r : result A) : bool := match r with Ok _ => true | Err _ => false end.

Lemma bind_ok {A B} (r : result A) (k : A -> result B) b :
  r ≫= k = Ok b <-> exists a, r = Ok a /\ k a = Ok b.
Proof.
  destruct r as [a|e]; cbn; split.
  - intros H. by exists a.
  - by intros (? & [= ->] & ?).
  - done.
  - by intros (? & [=] & ?).
Qed.

(** Sequencing a fallible function over a list, left to right. *)
Fixpoint traverse {A B} (f : A -> result B) (l : list A) : result (list B) :=
  match l with
  | [] => Ok []
  | x :: l => y ← f x; ys ← traverse f l; Ok (y :: ys)
  end.

Lemma traverse_ok {A B} (f : A -> result B) l :
  (forall x, x ∈ l -> is_ok (f x) = true) -> is_ok (traverse f l) = true.
Proof.
  induction l as [|x l IH]; intros H; cbn; [done|].
  pose proof (H x ltac:(left)) as Hx. destruct (f x); [|done]. cbn.
  specialize (IH ltac:(intros y Hy; apply H; by right)). by destruct (traverse f l).
Qed.

(** ** Stable sorting, as Python's [sorted] with a key *)
Section sort.
Context {A : Type} (le : A -> A -> bool).

Fixpoint insert_by (x : A) (l : list A) : list A :=
  match l with
  | [] => [x]
  | y :: l' => if le x y then x :: y :: l' else y :: insert_by x l'
  end.

Fixpoint sort_by (l : list A) : list A :=
  match l with
  | [] => []
  | x :: l => insert_by x (sort_by l)
  end.

Lemma insert_by_perm x l : insert_by x l ≡ₚ x :: l.
Proof.
  induction l as [|y l IH]; cbn; [done|]. destruct (le x y); [done|].
  rewrite IH. constructor.
Qed.

Lemma sort_by_perm l : sort_by l ≡ₚ l.
Proof. induction l as [|x l IH]; cbn; [done|]. by rewrite insert_by_perm, IH. Qed.

Lemma elem_of_sort_by x l : x ∈ sort_by l <-> x ∈ l.
Proof. by rewrite sort_by_perm. Qed.

Lemma sort_by_nil l : sort_by l = [] <-> l = [].
Proof.
  split; [|by intros ->]. intros H. pose proof (sort_by_perm l) as P.
  rewrite H in P. by apply Permutation_nil in P.
Qed.

Section sorted.
Context (P : A -> Prop).
Hypothesis le_total : forall x y, P x -> P y -> le x y = true \/ le y x = true.
Hypothesis le_trans : forall x y z, P x -> P y -> P z ->
  le x y = true -> le y z = true -> le x z = true.

Lemma insert_by_sorted x l : P x -> Forall P l ->
  StronglySorted (fun a b => le a b = true) l ->
  StronglySorted (fun a b => le a b = true) (insert_by x l).
Proof.
  intros Px Pl. induction 1 as [|y l Hs IH Hy]; cbn; [repeat constructor|].
  inversion Pl as [|?? Py Pl']; subst.
  destruct (le x y) eqn:E.
  - constructor; [by constructor|]. constructor; [done|].
    rewrite Forall_forall in Hy |- *. intros z Hz.
    rewrite Forall_forall in Pl'. eapply le_trans; eauto.
  - constructor; [auto|]. rewrite insert_by_perm. constructor; [|done].
    destruct (le_total x y Px Py); congruence.
Qed.

Lemma sort_by_sorted l : Forall P l -> StronglySorted (fun a b => le a b = true) (sort_by l).
Proof.
  induction 1 as [|x l Px Pl IH]; cbn; [constructor|].
  apply insert_by_sorted; [done| |done]. by rewrite sort_by_perm.
Qed.
End sorted.
End sort.

Lemma Forall_zip_both {A B} (P : A -> Prop) (Q : B -> Prop) l k :
  Forall P l -> Forall Q k -> Forall (fun x => P x.1 /\ Q x.2) (zip l k).
Proof.
  intros Hl. revert k. induction Hl as [|x l Hx Hl IH]; intros [|y k] Hk; cbn; [by constructor..|].
  apply Forall_cons in Hk as [Hy Hk]. constructor; [done|]. by apply IH.
Qed.

(** ** Insertion-ordered dictionaries

    Python dicts keep insertion order; assigning an existing key keeps its place. *)
Section odict.
Context {K V : Type} `{!EqDecision K}.

Fixpoint od_get (k : K) (d : list (K * V)) : option V :=
  match d with
  | [] => None
  | (k', v) :: d => if decide (k = k') then Some v else od_get k d
  end.

Fixpoint od_set (k : K) (v : V) (d : list (K * V)) : list (K * V) :=
  match d with
  | [] => [(k, v)]
  | (k', v') :: d => if decide (k = k') then (k', v) :: d else (k', v') :: od_set k v d
  end.

Fixpoint od_del (k : K) (d : list (K * V)) : list (K * V) :=
  match d with
  | [] => []
  | (k', v') :: d => if decide (k = k') then d else (k', v') :: od_del k d
  end.

Lemma od_get_set k k' v d :
  od_get k' (od_set k v d) = if decide (k = k') then Some v else od_get k' d.
Proof.
  induction d as [|[a b] d IH]; cbn; [by repeat case_decide|].
  repeat (case_decide; cbn; try congruence).
Qed.

Lemma od_set_keys k v d :
  (od_set k v d).*1 = if decide (k ∈ d.*1) then d.*1 else d.*1 ++ [k].
Proof.
  induction d as [|[a b] d IH]; cbn [od_set fmap list_fmap fst app].
  - case_decide as H; [by apply not_elem_of_nil in H|done].
  - destruct (decide (k = a)) as [->|E]; cbn [fmap list_fmap fst].
    + rewrite decide_True by left. done.
    + rewrite IH. destruct (decide (k ∈ d.*1)) as [H|H].
      * rewrite decide_True by (by right). done.
      * rewrite decide_False by (rewrite elem_of_cons; intros [?|?]; done). done.
Qed.

Lemma od_get_None k d : od_get k d = None <-> k ∉ d.*1.
Proof.
  induction d as [|[a b] d IH]; cbn; [set_solver|].
  case_decide; rewrite not_elem_of_cons; naive_solver.
Qed.

Lemma od_get_elem k v d : od_get k d = Some v -> (k, v) ∈ d.
Proof.
  induction d as [|[a b] d IH]; cbn; [done|]. case_decide; intros; simplify_eq; set_solver.
Qed.

Lemma od_elem_get k v d : NoDup d.*1 -> (k, v) ∈ d -> od_get k d = Some v.
Proof.
  induction d as [|[a b] d IH]; cbn; intros Hnd Hin; [set_solver|].
  apply NoDup_cons in Hnd as [Ha Hnd]. apply elem_of_cons in Hin as [?|Hin]; simplify_eq.
  - by rewrite decide_True.
  - rewrite decide_False; [auto|]. intros ->. apply Ha.
    apply list_elem_of_fmap. by exists (a, v).
Qed.

Lemma od_set_nodup k v d : NoDup d.*1 -> NoDup (od_set k v d).*1.
Proof.
  intros H. rewrite od_set_keys. case_decide; [done|].
  apply NoDup_app. split; [done|]. split; [set_solver|]. apply NoDup_singleton.
Qed.

Lemma od_del_keys k d : (od_del k d).*1 `sublist_of` d.*1.
Proof.
  induction d as [|[a b] d IH]; cbn; [done|]. case_decide.
  - by apply sublist_cons.
  - by apply sublist_skip.
Qed.

Lemma od_del_nodup k d : NoDup d.*1 -> NoDup (od_del k d).*1.
Proof. intros H. eapply sublist_NoDup; [done|apply od_del_keys]. Qed.

Lemma od_get_del k k' d : NoDup d.*1 ->
  od_get k' (od_del k d) = if decide (k = k') then None else od_get k' d.
Proof.
  induction d as [|[a b] d IH]; cbn; intros Hnd; [by case_decide|].
  apply NoDup_cons in Hnd as [Ha Hnd]. specialize (IH Hnd).
  repeat (case_decide; cbn; try congruence).
  subst. by apply od_get_None.
Qed.

Lemma elem_of_od_set k v d k' v' : NoDup d.*1 ->
  (k', v') ∈ od_set k v d <-> (k' = k /\ v' = v) \/ (k' <> k /\ (k', v') ∈ d).
Proof.
  intros Hnd. split.
  - intros H%(od_elem_get _ _ _ (od_set_nodup k v d Hnd)). rewrite od_get_set in H.
    destruct (decide (k = k')) as [->|]; [simplify_eq; by left|right]. split; [done|]. by apply od_get_elem.
  - intros H. apply od_get_elem. rewrite od_get_set. destruct H as [[-> ->]|[Hk Hin]].
    + by rewrite decide_True.
    + rewrite decide_False by done. by apply od_elem_get.
Qed.

Lemma elem_of_od_del k d k' v' : NoDup d.*1 ->
  (k', v') ∈ od_del k d <-> k' <> k /\ (k', v') ∈ d.
Proof.
  intros Hnd. split.
  - intros H%(od_elem_get _ _ _ (od_del_nodup k d Hnd)). rewrite od_get_del in H by done.
    destruct (decide (k = k')) as [->|]; [done|]. split; [done|]. by apply od_get_elem.
  - intros [Hk Hin]. apply od_get_elem. rewrite od_get_del by done. rewrite decide_False by done.
    by apply od_elem_get.
Qed.
End odict.

(** ** Tactics *)
Ltac case_if_goal :=
  match goal with |- context [if ?b then _ else _] => destruct b eqn:? end.
Ltac split_bool :=
  repeat match goal with
    | H : (_ && _)%bool = true |- _ => apply andb_prop in H as [? ?]
    | H : (_ || _)%bool = false |- _ => apply orb_false_elim in H as [? ?]
    end.

(** A closed decidable proposition, by evaluation. *)
Ltac decide_now := apply (bool_decide_unpack _); vm_compute; exact I.

(** ** Automation: facts that keep a dictionary well formed *)
Create HintDb market.
#[export] Hint Resolve od_set_nodup od_del_nodup od_get_elem od_elem_get : market.
#[export] Hint Resolve traverse_ok : market.
