(* ===== verification/PyFloat.v ===== *)
(** * Python floats: IEEE-754 binary64, executable and with its rounding theory

    A Python [float] is the Standard Library's [spec_float] at precision 53 and
    maximal exponent 1024.  [fval] reads a float as an exact integer multiple of
    [2^-1074] (an infinity as a value beyond every finite one); the lemmas below
    reduce comparisons to integer comparisons of [fval] and show that addition and
    subtraction are the correctly rounded (nearest, ties to even) exact results. *)
From Stdlib Require Import ZArith Lia Bool.
From Corelib Require Import SpecFloat.
From stdpp Require Import prelude.
From S2P Require Import Prelude.
Local Open Scope Z_scope.

Abbreviation float := spec_float.

Definition fval_big : Z := 2 ^ 2100.
Definition fval_max : Z := 2 ^ 2098.

Definition sgn (s : bool) (n : Z) : Z := if s then - n else n.

Definition fval (x : float) : Z :=
  match x with
  | S754_zero _ => 0
  | S754_infinity s => sgn s fval_big
  | S754_nan => 0
  | S754_finite s m e => sgn s (Zpos m * 2 ^ (e + 1074))
  end.

Definition valid (x : float) : bool := valid_binary 53 1024 x.

Definition is_nan (x : float) : bool := match x with S754_nan => true | _ => false end.
Definition isfinite (x : float) : bool :=
  match x with S754_zero _ | S754_finite _ _ _ => true | _ => false end.

(** ** Digits *)
Lemma digits2_pos_bound m :
  2 ^ (Zpos (digits2_pos m) - 1) <= Zpos m < 2 ^ Zpos (digits2_pos m).
Proof.
  induction m as [m IH|m IH|]; cbn [digits2_pos]; [| |cbn; lia].
  all: rewrite Pos2Z.inj_succ; unfold Z.succ;
    replace (Z.pos (digits2_pos m) + 1 - 1) with ((Z.pos (digits2_pos m) - 1) + 1) by lia;
    rewrite !Z.pow_add_r by lia; lia.
Qed.

Lemma digits_unique n d : 0 < d -> 2 ^ (d - 1) <= Zpos n < 2 ^ d -> Zpos (digits2_pos n) = d.
Proof.
  intros Hd Hn. pose proof (digits2_pos_bound n) as Hb.
  destruct (Z.lt_trichotomy (Zpos (digits2_pos n)) d) as [H|[H|H]]; [|done|].
  - assert (2 ^ Zpos (digits2_pos n) <= 2 ^ (d - 1)) by (apply Z.pow_le_mono_r; lia). lia.
  - assert (2 ^ d <= 2 ^ (Zpos (digits2_pos n) - 1)) by (apply Z.pow_le_mono_r; lia). lia.
Qed.

(** ** Round to nearest even at bit k *)
Definition rne (n k : Z) : Z :=
  let q := n / 2 ^ k in
  match 2 * (n mod 2 ^ k) ?= 2 ^ k with
  | Lt => q
  | Gt => q + 1
  | Eq => if Z.even q then q else q + 1
  end.

Lemma rne_bounds n k : 0 <= k -> n / 2 ^ k <= rne n k <= n / 2 ^ k + 1.
Proof. intros. unfold rne. destruct (_ ?= _); [destruct (Z.even _)| |]; lia. Qed.

Lemma rne_exact n k : 0 <= k -> n mod 2 ^ k = 0 -> rne n k = n / 2 ^ k.
Proof.
  intros Hk Hm. unfold rne. rewrite Hm.
  assert (0 < 2 ^ k) by lia.
  destruct (Z.compare_spec (2 * 0) (2 ^ k)); lia.
Qed.

Lemma rne_mono a b k : 0 <= k -> a <= b -> rne a k <= rne b k.
Proof.
  intros Hk Hab. assert (H2 : 0 < 2 ^ k) by lia.
  assert (Hq : a / 2 ^ k <= b / 2 ^ k) by (apply Z.div_le_mono; lia).
  destruct (Z.eq_dec (a / 2 ^ k) (b / 2 ^ k)) as [E|E].
  - pose proof (Z.div_mod a (2 ^ k)) as Ha. pose proof (Z.div_mod b (2 ^ k)) as Hb.
    assert (Hm : a mod 2 ^ k <= b mod 2 ^ k) by nia.
    unfold rne. rewrite E.
    destruct (Z.compare_spec (2 * (a mod 2 ^ k)) (2 ^ k));
      destruct (Z.compare_spec (2 * (b mod 2 ^ k)) (2 ^ k));
      destruct (Z.even (b / 2 ^ k)); lia.
  - pose proof (rne_bounds a k Hk). pose proof (rne_bounds b k Hk). lia.
Qed.

Lemma rne_scale m s j : 0 <= s -> 0 <= j -> rne (m * 2 ^ j) (s + j) = rne m s.
Proof.
  intros Hs Hj. unfold rne.
  assert (0 < 2 ^ j) by lia. assert (0 < 2 ^ s) by lia.
  rewrite Z.pow_add_r by lia.
  rewrite Z.div_mul_cancel_r by lia.
  rewrite Z.mul_mod_distr_r by lia.
  replace (2 * (m mod 2 ^ s * 2 ^ j) ?= 2 ^ s * 2 ^ j) with (2 * (m mod 2 ^ s) ?= 2 ^ s); [done|].
  destruct (Z.compare_spec (2 * (m mod 2 ^ s)) (2 ^ s)) as [E|E|E]; symmetry.
  - apply Z.compare_eq_iff. rewrite Z.mul_assoc, E. ring.
  - apply Z.compare_lt_iff. nia.
  - apply Z.compare_gt_iff. nia.
Qed.

(* number of bits *)
Definition bits (n : Z) : Z := match n with Zpos p => Zpos (digits2_pos p) | _ => 0 end.
Definition ulpx (n : Z) : Z := Z.max 0 (bits n - 53).

(** Rounding of a nonnegative value given with [j] extra low bits. *)
Definition rgrid (j n : Z) : Z := let u := Z.max j (bits n - 53) in rne n u * 2 ^ u.
Definition rnd_pos (n : Z) : Z := rne n (ulpx n) * 2 ^ ulpx n.
Definition rnd (n : Z) : Z := if n <? 0 then - rnd_pos (- n) else rnd_pos n.

Lemma bits_mono a b : 0 <= a -> a <= b -> bits a <= bits b.
Proof.
  intros Ha Hab. destruct a as [|a|a]; [destruct b; cbn; lia| |lia].
  destruct b as [|b|b]; [lia| |lia]. cbn.
  pose proof (digits2_pos_bound a). pose proof (digits2_pos_bound b).
  destruct (Z.le_gt_cases (Zpos (digits2_pos a)) (Zpos (digits2_pos b))); [done|].
  assert (2 ^ Zpos (digits2_pos b) <= 2 ^ (Zpos (digits2_pos a) - 1)) by (apply Z.pow_le_mono_r; lia).
  lia.
Qed.

Lemma rnd_pos_small n : 0 <= n < 2 ^ 53 -> rnd_pos n = n.
Proof.
  intros Hn. unfold rnd_pos. assert (ulpx n = 0) as ->.
  { unfold ulpx. destruct n as [|p|p]; [done| |lia]. cbn.
    pose proof (digits2_pos_bound p).
    destruct (Z.le_gt_cases (Zpos (digits2_pos p)) 53); [lia|].
    assert (2 ^ 53 <= 2 ^ (Zpos (digits2_pos p) - 1)) by (apply Z.pow_le_mono_r; lia). lia. }
  rewrite rne_exact by (try lia; apply Z.mod_1_r).
  change (2 ^ 0) with 1. rewrite Z.div_1_r. lia.
Qed.

Lemma rne_pow_bounds n k d :
  0 <= k -> k <= d - 1 -> 2 ^ (d - 1) <= n < 2 ^ d -> 2 ^ (d - 1) <= rne n k * 2 ^ k <= 2 ^ d.
Proof.
  intros Hk Hkd [Hl Hu]. 
  assert (0 < 2 ^ k) by lia.
  assert (E1 : 2 ^ (d - 1) = 2 ^ (d - 1 - k) * 2 ^ k) by (rewrite <- Z.pow_add_r by lia; f_equal; lia).
  assert (E2 : 2 ^ d = 2 ^ (d - k) * 2 ^ k) by (rewrite <- Z.pow_add_r by lia; f_equal; lia).
  assert (R1 : rne (2 ^ (d - 1)) k = 2 ^ (d - 1 - k)).
  { rewrite E1. rewrite rne_exact by (try lia; apply Z.mod_mul; lia). apply Z.div_mul; lia. }
  assert (R2 : rne (2 ^ d) k = 2 ^ (d - k)).
  { rewrite E2. rewrite rne_exact by (try lia; apply Z.mod_mul; lia). apply Z.div_mul; lia. }
  pose proof (rne_mono (2 ^ (d - 1)) n k Hk Hl) as M1.
  pose proof (rne_mono n (2 ^ d) k Hk ltac:(lia)) as M2.
  rewrite R1 in M1. rewrite R2 in M2. nia.
Qed.

Lemma rnd_pos_bounds p :
  2 ^ (bits (Zpos p) - 1) <= rnd_pos (Zpos p) <= 2 ^ bits (Zpos p).
Proof.
  unfold rnd_pos. pose proof (digits2_pos_bound p) as Hb. cbn [bits].
  apply rne_pow_bounds; unfold ulpx; cbn [bits]; lia.
Qed.

Lemma rnd_pos_mono a b : 0 <= a -> a <= b -> rnd_pos a <= rnd_pos b.
Proof.
  intros Ha Hab.
  destruct a as [|a|a]; [|  |lia].
  { change (rnd_pos 0) with 0. destruct b as [|b|b]; [done| |lia].
    pose proof (rnd_pos_bounds b). assert (0 < 2 ^ (bits (Zpos b) - 1)) by (apply Z.pow_pos_nonneg; cbn; lia). lia. }
  destruct b as [|b|b]; [lia| |lia].
  pose proof (bits_mono (Zpos a) (Zpos b) ltac:(lia) Hab) as Hbits.
  destruct (Z.eq_dec (ulpx (Zpos a)) (ulpx (Zpos b))) as [E|E].
  - unfold rnd_pos. rewrite E. apply Z.mul_le_mono_nonneg_r; [lia|]. apply rne_mono; [unfold ulpx; lia|done].
  - pose proof (rnd_pos_bounds a) as HA. pose proof (rnd_pos_bounds b) as HB.
    assert (2 ^ bits (Zpos a) <= 2 ^ (bits (Zpos b) - 1)).
    { apply Z.pow_le_mono_r; [lia|]. unfold ulpx in E. lia. }
    lia.
Qed.

Lemma rnd_pos_nonneg n : 0 <= n -> 0 <= rnd_pos n.
Proof. intros. change 0 with (rnd_pos 0). apply rnd_pos_mono; lia. Qed.

Lemma rnd_mono a b : a <= b -> rnd a <= rnd b.
Proof.
  intros Hab. unfold rnd.
  destruct (Z.ltb_spec a 0); destruct (Z.ltb_spec b 0); try lia.
  - pose proof (rnd_pos_mono (- b) (- a)). lia.
  - pose proof (rnd_pos_nonneg (- a)). pose proof (rnd_pos_nonneg b). lia.
  - apply rnd_pos_mono; lia.
Qed.

Lemma rnd_opp n : rnd (- n) = - rnd n.
Proof.
  unfold rnd. destruct (Z.ltb_spec (- n) 0); destruct (Z.ltb_spec n 0); try lia.
  - f_equal. f_equal. lia.
  - assert (n = 0) as -> by lia. reflexivity.
Qed.

(** ** The library's shift with round and sticky bits *)
Lemma iter_pos_nat {A} (f : A -> A) p x : SpecFloat.iter_pos f p x = Nat.iter (Pos.to_nat p) f x.
Proof.
  revert x. induction p as [p IH|p IH|]; intros x; cbn [SpecFloat.iter_pos]; [| |done].
  - rewrite !IH, Pos2Nat.inj_xI, Nat.iter_succ_r, <- Nat.iter_add. do 2 f_equal. lia.
  - rewrite !IH, Pos2Nat.inj_xO, <- Nat.iter_add. do 2 f_equal. lia.
Qed.

Definition shr_inv (n : Z) (k : nat) (mrs : shr_record) : Prop :=
  shr_m mrs = n / 2 ^ Z.of_nat k /\
  rne n (Z.of_nat k) = round_nearest_even (shr_m mrs) (loc_of_shr_record mrs) /\
  match k with
  | O => shr_r mrs = false /\ shr_s mrs = false
  | S k' => shr_r mrs = Z.odd (n / 2 ^ Z.of_nat k') /\
            shr_s mrs = negb (n mod 2 ^ Z.of_nat k' =? 0)
  end.

Lemma shr_1_nonneg m r s : 0 <= m ->
  shr_1 {| shr_m := m; shr_r := r; shr_s := s |} =
  {| shr_m := m / 2; shr_r := Z.odd m; shr_s := r || s |}.
Proof.
  intros Hm. rewrite <- Z.div2_div. destruct m as [|[p|p|]|p]; try lia; reflexivity.
Qed.

Lemma mod_pow2_succ n k : 
  n mod 2 ^ Z.of_nat (S k) = (if Z.odd (n / 2 ^ Z.of_nat k) then 2 ^ Z.of_nat k else 0) + n mod 2 ^ Z.of_nat k.
Proof.
  rewrite Nat2Z.inj_succ, Z.pow_succ_r by lia. rewrite (Z.mul_comm 2).
  rewrite Z.rem_mul_r by lia. rewrite (Zmod_odd (n / 2 ^ Z.of_nat k)).
  destruct (Z.odd _); lia.
Qed.

Lemma shr_iter n k : 0 <= n ->
  shr_inv n k (Nat.iter k shr_1 {| shr_m := n; shr_r := false; shr_s := false |}).
Proof.
  intros Hn. induction k as [|k IH].
  - unfold shr_inv. cbn. rewrite Z.div_1_r. split; [done|]. split; [|done].
    rewrite rne_exact by (try lia; apply Z.mod_1_r). apply Z.div_1_r.
  - rewrite Nat.iter_succ. destruct (Nat.iter k shr_1 _) as [m r s].
    destruct IH as (Hm & _ & Hrs). cbn in Hm, Hrs.
    assert (0 < 2 ^ Z.of_nat k) by lia.
    rewrite shr_1_nonneg by (subst m; apply Z.div_pos; lia).
    assert (Hs : (r || s)%bool = negb (n mod 2 ^ Z.of_nat k =? 0)).
    { destruct k as [|k].
      - destruct Hrs as [-> ->]. cbn. by rewrite Z.mod_1_r.
      - destruct Hrs as [-> ->]. rewrite mod_pow2_succ.
        pose proof (Z.mod_pos_bound n (2 ^ Z.of_nat k)).
        destruct (Z.odd _); cbn; [|by rewrite Z.add_0_l].
        destruct (Z.eqb_spec (2 ^ Z.of_nat k + n mod 2 ^ Z.of_nat k) 0); [lia|done]. }
    unfold shr_inv. cbn [shr_m shr_r shr_s]. rewrite Hs, Hm.
    assert (Hq : n / 2 ^ Z.of_nat k / 2 = n / 2 ^ Z.of_nat (S k)).
    { rewrite Nat2Z.inj_succ, Z.pow_succ_r by lia. rewrite Z.div_div by lia. f_equal. lia. }
    split; [done|]. split; [|done].
    rewrite Hq. unfold rne. rewrite mod_pow2_succ.
    rewrite Nat2Z.inj_succ, Z.pow_succ_r by lia.
    pose proof (Z.mod_pos_bound n (2 ^ Z.of_nat k) ltac:(lia)) as Hb.
    destruct (Z.odd (n / 2 ^ Z.of_nat k)); destruct (Z.eqb_spec (n mod 2 ^ Z.of_nat k) 0) as [E|E]; cbn [negb loc_of_shr_record round_nearest_even].
    all: match goal with |- context [?a ?= ?b] => destruct (Z.compare_spec a b) end; try lia; done.
Qed.

Lemma shr_spec n e s : 0 <= n -> 0 <= s ->
  exists mrs, shr {| shr_m := n; shr_r := false; shr_s := false |} e s = (mrs, e + s) /\
    round_nearest_even (shr_m mrs) (loc_of_shr_record mrs) = rne n s /\
    shr_m mrs = n / 2 ^ s.
Proof.
  intros Hn Hs. destruct s as [|p|p]; [| |lia].
  - eexists. split; [cbn; by rewrite Z.add_0_r|]. split.
    + cbn. rewrite rne_exact by (try lia; apply Z.mod_1_r). symmetry; apply Z.div_1_r.
    + cbn. symmetry; apply Z.div_1_r.
  - cbn [shr]. rewrite iter_pos_nat. eexists. split; [done|].
    destruct (shr_iter n (Pos.to_nat p) Hn) as (H1 & H2 & _).
    rewrite positive_nat_Z in H1, H2. split; [by rewrite H2|done].
Qed.

Definition clamp (n : Z) : Z :=
  if fval_max <=? n then fval_big else if n <=? - fval_max then - fval_big else n.

Lemma clamp_small0 : clamp 0 = 0.
Proof.
  unfold clamp. assert (0 < fval_max) by (unfold fval_max; lia).
  repeat match goal with |- context [?x <=? ?y] => destruct (Z.leb_spec x y) end; lia.
Qed.

Lemma clamp_mono a b : a <= b -> clamp a <= clamp b.
Proof.
  intros H. unfold clamp. 
  assert (0 < fval_max) by (unfold fval_max; lia).
  assert (fval_max <= fval_big) by (unfold fval_max, fval_big; apply Z.pow_le_mono_r; lia).
  repeat match goal with |- context [?x <=? ?y] => destruct (Z.leb_spec x y) end; lia.
Qed.

Abbreviation fx := (fexp 53 1024).

Lemma fexp_unfold d : fx d = Z.max (d - 53) (-1074).
Proof. reflexivity. Qed.

Lemma valid_finite s m e :
  fx (Zpos (digits2_pos m) + e) = e -> e <= 971 -> valid (S754_finite s m e) = true.
Proof.
  intros H1 H2. unfold valid, valid_binary, bounded, canonical_mantissa.
  rewrite H1. rewrite Z.eqb_refl. apply Z.leb_le in H2. exact H2.
Qed.

Lemma valid_finite_inv s m e :
  valid (S754_finite s m e) = true ->
  fx (Zpos (digits2_pos m) + e) = e /\ e <= 971 /\ -1074 <= e.
Proof.
  unfold valid, valid_binary, bounded, canonical_mantissa. intros H.
  apply andb_prop in H as [H1 H2]. apply Z.eqb_eq in H1. apply Z.leb_le in H2.
  rewrite fexp_unfold in *. lia.
Qed.

(* the final packing step of [binary_round_aux] *)
Definition pack (sx : bool) (m : positive) (e : Z) : float :=
  if e <=? 971 then S754_finite sx m e else S754_infinity sx.

Lemma fval_max_big : 0 < fval_max < fval_big.
Proof. unfold fval_max, fval_big. split; [lia|]. apply Z.pow_lt_mono_r; lia. Qed.

Lemma pack_spec sx m e :
  -1074 <= e -> fx (Zpos (digits2_pos m) + e) = e ->
  valid (pack sx m e) = true /\ is_nan (pack sx m e) = false /\
  fval (pack sx m e) = sgn sx (clamp (Zpos m * 2 ^ (e + 1074))).
Proof.
  intros He Hc. pose proof (digits2_pos_bound m) as Hb. pose proof fval_max_big.
  rewrite fexp_unfold in Hc.
  assert (Hd : Zpos (digits2_pos m) <= 53) by lia.
  unfold pack, clamp. destruct (Z.leb_spec e 971) as [H1|H1].
  - split; [apply valid_finite; [by rewrite fexp_unfold|done]|]. split; [done|].
    assert (Zpos m * 2 ^ (e + 1074) < fval_max).
    { unfold fval_max. replace 2098 with (53 + 2045) by lia. rewrite (Z.pow_add_r 2 53 2045) by lia.
      assert (Zpos m < 2 ^ 53). { assert (2 ^ Zpos (digits2_pos m) <= 2 ^ 53) by (apply Z.pow_le_mono_r; lia). lia. }
      assert (2 ^ (e + 1074) <= 2 ^ 2045) by (apply Z.pow_le_mono_r; lia).
      assert (0 < 2 ^ (e + 1074)) by lia. nia. }
    destruct (Z.leb_spec fval_max (Zpos m * 2 ^ (e + 1074))); [lia|].
    destruct (Z.leb_spec (Zpos m * 2 ^ (e + 1074)) (- fval_max)); [lia|]. done.
  - split; [done|]. split; [done|].
    assert (fval_max <= Zpos m * 2 ^ (e + 1074)).
    { unfold fval_max. replace 2098 with (52 + 2046) by lia. rewrite (Z.pow_add_r 2 52 2046) by lia.
      assert (Hd' : Zpos (digits2_pos m) = 53) by lia. rewrite Hd' in Hb.
      assert (2 ^ 2046 <= 2 ^ (e + 1074)) by (apply Z.pow_le_mono_r; lia).
      assert (0 < 2 ^ (e + 1074)) by lia. change (53 - 1) with 52 in Hb. nia. }
    destruct (Z.leb_spec fval_max (Zpos m * 2 ^ (e + 1074))); [done|lia].
Qed.

Lemma shr_fexp_exact n e : 0 < n -> fx (bits n + e) <= e ->
  shr_fexp 53 1024 n e loc_Exact = ({| shr_m := n; shr_r := false; shr_s := false |}, e).
Proof.
  intros Hn He. unfold shr_fexp.
  replace (Zdigits2 n) with (bits n) by (destruct n; [lia|done|lia]).
  cbn [shr_record_of_loc]. destruct (fx (bits n + e) - e) eqn:E; try done. lia.
Qed.

Lemma shr_fexp_carry e : -1074 <= e ->
  shr_fexp 53 1024 (2 ^ 53) e loc_Exact =
  ({| shr_m := Zpos (2 ^ 52); shr_r := false; shr_s := false |}, e + 1).
Proof.
  intros He. unfold shr_fexp. change (Zdigits2 (2 ^ 53)) with 54. rewrite fexp_unfold.
  replace (Z.max (54 + e - 53) (-1074) - e) with 1 by lia. reflexivity.
Qed.

(** [binary_round_aux] on an exact mantissa whose exponent does not exceed the target *)
Lemma rne_53_bits n d s : 0 < n < 2 ^ d -> 0 <= s -> d - s <= 53 -> 0 <= rne n s <= 2 ^ 53.
Proof.
  intros Hn Hs Hd. assert (0 < 2 ^ s) by lia.
  assert (0 <= n / 2 ^ s) by (apply Z.div_pos; lia).
  assert (n / 2 ^ s < 2 ^ 53).
  { apply Z.div_lt_upper_bound; [lia|]. rewrite <- Z.pow_add_r by lia.
    assert (2 ^ d <= 2 ^ (s + 53)) by (apply Z.pow_le_mono_r; lia). lia. }
  pose proof (rne_bounds n s Hs). lia.
Qed.

(** The library marks an inexact mantissa with a location; it amounts to two more bits. *)
Definition loc_code (l : location) : Z :=
  match l with
  | loc_Exact => 0
  | loc_Inexact Lt => 1
  | loc_Inexact Eq => 2
  | loc_Inexact Gt => 3
  end.

Lemma loc_code_bounds l : 0 <= loc_code l <= 3.
Proof. destruct l as [|[]]; cbn; lia. Qed.

Lemma shr_record_of_loc_iter n l : 0 <= n ->
  shr_record_of_loc n l =
  Nat.iter 2 shr_1 {| shr_m := 4 * n + loc_code l; shr_r := false; shr_s := false |}.
Proof.
  intros Hn. pose proof (loc_code_bounds l).
  change (Nat.iter 2 shr_1 ?x) with (shr_1 (shr_1 x)).
  rewrite shr_1_nonneg by lia. rewrite shr_1_nonneg by (apply Z.div_pos; lia).
  assert (E1 : (4 * n + loc_code l) / 2 / 2 = n) by (Z.div_mod_to_equations; lia).
  assert (E2 : Z.odd (4 * n + loc_code l) = Z.odd (loc_code l)).
  { rewrite Z.odd_add, Z.odd_mul. reflexivity. }
  assert (E3 : (4 * n + loc_code l) / 2 = 2 * n + loc_code l / 2) by (Z.div_mod_to_equations; lia).
  rewrite E1, E2, E3, Z.odd_add, Z.odd_mul. change (Z.odd 2 && Z.odd n) with false.
  by destruct l as [|[]].
Qed.

Lemma shr_loc_spec n l e s : 0 <= n -> 0 <= s ->
  exists mrs, shr (shr_record_of_loc n l) e s = (mrs, e + s) /\
    round_nearest_even (shr_m mrs) (loc_of_shr_record mrs) = rne (4 * n + loc_code l) (s + 2).
Proof.
  intros Hn Hs. pose proof (loc_code_bounds l). rewrite shr_record_of_loc_iter by done.
  assert (S : forall p, Z.of_nat (p + 2) = s + 2 -> exists mrs,
    Nat.iter p shr_1 (Nat.iter 2 shr_1 {| shr_m := 4 * n + loc_code l; shr_r := false; shr_s := false |}) = mrs /\
    round_nearest_even (shr_m mrs) (loc_of_shr_record mrs) = rne (4 * n + loc_code l) (s + 2)).
  { intros p Hp. eexists. split; [done|]. rewrite <- Nat.iter_add.
    destruct (shr_iter (4 * n + loc_code l) (p + 2) ltac:(lia)) as (_ & E & _). by rewrite <- E, Hp. }
  destruct s as [|p|p]; [| |lia].
  - destruct (S 0%nat ltac:(lia)) as (mrs & E & R). exists mrs. cbn [shr]. rewrite Z.add_0_r. split; [by rewrite <- E|done].
  - destruct (S (Pos.to_nat p) ltac:(lia)) as (mrs & E & R). exists mrs. cbn [shr].
    rewrite iter_pos_nat, E. done.
Qed.

Lemma round_aux_loc_spec sx n e l : 0 <= n -> e <= fx (bits n + e) ->
  let ez := fx (bits n + e) in
  let r := binary_round_aux 53 1024 sx n e l in
  valid r = true /\ is_nan r = false /\
  fval r = sgn sx (clamp (rne (4 * n + loc_code l) (ez - e + 2) * 2 ^ (ez + 1074))).
Proof.
  intros Hn Hez ez r. pose proof (loc_code_bounds l) as Hl.
  assert (Hb : 0 <= bits n /\ n < 2 ^ bits n /\ (0 < bits n -> 2 ^ (bits n - 1) <= n)).
  { destruct n as [|p|p]; [cbn; lia| |lia]. cbn [bits]. pose proof (digits2_pos_bound p). lia. }
  set (d := bits n) in *.
  unfold ez in *. rewrite fexp_unfold in *.
  destruct (shr_loc_spec n l e (fx (d + e) - e)) as (mrs & Hshr & Hround); [lia|rewrite fexp_unfold; lia|].
  subst r. unfold binary_round_aux.
  assert (shr_fexp 53 1024 n e l = (mrs, fx (d + e))) as ->.
  { unfold shr_fexp. assert (Zdigits2 n = d) as -> by (unfold d; clear - Hn; destruct n; [done|done|lia]). rewrite Hshr. f_equal. lia. }
  rewrite Hround. rewrite fexp_unfold.
  set (ez' := Z.max (d + e - 53) (-1074)) in *. set (s := ez' - e) in *.
  set (N := 4 * n + loc_code l) in *.
  assert (Hd2 : 2 ^ (d + 2) = 4 * 2 ^ d) by (rewrite Z.pow_add_r by lia; change (2 ^ 2) with 4; lia).
  assert (Hm1 : 0 <= rne N (s + 2) <= 2 ^ 53).
  { destruct (Z.eq_dec N 0) as [->|]; [|apply (rne_53_bits _ (d + 2)); lia].
    rewrite rne_exact by (lia || apply Z.mod_0_l; lia). rewrite Z.div_0_l; lia. }
  assert (Hsub : rne N (s + 2) < 2 ^ 52 -> ez' = -1074).
  { intros Hlt. destruct (Z.le_gt_cases ez' (-1074)); [lia|]. exfalso.
    assert (Hs : 0 <= s) by lia. assert (Hd : d = 53 + s) by lia.
    assert (2 ^ 52 * 2 ^ s = 2 ^ (d - 1)) by (rewrite <- Z.pow_add_r by lia; f_equal; lia).
    assert (E4 : 2 ^ (s + 2) = 4 * 2 ^ s) by (rewrite Z.pow_add_r by lia; change (2 ^ 2) with 4; lia).
    assert (0 < 2 ^ s) by lia.
    assert (2 ^ 52 <= N / 2 ^ (s + 2)) by (rewrite E4; apply Z.div_le_lower_bound; lia).
    pose proof (rne_bounds N (s + 2) ltac:(lia)). lia. }
  destruct (rne N (s + 2)) as [|m|m] eqn:Em; [| |lia].
  { assert (shr_fexp 53 1024 0 ez' loc_Exact = ({| shr_m := 0; shr_r := false; shr_s := false |}, ez')) as ->.
    { unfold shr_fexp. cbn [Zdigits2 shr_record_of_loc]. rewrite fexp_unfold.
      destruct (Z.max (0 + ez' - 53) (-1074) - ez') eqn:E; try done. lia. }
    cbn [shr_m]. split; [done|]. split; [done|]. rewrite Z.mul_0_l, clamp_small0. by destruct sx. }
  pose proof (digits2_pos_bound m) as Hbm.
  destruct (Z.eq_dec (Zpos m) (2 ^ 53)) as [E53|E53].
  - rewrite E53, (shr_fexp_carry ez') by lia. cbn [shr_m].
    change (if ez' + 1 <=? _ then _ else _) with (pack sx (2 ^ 52) (ez' + 1)).
    destruct (pack_spec sx (2 ^ 52) (ez' + 1)) as (V & Nn & F); [lia| |].
    { rewrite fexp_unfold. change (Zpos (digits2_pos (2 ^ 52))) with 53. lia. }
    split; [exact V|]. split; [exact Nn|]. rewrite F. do 2 f_equal.
    replace (ez' + 1 + 1074) with (1 + (ez' + 1074)) by lia. rewrite (Z.pow_add_r 2 1) by lia.
    change (Zpos (2 ^ 52)) with (2 ^ 52). change (2 ^ 53) with (2 ^ 52 * 2 ^ 1). ring.
  - assert (Hdm : Zpos (digits2_pos m) <= 53).
    { destruct (Z.le_gt_cases (Zpos (digits2_pos m)) 53); [lia|].
      assert (2 ^ 53 <= 2 ^ (Zpos (digits2_pos m) - 1)) by (apply Z.pow_le_mono_r; lia). lia. }
    rewrite shr_fexp_exact; [|lia|cbn [bits]; rewrite fexp_unfold; lia].
    cbn [shr_m]. change (if ez' <=? _ then _ else _) with (pack sx m ez').
    destruct (pack_spec sx m ez') as (V & Nn & F); [lia| |done].
    rewrite fexp_unfold.
    destruct (Z.lt_ge_cases (Zpos m) (2 ^ 52)) as [H52|H52].
    + rewrite (Hsub H52). lia.
    + rewrite (digits_unique m 53); [lia|lia|]. change (53 - 1) with 52. lia.
Qed.

Lemma round_aux_spec sx n e : 0 < n -> e <= fx (bits n + e) ->
  let ez := fx (bits n + e) in
  let r := binary_round_aux 53 1024 sx n e loc_Exact in
  valid r = true /\ is_nan r = false /\
  fval r = sgn sx (clamp (rne n (ez - e) * 2 ^ (ez + 1074))).
Proof.
  intros Hn Hez ez r. destruct (round_aux_loc_spec sx n e loc_Exact ltac:(lia) Hez) as (V & N & F).
  split; [done|]. split; [done|]. unfold r. rewrite F. fold ez. cbn [loc_code].
  replace (4 * n + 0) with (n * 2 ^ 2) by (change (2 ^ 2) with 4; lia).
  rewrite rne_scale by (unfold ez; lia). done.
Qed.

Lemma pos_iter_xO p d : Zpos (Pos.iter xO p d) = Zpos p * 2 ^ Zpos d.
Proof.
  induction d as [|d IH] using Pos.peano_ind; [cbn; lia|].
  rewrite Pos.iter_succ, Pos2Z.inj_succ, Z.pow_succ_r by lia. 
  rewrite Pos2Z.inj_xO, IH. lia.
Qed.

Lemma shl_align_spec m e e' : 
  Zpos (fst (shl_align m e e')) * 2 ^ (e' - e') = Zpos m * 2 ^ Z.max 0 (e - e') /\
  snd (shl_align m e e') = Z.min e e'.
Proof.
  rewrite Z.sub_diag. unfold shl_align. destruct (e' - e) eqn:E; cbn [fst snd].
  - rewrite Z.max_l by lia. split; lia.
  - rewrite Z.max_l by lia. split; lia.
  - rewrite pos_iter_xO. rewrite Z.max_r by lia. replace (e - e') with (Zpos p) by lia. split; lia.
Qed.

Lemma bits_shift p j : 0 <= j -> bits (Zpos p * 2 ^ j) = bits (Zpos p) + j.
Proof.
  intros Hj. pose proof (digits2_pos_bound p) as Hb.
  assert (0 < 2 ^ j) by lia.
  destruct (Zpos p * 2 ^ j) as [|q|q] eqn:Eq; [lia| |lia]. cbn [bits].
  apply digits_unique; [lia|]. rewrite <- Eq.
  replace (Zpos (digits2_pos p) + j - 1) with ((Zpos (digits2_pos p) - 1) + j) by lia.
  rewrite !Z.pow_add_r by lia. nia.
Qed.

Lemma binary_round_spec sx p e : -1074 <= e ->
  let r := binary_round 53 1024 sx p e in
  valid r = true /\ is_nan r = false /\
  fval r = sgn sx (clamp (rnd_pos (Zpos p * 2 ^ (e + 1074)))).
Proof.
  intros He r. subst r. unfold binary_round.
  set (d := Zpos (digits2_pos p)). set (ez := fx (d + e)).
  destruct (shl_align_spec p e ez) as [Hm Hs].
  destruct (shl_align p e ez) as [mz e0]. cbn [fst snd] in *. subst e0.
  rewrite Z.sub_diag, Z.mul_1_r in Hm.
  assert (Hbits : bits (Zpos mz) = d + Z.max 0 (e - ez)) by (rewrite Hm; apply bits_shift; lia).
  assert (Hez : fx (bits (Zpos mz) + Z.min e ez) = ez).
  { rewrite Hbits. unfold ez. rewrite !fexp_unfold. lia. }
  destruct (round_aux_spec sx (Zpos mz) (Z.min e ez)) as (V & N & F).
  { lia. } { rewrite Hez. lia. }
  split; [done|]. split; [done|]. rewrite F, Hez. do 2 f_equal.
  unfold rnd_pos, ulpx. rewrite bits_shift by lia. cbn [bits]. fold d.
  assert (Hu : Z.max 0 (d + (e + 1074) - 53) = ez + 1074) by (unfold ez; rewrite fexp_unfold; lia).
  rewrite Hu. f_equal. rewrite Hm.
  destruct (Z.le_gt_cases e ez).
  - rewrite Z.max_l, Z.min_l by lia. rewrite Z.pow_0_r, Z.mul_1_r.
    replace (ez + 1074) with ((ez - e) + (e + 1074)) by lia. rewrite rne_scale by (unfold ez in *; lia). done.
  - rewrite Z.max_r, Z.min_r by lia. rewrite Z.sub_diag.
    assert (0 <= ez + 1074) by (unfold ez; rewrite fexp_unfold; lia).
    replace (e + 1074) with ((e - ez) + (ez + 1074)) by lia. rewrite Z.pow_add_r by lia.
    rewrite Z.mul_assoc. pose proof (rne_scale (Zpos p * 2 ^ (e - ez)) 0 (ez + 1074)) as Hsc.
    rewrite Z.add_0_l in Hsc. rewrite Hsc by lia. done.
Qed.

(** ** Order *)
Definition num (x : float) : Prop := valid x = true /\ is_nan x = false.
Definition fin (x : float) : Prop := valid x = true /\ isfinite x = true.

Lemma fin_num x : fin x -> num x.
Proof. intros [? ?]; split; [done|]. by destruct x. Qed.

Lemma finite_bound s m e : valid (S754_finite s m e) = true ->
  0 < Zpos m * 2 ^ (e + 1074) < fval_max /\ -1074 <= e /\ Zpos m < 2 ^ 53 /\ (-1074 < e -> 2 ^ 52 <= Zpos m).
Proof.
  intros Hv. apply valid_finite_inv in Hv as (Hc & H1 & H2).
  rewrite fexp_unfold in Hc. pose proof (digits2_pos_bound m) as Hb.
  assert (Hm : Zpos m < 2 ^ 53).
  { assert (2 ^ Zpos (digits2_pos m) <= 2 ^ 53) by (apply Z.pow_le_mono_r; lia). lia. }
  assert (0 < 2 ^ (e + 1074)) by lia.
  split_and!; [lia| |lia|lia|].
  - unfold fval_max. replace 2098 with (53 + 2045) by lia. rewrite (Z.pow_add_r 2 53 2045) by lia.
    assert (2 ^ (e + 1074) <= 2 ^ 2045) by (apply Z.pow_le_mono_r; lia). nia.
  - intros He. assert (2 ^ 52 <= 2 ^ (Zpos (digits2_pos m) - 1)) by (apply Z.pow_le_mono_r; lia). lia.
Qed.

#[global] Opaque fval_max fval_big.

Lemma compare_finite_pos m1 e1 m2 e2 :
  valid (S754_finite false m1 e1) = true -> valid (S754_finite false m2 e2) = true ->
  (match Z.compare e1 e2 with Lt => Lt | Gt => Gt | Eq => Pos.compare_cont Eq m1 m2 end)
  = (Zpos m1 * 2 ^ (e1 + 1074) ?= Zpos m2 * 2 ^ (e2 + 1074)).
Proof.
  intros (_ & L1 & M1 & N1)%finite_bound (_ & L2 & M2 & N2)%finite_bound.
  assert (A : forall m m' a b, -1074 <= a -> a < b -> Zpos m < 2 ^ 53 -> 2 ^ 52 <= Zpos m' ->
    Zpos m * 2 ^ (a + 1074) < Zpos m' * 2 ^ (b + 1074)).
  { intros m m' a b Ha Hab Hm Hm'. replace (b + 1074) with ((b - a - 1) + 1 + (a + 1074)) by lia.
    rewrite (Z.pow_add_r 2 (b - a - 1 + 1)), (Z.pow_add_r 2 (b - a - 1) 1) by lia.
    assert (0 < 2 ^ (a + 1074)) by lia.
    assert (0 < 2 ^ (b - a - 1)) by lia. change (2 ^ 1) with 2.
    set (P := 2 ^ (a + 1074)) in *. set (X := 2 ^ (b - a - 1)) in *.
    assert (Zpos m < Zpos m' * 2) by lia. assert (Zpos m' * 2 <= Zpos m' * (X * 2)) by nia. nia. }
  destruct (Z.compare_spec e1 e2) as [->|H|H].
  - assert (0 < 2 ^ (e2 + 1074)) by lia. change (Pos.compare_cont Eq m1 m2) with (Pos.compare m1 m2).
    symmetry. destruct (Pos.compare_spec m1 m2) as [->|H'|H'].
    + apply Z.compare_refl. + apply Z.compare_lt_iff. nia. + apply Z.compare_gt_iff. nia.
  - symmetry. apply Z.compare_lt_iff. apply A; auto with lia.
  - symmetry. apply Z.compare_gt_iff. apply A; auto with lia.
Qed.

Lemma valid_sign s s' m e : valid (S754_finite s m e) = valid (S754_finite s' m e).
Proof. done. Qed.

Lemma SFcompare_val x y : num x -> num y -> SFcompare x y = Some (fval x ?= fval y).
Proof.
  intros [Vx Nx] [Vy Ny]. pose proof fval_max_big as HB. pose proof Vx as Wx. pose proof Vy as Wy.
  destruct x as [sx|sx| |sx mx ex]; [| |done|];
  destruct y as [sy|sy| |sy my ey]; try done; cbn [SFcompare fval sgn];
  try (apply finite_bound in Vx as (Bx & _)); try (apply finite_bound in Vy as (By & _)).
  all: try (destruct sx); try (destruct sy); cbn [sgn]; f_equal;
    try (symmetry; first [apply Z.compare_eq_iff; lia | apply Z.compare_lt_iff; lia | apply Z.compare_gt_iff; lia]).
  - rewrite Z.compare_opp, <- compare_finite_pos by assumption.
    change (Pos.compare_cont Eq my mx) with (Pos.compare my mx).
    change (Pos.compare_cont Eq mx my) with (Pos.compare mx my).
    rewrite (Z.compare_antisym ey ex), (Pos.compare_antisym my mx). by destruct (ey ?= ex); [destruct (Pos.compare my mx)| |].
  - by rewrite <- compare_finite_pos.
Qed.

Lemma num_finite s m e : valid (S754_finite s m e) = true -> num (S754_finite s m e).
Proof. done. Qed.

Lemma rnd_representable s m e : valid (S754_finite s m e) = true ->
  rnd_pos (Zpos m * 2 ^ (e + 1074)) = Zpos m * 2 ^ (e + 1074).
Proof.
  intros (Hc & H1 & H2)%valid_finite_inv. rewrite fexp_unfold in Hc.
  unfold rnd_pos, ulpx. rewrite bits_shift by lia. cbn [bits].
  replace (Z.max 0 (Zpos (digits2_pos m) + (e + 1074) - 53)) with (0 + (e + 1074)) by lia.
  rewrite rne_scale by lia. rewrite Z.add_0_l.
  rewrite rne_exact by (try lia; apply Z.mod_1_r). by rewrite Z.pow_0_r, Z.div_1_r.
Qed.

Lemma clamp_small n : - fval_max < n < fval_max -> clamp n = n.
Proof.
  intros Hn. unfold clamp.
  repeat match goal with |- context [?x <=? ?y] => destruct (Z.leb_spec x y) end; lia.
Qed.

Lemma clamp_opp n : clamp (- n) = - clamp n.
Proof.
  pose proof fval_max_big. unfold clamp.
  repeat match goal with |- context [?x <=? ?y] => destruct (Z.leb_spec x y) end; lia.
Qed.

Lemma rnd_sgn s n : 0 <= n -> rnd (sgn s n) = sgn s (rnd_pos n).
Proof.
  intros Hn. destruct s; cbn [sgn]; [rewrite rnd_opp; f_equal|];
    unfold rnd; destruct (Z.ltb_spec n 0); (done || lia).
Qed.

Lemma clamp_sgn s n : clamp (sgn s n) = sgn s (clamp n).
Proof. destruct s; [apply clamp_opp|done]. Qed.

(* every finite value is a fixed point of rounding *)
Lemma rnd_fval x : fin x -> clamp (rnd (fval x)) = fval x.
Proof.
  pose proof fval_max_big.
  intros [V F]. destruct x as [s|s| |s m e]; [|discriminate F|discriminate F|].
  { change (clamp 0 = 0). apply clamp_small. lia. }
  cbn [fval]. apply finite_bound in V as Hb. destruct Hb as (Hb & _).
  rewrite (rnd_sgn s (Zpos m * 2 ^ (e + 1074))) by lia. rewrite (clamp_sgn s). f_equal.
  rewrite (rnd_representable s m e) by exact V. apply clamp_small. lia.
Qed.

Lemma normalize_spec n e z : -1074 <= e ->
  let r := binary_normalize 53 1024 n e z in
  num r /\ fval r = clamp (rnd (n * 2 ^ (e + 1074))).
Proof.
  intros He r. subst r. pose proof fval_max_big.
  assert (0 < 2 ^ (e + 1074)) by lia.
  destruct n as [|p|p]; cbn [binary_normalize].
  - split; [done|]. rewrite Z.mul_0_l. symmetry. change (clamp 0 = 0). apply clamp_small. lia.
  - destruct (binary_round_spec false p e He) as (V & N & F). split; [done|].
    rewrite F. cbn [sgn]. f_equal. symmetry.
    exact (rnd_sgn false (Zpos p * 2 ^ (e + 1074)) ltac:(lia)).
  - destruct (binary_round_spec true p e He) as (V & N & F). split; [done|].
    rewrite F, <- clamp_sgn. f_equal. change (Z.neg p) with (- Z.pos p).
    rewrite Z.mul_opp_l. symmetry.
    exact (rnd_sgn true (Zpos p * 2 ^ (e + 1074)) ltac:(lia)).
Qed.

Lemma fval_opp x : fval (SFopp x) = - fval x.
Proof. destruct x as [s|[]| |[] m e]; cbn; lia. Qed.

Lemma fin_opp x : fin x -> fin (SFopp x).
Proof. intros [V F]; split; by destruct x. Qed.

Lemma fval_finite_align s m e ez : -1074 <= ez -> ez <= e ->
  fval (S754_finite s m e) = cond_Zopp s (Zpos (fst (shl_align m e ez))) * 2 ^ (ez + 1074).
Proof.
  intros H1 H2. destruct (shl_align_spec m e ez) as [E _].
  rewrite Z.sub_diag, Z.pow_0_r, Z.mul_1_r in E. rewrite E.
  rewrite Z.max_r by lia. cbn [fval].
  replace (e + 1074) with ((e - ez) + (ez + 1074)) by lia.
  rewrite (Z.pow_add_r 2 (e - ez)) by lia. destruct s; cbn [sgn cond_Zopp]; ring.
Qed.

Definition fadd (x y : float) : float := SFadd 53 1024 x y.
Definition fsub (x y : float) : float := SFsub 53 1024 x y.
Definition fmul (x y : float) : float := SFmul 53 1024 x y.

Lemma fadd_spec x y : fin x -> fin y ->
  num (fadd x y) /\ fval (fadd x y) = clamp (rnd (fval x + fval y)).
Proof.
  intros Fx Fy. pose proof (rnd_fval x Fx) as Rx. pose proof (rnd_fval y Fy) as Ry.
  pose proof (fin_num x Fx). pose proof (fin_num y Fy).
  destruct Fx as [Vx Nx], Fy as [Vy Ny]. unfold fadd.
  destruct x as [sx|sx| |sx mx ex]; [|discriminate Nx|discriminate Nx|];
  destruct y as [sy|sy| |sy my ey]; try discriminate Ny; cbn [SFadd].
  - split; [by destruct sx, sy|]. destruct sx, sy; symmetry; change (clamp 0 = 0); apply clamp_small; pose proof fval_max_big; lia.
  - split; [assumption|]. symmetry. exact Ry.
  - split; [assumption|]. change (fval (S754_zero _)) with 0. rewrite Z.add_0_r. by symmetry.
  - pose proof (finite_bound _ _ _ Vx) as (_ & Lx & _). pose proof (finite_bound _ _ _ Vy) as (_ & Ly & _).
    rewrite (fval_finite_align sx mx ex (Z.min ex ey)), (fval_finite_align sy my ey (Z.min ex ey)) by lia.
    rewrite <- Z.mul_add_distr_r. apply normalize_spec. lia.
Qed.

Lemma fsub_spec x y : fin x -> fin y ->
  num (fsub x y) /\ fval (fsub x y) = clamp (rnd (fval x - fval y)).
Proof.
  intros Fx Fy. pose proof (rnd_fval x Fx) as Rx. pose proof (rnd_fval _ (fin_opp y Fy)) as Ry.
  pose proof (fin_num x Fx). pose proof (fin_num _ (fin_opp y Fy)). rewrite fval_opp in Ry.
  destruct Fx as [Vx Nx], Fy as [Vy Ny]. unfold fsub.
  destruct x as [sx|sx| |sx mx ex]; [|discriminate Nx|discriminate Nx|];
  destruct y as [sy|sy| |sy my ey]; try discriminate Ny; cbn [SFsub].
  - split; [by destruct sx, sy|]. destruct sx, sy; symmetry; change (clamp 0 = 0); apply clamp_small; pose proof fval_max_big; lia.
  - split; [done|].
    change (fval (SFopp (S754_finite sy my ey)) = clamp (rnd (0 - fval (S754_finite sy my ey)))).
    rewrite (fval_opp (S754_finite sy my ey)). symmetry. exact Ry.
  - split; [assumption|]. change (fval (S754_zero _)) with 0. rewrite Z.sub_0_r. by symmetry.
  - pose proof (finite_bound _ _ _ Vx) as (_ & Lx & _). pose proof (finite_bound _ _ _ Vy) as (_ & Ly & _).
    rewrite (fval_finite_align sx mx ex (Z.min ex ey)), (fval_finite_align sy my ey (Z.min ex ey)) by lia.
    rewrite <- Z.mul_sub_distr_r. apply normalize_spec. lia.
Qed.

(** ** Python's view: comparison, min/max, division, conversions *)

Definition flt (x y : float) : bool := SFltb x y.
Definition fle (x y : float) : bool := SFleb x y.
Definition feq (x y : float) : bool := SFeqb x y.
Definition fabs (x : float) : float := SFabs x.
Definition fneg (x : float) : float := SFopp x.
Definition f0 : float := S754_zero false.

(** [max(a, b)] keeps [a] unless [b > a]; [min(a, b)] keeps [a] unless [b < a]. *)
Definition fmax (a b : float) : float := if flt a b then b else a.
Definition fmin (a b : float) : float := if flt b a then b else a.

(** [float / float]: [None] is [ZeroDivisionError]. *)
Definition fdiv (x y : float) : option float :=
  if feq y f0 then None else Some (SFdiv 53 1024 x y).

(** [float(n)] for an [int]: correctly rounded, [None] is [OverflowError]. *)
Definition of_Z (n : Z) : option float :=
  match binary_normalize 53 1024 n 0 false with
  | S754_infinity _ => None
  | x => Some x
  end.

(** A decimal literal [n / 10^k] of the source: both operands are exact for the
    literals used, so one correctly rounded division is the nearest double. *)
Definition flit (n : Z) (k : Z) : float :=
  SFdiv 53 1024 (binary_normalize 53 1024 n 0 false) (binary_normalize 53 1024 (10 ^ k) 0 false).

(** [math.floor]: [None] for NaN and infinities, where Python raises. *)
Definition ffloor (x : float) : option Z :=
  match x with
  | S754_zero _ => Some 0
  | S754_finite s m e =>
      Some (if 0 <=? e then sgn s (Zpos m * 2 ^ e) else sgn s (Zpos m) / 2 ^ (- e))
  | _ => None
  end.

Lemma flt_val x y : num x -> num y -> flt x y = (fval x <? fval y).
Proof.
  intros Hx Hy. unfold flt, SFltb. rewrite SFcompare_val by done.
  unfold Z.ltb. by destruct (fval x ?= fval y).
Qed.
Lemma fle_val x y : num x -> num y -> fle x y = (fval x <=? fval y).
Proof.
  intros Hx Hy. unfold fle, SFleb. rewrite SFcompare_val by done.
  unfold Z.leb. by destruct (fval x ?= fval y).
Qed.
Lemma feq_val x y : num x -> num y -> feq x y = (fval x =? fval y).
Proof.
  intros Hx Hy. unfold feq, SFeqb. rewrite SFcompare_val by done.
  rewrite Z.eqb_compare. by destruct (fval x ?= fval y).
Qed.

Lemma fin_f0 : fin f0.  Proof. done. Qed.
Lemma fval_f0 : fval f0 = 0.  Proof. done. Qed.

Lemma num_fmax x y : num x -> num y -> num (fmax x y).
Proof. unfold fmax. by destruct (flt x y). Qed.
Lemma num_fmin x y : num x -> num y -> num (fmin x y).
Proof. unfold fmin. by destruct (flt y x). Qed.
Lemma fin_fmax x y : fin x -> fin y -> fin (fmax x y).
Proof. unfold fmax. by destruct (flt x y). Qed.
Lemma fin_fmin x y : fin x -> fin y -> fin (fmin x y).
Proof. unfold fmin. by destruct (flt y x). Qed.
Lemma num_fadd x y : fin x -> fin y -> num (fadd x y).
Proof. intros; by apply fadd_spec. Qed.
Lemma num_fsub x y : fin x -> fin y -> num (fsub x y).
Proof. intros; by apply fsub_spec. Qed.
Lemma num_fabs x : num x -> num (fabs x).
Proof. intros [V N]. by destruct x. Qed.
Lemma fin_fabs x : fin x -> fin (fabs x).
Proof. intros [V N]. by destruct x. Qed.

Create HintDb fl.
#[export] Hint Resolve fin_num fin_f0 num_fmax num_fmin fin_fmax fin_fmin num_fadd num_fsub
  num_fabs fin_fabs fin_opp : fl.

Lemma fval_fmax x y : num x -> num y -> fval (fmax x y) = Z.max (fval x) (fval y).
Proof. intros. unfold fmax. rewrite flt_val by done. destruct (Z.ltb_spec (fval x) (fval y)); lia. Qed.
Lemma fval_fmin x y : num x -> num y -> fval (fmin x y) = Z.min (fval x) (fval y).
Proof. intros. unfold fmin. rewrite flt_val by done. destruct (Z.ltb_spec (fval y) (fval x)); lia. Qed.
Lemma fval_fabs x : fval (fabs x) = Z.abs (fval x).
Proof.
  pose proof fval_max_big.
  destruct x as [s|s| |s m e]; [done| |done|].
  - destruct s; cbn [fabs SFabs fval sgn]; lia.
  - assert (0 <= Zpos m * 2 ^ (e + 1074)).
    { assert (0 <= 2 ^ (e + 1074)) by (apply Z.pow_nonneg; lia). lia. }
    destruct s; cbn [fabs SFabs fval sgn]; lia.
Qed.

(** Turns every comparison of floats in the goal and context into integer
    comparison of the exact values; [num] side conditions go to the hint base. *)
Ltac fcmp :=
  repeat first
    [ rewrite flt_val in * by eauto 6 with fl
    | rewrite fle_val in * by eauto 6 with fl
    | rewrite feq_val in * by eauto 6 with fl
    | rewrite fval_fmax in * by eauto 6 with fl
    | rewrite fval_fmin in * by eauto 6 with fl ];
  rewrite ?fval_fabs, ?fval_f0 in *;
  rewrite ?Z.ltb_lt, ?Z.leb_le, ?Z.eqb_eq, ?Z.ltb_ge, ?Z.leb_gt, ?Z.eqb_neq in *.

(** Sign of a rounded value. *)
Lemma clamp_rnd_sgn n : Z.sgn (clamp (rnd n)) = Z.sgn n.
Proof.
  assert (P : forall p, 0 < clamp (rnd (Zpos p))).
  { intros p. pose proof (rnd_pos_bounds p) as [H _]. pose proof fval_max_big.
    assert (0 < 2 ^ (bits (Zpos p) - 1)) by (apply Z.pow_pos_nonneg; cbn; lia).
    change (rnd (Zpos p)) with (rnd_pos (Zpos p)). unfold clamp.
    repeat match goal with |- context [?x <=? ?y] => destruct (Z.leb_spec x y) end; lia. }
  destruct n as [|p|p].
  - change (rnd 0) with 0. rewrite clamp_small; [done|]. pose proof fval_max_big. lia.
  - pose proof (P p). lia.
  - pose proof (P p). change (Zneg p) with (- Zpos p). rewrite rnd_opp, clamp_opp. lia.
Qed.

Lemma fsub_sgn x y : fin x -> fin y -> Z.sgn (fval (fsub x y)) = Z.sgn (fval x - fval y).
Proof. intros Fx Fy. destruct (fsub_spec x y Fx Fy) as [_ ->]. apply clamp_rnd_sgn. Qed.

Lemma fsub_mono a b c d : fin a -> fin b -> fin c -> fin d ->
  fval a <= fval b -> fval d <= fval c -> fval (fsub a c) <= fval (fsub b d).
Proof.
  intros Fa Fb Fc Fd H1 H2.
  destruct (fsub_spec a c Fa Fc) as [_ ->]. destruct (fsub_spec b d Fb Fd) as [_ ->].
  apply clamp_mono, rnd_mono. lia.
Qed.

Lemma fadd_mono a b c d : fin a -> fin b -> fin c -> fin d ->
  fval a <= fval b -> fval c <= fval d -> fval (fadd a c) <= fval (fadd b d).
Proof.
  intros Fa Fb Fc Fd H1 H2.
  destruct (fadd_spec a c Fa Fc) as [_ ->]. destruct (fadd_spec b d Fb Fd) as [_ ->].
  apply clamp_mono, rnd_mono. lia.
Qed.

(** Subtracting a nonnegative number never increases the value. *)
Lemma fsub_le_self a c : fin a -> fin c -> 0 <= fval c -> fval (fsub a c) <= fval a.
Proof.
  intros Fa Fc Hc. destruct (fsub_spec a c Fa Fc) as [_ ->].
  rewrite <- (rnd_fval a Fa) at 2. apply clamp_mono, rnd_mono. lia.
Qed.

Lemma fsub_diag x : fin x -> fval (fsub x x) = 0.
Proof.
  intros F. pose proof (fsub_sgn x x F F) as H. rewrite Z.sub_diag in H.
  destruct (fval (fsub x x)); done.
Qed.

(** The difference of two nonnegative finite floats is finite. *)
Lemma num_fin x : num x -> - fval_max < fval x < fval_max -> fin x.
Proof.
  intros [V N] H. split; [done|]. destruct x as [s|s| |s m e]; try done.
  pose proof fval_max_big. destruct s; cbn [fval sgn] in H; lia.
Qed.

Lemma fin_bound x : fin x -> - fval_max < fval x < fval_max.
Proof.
  pose proof fval_max_big. intros [V N]. destruct x as [s|s| |s m e]; [cbn; lia|discriminate N|discriminate N|].
  apply finite_bound in V as [B _]. destruct s; cbn [fval sgn]; lia.
Qed.

Lemma fin_fsub_nonneg x y : fin x -> fin y -> 0 <= fval y -> fval y <= fval x -> fin (fsub x y).
Proof.
  intros Fx Fy Hy Hxy. apply num_fin; [eauto with fl|].
  pose proof (fin_bound x Fx). pose proof (fsub_le_self x y Fx Fy Hy).
  pose proof (fsub_sgn x y Fx Fy). pose proof fval_max_big. lia.
Qed.

(** ** Multiplication

    [fval x * fval y] is the exact product scaled by [2^2148]; [rmul] rounds it to the
    grid of the result. *)
Definition rmul (n : Z) : Z := let u := Z.max 1074 (bits n - 53) in rne n u * 2 ^ (u - 1074).

Lemma rmul_scale n : 0 <= n -> rmul (n * 2 ^ 1074) = rnd_pos n.
Proof.
  intros Hn. unfold rmul, rnd_pos, ulpx. destruct n as [|p|p]; [| |lia].
  - rewrite Z.mul_0_l. cbn [bits]. rewrite !rne_exact by (lia || apply Z.mod_0_l; lia).
    rewrite !Z.div_0_l by lia. reflexivity.
  - rewrite bits_shift by lia. cbn [bits].
    replace (Z.max 1074 (Zpos (digits2_pos p) + 1074 - 53)) with (Z.max 0 (Zpos (digits2_pos p) - 53) + 1074) by lia.
    rewrite rne_scale by lia. f_equal. f_equal. lia.
Qed.

Lemma rmul_mono a b : 0 <= a -> a <= b -> rmul a <= rmul b.
Proof.
  intros Ha Hab. pose proof (bits_mono a b Ha Hab) as Hb. unfold rmul.
  set (u := Z.max 1074 (bits a - 53)). set (v := Z.max 1074 (bits b - 53)).
  assert (0 < 2 ^ (u - 1074)) by (apply Z.pow_pos_nonneg; lia).
  destruct (Z.eq_dec u v) as [<-|E].
  - apply Z.mul_le_mono_nonneg_r; [lia|]. apply rne_mono; [lia|done].
  - destruct b as [|b|b]; [cbn in *; lia| |lia]. destruct a as [|a|a]; [| |lia].
    { assert (rne 0 u = 0) as -> by (rewrite rne_exact by (lia || apply Z.mod_0_l; lia); apply Z.div_0_l; lia).
      pose proof (rne_bounds (Zpos b) v ltac:(lia)).
      assert (0 <= Zpos b / 2 ^ v) by (apply Z.div_pos; lia).
      assert (0 < 2 ^ (v - 1074)) by (apply Z.pow_pos_nonneg; lia). nia. }
    assert (Hv : v = bits (Zpos b) - 53) by lia.
    destruct (rne_pow_bounds (Zpos b) v (bits (Zpos b))) as [L _]; [lia..| |].
    { apply digits2_pos_bound. }
    assert (U : rne (Zpos a) u * 2 ^ u <= 2 ^ (v + 52)).
    { pose proof (digits2_pos_bound a) as Bd. assert (Hu : u = Z.max 1074 (Zpos (digits2_pos a) - 53)) by done. clearbody u.
      assert (Hr : 0 <= rne (Zpos a) u <= 2 ^ 53) by (apply (rne_53_bits _ (Zpos (digits2_pos a))); lia).
      assert (2 ^ 53 * 2 ^ u <= 2 ^ (v + 52)).
      { rewrite <- Z.pow_add_r by lia. apply Z.pow_le_mono_r; [lia|]. change (bits (Zpos a)) with (Zpos (digits2_pos a)) in *. lia. }
      assert (0 < 2 ^ u) by lia. nia. }
    replace (bits (Zpos b) - 1) with (v + 52) in L by lia.
    apply (Z.mul_le_mono_pos_r _ _ (2 ^ 1074)); [lia|].
    rewrite <- !Z.mul_assoc, <- !Z.pow_add_r by lia.
    replace (u - 1074 + 1074) with u by lia. replace (v - 1074 + 1074) with v by lia. lia.
Qed.

Lemma rmul_nonneg n : 0 <= n -> 0 <= rmul n.
Proof.
  intros H. transitivity (rmul 0); [|by apply rmul_mono]. reflexivity.
Qed.

Lemma bits_mul_ge p q : bits (Zpos p) <= bits (Zpos (p * q)).
Proof. apply bits_mono; [lia|]. rewrite Pos2Z.inj_mul. pose proof (Pos2Z.is_pos p). pose proof (Pos2Z.is_pos q). nia. Qed.

Definition is_neg (x : float) : bool :=
  match x with S754_zero s | S754_infinity s | S754_finite s _ _ => s | S754_nan => false end.

Lemma fval_sgn x : fval x = sgn (is_neg x) (Z.abs (fval x)).
Proof.
  pose proof fval_max_big. destruct x as [[]|[]| |[] m e]; cbn [fval is_neg sgn]; try lia.
  all: assert (0 <= Zpos m * 2 ^ (e + 1074)) by (assert (0 <= 2 ^ (e + 1074)) by (apply Z.pow_nonneg; lia); lia); lia.
Qed.

Lemma fmul_spec x y : fin x -> fin y ->
  num (fmul x y) /\
  fval (fmul x y) = sgn (xorb (is_neg x) (is_neg y)) (clamp (rmul (Z.abs (fval x * fval y)))).
Proof.
  intros [Vx Nx] [Vy Ny]. unfold fmul.
  assert (Z0 : forall s, sgn s (clamp (rmul 0)) = 0).
  { intros s. change (rmul 0) with 0. rewrite clamp_small0. by destruct s. }
  destruct x as [sx|sx| |sx mx ex]; try discriminate Nx;
  destruct y as [sy|sy| |sy my ey]; try discriminate Ny; cbn [SFmul is_neg];
    try (split; [done|]; change (fval (S754_zero _)) with 0;
         rewrite ?Z.mul_0_r, ?Z.mul_0_l; symmetry; apply Z0).
  pose proof (valid_finite_inv _ _ _ Vx) as (Cx & _ & Lx).
  pose proof (valid_finite_inv _ _ _ Vy) as (Cy & _ & Ly). rewrite fexp_unfold in Cx, Cy.
  set (p := (mx * my)%positive). set (e := ex + ey).
  assert (B1 : bits (Zpos mx) <= bits (Zpos p)) by apply bits_mul_ge.
  assert (B2 : bits (Zpos my) <= bits (Zpos p)) by (unfold p; rewrite Pos.mul_comm; apply bits_mul_ge).
  cbn [bits] in B1, B2.
  assert (He : e <= fx (bits (Zpos p) + e)) by (rewrite fexp_unfold; cbn [bits]; unfold e; lia).
  destruct (round_aux_spec (xorb sx sy) (Zpos p) e ltac:(lia) He) as (V & N & F).
  split; [done|]. rewrite F. do 2 f_equal.
  assert (Z.abs (fval (S754_finite sx mx ex) * fval (S754_finite sy my ey)) = Zpos p * 2 ^ (e + 2148)) as ->.
  { cbn [fval]. rewrite Z.abs_mul.
    assert (A : forall s m k, -1074 <= k -> Z.abs (sgn s (Zpos m * 2 ^ (k + 1074))) = Zpos m * 2 ^ (k + 1074)).
    { intros s m k Hk. assert (0 < 2 ^ (k + 1074)) by (apply Z.pow_pos_nonneg; lia). destruct s; cbn [sgn]; lia. }
    rewrite !A by lia. unfold p, e. replace (ex + ey + 2148) with ((ex + 1074) + (ey + 1074)) by lia.
    rewrite (Z.pow_add_r 2 (ex + 1074)) by lia. rewrite Pos2Z.inj_mul. ring. }
  unfold rmul. rewrite bits_shift by (unfold e; lia). cbn [bits] in *.
  rewrite fexp_unfold in He |- *. set (d := Zpos (digits2_pos p)) in *. set (ez := Z.max (d + e - 53) (-1074)) in *.
  replace (Z.max 1074 (d + (e + 2148) - 53)) with ((ez - e) + (e + 2148)) by lia.
  rewrite rne_scale by lia. f_equal. f_equal. lia.
Qed.

(** A product bounded by a representable value rounds to at most that value. *)
Lemma fmul_abs_le x y b : fin x -> fin y -> 0 <= b < fval_max -> rnd_pos b = b ->
  Z.abs (fval x * fval y) <= b * 2 ^ 1074 -> Z.abs (fval (fmul x y)) <= b.
Proof.
  intros Fx Fy Hb Rb H. destruct (fmul_spec x y Fx Fy) as [_ ->].
  assert (R : rmul (Z.abs (fval x * fval y)) <= b).
  { rewrite <- Rb, <- rmul_scale by lia. apply rmul_mono; lia. }
  pose proof (rmul_nonneg (Z.abs (fval x * fval y)) ltac:(lia)).
  rewrite clamp_small by lia. destruct (xorb _ _); cbn [sgn]; lia.
Qed.

Lemma fin_fmul_bound x y b : fin x -> fin y -> 0 <= b < fval_max -> rnd_pos b = b ->
  Z.abs (fval x * fval y) <= b * 2 ^ 1074 -> fin (fmul x y).
Proof.
  intros Fx Fy Hb Rb H. pose proof (fmul_abs_le x y b Fx Fy Hb Rb H).
  apply num_fin; [by apply fmul_spec|lia].
Qed.

(** The product of two nonnegative floats is nonnegative. *)
Lemma fmul_nonneg x y : fin x -> fin y -> 0 <= fval x -> 0 <= fval y -> 0 <= fval (fmul x y).
Proof.
  intros Fx Fy Hx Hy. destruct (fmul_spec x y Fx Fy) as [_ ->].
  pose proof (rmul_nonneg (Z.abs (fval x * fval y)) ltac:(lia)) as Hr.
  pose proof (clamp_mono 0 _ Hr) as Hc. rewrite clamp_small0 in Hc.
  destruct (Z.eq_dec (fval x * fval y) 0) as [->|E]; [change (rmul (Z.abs 0)) with 0; rewrite clamp_small0; by destruct (xorb _ _)|].
  assert (is_neg x = false) as ->.
  { pose proof (fval_sgn x). destruct (is_neg x); [cbn [sgn] in *; lia|done]. }
  assert (is_neg y = false) as ->.
  { pose proof (fval_sgn y). destruct (is_neg y); [cbn [sgn] in *; lia|done]. }
  cbn [xorb sgn]. lia.
Qed.

(** ** Division *)
Definition one_val : Z := 2 ^ 1074.

Lemma new_location_code m r : 0 < m -> 0 <= r < m ->
  let k := loc_code (new_location m r) in
  (r = 0 -> k = 0) /\ (0 < r -> 1 <= k <= 3).
Proof.
  intros Hm Hr k. subst k. unfold new_location, new_location_even, new_location_odd.
  destruct (Z.eqb_spec r 0) as [->|]; [by destruct (Z.even m)|].
  split; [done|]. intros _.
  unfold loc_code. repeat case_match; simplify_eq; lia.
Qed.

Lemma div_core_spec m1 e1 m2 e2 : 0 < m1 -> 0 < m2 ->
  let '(q, e, l) := SFdiv_core_binary 53 1024 m1 e1 m2 e2 in
  0 <= q /\ e <= fx (bits q + e) /\ e <= e1 - e2 /\ e <= fx (bits m1 + e1 - (bits m2 + e2)) /\
  (forall B, 0 <= B -> m1 * 2 ^ (e1 - e2 - e) <= B * m2 -> 4 * q + loc_code l <= 4 * B /\ q <= B).
Proof.
  intros H1 H2. unfold SFdiv_core_binary. cbn zeta.
  replace (Zdigits2 m1) with (bits m1) by (destruct m1; done).
  replace (Zdigits2 m2) with (bits m2) by (destruct m2; done).
  set (e := Z.min (fx (bits m1 + e1 - (bits m2 + e2))) (e1 - e2)).
  set (s := e1 - e2 - e). assert (Hs : 0 <= s) by lia.
  assert ((match s with Z0 => m1 | Zpos _ => Z.shiftl m1 s | Zneg _ => 0 end) = m1 * 2 ^ s) as ->.
  { destruct s; [lia|apply Z.shiftl_mul_pow2; lia|lia]. }
  set (m' := m1 * 2 ^ s).
  assert (0 < m') by (unfold m'; assert (0 < 2 ^ s) by lia; lia).
  pose proof (Z.div_mod m' m2 ltac:(lia)) as Hdm. pose proof (Z.mod_pos_bound m' m2 ltac:(lia)) as Hr.
  unfold Z.div, Z.modulo in Hdm, Hr. destruct (Z.div_eucl m' m2) as [q r].
  assert (Hq : 0 <= q) by nia.
  destruct (new_location_code m2 r H2 Hr) as [L0 L1].
  split; [done|]. split; [|split; [lia|split; [lia|]]].
  2: { intros B HB HmB. change (m' <= B * m2) in HmB. destruct (Z.eq_dec r 0) as [->|Hr0].
       - rewrite L0 by done. assert (q <= B) by (apply (Z.mul_le_mono_pos_r _ _ m2); [done|]; lia). lia.
       - assert (q < B) by (apply (Z.mul_lt_mono_pos_r m2); lia). specialize (L1 ltac:(lia)). lia. }
  destruct m1 as [|p1|p1]; [lia| |lia]. destruct m2 as [|p2|p2]; [lia| |lia].
  assert (Hb' : bits (Zpos p1 * 2 ^ s) = bits (Zpos p1) + s) by (apply bits_shift; lia).
  pose proof (digits2_pos_bound p2) as B2. fold m' in Hb'.
  cbn [bits] in *. set (d1 := Zpos (digits2_pos p1)) in *. set (d2 := Zpos (digits2_pos p2)) in *.
  destruct m' as [|pm|pm] eqn:Em; [lia| |lia]. pose proof (digits2_pos_bound pm) as Bm. cbn [bits] in Hb'.
  rewrite Hb' in Bm. rewrite !fexp_unfold in *.
  assert (Ee : e = Z.min (Z.max (d1 + e1 - (d2 + e2) - 53) (-1074)) (e1 - e2)) by done.
  assert (Es : s = e1 - e2 - e) by done. clearbody e s.
  destruct (Z.le_gt_cases e (-1074)); [lia|].
  assert (Hd : d1 + s - d2 >= 53) by lia.
  assert (Hp0 : 0 <= 2 ^ (d1 + s - 1 - d2)) by (apply Z.pow_nonneg; lia).
  assert (Hql : 2 ^ (d1 + s - 1 - d2) <= q).
  { assert (E : 2 ^ (d1 + s - 1) = 2 ^ (d1 + s - 1 - d2) * 2 ^ d2) by (rewrite <- Z.pow_add_r by lia; f_equal; lia).
    apply Z.lt_succ_r. apply (Z.mul_lt_mono_pos_r (Zpos p2)); [lia|].
    apply Z.le_lt_trans with (Zpos pm); [|lia].
    transitivity (2 ^ (d1 + s - 1 - d2) * 2 ^ d2); [|lia].
    apply Z.mul_le_mono_nonneg_l; [apply Z.pow_nonneg; lia|lia]. }
  assert (d1 + s - d2 <= bits q).
  { pose proof (bits_mono _ _ Hp0 Hql) as Hm.
    pose proof (bits_shift 1 (d1 + s - 1 - d2) ltac:(lia)) as Hb1. rewrite Z.mul_1_l in Hb1.
    rewrite Hb1 in Hm. cbn [bits digits2_pos] in Hm. lia. }
  lia.
Qed.

Lemma sgn_abs s n : 0 <= n -> Z.abs (sgn s n) = n.
Proof. destruct s; cbn [sgn]; lia. Qed.

Lemma fdiv_spec x y : fin x -> fin y -> fval y <> 0 ->
  exists q, fdiv x y = Some q /\ num q /\
    fval q = sgn (xorb (is_neg x) (is_neg y)) (Z.abs (fval q)) /\
    (Z.abs (fval x) <= Z.abs (fval y) -> Z.abs (fval q) <= one_val).
Proof.
  intros Fx Fy Hy. unfold fdiv. rewrite feq_val by eauto with fl.
  change (fval f0) with 0. destruct (Z.eqb_spec (fval y) 0) as [|_]; [done|].
  eexists. split; [done|].
  destruct Fx as [Vx Nx], Fy as [Vy Ny].
  destruct y as [sy|sy| |sy my ey]; [done|discriminate Ny|discriminate Ny|].
  destruct x as [sx|sx| |sx mx ex]; [|discriminate Nx|discriminate Nx|].
  { cbn [SFdiv is_neg]. split; [done|]. split; [by destruct sx, sy|]. intros _. unfold one_val. cbn. lia. }
  cbn [SFdiv is_neg]. pose proof (div_core_spec (Zpos mx) ex (Zpos my) ey ltac:(lia) ltac:(lia)) as D.
  destruct (SFdiv_core_binary _ _ _ _ _ _) as [[q e] l]. destruct D as (Hq & He & He1 & He2 & HB).
  pose proof (loc_code_bounds l).
  destruct (round_aux_loc_spec (xorb sx sy) q e l Hq He) as (V & N & F).
  set (ez := fx (bits q + e)) in *.
  set (R := rne (4 * q + loc_code l) (ez - e + 2) * 2 ^ (ez + 1074)) in *.
  assert (Hez : -1074 <= ez) by (unfold ez; rewrite fexp_unfold; lia).
  assert (HR0 : 0 <= R).
  { unfold R. pose proof (rne_bounds (4 * q + loc_code l) (ez - e + 2) ltac:(lia)).
    assert (0 <= (4 * q + loc_code l) / 2 ^ (ez - e + 2)) by (apply Z.div_pos; lia).
    assert (0 < 2 ^ (ez + 1074)) by lia. nia. }
  pose proof (clamp_mono 0 R HR0) as HC. rewrite clamp_small0 in HC.
  split; [done|]. rewrite F. split; [by rewrite sgn_abs|]. rewrite sgn_abs by done.
  intros Hle. pose proof (valid_finite_inv _ _ _ Vx) as (_ & _ & Lx).
  pose proof (valid_finite_inv _ _ _ Vy) as (_ & _ & Ly).
  assert (0 < 2 ^ (ex + 1074)) by lia. assert (0 < 2 ^ (ey + 1074)) by lia.
  cbn [fval] in Hle. rewrite !sgn_abs in Hle by lia.
  pose proof (digits2_pos_bound mx) as Bx. pose proof (digits2_pos_bound my) as By.
  cbn [bits] in He2. set (d1 := Zpos (digits2_pos mx)) in *. set (d2 := Zpos (digits2_pos my)) in *.
  assert (HD : d1 + ex - (d2 + ey) <= 0).
  { destruct (Z.le_gt_cases (d1 + ex - (d2 + ey)) 0); [done|]. exfalso.
    assert (2 ^ d2 * 2 ^ (ey + 1074) <= 2 ^ (d1 - 1) * 2 ^ (ex + 1074)).
    { rewrite <- !Z.pow_add_r by lia. apply Z.pow_le_mono_r; lia. }
    nia. }
  rewrite fexp_unfold in He2.
  assert (HB' : Zpos mx * 2 ^ (ex - ey - e) <= 2 ^ (- e) * Zpos my).
  { apply (Z.mul_le_mono_pos_r _ _ (2 ^ (ey + 1074))); [lia|].
    assert (E : 2 ^ (ex - ey - e) * 2 ^ (ey + 1074) = 2 ^ (- e) * 2 ^ (ex + 1074))
      by (rewrite <- !Z.pow_add_r by lia; f_equal; lia).
    assert (0 < 2 ^ (- e)) by lia. rewrite <- Z.mul_assoc, E. nia. }
  destruct (HB (2 ^ (- e)) ltac:(lia) HB') as [HN Hq2].
  assert (Hbq : bits q <= - e + 1).
  { pose proof (bits_mono _ _ Hq Hq2) as Hm. pose proof (bits_shift 1 (- e) ltac:(lia)) as Hb1.
    rewrite Z.mul_1_l in Hb1. rewrite Hb1 in Hm. cbn [bits digits2_pos] in Hm. lia. }
  assert (Hez0 : ez <= -52) by (unfold ez; rewrite fexp_unfold; lia).
  assert (R <= one_val).
  { unfold R, one_val. replace 1074 with (- ez + (ez + 1074)) at 2 by lia.
    rewrite (Z.pow_add_r 2 (- ez)) by lia. apply Z.mul_le_mono_nonneg_r; [lia|].
    pose proof (rne_mono _ _ (ez - e + 2) ltac:(lia) HN) as M.
    replace (4 * 2 ^ (- e)) with (2 ^ (- ez) * 2 ^ (ez - e + 2)) in M
      by (rewrite <- Z.pow_add_r by lia; replace (- ez + (ez - e + 2)) with (2 + - e) by lia;
          rewrite Z.pow_add_r by lia; done).
    rewrite (rne_exact (_ * _)) in M by (lia || apply Z.mod_mul; lia). rewrite Z.div_mul in M by lia. done. }
  rewrite clamp_small; [done|].
  assert (one_val < fval_max) by (vm_compute; done). pose proof fval_max_big. lia.
Qed.

(** ** The builtin [sum] of floats (CPython 3.12 and later)

    Neumaier's compensated summation; the loop state is the sum and its compensation. *)
Definition sum_step (st : float * float) (x : float) : float * float :=
  let '(f, c) := st in
  let t := fadd f x in
  let e := if fle (fabs x) (fabs f) then fadd (fsub f t) x else fadd (fsub x t) f in
  (t, fadd c e).

Definition py_sum (l : list float) : float :=
  match l with
  | [] => f0
  | x :: l =>
      let '(f, c) := foldl sum_step (fadd f0 x, f0) l in
      if negb (feq c f0) && isfinite c then fadd f c else f
  end.

Example lit_ok : flit 6 3 = S754_finite false 6917529027641082 (-60).
Proof. vm_compute. reflexivity. Qed.
