(* ===== verification/Domain.v ===== *)
(** * Domain model (src/market_sentinel/domain)

    The enums and frozen dataclasses every component exchanges.  A Python [str] is
    a [string] of UTF-8 bytes, an [int] a [Z], a [float] a binary64 [float];
    [X | None] is [option X] and a tuple a [list]. *)
From stdpp Require Import prelude strings countable.
From S2P Require Import Prelude PyFloat.
Local Open Scope Z_scope.

(** ** Enums ([domain/enums.py]) *)

Inductive SchedulerLevel := COLD | WARM | HOT.
Inductive FeedStatus := LIVE | DELAYED | STALE | DISCONNECTED.
Inductive EventType :=
  | RAPID_MOVE | VOLUME_SPIKE | PRICE_VOLUME_EXPANSION
  | DAY_HIGH_BREAKOUT | DAY_LOW_BREAKDOWN | VWAP_CROSS.
Inductive EventDirection := UP | DOWN | NONE.
Inductive SignalPriority := INFO | NOTICE | IMPORTANT | CRITICAL.
Inductive GeneratedBy := RULE.

#[export] Instance SchedulerLevel_eq : EqDecision SchedulerLevel.
Proof. solve_decision. Defined.
#[export] Instance FeedStatus_eq : EqDecision FeedStatus.
Proof. solve_decision. Defined.
#[export] Instance EventType_eq : EqDecision EventType.
Proof. solve_decision. Defined.
#[export] Instance EventDirection_eq : EqDecision EventDirection.
Proof. solve_decision. Defined.
#[export] Instance SignalPriority_eq : EqDecision SignalPriority.
Proof. solve_decision. Defined.
#[export] Instance GeneratedBy_eq : EqDecision GeneratedBy.
Proof. solve_decision. Defined.
#[export] Instance float_eq : EqDecision float.
Proof. solve_decision. Defined.

#[export] Instance EventDirection_countable : Countable EventDirection.
Proof.
  refine (inj_countable'
    (fun d => match d with UP => 0%nat | DOWN => 1%nat | NONE => 2%nat end)
    (fun n => match n with 0%nat => UP | 1%nat => DOWN | _ => NONE end) _).
  by intros [].
Defined.

(** [StrEnum.value] *)
Definition level_value (l : SchedulerLevel) : string :=
  match l with COLD => "COLD" | WARM => "WARM" | HOT => "HOT" end.
Definition status_value (s : FeedStatus) : string :=
  match s with
  | LIVE => "LIVE" | DELAYED => "DELAYED" | STALE => "STALE" | DISCONNECTED => "DISCONNECTED"
  end.
Definition type_value (t : EventType) : string :=
  match t with
  | RAPID_MOVE => "rapid_move" | VOLUME_SPIKE => "volume_spike"
  | PRICE_VOLUME_EXPANSION => "price_volume_expansion"
  | DAY_HIGH_BREAKOUT => "day_high_breakout" | DAY_LOW_BREAKDOWN => "day_low_breakdown"
  | VWAP_CROSS => "vwap_cross"
  end.
Definition direction_value (d : EventDirection) : string :=
  match d with UP => "up" | DOWN => "down" | NONE => "none" end.
Definition priority_value (p : SignalPriority) : string :=
  match p with
  | INFO => "info" | NOTICE => "notice" | IMPORTANT => "important" | CRITICAL => "critical"
  end.
Definition generated_by_value (g : GeneratedBy) : string := match g with RULE => "rule" end.

(** [_PRIORITY_RANK], one table repeated verbatim in several modules. *)
Definition priority_rank (p : SignalPriority) : Z :=
  match p with INFO => 1 | NOTICE => 2 | IMPORTANT => 3 | CRITICAL => 4 end.

Lemma priority_rank_inj p q : priority_rank p = priority_rank q -> p = q.
Proof. by destruct p, q. Qed.
Lemma priority_rank_bounds p : 1 <= priority_rank p <= 4.
Proof. destruct p; cbn; lia. Qed.
#[export] Instance type_value_inj : Inj (=) (=) type_value.
Proof. by intros [] []. Qed.
#[export] Instance direction_value_inj : Inj (=) (=) direction_value.
Proof. by intros [] []. Qed.
#[export] Instance priority_value_inj : Inj (=) (=) priority_value.
Proof. by intros [] []. Qed.

(** ** Market data ([domain/models.py], [domain/features.py]) *)

Record MarketSnapshot := mkSnapshot {
  sn_symbol : string;
  sn_price : float;
  sn_open : float;
  sn_high : float;
  sn_low : float;
  sn_prev_close : float;
  sn_volume : float;
  sn_turnover : option float;
  sn_market_ts : float;
  sn_received_ts : float
}.

Record WatchItem := mkWatchItem { wi_symbol : string; wi_enabled : bool }.

Record FeaturePolicy := mkFeaturePolicy {
  max_anchor_lag_s : float;
  volume_ratio_lookback : Z;
  bar_seconds : float
}.
Definition default_feature_policy : FeaturePolicy := mkFeaturePolicy (flit 30 0) 20 (flit 60 0).

Record MarketBar := mkBar {
  bar_symbol : string;
  bar_start : float;
  bar_end : float;
  bar_open : float;
  bar_high : float;
  bar_low : float;
  bar_close : float;
  bar_volume : option float;
  bar_turnover : option float
}.

Record MarketFeatures := mkFeatures {
  ft_symbol : string;
  ft_market_ts : float;
  ft_received_ts : float;
  change_1m : option float;
  change_5m : option float;
  change_15m : option float;
  change_day : option float;
  day_range_position : option float;
  volume_1m : option float;
  volume_5m : option float;
  volume_ratio_1m : option float;
  volume_ratio_5m : option float;
  vwap : option float;
  above_vwap : option bool;
  ema5 : option float;
  ema20 : option float;
  rsi14 : option float;
  session_high_ref : option float;
  session_low_ref : option float;
  session_high_obs : float;
  session_low_obs : float
}.

(** ** Events and signals ([domain/events.py], [domain/signals.py]) *)

Inductive metric := MFloat (x : float) | MBool (b : bool) | MNone.

Record MarketEvent := mkEvent {
  ev_id : string;
  ev_symbol : string;
  ev_type : EventType;
  ev_direction : EventDirection;
  ev_severity : Z;
  ev_market_ts : float;
  ev_received_ts : float;
  ev_detected_ts : float;
  ev_metrics : list (string * metric);
  ev_dedupe_key : string;
  ev_ttl_s : float;
  ev_rule_name : string
}.

Record Signal := mkSignal {
  sig_id : string;
  sig_event_ids : list string;
  sig_symbol : string;
  sig_family : string;
  sig_direction : EventDirection;
  sig_priority : SignalPriority;
  sig_title : string;
  sig_summary : string;
  sig_generated_by : GeneratedBy;
  sig_market_ts : float;
  sig_received_ts : float;
  sig_detected_ts : float;
  sig_created_ts : float;
  sig_expires_at : option float
}.

Record SignalTrace := mkTrace {
  tr_signal_id : string;
  tr_event_ids : list string;
  tr_rule_names : list string;
  tr_features : MarketFeatures;
  tr_family : string;
  tr_direction : EventDirection;
  tr_priority : SignalPriority;
  tr_priority_reason : string;
  tr_detected_ts : float;
  tr_created_ts : float
}.

Record SignalPipelineResult := mkPipelineResult {
  pr_accepted_events : list MarketEvent;
  pr_signal_updates : list Signal;
  pr_traces : list SignalTrace;
  pr_alert_candidates : list Signal
}.

Record MarketState := mkMarketState {
  ms_symbol : string;
  ms_latest : option MarketSnapshot;
  ms_level : SchedulerLevel;
  ms_feed_status : FeedStatus;
  ms_feed_latency : option float;
  ms_last_update_age : option float;
  ms_features : option MarketFeatures;
  ms_active_signals : list Signal
}.

#[export] Instance MarketSnapshot_eq : EqDecision MarketSnapshot.
Proof. solve_decision. Defined.
#[export] Instance WatchItem_eq : EqDecision WatchItem.
Proof. solve_decision. Defined.
#[export] Instance metric_eq : EqDecision metric.
Proof. solve_decision. Defined.
#[export] Instance MarketFeatures_eq : EqDecision MarketFeatures.
Proof. solve_decision. Defined.
#[export] Instance MarketEvent_eq : EqDecision MarketEvent.
Proof. solve_decision. Defined.
#[export] Instance Signal_eq : EqDecision Signal.
Proof. solve_decision. Defined.

(** A snapshot whose numeric fields are all finite: what the normalizer
    guarantees of everything that reaches the buffers. *)
Record snapshot_finite (s : MarketSnapshot) : Prop := {
  sf_price : fin (sn_price s);
  sf_open : fin (sn_open s);
  sf_high : fin (sn_high s);
  sf_low : fin (sn_low s);
  sf_prev_close : fin (sn_prev_close s);
  sf_volume : fin (sn_volume s);
  sf_turnover : from_option fin True (sn_turnover s);
  sf_market_ts : fin (sn_market_ts s)
}.
