(* ===== verification/RingBuffer.v ===== *)
(** * Time-ordered snapshot buffers (src/market_sentinel/market_data/ring_buffer.py, buffers.py)

    [RingBuffer] keeps the snapshots of one symbol sorted by market timestamp; [append]
    inserts by binary search (CPython's [bisect], modelled with fuel), replaces an equal
    timestamp, then evicts by age and by size.  [SymbolBuffers] is a dict of them. *)
From Stdlib Require Import ZArith Lia Sorting.Sorted.
From stdpp Require Import prelude strings gmap.
From S2P Require Import Prelude PyFloat Domain.

(** ** [bisect.bisect_left] / [bisect.bisect_right] *)
Fixpoint bisect_loop (go_right : float -> bool) (a : list float) (fuel lo hi : nat) : nat :=
  match fuel with
  | O => lo
  | S fuel =>
      if decide (lo < hi)%nat then
        let mid := Nat.div2 (lo + hi) in
        match a !! mid with
        | Some y => if go_right y then bisect_loop go_right a fuel (S mid) hi
                    else bisect_loop go_right a fuel lo mid
        | None => lo
        end
      else lo
  end.

Definition bisect_left (a : list float) (x : float) : nat :=
  bisect_loop (fun y => flt y x) a (S (length a)) 0 (length a).
Definition bisect_right (a : list float) (x : float) : nat :=
  bisect_loop (fun y => negb (flt x y)) a (S (length a)) 0 (length a).

(** ** [RingBuffer] *)
Record RingBuffer := mkRB {
  rb_retention : float;
  rb_max_size : Z;
  rb_items : list MarketSnapshot
}.

Definition rb_init (retention_s : float) (max_size : Z) : result RingBuffer :=
  if fle retention_s f0 then Err (ValueError "retention_s must be positive")
  else if (max_size <=? 0)%Z then Err (ValueError "max_size must be positive")
  else Ok (mkRB retention_s max_size []).

Definition timestamps (items : list MarketSnapshot) : list float := sn_market_ts <$> items.

Definition rb_put (items : list MarketSnapshot) (s : MarketSnapshot) : list MarketSnapshot :=
  let index := bisect_left (timestamps items) (sn_market_ts s) in
  match items !! index with
  | Some y => if feq (sn_market_ts y) (sn_market_ts s) then <[index := s]> items
              else take index items ++ s :: drop index items
  | None => take index items ++ s :: drop index items
  end.

Fixpoint drop_older (cutoff : float) (items : list MarketSnapshot) : list MarketSnapshot :=
  match items with
  | y :: items' => if flt (sn_market_ts y) cutoff then drop_older cutoff items' else items
  | [] => []
  end.

Definition rb_evict (retention : float) (max_size : Z) (items : list MarketSnapshot)
    : list MarketSnapshot :=
  match last items with
  | None => items
  | Some newest =>
      let kept := drop_older (fsub (sn_market_ts newest) retention) items in
      let overflow := (Z.of_nat (length kept) - max_size)%Z in
      if (0 <? overflow)%Z then drop (Z.to_nat overflow) kept else kept
  end.

Definition rb_append (b : RingBuffer) (s : MarketSnapshot) : RingBuffer :=
  mkRB (rb_retention b) (rb_max_size b)
       (rb_evict (rb_retention b) (rb_max_size b) (rb_put (rb_items b) s)).

Definition rb_latest (b : RingBuffer) : option MarketSnapshot := last (rb_items b).

Definition rb_since (b : RingBuffer) (ts : float) : list MarketSnapshot :=
  filter (fun s => fle ts (sn_market_ts s) = true) (rb_items b).

Definition rb_window (b : RingBuffer) (duration : float) : list MarketSnapshot :=
  match rb_latest b with
  | None => []
  | Some s => rb_since b (fsub (sn_market_ts s) duration)
  end.

Definition rb_at_or_before (b : RingBuffer) (ts : float) : option MarketSnapshot :=
  match rb_items b with
  | [] => None
  | items =>
      match bisect_right (timestamps items) ts with
      | O => None
      | S index => items !! index
      end
  end.

(** ** [SymbolBuffers] *)
Record SymbolBuffers := mkSB {
  sb_retention : float;
  sb_max_size : Z;
  sb_buffers : gmap string RingBuffer
}.

Definition sb_buffer_for (sb : SymbolBuffers) (symbol : string) : result (RingBuffer * SymbolBuffers) :=
  match sb_buffers sb !! symbol with
  | Some b => Ok (b, sb)
  | None => b ← rb_init (sb_retention sb) (sb_max_size sb);
            Ok (b, mkSB (sb_retention sb) (sb_max_size sb) (<[symbol := b]> (sb_buffers sb)))
  end.

Definition sb_append (sb : SymbolBuffers) (s : MarketSnapshot) : result SymbolBuffers :=
  '(b, sb) ← sb_buffer_for sb (sn_symbol s);
  Ok (mkSB (sb_retention sb) (sb_max_size sb) (<[sn_symbol s := rb_append b s]> (sb_buffers sb))).

Definition sb_latest (sb : SymbolBuffers) (symbol : string) : option MarketSnapshot :=
  b ← sb_buffers sb !! symbol; rb_latest b.
Definition sb_buffer (sb : SymbolBuffers) (symbol : string) : option RingBuffer :=
  sb_buffers sb !! symbol.
Definition sb_at_or_before (sb : SymbolBuffers) (symbol : string) (ts : float) : option MarketSnapshot :=
  b ← sb_buffers sb !! symbol; rb_at_or_before b ts.

(** [window] and [since] go through [_buffer_for]: asking creates an empty buffer. *)
Definition sb_window (sb : SymbolBuffers) (symbol : string) (duration : float)
    : result (list MarketSnapshot * SymbolBuffers) :=
  '(b, sb) ← sb_buffer_for sb symbol; Ok (rb_window b duration, sb).
Definition sb_since (sb : SymbolBuffers) (symbol : string) (ts : float)
    : result (list MarketSnapshot * SymbolBuffers) :=
  '(b, sb) ← sb_buffer_for sb symbol; Ok (rb_since b ts, sb).

(** ** Reference: insertion into a strictly increasing list *)
Definition ts (s : MarketSnapshot) : Z := fval (sn_market_ts s).

Fixpoint put (s : MarketSnapshot) (l : list MarketSnapshot) : list MarketSnapshot :=
  match l with
  | [] => [s]
  | y :: l' => if (ts s <? ts y)%Z then s :: y :: l'
               else if (ts s =? ts y)%Z then s :: l' else y :: put s l'
  end.

Definition increasing : list MarketSnapshot -> Prop := StronglySorted (fun a b => (ts a < ts b)%Z).
Definition ts_fin (s : MarketSnapshot) : Prop := fin (sn_market_ts s).

Record rb_wf (b : RingBuffer) : Prop := {
  wf_retention : fin (rb_retention b) /\ (0 < fval (rb_retention b))%Z;
  wf_max : (0 < rb_max_size b)%Z;
  wf_fin : Forall ts_fin (rb_items b);
  wf_sorted : increasing (rb_items b);
  wf_size : (Z.of_nat (length (rb_items b)) <= rb_max_size b)%Z;
  wf_age : forall newest s, last (rb_items b) = Some newest -> s ∈ rb_items b ->
    (fval (fsub (sn_market_ts newest) (rb_retention b)) <= ts s)%Z
}.

(** ** Lemmas: binary search *)
Lemma bisect_loop_spec (go_right : float -> bool) a fuel lo hi :
  (forall i j x y, (i < j)%nat -> a !! i = Some x -> a !! j = Some y -> go_right y = true -> go_right x = true) ->
  (hi - lo < fuel)%nat -> (lo <= hi <= length a)%nat ->
  (forall i x, (i < lo)%nat -> a !! i = Some x -> go_right x = true) ->
  (forall i x, (hi <= i)%nat -> a !! i = Some x -> go_right x = false) ->
  let k := bisect_loop go_right a fuel lo hi in
  (lo <= k <= hi)%nat /\
  (forall i x, (i < k)%nat -> a !! i = Some x -> go_right x = true) /\
  (forall i x, (k <= i)%nat -> a !! i = Some x -> go_right x = false).
Proof.
  intros Hmono. revert lo hi. induction fuel as [|fuel IH]; intros lo hi Hf Hlh Hlo Hhi; [lia|].
  cbn [bisect_loop]. destruct (decide (lo < hi)%nat) as [Hlt|Hge].
  2: { assert (lo = hi) as -> by lia. split; [lia|]. by split. }
  set (mid := Nat.div2 (lo + hi)).
  assert (Hmid : (lo <= mid < hi)%nat).
  { unfold mid. rewrite Nat.div2_div. split; [apply Nat.div_le_lower_bound|apply Nat.Div0.div_lt_upper_bound]; lia. }
  destruct (lookup_lt_is_Some_2 a mid) as [y Hy]; [lia|]. rewrite Hy.
  destruct (go_right y) eqn:E.
  - destruct (IH (S mid) hi) as (H1 & H2 & H3); [lia|lia| |done|].
    { intros i x Hi Hx. destruct (decide (i = mid)) as [->|]; [congruence|].
      eapply (Hmono i mid); eauto. lia. }
    split; [lia|]. by split.
  - destruct (IH lo mid) as (H1 & H2 & H3); [lia|lia|done| |].
    { intros i x Hi Hx. destruct (decide (i = mid)) as [->|]; [congruence|].
      destruct (go_right x) eqn:Ex; [|done]. rewrite (Hmono mid i y x) in E; [done|lia|done|done|done]. }
    split; [lia|]. by split.
Qed.

Section bisect.
Context (items : list MarketSnapshot) (t : float).
Hypothesis Hfin : Forall ts_fin items.
Hypothesis Hinc : increasing items.
Hypothesis Ht : num t.

Lemma increasing_lookup i j x y :
  (i < j)%nat -> items !! i = Some x -> items !! j = Some y -> (ts x < ts y)%Z.
Proof using Hinc.
  clear Hfin Ht. revert i j. induction Hinc as [|z l Hs IH Hz]; intros i j Hij Hi Hj; [done|].
  destruct j as [|j]; [lia|]. cbn in Hj. destruct i as [|i]; cbn in Hi.
  - simplify_eq. rewrite Forall_forall in Hz. apply Hz. by eapply list_elem_of_lookup_2.
  - apply (IH Hs i j); [lia|done|done].
Qed.

Lemma timestamps_lookup i x :
  timestamps items !! i = Some x -> exists s, items !! i = Some s /\ x = sn_market_ts s /\ ts_fin s.
Proof using Hfin.
  clear Hinc. unfold timestamps. rewrite list_lookup_fmap. intros (s & Hs & ->)%fmap_Some.
  exists s. split; [done|]. split; [done|]. rewrite Forall_forall in Hfin.
  apply Hfin. by eapply list_elem_of_lookup_2.
Qed.

Lemma bisect_left_spec :
  let k := bisect_left (timestamps items) t in
  (k <= length items)%nat /\
  (forall i s, (i < k)%nat -> items !! i = Some s -> (ts s < fval t)%Z) /\
  (forall i s, (k <= i)%nat -> items !! i = Some s -> (fval t <= ts s)%Z).
Proof using Hfin Hinc Ht.
  unfold bisect_left.
  destruct (bisect_loop_spec (fun y => flt y t) (timestamps items) (S (length (timestamps items)))
              0 (length (timestamps items))) as (H1 & H2 & H3); [|lia|lia|lia| |].
  - intros i j x y Hij (sx & Hx & -> & Fx)%timestamps_lookup (sy & Hy & -> & Fy)%timestamps_lookup.
    pose proof (increasing_lookup i j sx sy Hij Hx Hy) as L. unfold ts_fin, ts in *. fcmp. lia.
  - intros i x Hi Hx. apply lookup_lt_Some in Hx. lia.
  - assert (length (timestamps items) = length items) by apply length_fmap. split; [lia|].
    split; intros i s Hi Hs.
    all: assert (Fs : ts_fin s) by (rewrite Forall_forall in Hfin; apply Hfin; by eapply list_elem_of_lookup_2).
    all: assert (Hl : timestamps items !! i = Some (sn_market_ts s)) by (unfold timestamps; by rewrite list_lookup_fmap, Hs).
    all: [> specialize (H2 i _ Hi Hl) | specialize (H3 i _ Hi Hl)]; unfold ts_fin, ts in *; cbn in *; fcmp; lia.
Qed.

Lemma bisect_right_spec :
  let k := bisect_right (timestamps items) t in
  (k <= length items)%nat /\
  (forall i s, (i < k)%nat -> items !! i = Some s -> (ts s <= fval t)%Z) /\
  (forall i s, (k <= i)%nat -> items !! i = Some s -> (fval t < ts s)%Z).
Proof using Hfin Hinc Ht.
  unfold bisect_right.
  destruct (bisect_loop_spec (fun y => negb (flt t y)) (timestamps items) (S (length (timestamps items)))
              0 (length (timestamps items))) as (H1 & H2 & H3); [|lia|lia|lia| |].
  - intros i j x y Hij (sx & Hx & -> & Fx)%timestamps_lookup (sy & Hy & -> & Fy)%timestamps_lookup.
    pose proof (increasing_lookup i j sx sy Hij Hx Hy) as L. unfold ts_fin, ts in *.
    rewrite !negb_true_iff. fcmp. lia.
  - intros i x Hi Hx. apply lookup_lt_Some in Hx. lia.
  - assert (length (timestamps items) = length items) by apply length_fmap. split; [lia|].
    split; intros i s Hi Hs.
    all: assert (Fs : ts_fin s) by (rewrite Forall_forall in Hfin; apply Hfin; by eapply list_elem_of_lookup_2).
    all: assert (Hl : timestamps items !! i = Some (sn_market_ts s)) by (unfold timestamps; by rewrite list_lookup_fmap, Hs).
    all: [> specialize (H2 i _ Hi Hl) | specialize (H3 i _ Hi Hl)]; unfold ts_fin, ts in *; cbn in *;
      rewrite ?negb_true_iff, ?negb_false_iff in *; fcmp; lia.
Qed.
End bisect.

(** ** Lemmas: insertion *)
Lemma put_split s l1 l2 :
  (forall x, x ∈ l1 -> (ts x < ts s)%Z) -> (forall x, x ∈ l2 -> (ts s <= ts x)%Z) ->
  put s (l1 ++ l2) = l1 ++ match l2 with
                          | y :: l2' => if (ts s =? ts y)%Z then s :: l2' else s :: l2
                          | [] => [s]
                          end.
Proof.
  intros H1 H2. induction l1 as [|x l1 IH]; cbn.
  - destruct l2 as [|y l2]; cbn; [done|]. specialize (H2 y ltac:(left)).
    destruct (Z.ltb_spec (ts s) (ts y)), (Z.eqb_spec (ts s) (ts y)); done || lia.
  - specialize (H1 x ltac:(left)) as Hx. destruct (Z.ltb_spec (ts s) (ts x)); [lia|].
    destruct (Z.eqb_spec (ts s) (ts x)); [lia|]. f_equal. apply IH. intros y Hy. apply H1. by right.
Qed.

Lemma rb_put_eq items s :
  Forall ts_fin items -> increasing items -> ts_fin s -> rb_put items s = put s items.
Proof.
  intros Hf Hi Hs.
  destruct (bisect_left_spec items (sn_market_ts s) Hf Hi (fin_num _ Hs)) as (Hk & Hlo & Hhi).
  unfold rb_put. set (k := bisect_left _ _) in *.
  transitivity (put s (take k items ++ drop k items)); [|by rewrite take_drop].
  rewrite put_split.
  - destruct (items !! k) as [y|] eqn:Ey.
    + rewrite (drop_S items y k Ey).
      assert (Fy : ts_fin y) by (rewrite Forall_forall in Hf; apply Hf; by eapply list_elem_of_lookup_2).
      assert (feq (sn_market_ts y) (sn_market_ts s) = (ts s =? ts y)%Z) as ->.
      { unfold ts_fin, ts in *. rewrite feq_val by eauto with fl. apply Z.eqb_sym. }
      destruct (ts s =? ts y)%Z; [|done].
      rewrite insert_take_drop; [done|]. by apply lookup_lt_Some in Ey.
    + rewrite drop_ge; [done|]. by apply lookup_ge_None in Ey.
  - intros x (i & Hx)%list_elem_of_lookup. apply lookup_take_Some in Hx as [Hx Hik]. eauto.
  - intros x (i & Hx)%list_elem_of_lookup. rewrite lookup_drop in Hx.
    eapply (Hhi (k + i)%nat); [lia|done].
Qed.

Lemma put_forall (P : MarketSnapshot -> Prop) s l : P s -> Forall P l -> Forall P (put s l).
Proof.
  intros Hs. induction 1 as [|y l Hy Hl IH]; cbn; [by repeat constructor|].
  destruct (_ <? _)%Z; [by repeat constructor|]. destruct (_ =? _)%Z; by constructor.
Qed.

Lemma elem_of_put x s l : increasing l -> x ∈ put s l <-> x = s \/ (x ∈ l /\ ts x <> ts s).
Proof.
  induction 1 as [|y l Hs IH Hy]; cbn; [set_solver|].
  rewrite Forall_forall in Hy.
  destruct (Z.ltb_spec (ts s) (ts y)); [|destruct (Z.eqb_spec (ts s) (ts y))].
  - rewrite !elem_of_cons. split; [|naive_solver]. intros [->|[->|Hx]]; [by left|right..].
    + split; [by left|lia]. + specialize (Hy _ Hx). split; [by right|lia].
  - rewrite !elem_of_cons. split.
    + intros [->|Hx]; [by left|]. specialize (Hy _ Hx). right. split; [by right|lia].
    + intros [->|[[->|Hx] Hne]]; [by left|lia|by right].
  - rewrite !elem_of_cons, IH. split.
    + intros [->|[->|[Hx Hne]]]; [right; split; [by left|lia]|by left|].
      right. split; [by right|done].
    + intros [->|[[->|Hx] Hne]]; [right; by left|by left|]. right. by right.
Qed.

Lemma put_increasing s l : increasing l -> increasing (put s l).
Proof.
  induction 1 as [|y l Hs IH Hy]; cbn; [repeat constructor|].
  destruct (Z.ltb_spec (ts s) (ts y)); [|destruct (Z.eqb_spec (ts s) (ts y)) as [E|]].
  - constructor; [by constructor|]. constructor; [done|].
    eapply Forall_impl; [exact Hy|]. cbn. lia.
  - constructor; [done|]. by rewrite E.
  - constructor; [done|]. rewrite Forall_forall in Hy |- *. intros x Hx.
    apply elem_of_put in Hx as [->|[Hx _]]; [lia|eauto|done].
Qed.

Lemma last_put s l : (forall x, x ∈ l -> (ts x <= ts s)%Z) -> increasing l -> last (put s l) = Some s.
Proof.
  intros Hle. induction 1 as [|y l Hs IH Hy]; cbn [put]; [done|].
  pose proof (Hle y ltac:(left)). rewrite Forall_forall in Hy.
  destruct (Z.ltb_spec (ts s) (ts y)); [lia|].
  destruct (Z.eqb_spec (ts s) (ts y)) as [E|].
  - destruct l as [|z l]; [done|]. exfalso. specialize (Hy z ltac:(left)).
    specialize (Hle z ltac:(right; left)). lia.
  - rewrite last_cons, IH; [done|]. intros x Hx. apply Hle. by right.
Qed.

Lemma length_put s l : (length (put s l) <= S (length l))%nat.
Proof.
  induction l as [|y l IH]; cbn; [lia|]. destruct (_ <? _)%Z; cbn; [lia|].
  destruct (_ =? _)%Z; cbn; lia.
Qed.

(** ** Lemmas: eviction *)
Lemma drop_older_suffix c l : drop_older c l `suffix_of` l.
Proof.
  induction l as [|y l IH]; cbn; [done|]. destruct (flt _ _); [|done]. by apply suffix_cons_r.
Qed.

Lemma elem_of_drop_older c l x : num c -> Forall ts_fin l -> increasing l ->
  x ∈ drop_older c l <-> x ∈ l /\ (fval c <= ts x)%Z.
Proof.
  intros Hc Hf. induction 1 as [|y l Hs IH Hy]; cbn [drop_older]; [set_solver|].
  apply Forall_cons in Hf as [Fy Fl]. specialize (IH Fl). rewrite Forall_forall in Hy.
  destruct (flt (sn_market_ts y) c) eqn:E; unfold ts_fin in Fy; fcmp; fold (ts y) in E.
  - rewrite IH, elem_of_cons. split; [naive_solver|]. intros [[->|Hx] Hle]; [lia|done].
  - rewrite elem_of_cons. split; [|tauto]. intros [->|Hx]; [by split; [left|]|].
    split; [by right|]. specialize (Hy _ Hx). lia.
Qed.

Lemma last_suffix {A} (l1 l2 : list A) : l1 `suffix_of` l2 -> l1 <> [] -> last l1 = last l2.
Proof.
  intros [k ->] Hne. destruct l1 as [|x l1] using rev_ind; [done|].
  by rewrite app_assoc, !last_snoc.
Qed.

Lemma sorted_suffix {A} (R : A -> A -> Prop) (l1 l2 : list A) :
  l1 `suffix_of` l2 -> StronglySorted R l2 -> StronglySorted R l1.
Proof.
  intros [k ->]. induction k as [|x k IH]; cbn; [done|]. inversion 1; subst. auto.
Qed.

Lemma rb_evict_suffix r m l : rb_evict r m l `suffix_of` l.
Proof.
  unfold rb_evict. destruct (last l) as [n|]; [|done]. cbn zeta.
  destruct (_ <? _)%Z; [|apply drop_older_suffix].
  etransitivity; [apply suffix_drop|apply drop_older_suffix].
Qed.

(** The newest item survives eviction, and the bounds hold afterwards. *)
Lemma rb_evict_spec r m l newest :
  fin r -> (0 < fval r)%Z -> (0 < m)%Z -> Forall ts_fin l -> increasing l -> last l = Some newest ->
  let l' := rb_evict r m l in
  last l' = Some newest /\ (Z.of_nat (length l') <= m)%Z /\
  (forall x, x ∈ l' -> (fval (fsub (sn_market_ts newest) r) <= ts x)%Z).
Proof.
  intros Fr Hr Hm Hf Hi Hl. cbn zeta. pose proof (rb_evict_suffix r m l) as Hsuf.
  unfold rb_evict in *. rewrite Hl in *.
  assert (Fn : ts_fin newest) by (rewrite Forall_forall in Hf; apply Hf; by apply last_Some_elem_of).
  set (c := fsub (sn_market_ts newest) r) in *.
  assert (Hc : num c) by (apply num_fsub; done).
  assert (Hkeep : newest ∈ drop_older c l).
  { apply elem_of_drop_older; [done..|]. split; [by apply last_Some_elem_of|].
    unfold c, ts. apply fsub_le_self; [done..|lia]. }
  cbn zeta in *. set (kept := drop_older c l) in *.
  assert (Hne : kept <> []) by (intros E; rewrite E in Hkeep; by apply elem_of_nil in Hkeep).
  assert (0 < length kept)%nat by (destruct kept; [done|cbn; lia]).
  assert (Hage : forall x, x ∈ kept -> (fval c <= ts x)%Z).
  { intros x Hx. by apply elem_of_drop_older in Hx as [_ ?]. }
  destruct (Z.ltb_spec 0 (Z.of_nat (length kept) - m)).
  - split; [|split].
    + rewrite <- Hl. apply last_suffix; [done|]. intros E%(f_equal length). rewrite length_drop in E. cbn in E. lia.
    + rewrite length_drop. lia.
    + intros x Hx. apply Hage. eapply elem_of_suffix; [exact Hx|apply suffix_drop].
  - split; [|split]; [|lia|done]. rewrite <- Hl. by apply last_suffix.
Qed.

(** ** Invariant and operations *)
Lemma rb_wf_init r m b : fin r -> rb_init r m = Ok b -> rb_wf b.
Proof.
  unfold rb_init. intros Fr. destruct (fle r f0) eqn:E1; [done|]. fcmp.
  destruct (Z.leb_spec m 0); [done|]. intros [= <-].
  split; cbn; [done|lia|constructor|constructor|lia|done].
Qed.

Lemma put_nonempty s l : exists newest, last (put s l) = Some newest.
Proof.
  destruct (last (put s l)) eqn:E; [eauto|]. apply last_None in E.
  destruct l; cbn in E; [done|]. by repeat case_match.
Qed.

Lemma rb_wf_append b s : rb_wf b -> ts_fin s -> rb_wf (rb_append b s).
Proof.
  intros [[Fr Hr] Hm Hf Hi Hsz Hage] Hs.
  destruct (put_nonempty s (rb_items b)) as [n Hn].
  pose proof (put_forall ts_fin s (rb_items b) Hs Hf) as Hpf.
  pose proof (put_increasing s (rb_items b) Hi) as Hpi.
  destruct (rb_evict_spec (rb_retention b) (rb_max_size b) _ n Fr Hr Hm Hpf Hpi Hn) as (E1 & E2 & E3).
  pose proof (rb_evict_suffix (rb_retention b) (rb_max_size b) (put s (rb_items b))) as Hsuf.
  unfold rb_append. rewrite rb_put_eq by done.
  split; cbn [rb_retention rb_max_size rb_items]; [done..| | |done|].
  - rewrite Forall_forall in Hpf |- *. intros x Hx. apply Hpf. eapply elem_of_suffix; eauto.
  - eapply sorted_suffix; eauto.
  - intros newest x Hl Hx. rewrite E1 in Hl. simplify_eq. eauto.
Qed.

(** Everything kept by an append is the new snapshot or an old one at another time. *)
Lemma rb_append_sub b s x : rb_wf b -> ts_fin s -> x ∈ rb_items (rb_append b s) ->
  x = s \/ (x ∈ rb_items b /\ ts x <> ts s).
Proof.
  intros [_ _ Hf Hi _ _] Hs. unfold rb_append. cbn [rb_items]. rewrite rb_put_eq by done.
  intros Hx. apply elem_of_put; [done|]. eapply elem_of_suffix; [exact Hx|apply rb_evict_suffix].
Qed.

Lemma rb_latest_append b s : rb_wf b -> ts_fin s ->
  (forall x, x ∈ rb_items b -> (ts x <= ts s)%Z) -> rb_latest (rb_append b s) = Some s.
Proof.
  intros [[Fr Hr] Hm Hf Hi Hsz Hage] Hs Hle. unfold rb_latest, rb_append. cbn [rb_items].
  rewrite rb_put_eq by done. pose proof (last_put s (rb_items b) Hle Hi) as Hl.
  apply (rb_evict_spec _ _ _ s Fr Hr Hm (put_forall ts_fin s _ Hs Hf) (put_increasing s _ Hi) Hl).
Qed.

Lemma rb_latest_max b n x : rb_wf b -> rb_latest b = Some n -> x ∈ rb_items b -> (ts x <= ts n)%Z.
Proof.
  intros [_ _ _ Hi _ _]. unfold rb_latest. revert Hi. generalize (rb_items b) as l.
  induction 1 as [|y l Hs IH Hy]; [done|]. rewrite last_cons. intros Hl Hx.
  rewrite Forall_forall in Hy. destruct (last l) as [z|] eqn:El; simplify_eq.
  - apply elem_of_cons in Hx as [->|Hx]; [|auto]. specialize (Hy _ (last_Some_elem_of _ _ El)). lia.
  - apply last_None in El as ->. apply list_elem_of_singleton in Hx as ->. lia.
Qed.

Lemma rb_evict_dropped r m l d newest : fin r -> Forall ts_fin l -> increasing l -> last l = Some newest ->
  d ∈ l -> d ∉ rb_evict r m l ->
  (ts d < fval (fsub (sn_market_ts newest) r))%Z \/ (m < Z.of_nat (length l))%Z.
Proof.
  intros Fr Hf Hi Hl Hd Hn. unfold rb_evict in Hn. rewrite Hl in Hn. cbn zeta in Hn.
  assert (Fn : ts_fin newest) by (rewrite Forall_forall in Hf; apply Hf; by apply last_Some_elem_of).
  pose proof (suffix_length _ _ (drop_older_suffix (fsub (sn_market_ts newest) r) l)).
  destruct (Z.ltb_spec 0 (Z.of_nat (length (drop_older (fsub (sn_market_ts newest) r) l)) - m)); [right; lia|].
  left. rewrite elem_of_drop_older in Hn by (done || by apply num_fsub).
  apply Z.lt_nge. intros ?. apply Hn. done.
Qed.

(** ** Properties *)

(** [rb_append_wf] [RingBuffer.append] keeps the buffer's invariant for every snapshot with a finite
    timestamp: timestamps strictly increasing, at most [max_size] items, and no item older
    than [newest - retention_s] (computed in binary64, as the code does). *)
Theorem rb_append_wf b s : rb_wf b -> ts_fin s -> rb_wf (rb_append b s).
Proof. apply rb_wf_append. Qed.

(** C8: what [RingBuffer.append] stores: the survivors are the new snapshot and old
    snapshots with another timestamp (an equal timestamp is replaced), a dropped item
    was too old or the buffer overflowed, and a snapshot at least as new as everything
    stored becomes [latest()] - the newest quote is never evicted. *)
Theorem rb_append_spec b s : rb_wf b -> ts_fin s ->
  let b' := rb_append b s in
  (forall x, x ∈ rb_items b' -> x = s \/ (x ∈ rb_items b /\ ts x <> ts s)) /\
  (forall d newest, d = s \/ (d ∈ rb_items b /\ ts d <> ts s) -> d ∉ rb_items b' ->
     rb_latest b' = Some newest ->
     (ts d < fval (fsub (sn_market_ts newest) (rb_retention b)))%Z \/
     (rb_max_size b <= Z.of_nat (length (rb_items b)))%Z) /\
  ((forall x, x ∈ rb_items b -> (ts x <= ts s)%Z) -> rb_latest b' = Some s).
Proof.
  intros Hwf Hs b'. split; [|split].
  - intros x. by apply rb_append_sub.
  - intros d newest Hd Hn Hl. destruct Hwf as [[Fr Hr] Hm Hf Hi Hsz Hage].
    unfold b', rb_append, rb_latest in Hn, Hl. cbn [rb_items] in Hn, Hl. rewrite rb_put_eq in Hn, Hl by done.
    destruct (put_nonempty s (rb_items b)) as [n En].
    destruct (rb_evict_spec (rb_retention b) (rb_max_size b) _ n Fr Hr Hm (put_forall ts_fin s _ Hs Hf)
      (put_increasing s _ Hi) En) as (E1 & _ & _).
    rewrite E1 in Hl. simplify_eq.
    destruct (rb_evict_dropped (rb_retention b) (rb_max_size b) (put s (rb_items b)) d newest) as [?|Hlen];
      [done|by apply put_forall|by apply put_increasing|done|by apply elem_of_put|done|by left|right].
    pose proof (length_put s (rb_items b)). lia.
  - by apply rb_latest_append.
Qed.

(** C9: [at_or_before] returns the newest stored snapshot not after [ts], and [None] only
    when every stored snapshot is after it; in particular the binary search terminates
    with the answer of a linear search. *)
Theorem rb_at_or_before_spec b t : rb_wf b -> num t ->
  match rb_at_or_before b t with
  | Some s => s ∈ rb_items b /\ (ts s <= fval t)%Z /\
              (forall x, x ∈ rb_items b -> (ts x <= fval t)%Z -> (ts x <= ts s)%Z)
  | None => forall x, x ∈ rb_items b -> (fval t < ts x)%Z
  end.
Proof.
  intros [_ _ Hf Hi _ _] Ht. unfold rb_at_or_before.
  destruct (bisect_right_spec (rb_items b) t Hf Hi Ht) as (Hk & Hlo & Hhi).
  destruct (rb_items b) as [|y l] eqn:El; [set_solver|]. rewrite <- El in *.
  destruct (bisect_right _ _) as [|k].
  - intros x (i & Hx)%list_elem_of_lookup. apply (Hhi i); [lia|done].
  - destruct (lookup_lt_is_Some_2 (rb_items b) k) as [s Hs]; [lia|]. rewrite Hs.
    split; [by eapply list_elem_of_lookup_2|]. split; [by apply (Hlo k); [lia|]|].
    intros x (i & Hx)%list_elem_of_lookup Hle.
    destruct (Nat.lt_trichotomy i k) as [?|[->|?]]; [|simplify_eq; lia|].
    + pose proof (increasing_lookup (rb_items b) Hi i k x s). naive_solver lia.
    + specialize (Hhi i x ltac:(lia) Hx). lia.
Qed.

Definition snap_at (n : Z) : MarketSnapshot :=
  let p := flit 100 0 in mkSnapshot "600519.SH" p p p p p f0 None (flit n 0) (flit n 0).
Definition demo_rb : RingBuffer := mkRB (flit 3600 0) 4096 [snap_at 10; snap_at 20].

Lemma demo_rb_wf : rb_wf demo_rb.
Proof.
  split; [split; vm_compute; done|done| | |done|].
  - repeat constructor.
  - repeat constructor; vm_compute; done.
  - intros newest s [= <-] Hs. repeat (apply elem_of_cons in Hs as [->|Hs]; [vm_compute; discriminate|]).
    by apply elem_of_nil in Hs.
Qed.

Lemma rb_append_wf_witness : rb_wf (rb_append demo_rb (snap_at 15)).
Proof. apply (rb_append_wf demo_rb (snap_at 15)); [apply demo_rb_wf|done]. Defined.

Lemma rb_append_spec_witness : rb_latest (rb_append demo_rb (snap_at 30)) = Some (snap_at 30).
Proof.
  apply (rb_append_spec demo_rb (snap_at 30)); [apply demo_rb_wf|done|].
  intros x Hx. repeat (apply elem_of_cons in Hx as [->|Hx]; [vm_compute; discriminate|]).
  by apply elem_of_nil in Hx.
Defined.

Lemma rb_at_or_before_witness :
  match rb_at_or_before demo_rb (flit 25 0) with
  | Some s => s ∈ rb_items demo_rb /\ (ts s <= fval (flit 25 0))%Z /\
      (forall x, x ∈ rb_items demo_rb -> (ts x <= fval (flit 25 0))%Z -> (ts x <= ts s)%Z)
  | None => forall x, x ∈ rb_items demo_rb -> (fval (flit 25 0) < ts x)%Z
  end.
Proof. apply (rb_at_or_before_spec demo_rb (flit 25 0)); [apply demo_rb_wf|done]. Defined.
