(* ===== verification/Session.v ===== *)
(** * Market sessions (src/market_sentinel/market_data/session.py)

    A session is a UTC+8 calendar date.  [datetime.fromtimestamp] is modelled as CPython
    does it: split into whole seconds and a fraction, round the fraction to microseconds
    (half to even), reject NaN, infinities and years outside 1..9999 (POSIX platforms). *)
From Stdlib Require Import ZArith Lia Ascii String.
From Corelib Require Import SpecFloat.
From stdpp Require Import prelude strings.
From S2P Require Import Prelude PyFloat Domain.
Local Open Scope Z_scope.

(** ** [datetime.fromtimestamp] *)

(** The integer part of [modf], truncated toward zero, and the exact fractional part. *)
Definition trunc_Z (s : bool) (m : positive) (e : Z) : Z :=
  sgn s (if 0 <=? e then Zpos m * 2 ^ e else Zpos m / 2 ^ (- e)).
Definition frac_float (s : bool) (m : positive) (e : Z) : float :=
  if 0 <=? e then S754_zero s
  else binary_normalize 53 1024 (sgn s (Zpos m mod 2 ^ (- e))) e s.

(** [round()] to an integer, ties to even, of a finite float. *)
Definition round_even_Z (x : float) : Z :=
  match x with
  | S754_finite s m e => sgn s (if 0 <=? e then Zpos m * 2 ^ e else rne (Zpos m) (- e))
  | _ => 0
  end.

Definition million : float := flit 1000000 0.

(** Whole seconds and microseconds [0 <= us < 10^6]. *)
Definition timeval (x : float) : result (Z * Z) :=
  match x with
  | S754_nan => Err (ValueError "Invalid value NaN (not a number)")
  | S754_infinity _ => Err OverflowError
  | S754_zero _ => Ok (0, 0)
  | S754_finite s m e =>
      let us := round_even_Z (fmul (frac_float s m e) million) in
      let sec := trunc_Z s m e in
      if 1000000 <=? us then Ok (sec + 1, us - 1000000)
      else if us <? 0 then Ok (sec - 1, us + 1000000)
      else Ok (sec, us)
  end.

Definition min_utc_s : Z := -62135596800.       (* 0001-01-01T00:00:00Z *)
Definition end_utc_s : Z := 253402300800.       (* 10000-01-01T00:00:00Z *)
Definition tz_offset_s : Z := 28800.            (* UTC+8 *)

(** Local (UTC+8) microseconds since the local epoch. *)
Definition local_us (x : float) : result Z :=
  '(sec, us) ← timeval x;
  if (sec <? min_utc_s) || (end_utc_s <=? sec) then Err (ValueError "year is out of range")
  else if end_utc_s <=? sec + tz_offset_s then Err OverflowError
  else Ok ((sec + tz_offset_s) * 1000000 + us).

Definition day_us : Z := 86400 * 1000000.

(** The UTC+8 day number, days since 1970-01-01. *)
Definition session_day (x : float) : result Z := l ← local_us x; Ok (l / day_us).

(** ** Civil dates and [date.isoformat] *)
Definition civil_of_day (d : Z) : Z * Z * Z :=
  let z := d + 719468 in
  let era := z / 146097 in
  let doe := z mod 146097 in
  let yoe := (doe - doe / 1460 + doe / 36524 - doe / 146096) / 365 in
  let doy := doe - (365 * yoe + yoe / 4 - yoe / 100) in
  let mp := (5 * doy + 2) / 153 in
  let m := if mp <? 10 then mp + 3 else mp - 9 in
  (yoe + era * 400 + (if m <=? 2 then 1 else 0), m, doy - (153 * mp + 2) / 5 + 1).

Definition day_of_civil (c : Z * Z * Z) : Z :=
  let '(y, m, d) := c in
  let y' := y - (if m <=? 2 then 1 else 0) in
  let yoe := y' mod 400 in
  let doy := (153 * (if 2 <? m then m - 3 else m + 9) + 2) / 5 + d - 1 in
  y' / 400 * 146097 + (yoe * 365 + yoe / 4 - yoe / 100 + doy) - 719468.

Definition digit (n : Z) : ascii := ascii_of_N (Z.to_N (48 + n)).
Definition pad2 (n : Z) : string := String (digit (n / 10 mod 10)) (String (digit (n mod 10)) "").
Definition pad4 (n : Z) : string := pad2 (n / 100) +:+ pad2 (n mod 100).
Definition isoformat (d : Z) : string :=
  let '(y, m, dd) := civil_of_day d in
  pad4 y +:+ "-" +:+ pad2 m +:+ "-" +:+ pad2 dd.

(** ** [session.py] *)
Definition session_id (market_ts : float) : result string :=
  d ← session_day market_ts; Ok (isoformat d).

Definition is_same_session (left_ts right_ts : float) : result bool :=
  a ← session_id left_ts; b ← session_id right_ts; Ok (bool_decide (a = b)).

Fixpoint ends_with (suffix s : string) : bool :=
  bool_decide (s = suffix) || match s with String _ s' => ends_with suffix s' | "" => false end.

Definition is_a_share_symbol (symbol : string) : bool :=
  ends_with ".SH" symbol || ends_with ".SZ" symbol.

(** Cash windows 09:30-11:30 and 13:00-15:00, microseconds within the day. *)
Definition cash_windows : list (Z * Z) :=
  [((9 * 60 + 30) * 60000000, (11 * 60 + 30) * 60000000); (13 * 3600000000, 15 * 3600000000)].

(** [date.weekday()]: Monday is 0; 1970-01-01 was a Thursday. *)
Definition weekday (day : Z) : Z := (day + 3) mod 7.

(** [timedelta.total_seconds()]: one correctly rounded integer division. *)
Definition total_seconds (us : Z) : float :=
  SFdiv 53 1024 (binary_normalize 53 1024 us 0 false) million.

Definition window_overlap (start end_ day : Z) (w : Z * Z) : Z :=
  let left := Z.max start (day * day_us + w.1) in
  let right := Z.min end_ (day * day_us + w.2) in
  if left <? right then right - left else 0.

Definition day_overlaps (start end_ day : Z) : list Z :=
  if weekday day <? 5
  then filter (fun o => 0 < o) (window_overlap start end_ day <$> cash_windows)
  else [].

(** The [while day <= last] loop, one iteration per fuel unit.  [date] stops at
    9999-12-31: stepping past it raises, after that day's overlap was added. *)
Definition max_day : Z := 2932896.

Fixpoint overlap_loop (fuel : nat) (start end_ day last : Z) (total : float) : result float :=
  match fuel with
  | O => Err (RuntimeError "out of fuel")
  | S fuel =>
      if day <=? last then
        let total := foldl (fun t o => fadd t (total_seconds o)) total (day_overlaps start end_ day) in
        if day =? max_day then Err OverflowError
        else overlap_loop fuel start end_ (day + 1) last total
      else Ok total
  end.

Definition cash_session_overlap_s (start_ts end_ts : float) : result float :=
  if negb (isfinite start_ts) || negb (isfinite end_ts) then Ok f0
  else
    let '(a, b) := if flt end_ts start_ts then (end_ts, start_ts) else (start_ts, end_ts) in
    if feq a b then Ok f0
    else
      start ← local_us a; end_ ← local_us b;
      let day := start / day_us in let last := end_ / day_us in
      overlap_loop (S (Z.to_nat (last - day + 1))) start end_ day last f0.

Definition session_extreme_high (s : MarketSnapshot) : float := fmax (sn_price s) (sn_high s).
Definition session_extreme_low (s : MarketSnapshot) : float := fmin (sn_price s) (sn_low s).

Example session_utc8 : session_id (flit 1700000000 0) = Ok "2023-11-15".
Proof. vm_compute. reflexivity. Qed.
Example session_frac : local_us (flit 15 1) = Ok 28801500000.
Proof. vm_compute. reflexivity. Qed.
Example overlap_full_day :
  cash_session_overlap_s (flit 1699923600 0) (flit 1699945200 0) = Ok (flit 14400 0).
Proof. vm_compute. reflexivity. Qed.

(** ** Lemmas: civil dates *)
Lemma yoe_bounds doe : 0 <= doe < 146097 ->
  let yoe := (doe - doe / 1460 + doe / 36524 - doe / 146096) / 365 in
  0 <= yoe < 400 /\ 0 <= doe - (365 * yoe + yoe / 4 - yoe / 100) <= 365.
Proof. intros H. cbn zeta. Z.div_mod_to_equations; lia. Qed.
Lemma md_roundtrip doy : 0 <= doy <= 365 ->
  let mp := (5 * doy + 2) / 153 in
  let m := if mp <? 10 then mp + 3 else mp - 9 in
  0 <= mp <= 11 /\ 1 <= m <= 12 /\ 1 <= doy - (153 * mp + 2) / 5 + 1 <= 31 /\
  (153 * (if 2 <? m then m - 3 else m + 9) + 2) / 5 + (doy - (153 * mp + 2) / 5 + 1) - 1 = doy /\
  (m <=? 2) = (10 <=? mp).
Proof.
  intros H mp m.
  assert (0 <= mp <= 11) by (subst mp; Z.div_mod_to_equations; lia).
  assert (Hm : (m <=? 2) = (10 <=? mp) /\ 1 <= m <= 12 /\ (if 2 <? m then m - 3 else m + 9) = mp).
  { subst m. destruct (Z.ltb_spec mp 10); repeat match goal with |- context [?a <=? ?b] => destruct (Z.leb_spec a b) | |- context [?a <? ?b] => destruct (Z.ltb_spec a b) end; lia. }
  destruct Hm as (-> & Hm & ->). split; [done|]. split; [done|].
  split; [|split; [lia|done]]. subst mp. Z.div_mod_to_equations; lia.
Qed.

Lemma civil_roundtrip d : day_of_civil (civil_of_day d) = d.
Proof.
  unfold civil_of_day, day_of_civil.
  set (z := d + 719468). pose proof (Z.mod_pos_bound z 146097 ltac:(lia)) as Hdoe.
  pose proof (Z.div_mod z 146097 ltac:(lia)) as Hz.
  set (doe := z mod 146097) in *. set (era := z / 146097) in *. cbn zeta.
  destruct (yoe_bounds doe Hdoe) as [Hyoe Hdoy].
  set (yoe := (doe - doe / 1460 + doe / 36524 - doe / 146096) / 365) in *.
  set (doy := doe - (365 * yoe + yoe / 4 - yoe / 100)) in *.
  destruct (md_roundtrip doy Hdoy) as (Hmp & Hm & Hd & Hback & Hle).
  set (mp := (5 * doy + 2) / 153) in *.
  set (m := if mp <? 10 then mp + 3 else mp - 9) in *.
  rewrite Hback.
  replace (yoe + era * 400 + (if m <=? 2 then 1 else 0) - (if m <=? 2 then 1 else 0)) with (yoe + era * 400) by lia.
  rewrite Z.mod_add, Z.div_add by lia. rewrite Z.mod_small, (Z.div_small yoe) by lia.
  unfold doy. lia.
Qed.

Lemma civil_bounds d : -719162 <= d < 2932897 ->
  let '(y, m, dd) := civil_of_day d in 1 <= y <= 9999 /\ 1 <= m <= 12 /\ 1 <= dd <= 31.
Proof.
  intros H. unfold civil_of_day.
  set (z := d + 719468). pose proof (Z.mod_pos_bound z 146097 ltac:(lia)) as Hdoe.
  pose proof (Z.div_mod z 146097 ltac:(lia)) as Hz.
  set (doe := z mod 146097) in *. set (era := z / 146097) in *. cbn zeta.
  destruct (yoe_bounds doe Hdoe) as [Hyoe Hdoy].
  assert (Hy : doe = 365 * ((doe - doe / 1460 + doe / 36524 - doe / 146096) / 365) + ((doe - doe / 1460 + doe / 36524 - doe / 146096) / 365)/4 - ((doe - doe / 1460 + doe / 36524 - doe / 146096) / 365)/100 + (doe - (365 * ((doe - doe / 1460 + doe / 36524 - doe / 146096) / 365) + ((doe - doe / 1460 + doe / 36524 - doe / 146096) / 365)/4 - ((doe - doe / 1460 + doe / 36524 - doe / 146096) / 365)/100))) by lia.
  set (yoe := (doe - doe / 1460 + doe / 36524 - doe / 146096) / 365) in *.
  set (doy := doe - (365 * yoe + yoe / 4 - yoe / 100)) in *.
  destruct (md_roundtrip doy Hdoy) as (Hmp & Hm & Hd & Hback & Hle).
  assert (Hmpd : 10 <= (5 * doy + 2) / 153 <-> 306 <= doy) by (Z.div_mod_to_equations; lia).
  set (mp := (5 * doy + 2) / 153) in *.
  set (m := if mp <? 10 then mp + 3 else mp - 9) in *.
  split; [|lia]. rewrite Hle.
  assert (0 <= era <= 24) by lia.
  destruct (Z.leb_spec 10 mp); Z.div_mod_to_equations; lia.
Qed.

Lemma digit_inj a b : 0 <= a <= 9 -> 0 <= b <= 9 -> digit a = digit b -> a = b.
Proof.
  intros Ha Hb H. unfold digit in H. apply (f_equal N_of_ascii) in H.
  rewrite !N_ascii_embedding in H by lia. lia.
Qed.
Lemma pad2_inj a b : 0 <= a < 100 -> 0 <= b < 100 -> pad2 a = pad2 b -> a = b.
Proof.
  intros Ha Hb [= H1 H2]. apply digit_inj in H1; [|Z.div_mod_to_equations; lia..].
  apply digit_inj in H2; [|Z.div_mod_to_equations; lia..]. Z.div_mod_to_equations; lia.
Qed.
Lemma pad2_app_inj a b s t : 0 <= a < 100 -> 0 <= b < 100 ->
  pad2 a +:+ s = pad2 b +:+ t -> a = b /\ s = t.
Proof.
  intros Ha Hb H. cbn in H. injection H as H1 H2 H3. split; [|done].
  apply pad2_inj; [done..|]. unfold pad2. congruence.
Qed.

Lemma dash_inj s t : "-" +:+ s = "-" +:+ t -> s = t.
Proof. by intros [=]. Qed.

Lemma pad2_assoc n s t : (pad2 n +:+ s) +:+ t = pad2 n +:+ (s +:+ t).
Proof. done. Qed.

Lemma isoformat_inj d d' : -719162 <= d < 2932897 -> -719162 <= d' < 2932897 ->
  isoformat d = isoformat d' -> d = d'.
Proof.
  intros Hd Hd' H. rewrite <- (civil_roundtrip d), <- (civil_roundtrip d'). f_equal.
  pose proof (civil_bounds d Hd) as B. pose proof (civil_bounds d' Hd') as B'.
  unfold isoformat in H.
  destruct (civil_of_day d) as [[y m] dd]. destruct (civil_of_day d') as [[y' m'] dd'].
  destruct B as (By & Bm & Bd), B' as (By' & Bm' & Bd').
  unfold pad4 in H. rewrite !pad2_assoc in H.
  apply pad2_app_inj in H as [E1 H]; [|Z.div_mod_to_equations; lia..].
  apply pad2_app_inj in H as [E2 H]; [|Z.div_mod_to_equations; lia..].
  apply dash_inj in H. apply pad2_app_inj in H as [E3 H]; [|lia..].
  apply dash_inj in H. apply pad2_inj in H; [|lia..].
  assert (y = y') by (Z.div_mod_to_equations; lia). congruence.
Qed.

(** ** Lemmas: timestamps *)
Lemma fval_max_pow : fval_max = 2 ^ 2098.
Proof. reflexivity. Qed.

Lemma rnd_pos_pow k : 0 <= k -> rnd_pos (2 ^ k) = 2 ^ k.
Proof.
  intros Hk. pose proof (rnd_pos_mono 0 (2 ^ k)). unfold rnd_pos, ulpx.
  pose proof (bits_shift 1 k Hk) as Hb. rewrite Z.mul_1_l in Hb. rewrite Hb. cbn [bits].
  set (u := Z.max 0 _). assert (Hu : 0 <= u <= k) by (unfold u; cbn; lia).
  replace (2 ^ k) with (2 ^ (k - u) * 2 ^ u) at 1 2
    by (rewrite <- Z.pow_add_r by lia; f_equal; lia).
  rewrite rne_exact by (lia || apply Z.mod_mul; lia). rewrite Z.div_mul by lia. done.
Qed.

Lemma frac_float_bound s m e : valid (S754_finite s m e) = true ->
  fin (frac_float s m e) /\ Z.abs (fval (frac_float s m e)) <= one_val.
Proof.
  intros V. pose proof (valid_finite_inv _ _ _ V) as (_ & _ & He). unfold frac_float.
  destruct (Z.leb_spec 0 e); [split; [done|cbn; unfold one_val; lia]|].
  destruct (normalize_spec (sgn s (Z.pos m mod 2 ^ (- e))) e s He) as [N F].
  assert (0 < 2 ^ (e + 1074)) by lia.
  pose proof (Z.mod_pos_bound (Z.pos m) (2 ^ (- e)) ltac:(lia)) as Hm.
  assert (E1 : 2 ^ (- e) * 2 ^ (e + 1074) = one_val)
    by (unfold one_val; rewrite <- Z.pow_add_r by lia; f_equal; lia).
  set (v := Z.pos m mod 2 ^ (- e)) in *.
  assert (Hv : 0 <= v * 2 ^ (e + 1074) <= one_val) by nia.
  assert (Hs : sgn s v * 2 ^ (e + 1074) = sgn s (v * 2 ^ (e + 1074))) by (destruct s; cbn [sgn]; lia).
  rewrite Hs, rnd_sgn, clamp_sgn in F by lia.
  pose proof (rnd_pos_mono _ one_val (proj1 Hv) (proj2 Hv)) as R.
  assert (R1 : rnd_pos one_val = one_val) by (unfold one_val; apply rnd_pos_pow; lia). rewrite R1 in R.
  pose proof (rnd_pos_nonneg _ (proj1 Hv)).
  assert (one_val < fval_max) by (rewrite fval_max_pow; unfold one_val; apply Z.pow_lt_mono_r; lia).
  rewrite clamp_small in F by lia.
  assert (A : Z.abs (fval (binary_normalize 53 1024 (sgn s v) e s)) <= one_val)
    by (rewrite F; destruct s; cbn [sgn]; lia).
  split; [|done]. apply num_fin; [done|lia].
Qed.

Lemma round_even_bound x b : fin x -> 0 <= b -> Z.abs (fval x) <= b * one_val ->
  Z.abs (round_even_Z x) <= b.
Proof.
  intros [V F] Hb H. destruct x as [s|s| |s m e]; cbn [round_even_Z]; [lia|done|done|].
  pose proof (valid_finite_inv _ _ _ V) as (_ & _ & He). cbn [fval] in H.
  assert (0 < 2 ^ (e + 1074)) by lia.
  assert (Hm : Z.pos m * 2 ^ (e + 1074) <= b * one_val) by (destruct s; cbn [sgn] in H; lia).
  assert (G : 0 <= (if 0 <=? e then Z.pos m * 2 ^ e else rne (Z.pos m) (- e)) <= b).
  2: { destruct s; cbn [sgn]; lia. }
  unfold one_val in Hm. destruct (Z.leb_spec 0 e).
  - rewrite Z.pow_add_r, Z.mul_assoc in Hm by lia.
    apply Z.mul_le_mono_pos_r in Hm; [|lia]. assert (0 < 2 ^ e) by lia. lia.
  - replace 1074 with ((- e) + (e + 1074)) in Hm at 2 by lia.
    rewrite (Z.pow_add_r 2 (- e)), Z.mul_assoc in Hm by lia.
    apply Z.mul_le_mono_pos_r in Hm; [|lia].
    pose proof (rne_mono _ _ (- e) ltac:(lia) Hm) as R.
    rewrite (rne_exact (b * 2 ^ (- e))) in R by (lia || apply Z.mod_mul; lia).
    rewrite Z.div_mul in R by lia.
    pose proof (rne_bounds (Z.pos m) (- e) ltac:(lia)).
    assert (0 <= Z.pos m / 2 ^ (- e)) by (apply Z.div_pos; lia). lia.
Qed.

Lemma million_val : fin million /\ fval million = 1000000 * one_val.
Proof. split; [done|]. vm_compute. reflexivity. Qed.

Lemma million_rep : rnd_pos (1000000 * one_val) = 1000000 * one_val.
Proof. vm_compute. reflexivity. Qed.
#[local] Opaque one_val.

Lemma timeval_us x sec us : fin x -> timeval x = Ok (sec, us) -> 0 <= us < 1000000.
Proof.
  intros F. destruct x as [s|s| |s m e]; [intros [= <- <-]; lia|by destruct F..|].
  cbn [timeval]. destruct (frac_float_bound s m e (proj1 F)) as [Ff Bf].
  destruct million_val as [Fm Em].
  set (r := fmul (frac_float s m e) million).
  assert (Hmax : 0 <= 1000000 * one_val < fval_max) by (split; vm_compute; done).
  assert (Hp : Z.abs (fval (frac_float s m e) * fval million) <= 1000000 * one_val * 2 ^ 1074).
  { rewrite Em, Z.abs_mul. change (2 ^ 1074) with one_val. nia. }
  assert (Fr : fin r) by (apply (fin_fmul_bound _ _ _ Ff Fm Hmax million_rep Hp)).
  pose proof (fmul_abs_le _ _ _ Ff Fm Hmax million_rep Hp) as Br. fold r in Br.
  pose proof (round_even_bound r 1000000 Fr ltac:(lia) Br) as Bu.
  set (u := round_even_Z r) in *. cbn zeta.
  destruct (Z.leb_spec 1000000 u); [|destruct (Z.ltb_spec u 0)]; intros [= <- <-]; lia.
Qed.

Lemma session_day_bounds x d : fin x -> session_day x = Ok d -> -719162 <= d <= max_day.
Proof.
  intros F. unfold session_day, local_us.
  destruct (timeval x) as [[sec us]|] eqn:E; cbn; [|done]. apply timeval_us in E; [|done].
  destruct (Z.ltb_spec sec min_utc_s); cbn; [done|].
  destruct (Z.leb_spec end_utc_s sec); cbn; [done|].
  destruct (Z.leb_spec end_utc_s (sec + tz_offset_s)); cbn; [done|].
  intros [= <-]. unfold min_utc_s, end_utc_s, tz_offset_s, day_us, max_day in *.
  Z.div_mod_to_equations; lia.
Qed.

(** ** Properties *)

(** [is_same_session_spec] two timestamps are in the same session exactly when they fall on the same
    UTC+8 day: comparing the ISO date strings, as the code does, never confuses two
    days, and the call raises exactly when one of the two dates cannot be built. *)
Theorem is_same_session_spec a b : fin a -> fin b ->
  is_same_session a b = (d ← session_day a; d' ← session_day b; Ok (bool_decide (d = d'))).
Proof.
  intros Fa Fb. unfold is_same_session, session_id.
  destruct (session_day a) as [d|] eqn:Ea; cbn; [|done].
  destruct (session_day b) as [d'|] eqn:Eb; cbn; [|done]. f_equal.
  apply session_day_bounds in Ea, Eb; [|done..]. unfold max_day in *.
  apply bool_decide_ext. split; [|by intros ->]. apply isoformat_inj; lia.
Qed.

Lemma is_same_session_witness : is_same_session (flit 1700000000 0) (flit 1700060000 0) = Ok true.
Proof. rewrite (is_same_session_spec (flit 1700000000 0) (flit 1700060000 0)); done. Defined.

Lemma overlap_loop_ok start end_ last : last < max_day -> forall fuel day total,
  (Z.to_nat (last - day + 1) < fuel)%nat -> is_ok (overlap_loop fuel start end_ day last total) = true.
Proof.
  intros Hl. induction fuel as [|fuel IH]; intros day total Hf; [lia|]. cbn [overlap_loop]. cbn zeta.
  destruct (Z.leb_spec day last); [|done]. destruct (Z.eqb_spec day max_day); [lia|]. apply IH. lia.
Qed.

Lemma overlap_loop_fuel start end_ last : forall fuel day total e,
  (Z.to_nat (last - day + 1) < fuel)%nat -> overlap_loop fuel start end_ day last total = Err e ->
  e = OverflowError.
Proof.
  induction fuel as [|fuel IH]; intros day total e Hf; [lia|]. cbn [overlap_loop]. cbn zeta.
  destruct (Z.leb_spec day last); [|done]. case_match; [congruence|]. apply IH. lia.
Qed.

(** [cash_session_overlap_total] the market-hours metric is symmetric in its two timestamps, and its day loop
    terminates with a value whenever both dates exist and the later one is not the last
    day Python can represent. *)
Theorem cash_session_overlap_total a b : fin a -> fin b ->
  cash_session_overlap_s a b = cash_session_overlap_s b a /\
  (forall da db, session_day a = Ok da -> session_day b = Ok db -> da < max_day -> db < max_day ->
     exists v, cash_session_overlap_s a b = Ok v).
Proof.
  intros Fa Fb. unfold cash_session_overlap_s. rewrite (proj2 Fa), (proj2 Fb). cbn [negb orb].
  split.
  - destruct (flt b a) eqn:E1, (flt a b) eqn:E2; [fcmp; lia|done|done|].
    assert (feq a b = true /\ feq b a = true) as [-> ->] by (split; fcmp; lia). done.
  - assert (L : forall x y dx dy, session_day x = Ok dx -> session_day y = Ok dy -> dy < max_day ->
      exists v, (if feq x y then Ok f0 else start ← local_us x; end_ ← local_us y;
        overlap_loop (S (Z.to_nat (end_ / day_us - start / day_us + 1))) start end_ (start / day_us)
          (end_ / day_us) f0) = Ok v).
    { intros x y dx dy Hx Hy Hm. unfold session_day in *. destruct (feq x y); [by eexists|].
      destruct (local_us x) as [lx|]; [|done]. destruct (local_us y) as [ly|]; [|done].
      cbn in Hx, Hy. simplify_eq. cbn [mbind result_bind].
      pose proof (overlap_loop_ok lx ly (ly / day_us) Hm
        (S (Z.to_nat (ly / day_us - lx / day_us + 1))) (lx / day_us) f0 ltac:(lia)) as H.
      destruct (overlap_loop _ _ _ _ _ _); [by eexists|done]. }
    intros da db Ha Hb Hda Hdb. destruct (flt b a); eapply L; eauto.
Qed.

Lemma cash_session_overlap_witness :
  exists v, cash_session_overlap_s (flit 1699923600 0) (flit 1700100000 0) = Ok v.
Proof.
  apply (cash_session_overlap_total (flit 1699923600 0) (flit 1700100000 0)) with (da := 19675) (db := 19677);
    vm_compute; done.
Defined.
