(* ===== verification/Normalizer.v ===== *)
(** * Snapshot validation (src/market_sentinel/market_data/normalizer.py)

    A raw provider row is a mapping from field names to Python values.  [float(value)] is
    modelled for [None], booleans, integers, floats and ASCII strings; the clock is a
    sequence of readings with a cursor.  Messages keep the failing field, not the
    interpolated value. *)
From Stdlib Require Import ZArith Lia Ascii String.
From Corelib Require Import SpecFloat.
From stdpp Require Import prelude strings.
From S2P Require Import Prelude PyFloat Domain.
Local Open Scope Z_scope.

(** ** Python values and [float(value)] *)
Inductive pyval :=
  | PyNone
  | PyBool (b : bool)
  | PyInt (n : Z)
  | PyFloat (x : float)
  | PyStr (s : string)
  | PyOther.            (* lists, dicts, objects: [float] raises [TypeError] *)

Definition code (c : ascii) : Z := Z.of_N (N_of_ascii c).
Definition in_range (lo hi : Z) (c : ascii) : bool := (lo <=? code c) && (code c <=? hi).
Definition is_digit (c : ascii) : bool := in_range 48 57 c.
Definition is_upper (c : ascii) : bool := in_range 65 90 c.
Definition is_lower (c : ascii) : bool := in_range 97 122 c.
Definition is_space (c : ascii) : bool := in_range 9 13 c || in_range 28 32 c.
Definition lower_ascii (c : ascii) : ascii :=
  if is_upper c then ascii_of_N (Z.to_N (code c + 32)) else c.

Fixpoint str_map (f : ascii -> ascii) (s : string) : string :=
  match s with "" => "" | String c s => String (f c) (str_map f s) end.
Fixpoint drop_spaces (s : string) : string :=
  match s with String c s' => if is_space c then drop_spaces s' else s | "" => "" end.
Definition strip (s : string) : string := String.rev (drop_spaces (String.rev (drop_spaces s))).

(** A run of digits, single underscores allowed between digits: value and length. *)
Fixpoint digits_run (s : string) (acc : Z) (n : Z) : Z * Z * string :=
  match s with
  | String c s1 =>
      if is_digit c then digits_run s1 (10 * acc + (code c - 48)) (n + 1)
      else if bool_decide (c = "_"%char) && (0 <? n) then
        match s1 with
        | String d _ => if is_digit d then digits_run s1 acc n else (acc, n, s)
        | "" => (acc, n, s)
        end
      else (acc, n, s)
  | "" => (acc, n, "")
  end.

(** [sign * n * 10^k], correctly rounded. *)
Definition decimal (neg : bool) (n k : Z) : float :=
  match n with
  | Zpos m =>
      if 0 <=? k then binary_normalize 53 1024 (sgn neg (n * 10 ^ k)) 0 neg
      else match 10 ^ (- k) with
           | Zpos d => let '(q, e, l) := SFdiv_core_binary 53 1024 n 0 (Zpos d) 0 in
                       binary_round_aux 53 1024 neg q e l
           | _ => S754_nan
           end
  | _ => S754_zero neg
  end.

Definition split_sign (s : string) : bool * string :=
  match s with
  | String c s' => if bool_decide (c = "-"%char) then (true, s')
                   else if bool_decide (c = "+"%char) then (false, s') else (false, s)
  | "" => (false, "")
  end.

Definition exponent (s : string) : option Z :=
  match s with
  | "" => Some 0
  | String c s' =>
      if bool_decide (lower_ascii c = "e"%char) then
        let '(neg, s') := split_sign s' in
        let '(v, n, rest) := digits_run s' 0 0 in
        if (0 <? n) && bool_decide (rest = "") then Some (sgn neg v) else None
      else None
  end.

(** [float(str)]: [None] is [ValueError]. *)
Definition float_of_str (s : string) : option float :=
  let '(neg, s) := split_sign (strip s) in
  let l := str_map lower_ascii s in
  if bool_decide (l = "inf") || bool_decide (l = "infinity") then Some (S754_infinity neg)
  else if bool_decide (l = "nan") then Some S754_nan
  else
    let '(ip, n1, rest) := digits_run s 0 0 in
    let '(v, n2, rest) :=
      match rest with
      | String c rest' =>
          if bool_decide (c = "."%char) then
            match rest' with
            | String d _ => if is_digit d then
                              let '(v, n, r) := digits_run rest' ip 0 in (v, n, r)
                            else (ip, 0, rest')
            | "" => (ip, 0, "")
            end
          else (ip, 0, rest)
      | "" => (ip, 0, "")
      end in
    if n1 + n2 <=? 0 then None
    else k ← exponent rest; Some (decimal neg v (k - n2)).

Definition py_float (v : pyval) : result float :=
  match v with
  | PyNone | PyOther => Err TypeError
  | PyBool b => Ok (if b then flit 1 0 else f0)
  | PyInt n => of_option OverflowError (of_Z n)
  | PyFloat x => Ok x
  | PyStr s => of_option (ValueError "could not convert string to float") (float_of_str s)
  end.

(** ** Validation *)
Definition raw_row := list (string * pyval).

Definition REQUIRED_FIELDS : list string :=
  ["symbol"; "price"; "open"; "high"; "low"; "prev_close"; "volume"; "market_timestamp"].

Definition invalid {A} (field : string) : result A :=
  Err (SnapshotValidationError ("invalid " +:+ field)).

(** [_SYMBOL_RE]: [^[0-9A-Za-z]+\.(SH|SZ|HK)$], matched from the start. *)
Definition is_alnum (c : ascii) : bool := is_digit c || is_upper c || is_lower c.
Fixpoint skip_alnum (s : string) : string :=
  match s with String c s' => if is_alnum c then skip_alnum s' else s | "" => "" end.
Definition starts_alnum (s : string) : bool :=
  match s with String c _ => is_alnum c | "" => false end.
Definition suffixes : list string := [".SH"; ".SZ"; ".HK"].
Definition newline : string := String (ascii_of_N 10) "".

Definition re_fullmatch (s : string) : bool :=
  starts_alnum s && existsb (fun e => bool_decide (skip_alnum s = e)) suffixes.
(** [match] with a final [$]: also just before a trailing newline. *)
Definition re_match (s : string) : bool :=
  starts_alnum s &&
  existsb (fun e => bool_decide (skip_alnum s = e) || bool_decide (skip_alnum s = e +:+ newline)) suffixes.

Definition is_valid_symbol (symbol : string) : bool := re_match symbol.

Definition require_finite_number (value : pyval) (field : string) : result float :=
  match py_float value with
  | Ok number => if isfinite number then Ok number else invalid field
  | Err TypeError | Err (ValueError _) => invalid field
  | Err e => Err e
  end.

Definition require_positive_number (value : pyval) (field : string) : result float :=
  number ← require_finite_number value field;
  if fle number f0 then invalid field else Ok number.

Definition require_timestamp (value : pyval) : result float :=
  number ← require_finite_number value "timestamp";
  if flt number f0 then invalid "timestamp" else Ok number.

(** The [turnover] block of [normalize_snapshot]: absent and [None] are the same. *)
Definition optional_turnover (value : pyval) : result (option float) :=
  match value with
  | PyNone => Ok None
  | _ => t ← require_finite_number value "turnover";
         if flt t f0 then invalid "turnover" else Ok (Some t)
  end.

(** [str(value)] as far as the symbol pattern can see: no non-string value prints as one. *)
Definition symbol_of (v : pyval) : option string := match v with PyStr s => Some s | _ => None end.

Definition get (raw : raw_row) (field : string) : pyval := default PyNone (od_get field raw).

Definition normalize_snapshot (raw : raw_row) (now : float) : result MarketSnapshot :=
  match filter (fun f => od_get f raw = None) REQUIRED_FIELDS with
  | f :: _ => Err (SnapshotValidationError ("missing field: " +:+ f))
  | [] =>
      symbol ← of_option (SnapshotValidationError "invalid symbol") (symbol_of (get raw "symbol"));
      if negb (re_fullmatch symbol) then invalid "symbol" else
      price ← require_positive_number (get raw "price") "price";
      open_ ← require_finite_number (get raw "open") "open";
      high ← require_finite_number (get raw "high") "high";
      low ← require_finite_number (get raw "low") "low";
      prev_close ← require_finite_number (get raw "prev_close") "prev_close";
      volume ← require_finite_number (get raw "volume") "volume";
      if flt volume f0 then invalid "volume" else
      market_timestamp ← require_timestamp (get raw "market_timestamp");
      turnover ← optional_turnover (get raw "turnover");
      Ok (mkSnapshot symbol price open_ high low prev_close volume turnover market_timestamp now)
  end.

(** Each accepted row reads the clock once; a [SnapshotValidationError] drops its row,
    any other exception ends the batch. *)
Fixpoint normalize_many (rows : list raw_row) (clock : nat -> float) (n : nat)
    : result (list MarketSnapshot * nat) :=
  match rows with
  | [] => Ok ([], n)
  | raw :: rows =>
      match normalize_snapshot raw (clock n) with
      | Ok s => '(rest, n) ← normalize_many rows clock (S n); Ok (s :: rest, n)
      | Err (SnapshotValidationError _) => normalize_many rows clock n
      | Err e => Err e
      end
  end.

Example float_str1 : float_of_str " 1_0.25e1 " = Some (flit 1025 1). Proof. vm_compute. reflexivity. Qed.
Example float_str2 : float_of_str "1__0" = None. Proof. vm_compute. reflexivity. Qed.
Example float_str3 : float_of_str ".5" = Some (flit 5 1). Proof. vm_compute. reflexivity. Qed.
Example float_str4 : float_of_str "1." = Some (flit 1 0). Proof. vm_compute. reflexivity. Qed.
Example float_str5 : float_of_str "." = None. Proof. vm_compute. reflexivity. Qed.
Example float_str6 : float_of_str "-Infinity" = Some (S754_infinity true). Proof. vm_compute. reflexivity. Qed.
Example float_str7 : float_of_str "1e" = None. Proof. vm_compute. reflexivity. Qed.

(** ** Lemmas *)
Lemma valid_decimal neg n k : valid (decimal neg n k) = true.
Proof.
  unfold decimal. destruct n as [|m|m]; [done| |done].
  destruct (0 <=? k); [apply normalize_spec; lia|].
  destruct (10 ^ (- k)) as [|d|d]; [done| |done].
  pose proof (div_core_spec (Zpos m) 0 (Zpos d) 0 ltac:(lia) ltac:(lia)) as D.
  destruct (SFdiv_core_binary _ _ _ _ _ _) as [[q e] l]. destruct D as (Hq & He & _).
  by apply round_aux_loc_spec.
Qed.

(** A raw value whose floats are binary64 values. *)
Definition raw_valid (v : pyval) : Prop := match v with PyFloat x => valid x = true | _ => True end.
Definition row_valid (raw : raw_row) : Prop := Forall (fun p => raw_valid p.2) raw.

Lemma valid_float_of_str s x : float_of_str s = Some x -> valid x = true.
Proof.
  unfold float_of_str. destruct (split_sign _) as [neg s']. cbn zeta.
  destruct (_ || _); [by intros [= <-]|]. case_bool_decide; [by intros [= <-]|].
  destruct (digits_run s' 0 0) as [[ip n1] rest].
  match goal with |- context [let '(_, _) := ?e in _] => destruct e as [[v n2] r] end.
  destruct (_ <=? 0); [done|]. destruct (exponent r) as [k|]; cbn; [|done].
  intros [= <-]. apply valid_decimal.
Qed.

Lemma py_float_valid v x : raw_valid v -> py_float v = Ok x -> valid x = true.
Proof.
  destruct v as [|[]|n|y|s|]; cbn; intros Hv; try done; [by intros [= <-]..| |by intros [= <-]|].
  - unfold of_Z. pose proof (normalize_spec n 0 false ltac:(lia)) as [[V _] _].
    destruct (binary_normalize _ _ _ _ _); cbn; intros [= <-]; done.
  - destruct (float_of_str s) eqn:E; cbn; [|done]. intros [= <-]. by eapply valid_float_of_str.
Qed.

Lemma get_valid raw f : row_valid raw -> raw_valid (get raw f).
Proof.
  intros H. unfold get. destruct (od_get f raw) as [v|] eqn:E; [|done]. cbn.
  apply od_get_elem in E. by apply (proj1 (Forall_forall _ _) H) in E.
Qed.

Lemma require_finite_ok v f x : raw_valid v -> require_finite_number v f = Ok x ->
  fin x /\ py_float v = Ok x.
Proof.
  unfold require_finite_number. intros Hv. destruct (py_float v) as [y|e] eqn:E.
  - destruct (isfinite y) eqn:F; [|done]. intros [= <-]. split; [|done]. split; [|done].
    by eapply py_float_valid.
  - by destruct e.
Qed.

Lemma require_positive_ok v f x : raw_valid v -> require_positive_number v f = Ok x ->
  fin x /\ 0 < fval x /\ py_float v = Ok x.
Proof.
  unfold require_positive_number. intros Hv. destruct (require_finite_number v f) as [y|] eqn:E; [|done].
  apply require_finite_ok in E as [F E]; [|done]. cbn. destruct (fle y f0) eqn:L; [done|].
  intros [= <-]. fcmp. done.
Qed.

Lemma require_timestamp_ok v x : raw_valid v -> require_timestamp v = Ok x ->
  fin x /\ 0 <= fval x /\ py_float v = Ok x.
Proof.
  unfold require_timestamp. intros Hv. destruct (require_finite_number v _) as [y|] eqn:E; [|done].
  apply require_finite_ok in E as [F E]; [|done]. cbn. destruct (flt y f0) eqn:L; [done|].
  intros [= <-]. fcmp. done.
Qed.

Lemma optional_turnover_ok v t : raw_valid v -> optional_turnover v = Ok t ->
  from_option fin True t /\ from_option (fun t => 0 <= fval t) True t.
Proof.
  intros Hv H. assert (v = PyNone /\ t = None \/ exists x, t = Some x /\
    require_finite_number v "turnover" = Ok x /\ flt x f0 = false) as [[-> ->]|(x & -> & E & L)]; [|done|].
  { destruct v; [left; cbn in H; by simplify_eq|..]; right; unfold optional_turnover in H;
      (destruct (require_finite_number _ _) as [y|]; [|done]); cbn in H;
      (destruct (flt y f0) eqn:L; [done|]); exists y; by simplify_eq. }
  apply require_finite_ok in E as [F _]; [|done]. fcmp. done.
Qed.

(** What a normalised snapshot promises to every later component. *)
Record snapshot_ok (s : MarketSnapshot) : Prop := {
  so_symbol : re_fullmatch (sn_symbol s) = true;
  so_finite : snapshot_finite s;
  so_price : 0 < fval (sn_price s);
  so_volume : 0 <= fval (sn_volume s);
  so_turnover : from_option (fun t => 0 <= fval t) True (sn_turnover s);
  so_ts : 0 <= fval (sn_market_ts s)
}.

Ltac ok_step := let a := fresh "a" in let E := fresh "E" in
  match goal with
  | |- (_ ≫= _) = Ok _ -> _ => rewrite bind_ok; intros (a & E & ?)
  | H : (_ ≫= _) = Ok _ |- _ => rewrite bind_ok in H; destruct H as (a & E & H)
  | H : (if ?b then _ else _) = Ok _ |- _ => destruct b eqn:?; [done|]
  end.

(** ** Properties *)

(** Reads off what each required field was. *)
Ltac read_fields raw :=
  repeat match goal with
    | E : require_finite_number (get raw _) _ = Ok _ |- _ => apply require_finite_ok in E as [? ?]; [|done]
    | E : require_positive_number (get raw _) _ = Ok _ |- _ => apply require_positive_ok in E as (? & ? & ?); [|done]
    | E : optional_turnover (get raw _) = Ok _ |- _ => apply optional_turnover_ok in E as [? ?]; [|done]
    | E : require_timestamp (get raw _) = Ok _ |- _ => apply require_timestamp_ok in E as (? & ? & ?); [|done]
    end.

Lemma normalize_snapshot_wf raw now s : row_valid raw -> normalize_snapshot raw now = Ok s -> snapshot_ok s /\ sn_received_ts s = now.
Proof.
  intros Hr. unfold normalize_snapshot. destruct (filter _ _); [|done].
  pose proof (get_valid raw) as G. specialize (fun f => G f Hr).
  intros H. repeat ok_step. simplify_eq. cbn. read_fields raw. fcmp. split; [|done].
  split; cbn; try done. by apply negb_false_iff.
Qed.

(** ** What a row must be *)
Definition finite_of (v : pyval) : option float :=
  match py_float v with Ok x => if isfinite x then Some x else None | Err _ => None end.
Definition number_with (p : float -> bool) (v : pyval) : bool := from_option p false (finite_of v).
Definition anything (_ : float) : bool := true.
Definition not_negative (x : float) : bool := negb (flt x f0).

Definition turnover_acceptable (v : pyval) : bool := match v with PyNone => true | _ => number_with not_negative v end.

(** The rows the program means to keep, whatever the order it looks at the fields. *)
Definition row_acceptable (raw : raw_row) : bool :=
  match get raw "symbol" with PyStr s => re_fullmatch s | _ => false end &&
  number_with (fun x => negb (fle x f0)) (get raw "price") &&
  forallb (fun f => number_with anything (get raw f)) ["open"; "high"; "low"; "prev_close"] &&
  number_with not_negative (get raw "volume") && number_with not_negative (get raw "market_timestamp") &&
  turnover_acceptable (get raw "turnover").

(** Every field of the snapshot is the row's, as [float()] reads it. *)
Record carries (raw : raw_row) (s : MarketSnapshot) : Prop := {
  ca_symbol : get raw "symbol" = PyStr (sn_symbol s);
  ca_price : py_float (get raw "price") = Ok (sn_price s);
  ca_open : py_float (get raw "open") = Ok (sn_open s);
  ca_high : py_float (get raw "high") = Ok (sn_high s);
  ca_low : py_float (get raw "low") = Ok (sn_low s);
  ca_prev_close : py_float (get raw "prev_close") = Ok (sn_prev_close s);
  ca_volume : py_float (get raw "volume") = Ok (sn_volume s);
  ca_turnover : match sn_turnover s with None => get raw "turnover" = PyNone | Some t => py_float (get raw "turnover") = Ok t end;
  ca_ts : py_float (get raw "market_timestamp") = Ok (sn_market_ts s)
}.

Lemma require_finite_of v f x : require_finite_number v f = Ok x <-> finite_of v = Some x.
Proof.
  unfold require_finite_number, finite_of, invalid. destruct (py_float v) as [y|e]; [|by destruct e]. destruct (isfinite y); split; congruence.
Qed.
Lemma finite_float v x : finite_of v = Some x -> py_float v = Ok x.
Proof. unfold finite_of. destruct (py_float v) as [y|]; [|done]. destruct (isfinite y); [congruence|done]. Qed.
Lemma number_with_some p v : number_with p v = true <-> exists x, finite_of v = Some x /\ p x = true.
Proof. unfold number_with. destruct (finite_of v) as [y|]; cbn; [|naive_solver]. split; [by exists y|]. by intros (? & [= ->] & ?). Qed.
Lemma turnover_of v t : optional_turnover v = Ok t ->
  turnover_acceptable v = true /\
  match t with None => v = PyNone | Some t => py_float v = Ok t end.
Proof.
  intros H. assert (v = PyNone /\ t = None \/ (v <> PyNone /\ exists x, require_finite_number v "turnover" = Ok x /\ flt x f0 = false /\ t = Some x))
    as [[-> ->]|(N & x & E & L & ->)]; [|done|].
  { destruct v; [left; by injection H|..]; (right; split; [done|]; cbn [optional_turnover] in H; ok_step; ok_step; by exists a; injection H). }
  apply require_finite_of in E. split; [|by apply finite_float]. unfold turnover_acceptable.
  destruct v; try done; (apply number_with_some; exists x; split; [exact E|unfold not_negative; by rewrite L]).
Qed.
Lemma turnover_accepted v : turnover_acceptable v = true -> exists t, optional_turnover v = Ok t.
Proof.
  intros H. assert (v = PyNone \/ v <> PyNone) as [->|N] by (destruct v; first [by left|by right]); [by exists None|].
  assert (number_with not_negative v = true) as (x & E & L%negb_true_iff)%number_with_some by by destruct v.
  apply (require_finite_of _ "turnover") in E. exists (Some x). destruct v; try done; unfold optional_turnover; rewrite E; cbn; by rewrite L.
Qed.

Lemma acceptable_present raw : row_acceptable raw = true -> filter (fun f => od_get f raw = None) REQUIRED_FIELDS = [].
Proof.
  intros A. unfold REQUIRED_FIELDS.
  assert (N : forall f, get raw f <> PyNone -> od_get f raw <> None) by (unfold get; intros f H E; rewrite E in H; by apply H).
  assert (M : forall p f, number_with p (get raw f) = true -> od_get f raw <> None).
  { intros p f H. apply N. intros E. rewrite E in H. discriminate. }
  unfold row_acceptable in A. rewrite !andb_true_iff in A. destruct A as (((((As & Ap) & Af) & Av) & At) & _). cbn [forallb] in Af. rewrite !andb_true_iff in Af.
  destruct Af as (Ao & Ah & Al & Ac & _). rewrite filter_cons_False by (apply N; intros E; by rewrite E in As). by rewrite !filter_cons_False by eauto.
Qed.
Lemma accepted_ok raw now : row_acceptable raw = true -> exists s, normalize_snapshot raw now = Ok s.
Proof.
  intros A. unfold normalize_snapshot. rewrite (acceptable_present raw A). unfold row_acceptable in A. rewrite !andb_true_iff in A.
  destruct A as (((((As & Ap) & Af) & Av) & At) & Au). cbn [forallb] in Af. rewrite !andb_true_iff in Af. destruct Af as (Ao & Ah & Al & Ac & _).
  destruct (get raw "symbol"); try done. cbn [of_option symbol_of mbind result_bind]. rewrite As. cbn [negb].
  unfold require_positive_number, require_timestamp.
  apply number_with_some in Ap as (p & Ep & Lp%negb_true_iff), Ao as (o & Eo & _), Ah as (h & Eh & _), Al as (l & El & _), Ac as (c & Ec & _),
    Av as (v & Ev & Lv%negb_true_iff), At as (t & Et & Lt%negb_true_iff). apply turnover_accepted in Au as (u & Eu).
  rewrite (proj2 (require_finite_of _ _ _) Ep). cbn [mbind result_bind]. rewrite Lp. cbn [mbind result_bind].
  rewrite (proj2 (require_finite_of _ _ _) Eo), (proj2 (require_finite_of _ _ _) Eh), (proj2 (require_finite_of _ _ _) El), (proj2 (require_finite_of _ _ _) Ec),
    (proj2 (require_finite_of _ _ _) Ev). cbn [mbind result_bind]. rewrite Lv, (proj2 (require_finite_of _ _ _) Et). cbn [mbind result_bind]. rewrite Lt, Eu. by eexists.
Qed.
Lemma ok_accepted raw now s : normalize_snapshot raw now = Ok s -> row_acceptable raw = true /\ carries raw s.
Proof.
  unfold normalize_snapshot. destruct (filter _ _); [|done]. unfold require_positive_number, require_timestamp. intros H. repeat ok_step.
  assert (Es : get raw "symbol" = PyStr a) by (destruct (get raw "symbol"); cbn in E; congruence).
  repeat match goal with E : (_ ≫= _) = Ok _ |- _ => ok_step; ok_step end. simplify_eq.
  match goal with E : optional_turnover _ = Ok _ |- _ => apply turnover_of in E as [Tu Tc] end.
  repeat match goal with E : require_finite_number _ _ = Ok _ |- _ => apply require_finite_of in E end.
  split; [|split; cbn; eauto using finite_float].
  unfold row_acceptable. rewrite Es, Tu. cbn [forallb]. rewrite !andb_true_iff. split_and!; try done; try (by apply negb_false_iff);
    (apply number_with_some; eexists; split; [eassumption|try done; by apply negb_true_iff]).
Qed.

(** C39: [normalize_snapshot] accepts exactly the acceptable rows: a symbol that matches the
    pattern in full, a positive finite price, finite open, extremes and previous close, a
    finite volume, market timestamp and (unless absent or [None]) turnover that are not
    negative.  The snapshot keeps the snapshot contract, bears the clock's reading, and each
    of its fields is the row's: the symbol itself, every number [float()] of the row's value. *)
Theorem normalize_snapshot_ok raw now : row_valid raw ->
  (row_acceptable raw = true <-> exists s, normalize_snapshot raw now = Ok s) /\
  forall s, normalize_snapshot raw now = Ok s -> snapshot_ok s /\ sn_received_ts s = now /\ carries raw s.
Proof.
  intros Hr. split; [split; [apply accepted_ok|by intros (s & [? _]%ok_accepted)]|]. intros s E. destruct (normalize_snapshot_wf _ _ _ Hr E).
  split_and!; [done..|exact (proj2 (ok_accepted _ _ _ E))].
Qed.

(** The exceptions of one row: a validation error, or an integer too large for a float. *)
Definition row_error (e : exn) : Prop := (exists m, e = SnapshotValidationError m) \/ e = OverflowError.

Lemma py_float_error v e : py_float v = Err e -> e = TypeError \/ (exists m, e = ValueError m) \/ e = OverflowError.
Proof.
  destruct v; cbn; intros H; try (simplify_eq; naive_solver); unfold of_option in H; case_match; naive_solver.
Qed.

Lemma require_finite_error v f e : require_finite_number v f = Err e -> row_error e.
Proof.
  unfold require_finite_number, invalid, row_error. destruct (py_float v) as [y|e'] eqn:E.
  - destruct (isfinite y); naive_solver.
  - apply py_float_error in E as [->|[[m ->]| ->]]; naive_solver.
Qed.

Lemma bind_error {A B} (r : result A) (k : A -> result B) e (P : exn -> Prop) :
  (forall e, r = Err e -> P e) -> (forall a e, k a = Err e -> P e) -> r ≫= k = Err e -> P e.
Proof. destruct r as [a|e']; cbn; [|intros H _ [= <-]]; eauto. Qed.

Lemma normalize_snapshot_error raw now e : normalize_snapshot raw now = Err e -> row_error e.
Proof.
  assert (I : forall A f e, @invalid A f = Err e -> row_error e).
  { unfold invalid, row_error. naive_solver. }
  assert (P : forall v f e, require_positive_number v f = Err e -> row_error e).
  { intros v f e'. unfold require_positive_number. apply bind_error; [apply require_finite_error|].
    intros y e''. case_match; [apply I|done]. }
  assert (T : forall v e, require_timestamp v = Err e -> row_error e).
  { intros v e'. unfold require_timestamp. apply bind_error; [apply require_finite_error|].
    intros y e''. case_match; [apply I|done]. }
  assert (U : forall v e, optional_turnover v = Err e -> row_error e).
  { intros v e'. unfold optional_turnover. destruct v; try done;
      (apply bind_error; [apply require_finite_error|]; intros y e''; case_match; [apply I|done]). }
  unfold normalize_snapshot. destruct (filter _ _); [|intros [= <-]; left; by eexists].
  apply bind_error.
  { unfold of_option. intros e'. case_match; [done|]. intros [= <-]. left. by eexists. }
  intros ? ?. case_match; [apply I|].
  repeat first [apply bind_error; [solve [eauto using require_finite_error]|intros ? ?]
               | case_match; [apply I|]]; done.
Qed.

Lemma normalize_many_wf rows clock : Forall row_valid rows -> forall n out n', normalize_many rows clock n = Ok (out, n') -> Forall snapshot_ok out.
Proof.
  induction 1 as [|raw rows Hr _ IH]; intros n out n'; cbn [normalize_many]; [by intros [= <- _]|].
  destruct (normalize_snapshot raw (clock n)) as [s|e] eqn:E.
  - destruct (normalize_many rows clock (S n)) as [[rest k]|e] eqn:E'; [|done]. intros [= <- _]. constructor; [|by eapply IH].
    by eapply normalize_snapshot_wf.
  - destruct e; try done. apply IH.
Qed.

Lemma error_refused raw now e : normalize_snapshot raw now = Err e -> row_acceptable raw = false.
Proof. intros E. apply not_true_is_false. intros (s & E')%(accepted_ok raw now). congruence. Qed.

(** C35: a batch keeps exactly its acceptable rows, in order: the snapshots stand one for one
    for those rows, each carrying its row's values, satisfying the snapshot contract and
    stamped with a clock reading of its own; the only exception that can
    abort it is the [OverflowError] of an integer beyond the float range, which the row
    filter does not catch. *)
Theorem normalize_many_spec rows clock : Forall row_valid rows -> forall n,
  match normalize_many rows clock n with
  | Ok (out, n') => n' = (n + length out)%nat /\
      Forall2 carries (filter (fun raw => row_acceptable raw = true) rows) out /\
      Forall snapshot_ok out /\
      (forall i s, out !! i = Some s -> sn_received_ts s = clock (n + i)%nat)
  | Err e => e = OverflowError /\ exists raw now, raw ∈ rows /\ normalize_snapshot raw now = Err e
  end.
Proof.
  induction 1 as [|raw rows Hr _ IH]; intros n; cbn [normalize_many]; [cbn; split_and!; [lia|constructor..|done]|].
  destruct (normalize_snapshot raw (clock n)) as [s|e] eqn:E.
  - specialize (IH (S n)). destruct (normalize_many rows clock (S n)) as [[out n']|e]; cbn [mbind result_bind].
    + destruct (normalize_snapshot_wf _ _ _ Hr E) as [Hs Ht]. destruct (ok_accepted _ _ _ E) as [Ha Hc].
      destruct IH as (-> & Hf & Ho & Hk). rewrite filter_cons_True by done. cbn [length]. split_and!; [lia|by constructor|by constructor|].
      intros [|i] s'; cbn; [intros [= <-]; by rewrite Nat.add_0_r|].
      intros Hi. rewrite (Hk _ _ Hi). f_equal. lia.
    + destruct IH as (-> & raw' & now & Hin & He). split; [done|]. exists raw', now. split; [by right|done].
  - pose proof (normalize_snapshot_error _ _ _ E) as [[m ->]| ->].
    + specialize (IH n). rewrite filter_cons_False by (by rewrite (error_refused _ _ _ E)).
      destruct (normalize_many rows clock n) as [[out n']|e]; [done|].
      destruct IH as (-> & raw' & now & Hin & He). split; [done|]. exists raw', now. split; [by right|done].
    + split; [done|]. exists raw, (clock n). split; [by left|done].
Qed.

Definition demo_row (symbol : string) (price : pyval) : raw_row :=
  [("symbol", PyStr symbol); ("price", price); ("open", PyStr "10"); ("high", PyInt 11);
   ("low", PyInt 9); ("prev_close", PyFloat (flit 10 0)); ("volume", PyInt 100);
   ("market_timestamp", PyInt 1700000000)].

Lemma demo_row_valid symbol price : raw_valid price -> row_valid (demo_row symbol price).
Proof. repeat constructor; done. Qed.

Definition demo_snap : MarketSnapshot :=
  mkSnapshot "600519.SH" (flit 105 1) (flit 10 0) (flit 11 0) (flit 9 0) (flit 10 0) (flit 100 0) None
    (flit 1700000000 0) (flit 5 0).

Lemma normalize_snapshot_witness :
  exists s, normalize_snapshot (demo_row "600519.SH" (PyStr "10.5")) (flit 5 0) = Ok s /\ snapshot_ok s /\ s = demo_snap.
Proof.
  destruct (normalize_snapshot_ok (demo_row "600519.SH" (PyStr "10.5")) (flit 5 0) ltac:(by apply demo_row_valid)) as [[A _] C].
  destruct (A ltac:(vm_compute; reflexivity)) as (s & E). exists s. split; [exact E|]. split; [by apply C|].
  assert (H : Ok s = Ok demo_snap) by (rewrite <- E; vm_compute; reflexivity). by injection H.
Defined.

Definition demo_batch : list raw_row :=
  [demo_row "600519.SH" (PyStr "10.5"); demo_row "BAD" (PyInt 1); demo_row "000001.SZ" (PyInt 0); demo_row "700.HK" (PyInt 7)].
Lemma demo_batch_runs : exists p, normalize_many demo_batch (fun _ => f0) 0 = Ok p.
Proof. vm_compute. by eexists. Qed.
Lemma normalize_many_witness : exists out n, normalize_many demo_batch (fun _ => f0) 0 = Ok (out, n) /\ sn_symbol <$> out = ["600519.SH"; "700.HK"].
Proof.
  pose proof (normalize_many_spec demo_batch (fun _ => f0) ltac:(repeat (apply Forall_cons_2; [by apply demo_row_valid|]); apply Forall_nil_2) 0%nat) as H.
  destruct demo_batch_runs as [[out n] E]. rewrite E in H. destruct H as (_ & F & _). exists out, n. split; [exact E|].
  vm_compute in F. apply Forall2_cons_inv_l in F as (a & l & [Ha _] & F & ->). apply Forall2_cons_inv_l in F as (b & l' & [Hb _] & F & ->).
  apply Forall2_nil_inv_l in F as ->. cbn in Ha, Hb |- *. injection Ha as <-. by injection Hb as <-.
Defined.

(** ** The two symbol checks *)
Lemma append_cons c s t : String c s +:+ t = String c (s +:+ t).
Proof. done. Qed.

Lemma skip_alnum_app s : skip_alnum (s +:+ newline) = skip_alnum s +:+ newline.
Proof.
  induction s as [|c s IH]; [done|]. rewrite append_cons. cbn [skip_alnum].
  by destruct (is_alnum c).
Qed.

Lemma starts_alnum_app s : starts_alnum (s +:+ newline) = starts_alnum s.
Proof. by destruct s. Qed.

Lemma skip_alnum_split s e : skip_alnum s = e +:+ newline -> exists s', s = s' +:+ newline /\ skip_alnum s' = e.
Proof.
  induction s as [|c s IH]; cbn [skip_alnum]; [by destruct e|]. destruct (is_alnum c) eqn:A.
  - intros H. destruct (IH H) as (s' & -> & Hs). exists (String c s'). cbn [skip_alnum]. by rewrite A.
  - intros H. destruct e as [|d e]; [|rewrite append_cons in H].
    + simplify_eq. by exists "".
    + injection H as -> ->. exists (String d e). cbn [skip_alnum]. by rewrite A.
Qed.

(** [is_valid_symbol_spec] [is_valid_symbol] is not the rule of [normalize_snapshot], as its docstring says:
    it also accepts every valid symbol followed by a newline. *)
Theorem is_valid_symbol_spec s :
  is_valid_symbol s = true <->
  re_fullmatch s = true \/ exists s', s = s' +:+ newline /\ re_fullmatch s' = true.
Proof.
  unfold is_valid_symbol, re_match, re_fullmatch. rewrite !andb_true_iff, !existsb_exists. split.
  - intros (Ha & e & Hin & [He|He]%orb_true_iff).
    + left. split; [done|]. by exists e.
    + right. apply bool_decide_eq_true in He.
      destruct (skip_alnum_split s e He) as (s' & -> & Hs). exists s'. split; [done|].
      rewrite andb_true_iff, existsb_exists. split; [by rewrite starts_alnum_app in Ha|].
      exists e. split; [done|]. by rewrite bool_decide_eq_true.
  - intros [(Ha & e & Hin & He)|(s' & -> & [Ha (e & Hin & He)%existsb_exists]%andb_true_iff)].
    + split; [done|]. exists e. by rewrite He.
    + split; [by rewrite starts_alnum_app|]. exists e. split; [done|].
      apply bool_decide_eq_true in He. rewrite skip_alnum_app, He.
      apply orb_true_iff. right. by apply bool_decide_eq_true.
Qed.

Example is_valid_symbol_newline :
  is_valid_symbol ("600519.SH" +:+ newline) = true /\ re_fullmatch ("600519.SH" +:+ newline) = false.
Proof. vm_compute. done. Qed.
