(* ===== verification/NumberText.v ===== *)
(** * Decimal text of numbers: [int.__repr__], [float.__repr__] and the JSON number grammar

    The number part of Python's [json] module, which telemetry/jsonl.py, ipc/codec.py,
    watchlist.py and tuning/store.py use: the scanner of a JSON number, the digits of an
    integer, the shortest digits of a float that read back as the same float.  Reading back
    what was printed gives the number that was printed. *)
From Stdlib Require Import ZArith Lia Ascii String.
From Corelib Require Import SpecFloat.
From stdpp Require Import prelude strings.
From S2P Require Import Prelude PyFloat Domain Normalizer.
Local Open Scope Z_scope.

(** ** Integers *)
Definition digit_char (d : Z) : ascii := ascii_of_N (Z.to_N (48 + d)).

Fixpoint dec_digits (fuel : nat) (n : Z) (acc : string) : string :=
  match fuel with
  | O => acc
  | S fuel =>
      let acc := String (digit_char (n mod 10)) acc in
      if n <? 10 then acc else dec_digits fuel (n / 10) acc
  end.
Definition dec (n : Z) : string := dec_digits (Z.to_nat (bits n + 1)) n "".
Definition int_repr (n : Z) : string := if n <? 0 then String "-" (dec (- n)) else dec n.

(** A maximal run of digits: its value after [acc], its length after [n], the rest. *)
Fixpoint scan_digits (s : string) (acc : Z) (n : nat) : Z * nat * string :=
  match s with
  | String c s' => if is_digit c then scan_digits s' (10 * acc + (code c - 48)) (S n) else (acc, n, s)
  | "" => (acc, n, "")
  end.

Definition starts_digit (s : string) : bool := match s with String c _ => is_digit c | "" => false end.

(** ** The JSON number *)
Definition eat (c : ascii) (s : string) : option string :=
  match s with String d s' => if decide (c = d) then Some s' else None | "" => None end.

Definition int_part (s : string) : option (Z * nat * string) :=
  match eat "0" s with
  | Some s' => Some (0, 1%nat, s')
  | None => if starts_digit s then Some (scan_digits s 0 0) else None
  end.
Definition frac_part (s : string) (ip : Z) : Z * nat * string :=
  match eat "." s with
  | Some s' => if starts_digit s' then scan_digits s' ip 0 else (ip, 0%nat, s)
  | None => (ip, 0%nat, s)
  end.
Definition exp_part (s : string) : option Z * string :=
  match s with
  | String c s' =>
      if decide (lower_ascii c = "e"%char) then
        let '(neg, s1) := split_sign s' in
        let '(v, n, r) := scan_digits s1 0 0 in
        match n with O => (None, s) | S _ => (Some (sgn neg v), r) end
      else (None, s)
  | "" => (None, "")
  end.

(** An integer literal, or a float; [None]: no number here.  The digits of the integer part
    are counted, for the limit of [int(str)]. *)
Inductive number := NInt (n : Z) (digits : nat) | NFloat (x : float).
#[export] Instance number_eq : EqDecision number.
Proof. solve_decision. Defined.

Definition scan_number (s : string) : option (number * string) :=
  let '(neg, s1) := match eat "-" s with Some s1 => (true, s1) | None => (false, s) end in
  '(ip, n, r) ← int_part s1;
  let '(v, nf, r1) := frac_part r ip in
  match nf, exp_part r1 with
  | O, (None, r2) => Some (NInt (sgn neg ip) n, r2)
  | _, (e, r2) => Some (NFloat (decimal neg v (default 0 e - Z.of_nat nf)), r2)
  end.

(** ** [float.__repr__] of a finite float

    [x] is [N * 10^k] exactly.  For [n = 1 .. 17] the two [n]-digit neighbours of [x] are
    tried, the closer one first, and the first that reads back as [x] is printed; 17 digits
    are always enough for a binary64, and the exact expansion closes the definition. *)
Definition exact_decimal (m : positive) (e : Z) : Z * Z :=
  if 0 <=? e then (Zpos m * 2 ^ e, 0) else (Zpos m * 5 ^ (- e), e).

Definition ndigits (n : Z) : Z := Z.of_nat (String.length (dec n)).
Fixpoint zeros (n : nat) : string := match n with O => "" | S n => String "0" (zeros n) end.

Fixpoint strip_zeros (fuel : nat) (d q : Z) : Z * Z :=
  match fuel with
  | O => (d, q)
  | S fuel => if d mod 10 =? 0 then strip_zeros fuel (d / 10) (q + 1) else (d, q)
  end.

Definition exp_text (x : Z) : string :=
  let a := dec (Z.abs x) in
  String "e" (String (if x <? 0 then "-"%char else "+"%char) (if (String.length a <? 2)%nat then String "0" a else a)).

(** [d * 10^q] in the style of [repr]. *)
Definition format_repr (neg : bool) (d q : Z) : string :=
  let '(d, q) := strip_zeros (String.length (dec d)) d q in
  let ds := dec d in
  let n := ndigits d in
  let decpt := n + q in
  let body :=
    if (-4 <? decpt) && (decpt <=? 16) then
      if decpt <=? 0 then "0." +:+ (zeros (Z.to_nat (- decpt)) +:+ ds)
      else if n <=? decpt then ds +:+ (zeros (Z.to_nat (decpt - n)) +:+ ".0")
      else String.substring 0 (Z.to_nat decpt) ds +:+ String "." (String.substring (Z.to_nat decpt) (Z.to_nat (n - decpt)) ds)
    else
      let tail := String.substring 1 (Z.to_nat (n - 1)) ds in
      String.substring 0 1 ds +:+ ((if n =? 1 then "" else String "." tail) +:+ exp_text (decpt - 1))
  in
  if neg then String "-" body else body.

Definition candidates (neg : bool) (big nd k n : Z) : list string :=
  let drop := nd - n in
  if drop <=? 0 then [format_repr neg big k]
  else
    let lo := big / 10 ^ drop in
    let below := format_repr neg lo (k + drop) in
    let above := format_repr neg (lo + 1) (k + drop) in
    match 2 * (big mod 10 ^ drop) ?= 10 ^ drop with
    | Lt => [below; above]
    | Gt => [above; below]
    | Eq => if Z.even lo then [below; above] else [above; below]
    end.

Definition reads_as (x : float) (s : string) : bool := bool_decide (scan_number s = Some (NFloat x, "")).

Fixpoint shortest (x : float) (neg : bool) (big nd k : Z) (fuel : nat) (n : Z) : option string :=
  match fuel with
  | O => None
  | S fuel => match filter (fun t => reads_as x t = true) (candidates neg big nd k n) with
              | t :: _ => Some t
              | [] => shortest x neg big nd k fuel (n + 1)
              end
  end.

Definition exact_text (neg : bool) (big k : Z) : string :=
  let body := dec big +:+ ("e-" +:+ dec (- k)) in if neg then String "-" body else body.

Definition float_repr (x : float) : string :=
  match x with
  | S754_zero s => if s then "-0.0" else "0.0"
  | S754_infinity s => if s then "-inf" else "inf"
  | S754_nan => "nan"
  | S754_finite s m e =>
      let '(big, k) := exact_decimal m e in
      default (exact_text s big k) (shortest x s big (ndigits big) k 17 1)
  end.

Example repr1 : float_repr (flit 1 1) = "0.1". Proof. vm_compute. reflexivity. Qed.
Example repr2 : float_repr (flit 17853 2) = "178.53". Proof. vm_compute. reflexivity. Qed.
Example repr3 : float_repr (flit (10 ^ 16) 0) = "1e+16". Proof. vm_compute. reflexivity. Qed.
Example repr4 : float_repr (flit (10 ^ 15) 0) = "1000000000000000.0". Proof. vm_compute. reflexivity. Qed.
Example repr5 : float_repr (flit 1 4) = "0.0001". Proof. vm_compute. reflexivity. Qed.
Example repr6 : float_repr (flit (-15) 6) = "-1.5e-05". Proof. vm_compute. reflexivity. Qed.
Example repr7 : float_repr (S754_finite false 4503599627370496 (-96)) = "5.684341886080802e-14". Proof. vm_compute. reflexivity. Qed.

(** ** The exact expansion reads back *)
Lemma finite_unique x s m e : num x -> valid (S754_finite s m e) = true ->
  fval x = fval (S754_finite s m e) -> x = S754_finite s m e.
Proof.
  intros [Vx Nx] V E. pose proof (finite_bound s m e V) as B. pose proof fval_max_big.
  pose proof (valid_finite_inv _ _ _ V) as (C & _ & L).
  assert (P : 0 < 2 ^ (e + 1074)) by (apply Z.pow_pos_nonneg; lia).
  destruct x as [s'|s'| |s' m' e']; cbn [fval] in *; [destruct s; cbn [sgn] in E; nia| |done|].
  { destruct s, s'; cbn [sgn] in *; nia. }
  pose proof (valid_finite_inv _ _ _ Vx) as (C' & _ & L').
  assert (P' : 0 < 2 ^ (e' + 1074)) by (apply Z.pow_pos_nonneg; lia).
  assert (s' = s) as -> by (destruct s, s'; cbn [sgn] in E; [done|nia|nia|done]).
  assert (E' : Zpos m' * 2 ^ (e' + 1074) = Zpos m * 2 ^ (e + 1074)) by (destruct s; cbn [sgn] in E; lia).
  assert (D : Zpos (digits2_pos m') + (e' + 1074) = Zpos (digits2_pos m) + (e + 1074)).
  { pose proof (bits_shift m' (e' + 1074) ltac:(lia)) as B1. pose proof (bits_shift m (e + 1074) ltac:(lia)) as B2.
    rewrite E' in B1. rewrite B1 in B2. cbn [bits] in B2. lia. }
  assert (e' = e) as -> by (rewrite fexp_unfold in *; lia).
  f_equal. assert (Zpos m' = Zpos m) by nia. congruence.
Qed.

Lemma bits_mul_le a b : bits (Zpos (a * b)) <= bits (Zpos a) + bits (Zpos b).
Proof.
  cbn [bits]. pose proof (digits2_pos_bound a) as A. pose proof (digits2_pos_bound b) as B.
  pose proof (digits2_pos_bound (a * b)) as [H _]. rewrite Pos2Z.inj_mul in H.
  assert (2 ^ (Zpos (digits2_pos (a * b)) - 1) < 2 ^ (Zpos (digits2_pos a) + Zpos (digits2_pos b)))
    by (rewrite Z.pow_add_r by lia; nia).
  apply Z.pow_lt_mono_r_iff in H0; lia.
Qed.

(** The division of the exact expansion is exact. *)
Lemma div_core_exact m e p d : valid (S754_finite false m e) = true -> e < 0 ->
  Zpos p = Zpos m * 5 ^ (- e) -> Zpos d = 10 ^ (- e) ->
  exists j, 0 <= j /\ SFdiv_core_binary 53 1024 (Zpos p) 0 (Zpos d) 0 = (Zpos m * 2 ^ j, e - j, loc_Exact).
Proof.
  intros V He Ep Ed. pose proof (valid_finite_inv _ _ _ V) as (C & _ & L). rewrite fexp_unfold in C.
  assert (P5 : 0 < 5 ^ (- e)) by (apply Z.pow_pos_nonneg; lia).
  destruct (5 ^ (- e)) as [|u|u] eqn:E5; [lia| |lia].
  assert (Hd : Zpos d = Zpos u * 2 ^ (- e)) by (rewrite Ed, <- E5, <- Z.pow_mul_l; done).
  assert (B : bits (Zpos p) - bits (Zpos d) <= bits (Zpos m) + e).
  { rewrite Hd, bits_shift by lia. rewrite Ep. pose proof (bits_mul_le m u). rewrite Pos2Z.inj_mul in *. lia. }
  unfold SFdiv_core_binary. cbn zeta.
  change (Zdigits2 (Zpos p)) with (bits (Zpos p)). change (Zdigits2 (Zpos d)) with (bits (Zpos d)).
  rewrite !Z.add_0_r, Z.sub_0_r. set (e1 := Z.min (fx (bits (Zpos p) - bits (Zpos d))) 0).
  assert (He1 : e1 <= e) by (unfold e1; rewrite fexp_unfold; cbn [bits] in *; lia).
  exists (e - e1). split; [lia|].
  assert ((match 0 - e1 with Z0 => Zpos p | Zpos _ => Z.shiftl (Zpos p) (0 - e1) | Zneg _ => 0 end)
          = Zpos m * 2 ^ (e - e1) * Zpos d) as ->.
  { transitivity (Zpos p * 2 ^ (- e1)).
    { destruct (0 - e1) eqn:Ee; [lia| |lia]. rewrite Z.shiftl_mul_pow2 by lia. do 2 f_equal. lia. }
    rewrite Ep, Hd. replace (- e1) with ((e - e1) + (- e)) by lia. rewrite Z.pow_add_r by lia. ring. }
  pose proof (Z.div_mul (Zpos m * 2 ^ (e - e1)) (Zpos d) ltac:(lia)) as Q.
  pose proof (Z.mod_mul (Zpos m * 2 ^ (e - e1)) (Zpos d) ltac:(lia)) as R.
  unfold Z.div, Z.modulo in Q, R. destruct (Z.div_eucl _ _) as [q r]. subst q r.
  rewrite Z.sub_sub_distr, Z.sub_diag, Z.add_0_l. f_equal.
  unfold new_location, new_location_even, new_location_odd. by destruct (Z.even (Zpos d)).
Qed.

(** [decimal] of the exact expansion of a float is that float. *)
Lemma decimal_exact s m e : valid (S754_finite s m e) = true ->
  let '(big, k) := exact_decimal m e in 0 < big /\ k <= 0 /\ decimal s big k = S754_finite s m e.
Proof.
  intros V. unfold exact_decimal. destruct (Z.leb_spec 0 e) as [He|He].
  - assert (P : 0 < 2 ^ e) by (apply Z.pow_pos_nonneg; lia). split; [lia|]. split; [done|].
    unfold decimal. destruct (Zpos m * 2 ^ e) as [|p|p] eqn:Ep; [lia| |lia].
    destruct (normalize_spec (sgn s (Zpos p * 10 ^ 0)) 0 s ltac:(lia)) as [N F].
    apply finite_unique; [done..|]. change (0 <=? 0) with true. cbv iota. rewrite F.
    rewrite <- (rnd_fval (S754_finite s m e)) by done. do 2 f_equal. cbn [fval].
    rewrite (Z.add_comm e), Z.add_0_l, Z.pow_add_r by lia. change (10 ^ 0) with 1. rewrite Z.mul_1_r, <- Ep.
    destruct s; cbn [sgn]; ring.
  - assert (P5 : 0 < 5 ^ (- e)) by (apply Z.pow_pos_nonneg; lia). split; [lia|]. split; [lia|].
    assert (P10 : 0 < 10 ^ (- e)) by (apply Z.pow_pos_nonneg; lia).
    unfold decimal. destruct (Zpos m * 5 ^ (- e)) as [|p|p] eqn:Ep; [lia| |lia].
    destruct (Z.leb_spec 0 e); [lia|]. destruct (10 ^ (- e)) as [|d|d] eqn:Ed; [lia| |lia].
    destruct (div_core_exact m e p d) as (j & Hj & ->); [by rewrite (valid_sign _ s)|done..|].
    pose proof (valid_finite_inv _ _ _ V) as (C & _ & L).
    assert (Hb : bits (Zpos m * 2 ^ j) + (e - j) = bits (Zpos m) + e) by (rewrite bits_shift by lia; lia).
    assert (P : 0 < 2 ^ j) by (apply Z.pow_pos_nonneg; lia).
    destruct (round_aux_spec s (Zpos m * 2 ^ j) (e - j)) as (V' & N' & F); [lia|rewrite Hb; cbn [bits]; lia|].
    apply finite_unique; [done..|]. rewrite F, Hb. cbn [bits]. rewrite C.
    replace (e - (e - j)) with (0 + j) by lia. rewrite rne_scale by lia.
    rewrite rne_exact by (lia || apply Z.mod_1_r). change (2 ^ 0) with 1. rewrite Z.div_1_r.
    pose proof (finite_bound s m e V). rewrite clamp_small by lia. done.
Qed.

(** ** Printed integers read back *)
Lemma app_nil_str s : s +:+ "" = s.
Proof. induction s as [|c s IH]; [done|]. rewrite append_cons. by rewrite IH. Qed.
Lemma app_assoc_str a b c : (a +:+ b) +:+ c = a +:+ (b +:+ c).
Proof. induction a as [|x a IH]; [done|]. rewrite !append_cons. by rewrite IH. Qed.

Lemma digit_char_spec d : 0 <= d < 10 -> is_digit (digit_char d) = true /\ code (digit_char d) = 48 + d.
Proof.
  intros H. assert (d ∈ seqZ 0 10) as E by (apply elem_of_seqZ; lia).
  change (seqZ 0 10) with [0; 1; 2; 3; 4; 5; 6; 7; 8; 9] in E.
  repeat (apply elem_of_cons in E as [->|E]; [by vm_compute|]). by apply elem_of_nil in E.
Qed.

Lemma dec_digits_scan t fuel : forall n acc, 0 <= n < 10 ^ Z.of_nat fuel -> fuel <> O ->
  exists k, forall a c,
    scan_digits (dec_digits fuel n acc +:+ t) a c = scan_digits (acc +:+ t) (a * 10 ^ Z.of_nat k + n) (c + k)%nat.
Proof.
  induction fuel as [|fuel IH]; intros n acc Hn Hf; [done|]. cbn [dec_digits].
  pose proof (Z.mod_pos_bound n 10 ltac:(lia)) as Hm. destruct (digit_char_spec _ Hm) as [D C].
  destruct (Z.ltb_spec n 10).
  - exists 1%nat. intros a c. rewrite append_cons. cbn [scan_digits]. rewrite D, C. f_equal; [|lia].
    rewrite Z.mod_small by lia. change (10 ^ Z.of_nat 1) with 10. lia.
  - destruct fuel as [|fuel]; [cbn in Hn; lia|].
    assert (Hp : 10 ^ Z.of_nat (S (S fuel)) = 10 * 10 ^ Z.of_nat (S fuel)) by (rewrite (Nat2Z.inj_succ (S fuel)), Z.pow_succ_r by lia; lia).
    destruct (IH (n / 10) (String (digit_char (n mod 10)) acc)) as [k E]; [|done|].
    { split; [apply Z.div_pos; lia|]. apply Z.div_lt_upper_bound; lia. }
    exists (S k). intros a c. rewrite E, append_cons. cbn [scan_digits]. rewrite D, C. f_equal; [|lia].
    rewrite Nat2Z.inj_succ, Z.pow_succ_r by lia. pose proof (Z.div_mod n 10 ltac:(lia)). lia.
Qed.

Lemma dec_digits_head fuel : forall n acc, 0 <= n < 10 ^ Z.of_nat fuel -> fuel <> O ->
  exists d r, 0 <= d < 10 /\ dec_digits fuel n acc = String (digit_char d) r /\ (0 < n -> 0 < d).
Proof.
  induction fuel as [|fuel IH]; intros n acc Hn Hf; [done|]. cbn [dec_digits].
  pose proof (Z.mod_pos_bound n 10 ltac:(lia)) as Hm.
  destruct (Z.ltb_spec n 10).
  - exists (n mod 10), acc. split; [done|]. split; [done|]. by rewrite Z.mod_small by lia.
  - destruct fuel as [|fuel]; [cbn in Hn; lia|].
    assert (Hp : 10 ^ Z.of_nat (S (S fuel)) = 10 * 10 ^ Z.of_nat (S fuel)) by (rewrite (Nat2Z.inj_succ (S fuel)), Z.pow_succ_r by lia; lia).
    destruct (IH (n / 10) (String (digit_char (n mod 10)) acc)) as (d & r & Hd & E & Hp0); [|done|].
    { split; [apply Z.div_pos; lia|]. apply Z.div_lt_upper_bound; lia. }
    exists d, r. split; [done|]. split; [done|]. intros _. apply Hp0. apply Z.div_str_pos; lia.
Qed.

Lemma dec_fuel n : 0 <= n -> 0 <= n < 10 ^ Z.of_nat (Z.to_nat (bits n + 1)) /\ Z.to_nat (bits n + 1) <> O.
Proof.
  intros Hn. assert (0 <= bits n) by (destruct n; cbn; lia). split; [|lia]. split; [done|]. rewrite Z2Nat.id by lia.
  apply Z.lt_le_trans with (2 ^ (bits n + 1)); [|apply Z.pow_le_mono_l; lia].
  destruct n as [|p|p]; [done| |lia]. cbn [bits]. pose proof (digits2_pos_bound p).
  rewrite Z.pow_add_r by lia. lia.
Qed.

Lemma dec_head n : 0 <= n -> exists d r, 0 <= d < 10 /\ dec n = String (digit_char d) r /\ (0 < n -> 0 < d).
Proof. intros Hn. destruct (dec_fuel n Hn). by apply dec_digits_head. Qed.

Lemma scan_digits_stop t a c : starts_digit t = false -> scan_digits t a c = (a, c, t).
Proof. destruct t as [|x t]; cbn; [done|]. by intros ->. Qed.

Lemma dec_scan n t : 0 <= n -> starts_digit t = false ->
  exists k, scan_digits (dec n +:+ t) 0 0 = (n, S k, t).
Proof.
  intros Hn Ht. destruct (dec_fuel n Hn) as [F F0]. destruct (dec_digits_scan t _ _ "" F F0) as [k E].
  destruct (dec_head n Hn) as (d & r & Hd & Eh & _). destruct (digit_char_spec d Hd) as [D _].
  specialize (E 0 0%nat). change (dec_digits _ n "") with (dec n) in E. rewrite Z.mul_0_l, Z.add_0_l, Nat.add_0_l in E.
  change ("" +:+ t) with t in E. rewrite (scan_digits_stop t) in E by done.
  destruct k as [|k]; [|by exists k]. exfalso. rewrite Eh, append_cons in E. cbn [scan_digits] in E. rewrite D in E.
  assert (M : forall s a c, (c <= (scan_digits s a c).1.2)%nat).
  { induction s as [|x s IH]; intros a c; cbn [scan_digits]; [done|]. destruct (is_digit x); [|done].
    etransitivity; [|apply IH]. lia. }
  pose proof (M (r +:+ t) (10 * 0 + (code (digit_char d) - 48)) 1%nat) as H. rewrite E in H. cbn in H. lia.
Qed.

Lemma int_part_dec n t : 0 <= n -> starts_digit t = false -> exists k, int_part (dec n +:+ t) = Some (n, k, t).
Proof.
  intros Hn Ht. destruct (dec_scan n t Hn Ht) as [k E]. unfold int_part.
  destruct (Z.eq_dec n 0) as [->|Hn0]; [by exists 1%nat|].
  destruct (dec_head n Hn) as (d & r & Hd & Eh & Hd0). destruct (digit_char_spec d Hd) as [D C].
  assert (eat "0" (dec n +:+ t) = None) as ->.
  { rewrite Eh, append_cons. cbn [eat]. rewrite decide_False; [done|]. intros E0. rewrite <- E0 in C.
    change (48 = 48 + d) in C. lia. }
  assert (starts_digit (dec n +:+ t) = true) as -> by (by rewrite Eh, append_cons).
  exists (S k). by rewrite E.
Qed.

(** ** A number does not depend on what follows it *)
Definition numchar (c : ascii) : bool :=
  is_digit c || bool_decide (c = "."%char) || bool_decide (lower_ascii c = "e"%char) || bool_decide (c = "+"%char) || bool_decide (c = "-"%char).
Definition stops (s : string) : Prop := match s with "" => True | String c _ => numchar c = false end.

Lemma stops_digit s : stops s -> starts_digit s = false.
Proof. destruct s as [|c s]; cbn; [done|]. unfold numchar. by destruct (is_digit c). Qed.

Lemma stops_eat s c : stops s -> numchar c = true -> eat c s = None.
Proof. destruct s as [|d s]; cbn; [done|]. intros H Hc. case_decide; [congruence|done]. Qed.

Lemma stops_exp s : stops s -> exp_part s = (None, s).
Proof.
  destruct s as [|c s]; cbn; [done|]. unfold numchar. intros H. rewrite decide_False; [done|].
  intros E. rewrite (bool_decide_eq_true_2 _ E) in H. by destruct (is_digit c), (bool_decide (c = "."%char)).
Qed.

Lemma scan_digits_rest s : forall a n v m r, scan_digits s a n = (v, m, r) ->
  starts_digit r = false /\ (m + String.length r = n + String.length s)%nat.
Proof.
  induction s as [|c s IH]; intros a n v m r; cbn [scan_digits].
  - intros [= <- <- <-]. done.
  - destruct (is_digit c) eqn:D.
    + intros H. destruct (IH _ _ _ _ _ H) as [H1 H2]. split; [done|]. cbn. lia.
    + intros [= <- <- <-]. split; [done|]. done.
Qed.

Lemma scan_digits_app s t : forall a n v m r, scan_digits s a n = (v, m, r) -> (r = "" -> starts_digit t = false) ->
  scan_digits (s +:+ t) a n = (v, m, r +:+ t).
Proof.
  induction s as [|c s IH]; intros a n v m r; cbn [scan_digits].
  - intros [= <- <- <-] Ht. by apply scan_digits_stop, Ht.
  - rewrite append_cons. cbn [scan_digits]. destruct (is_digit c); [apply IH|]. by intros [= <- <- <-] _.
Qed.

Lemma eat_app c s t : s <> "" -> eat c (s +:+ t) = (fun r => r +:+ t) <$> eat c s.
Proof. destruct s as [|d s]; [done|]. intros _. rewrite append_cons. cbn [eat]. by case_decide. Qed.

Lemma starts_digit_app s t : s <> "" -> starts_digit (s +:+ t) = starts_digit s.
Proof. destruct s; [done|]. by rewrite append_cons. Qed.

Lemma int_part_app s t v n r : int_part s = Some (v, n, r) -> (r = "" -> starts_digit t = false) ->
  int_part (s +:+ t) = Some (v, n, r +:+ t).
Proof.
  unfold int_part. intros H Ht. destruct s as [|c s]; [done|].
  rewrite eat_app, starts_digit_app by done. destruct (eat "0" (String c s)) as [r'|]; cbn [fmap option_fmap option_map].
  - by simplify_eq.
  - destruct (starts_digit _); [|done]. simplify_eq. by rewrite (scan_digits_app _ _ _ _ v n r).
Qed.

Lemma app_stops_nil r t : stops (r +:+ t) -> r = "" -> stops t.
Proof. by intros H ->. Qed.

(** The fraction and the exponent, when what is left of them ends the number. *)
Lemma exp_part_app s t e r : exp_part s = (e, r) -> stops (r +:+ t) -> exp_part (s +:+ t) = (e, r +:+ t).
Proof.
  destruct s as [|c s]; cbn [exp_part].
  { intros [= <- <-] H. by apply stops_exp. }
  rewrite append_cons. cbn [exp_part]. case_decide as Hc; [|by intros [= <- <-]].
  assert (Hbad : forall u, ~ stops (String c u)).
  { intros u. cbn. unfold numchar. rewrite (bool_decide_eq_true_2 _ Hc). by rewrite !orb_true_r. }
  destruct s as [|d s].
  { intros [= <- <-] H. by apply Hbad in H. }
  assert (E : split_sign (String d s +:+ t) = ((split_sign (String d s)).1, (split_sign (String d s)).2 +:+ t)).
  { rewrite append_cons. unfold split_sign. by repeat case_bool_decide. }
  rewrite E. destruct (split_sign (String d s)) as [neg s1]. cbn [fst snd].
  destruct (scan_digits s1 0 0) as [[v n] r1] eqn:Es. destruct n as [|n].
  { intros [= <- <-] H. rewrite append_cons in H. by apply Hbad in H. }
  intros [= <- <-] H. rewrite (scan_digits_app _ t _ _ _ _ _ Es); [done|].
  intros Hr. eapply stops_digit, app_stops_nil; done.
Qed.

Lemma frac_part_app s t ip v n r e u : frac_part s ip = (v, n, r) -> exp_part r = (e, u) -> stops (u +:+ t) ->
  frac_part (s +:+ t) ip = (v, n, r +:+ t).
Proof.
  unfold frac_part. intros H He Hu. destruct s as [|c s].
  { change ("" +:+ t) with t. cbn [eat] in H. simplify_eq. cbn in He. simplify_eq. by rewrite stops_eat. }
  rewrite eat_app by done. destruct (eat "." (String c s)) as [s'|] eqn:Ec; cbn [fmap option_fmap option_map].
  - assert (Hbad : forall w, ~ stops (String c w)).
    { intros w. cbn [eat] in Ec. destruct (decide ("."%char = c)) as [<-|]; [|done]. done. }
    assert (Hdot : forall w, exp_part (String c w) = (None, String c w)).
    { intros w. cbn [eat] in Ec. destruct (decide ("."%char = c)) as [<-|]; [|done]. done. }
    destruct (starts_digit s') eqn:Ds.
    + assert (s' <> "") by (by intros ->). rewrite starts_digit_app, Ds by done.
      apply (scan_digits_app _ t) in H; [done|]. intros ->. cbn in He. simplify_eq.
      by apply stops_digit.
    + simplify_eq. rewrite Hdot in He. simplify_eq. rewrite append_cons in Hu. by apply Hbad in Hu.
  - by simplify_eq.
Qed.

Lemma scan_number_app s t v r : scan_number s = Some (v, r) -> stops (r +:+ t) ->
  scan_number (s +:+ t) = Some (v, r +:+ t).
Proof.
  unfold scan_number. intros H Ht. destruct s as [|c s]; [done|]. rewrite eat_app by done.
  set (p := match eat "-" (String c s) with Some s1 => (true, s1) | None => (false, String c s) end) in *.
  assert (match (fun r0 => r0 +:+ t) <$> eat "-" (String c s) with Some s1 => (true, s1) | None => (false, String c s +:+ t) end
          = (p.1, p.2 +:+ t)) as -> by (unfold p; by destruct (eat _ _)).
  destruct p as [neg s1]. cbn [fst snd] in *.
  destruct (int_part s1) as [[[ip n] r0]|] eqn:Ei; [|done]. cbn [mbind option_bind] in H.
  destruct (frac_part r0 ip) as [[w nf] r1] eqn:Ef. destruct (exp_part r1) as [e r2] eqn:Ee.
  assert (r = r2) as <- by (destruct nf, e; by simplify_eq).
  rewrite (int_part_app _ t _ _ _ Ei); [cbn [mbind option_bind]|].
  - rewrite (frac_part_app _ t _ _ _ _ _ _ Ef Ee Ht), (exp_part_app _ t _ _ Ee Ht). by destruct nf, e; simplify_eq.
  - intros ->. cbn in Ef. simplify_eq. cbn in Ee. simplify_eq. by apply stops_digit.
Qed.

(** ** Round trips *)
Lemma dec_eat n t c : 0 <= n -> is_digit c = false -> eat c (dec n +:+ t) = None.
Proof.
  intros Hn Hc. destruct (dec_head n Hn) as (d & r & Hd & -> & _). destruct (digit_char_spec d Hd) as [D _].
  rewrite append_cons. cbn [eat]. rewrite decide_False; [done|]. congruence.
Qed.

Lemma int_part_length s v n r : int_part s = Some (v, n, r) -> (n + String.length r = String.length s)%nat.
Proof.
  unfold int_part. destruct s as [|c s]; [done|]. destruct (eat "0" _) as [s'|] eqn:E.
  - cbn [eat] in E. case_decide; [|done]. intros H0. by simplify_eq.
  - destruct (starts_digit _); [|done]. intros H0%(inj Some). by apply scan_digits_rest in H0 as [_ H0].
Qed.

Lemma scan_number_dec (neg : bool) n t : 0 <= n -> stops t ->
  scan_number ((if neg then String "-"%char (dec n) else dec n) +:+ t) = Some (NInt (sgn neg n) (String.length (dec n)), t).
Proof.
  intros Hn Ht. destruct (int_part_dec n t Hn (stops_digit _ Ht)) as [k E].
  assert (k = String.length (dec n)) as ->.
  { destruct (int_part_dec n "" Hn eq_refl) as [k' E']. rewrite app_nil_str in E'.
    pose proof (int_part_length _ _ _ _ E') as L. cbn in L.
    apply (int_part_app _ t) in E'; [|intros _; by apply stops_digit]. rewrite E in E'. simplify_eq. lia. }
  assert (Hrest : scan_number (dec n +:+ t) = Some (NInt n (String.length (dec n)), t) /\
                  (neg = true -> scan_number (String "-" (dec n +:+ t)) = Some (NInt (- n) (String.length (dec n)), t))).
  { unfold scan_number. rewrite (dec_eat n t "-") by done. cbn [eat]. rewrite decide_True by done.
    cbn [mbind option_bind]. rewrite E. cbn [mbind option_bind sgn]. unfold frac_part.
    rewrite (stops_eat t ".") by done. by rewrite stops_exp. }
  destruct neg; [rewrite append_cons; by apply Hrest|apply Hrest].
Qed.

Lemma scan_number_int n t : stops t ->
  scan_number (int_repr n +:+ t) = Some (NInt n (String.length (dec (Z.abs n))), t).
Proof.
  intros Ht. unfold int_repr. destruct (Z.ltb_spec n 0).
  - rewrite (scan_number_dec true (- n) t) by (done || lia). cbn [sgn]. rewrite Z.opp_involutive.
    by replace (Z.abs n) with (- n) by lia.
  - rewrite (scan_number_dec false n t) by (done || lia). by replace (Z.abs n) with n by lia.
Qed.

Lemma exp_part_text k t : 0 <= k -> starts_digit t = false -> exp_part ("e-" +:+ (dec k +:+ t)) = (Some (- k), t).
Proof.
  intros Hk Ht. destruct (dec_scan k t Hk Ht) as [j E].
  change (exp_part (String "e" (String "-" (dec k +:+ t))) = (Some (- k), t)).
  cbn [exp_part]. change (split_sign (String "-" (dec k +:+ t))) with (true, dec k +:+ t). cbn iota beta. rewrite E. done.
Qed.

Lemma exact_text_reads s m e big k : valid (S754_finite s m e) = true -> exact_decimal m e = (big, k) ->
  scan_number (exact_text s big k) = Some (NFloat (S754_finite s m e), "").
Proof.
  intros V E. pose proof (decimal_exact s m e V) as D. rewrite E in D. destruct D as (Hb & Hk & D).
  set (t := "e-" +:+ dec (- k)).
  assert (Hi : exists n, int_part (dec big +:+ t) = Some (big, n, t)) by (apply int_part_dec; [lia|done]).
  destruct Hi as [n Hi].
  assert (He : exp_part t = (Some (- (- k)), "")).
  { unfold t. rewrite <- (app_nil_str (dec (- k))). apply exp_part_text; [lia|done]. }
  assert (H : forall neg, ('(ip, n, r) ← int_part (dec big +:+ t);
     let '(v, nf, r1) := frac_part r ip in
     match nf, exp_part r1 with
     | O, (None, r2) => Some (NInt (sgn neg ip) n, r2)
     | _, (e, r2) => Some (NFloat (decimal neg v (default 0 e - Z.of_nat nf)), r2)
     end) = Some (NFloat (decimal neg big k), "")).
  { intros neg. rewrite Hi. cbn [mbind option_bind]. change (frac_part t big) with (big, 0%nat, t). cbv beta iota. rewrite He.
    cbn [default from_option id]. rewrite Z.opp_involutive, Z.sub_0_r. done. }
  rewrite <- D. unfold exact_text, scan_number. fold t. destruct s.
  - cbn [eat]. rewrite decide_True by done. apply H.
  - rewrite (dec_eat big t "-") by (done || lia). apply H.
Qed.

Lemma shortest_reads x neg big nd k fuel : forall n t, shortest x neg big nd k fuel n = Some t ->
  scan_number t = Some (NFloat x, "").
Proof.
  induction fuel as [|fuel IH]; intros n t; cbn [shortest]; [done|].
  destruct (filter _ _) as [|u l] eqn:E; [apply IH|]. intros [= <-].
  assert (H : u ∈ filter (fun t => reads_as x t = true) (candidates neg big nd k n)) by (rewrite E; left).
  apply list_elem_of_filter in H as [H _]. by apply bool_decide_eq_true in H.
Qed.

Lemma scan_number_repr x t : valid x = true -> isfinite x = true -> stops t ->
  scan_number (float_repr x +:+ t) = Some (NFloat x, t).
Proof.
  intros V F Ht. change t with ("" +:+ t) at 2. apply scan_number_app; [|done].
  destruct x as [[]| | |s m e]; [vm_compute; done..|done|done|]. cbn [float_repr].
  destruct (exact_decimal m e) as [big k] eqn:E.
  destruct (shortest _ _ _ _ _ _ _) as [u|] eqn:Es; cbn [default from_option id].
  - by eapply shortest_reads.
  - by apply exact_text_reads.
Qed.

(** ** A number consumes text *)
Definition tail_of (r s : string) : Prop := exists p, p <> "" /\ s = p +:+ r.

Lemma tail_cons c r s : r = s \/ tail_of r s -> tail_of r (String c s).
Proof.
  intros [->|(p & _ & ->)]; [by exists (String c "")|]. exists (String c p). by rewrite append_cons.
Qed.
Lemma tail_trans a b c : tail_of a b -> tail_of b c -> tail_of a c.
Proof.
  intros (p & Hp & ->) (q & Hq & ->). exists (q +:+ p). rewrite app_assoc_str. split; [|done].
  by destruct q; [|rewrite append_cons].
Qed.

Lemma length_app_str p r : String.length (p +:+ r) = (String.length p + String.length r)%nat.
Proof. induction p as [|c p IH]; [done|]. rewrite append_cons. cbn. by rewrite IH. Qed.

Lemma tail_length r s : tail_of r s -> (String.length r < String.length s)%nat.
Proof. intros ([|c p] & Hp & ->); [done|]. rewrite append_cons. cbn. rewrite length_app_str. lia. Qed.

Lemma eat_tail c s r : eat c s = Some r -> tail_of r s.
Proof. destruct s as [|d s]; [done|]. cbn [eat]. case_decide; [|done]. intros [= <-]. apply tail_cons. by left. Qed.

Lemma scan_digits_tail s : forall a n v m r, scan_digits s a n = (v, m, r) ->
  r = s /\ m = n \/ tail_of r s /\ (n < m)%nat.
Proof.
  induction s as [|c s IH]; intros a n v m r; cbn [scan_digits].
  - intros [= _ <- <-]. by left.
  - destruct (is_digit c); [|intros [= _ <- <-]; by left].
    intros H. right. destruct (IH _ _ _ _ _ H) as [[-> ->]|[? ?]]; (split; [apply tail_cons; auto|lia]).
Qed.

Lemma scan_digits_starts s a n v m r : scan_digits s a n = (v, m, r) -> starts_digit s = true -> tail_of r s.
Proof.
  intros H Hs. destruct (scan_digits_tail _ _ _ _ _ _ H) as [[-> _]|[? _]]; [|done].
  apply scan_digits_rest in H as [H _]. congruence.
Qed.

Lemma int_part_tail s v n r : int_part s = Some (v, n, r) -> tail_of r s.
Proof.
  unfold int_part. destruct (eat "0" s) as [s'|] eqn:E.
  - intros H0. simplify_eq. by eapply eat_tail.
  - destruct (starts_digit s) eqn:D; [|done]. intros H0%(inj Some). by eapply scan_digits_starts.
Qed.

Lemma frac_part_tail s ip v n r : frac_part s ip = (v, n, r) -> r = s \/ tail_of r s.
Proof.
  unfold frac_part. destruct (eat "." s) as [s'|] eqn:E; [|intros H; simplify_eq; by left].
  destruct (starts_digit s') eqn:D; [|intros H; simplify_eq; by left].
  intros H. right. eapply tail_trans; [by eapply scan_digits_starts|by eapply eat_tail].
Qed.

Lemma split_sign_tail s : (split_sign s).2 = s \/ tail_of (split_sign s).2 s.
Proof.
  destruct s as [|c s]; [by left|]. cbn [split_sign].
  repeat case_bool_decide; cbn [snd]; [right; apply tail_cons; by left..|by left].
Qed.

Lemma exp_part_tail s e r : exp_part s = (e, r) -> r = s \/ tail_of r s.
Proof.
  destruct s as [|c s]; cbn [exp_part]; [intros [= <- <-]; by left|].
  case_decide; [|intros [= <- <-]; by left].
  pose proof (split_sign_tail s) as T. destruct (split_sign s) as [neg s1]. cbn [snd] in T.
  destruct (scan_digits s1 0 0) as [[v n] r1] eqn:E. destruct n as [|n]; intros [= <- <-]; [by left|].
  right. apply tail_cons. right. apply scan_digits_tail in E as [[_ ?]|[E _]]; [done|].
  destruct T as [->|T]; [done|]. by eapply tail_trans.
Qed.

Lemma scan_number_tail s v r : scan_number s = Some (v, r) -> tail_of r s.
Proof.
  unfold scan_number.
  set (p := match eat "-" s with Some s1 => (true, s1) | None => (false, s) end).
  assert (Hp : p.2 = s \/ tail_of p.2 s).
  { unfold p. destruct (eat "-" s) eqn:E; [right; by eapply eat_tail|by left]. }
  destruct p as [neg s1]. cbn [snd] in Hp. intros Hn.
  destruct (int_part s1) as [[[ip n] r0]|] eqn:Ei; [|done]. cbn [mbind option_bind] in Hn.
  destruct (frac_part r0 ip) as [[w nf] r1] eqn:Ef. destruct (exp_part r1) as [e r2] eqn:Ee.
  assert (r = r2) as -> by (destruct nf, e; by simplify_eq).
  apply int_part_tail in Ei. apply frac_part_tail in Ef. apply exp_part_tail in Ee.
  assert (tail_of r2 s1).
  { destruct Ee as [->|Ee], Ef as [->|Ef]; eauto using tail_trans. }
  destruct Hp as [->|Hp]; [done|]. by eapply tail_trans.
Qed.

(** ** The characters of a number *)
Fixpoint nums (s : string) : bool := match s with "" => true | String c s => numchar c && nums s end.

Lemma digit_numchar c : is_digit c = true -> numchar c = true.
Proof. unfold numchar. by intros ->. Qed.
Lemma eat_nums c s r : eat c s = Some r -> numchar c = true -> nums r = nums s.
Proof. destruct s as [|d s]; [done|]. cbn [eat]. case_decide; [|done]. intros [= <-]. subst. cbn. by intros ->. Qed.
Lemma scan_digits_nums s : forall a n v m r, scan_digits s a n = (v, m, r) -> nums r = nums s.
Proof.
  induction s as [|c s IH]; intros a n v m r; cbn [scan_digits]; [by intros [= _ _ <-]|].
  destruct (is_digit c) eqn:D; [|by intros [= _ _ <-]]. intros H. apply IH in H. cbn [nums]. by rewrite digit_numchar.
Qed.
Lemma int_part_nums s v n r : int_part s = Some (v, n, r) -> nums r = nums s.
Proof.
  unfold int_part. destruct (eat "0" s) as [s'|] eqn:E; [intros H; simplify_eq; by eapply eat_nums|].
  destruct (starts_digit s); [|done]. intros H%(inj Some). by eapply scan_digits_nums.
Qed.
Lemma frac_part_nums s ip v n r : frac_part s ip = (v, n, r) -> nums r = nums s.
Proof.
  unfold frac_part. destruct (eat "." s) as [s'|] eqn:E; [|intros H; by simplify_eq].
  apply eat_nums in E; [|done]. destruct (starts_digit s'); [|intros H; by simplify_eq].
  intros H%scan_digits_nums. congruence.
Qed.
Lemma exp_part_nums s e r : exp_part s = (e, r) -> nums r = nums s.
Proof.
  destruct s as [|c s]; cbn [exp_part]; [by intros [= _ <-]|]. case_decide as Hc; [|by intros [= _ <-]].
  assert (Nc : numchar c = true) by (unfold numchar; rewrite (bool_decide_eq_true_2 _ Hc); by rewrite !orb_true_r).
  assert (Hs : nums (split_sign s).2 = nums s).
  { destruct s as [|d s]; [done|]. cbn [split_sign]. repeat case_bool_decide; subst; done. }
  destruct (split_sign s) as [neg s1]. cbn [snd] in Hs. destruct (scan_digits s1 0 0) as [[v n] r1] eqn:E.
  apply scan_digits_nums in E. destruct n; [by intros [= _ <-]|]. intros [= _ <-]. cbn [nums]. rewrite Nc. cbn. congruence.
Qed.
Lemma scan_number_nums s v : scan_number s = Some (v, "") -> nums s = true.
Proof.
  unfold scan_number. set (p := match eat "-" s with Some s1 => (true, s1) | None => (false, s) end). intros H.
  assert (R : nums p.2 = nums s) by (unfold p; destruct (eat "-" s) eqn:E; [by eapply eat_nums|done]).
  destruct p as [neg s1]. cbn [snd] in R. destruct (int_part s1) as [[[ip m] r0]|] eqn:Ei; [|done]. cbn [mbind option_bind] in H.
  destruct (frac_part r0 ip) as [[w nf] r1] eqn:Ef. destruct (exp_part r1) as [e r2] eqn:Ee.
  assert (r2 = "") as -> by (destruct nf, e; congruence).
  apply int_part_nums in Ei. apply frac_part_nums in Ef. apply exp_part_nums in Ee. rewrite <- R, <- Ei, <- Ef, <- Ee. done.
Qed.
Lemma int_repr_nums n : nums (int_repr n) = true.
Proof. pose proof (scan_number_int n "" I) as E. rewrite app_nil_str in E. by eapply scan_number_nums. Qed.
Lemma float_repr_nums x : valid x = true -> isfinite x = true -> nums (float_repr x) = true.
Proof. intros V F. pose proof (scan_number_repr x "" V F I) as E. rewrite app_nil_str in E. by eapply scan_number_nums. Qed.
