(* ===== verification/Json.v ===== *)
(** * JSON text: Python's [json] module as the program uses it

    JSON values, [json.dumps] (with [ensure_ascii=False]) in the layouts the program writes,
    [json.loads] and the UTF-8 check of [bytes.decode].  A Python string is its UTF-8 bytes
    (a lone surrogate, which an escape can produce, as the three bytes that would encode it,
    which [utf8_valid] refuses).  The recursion depth and the 4300-digit limit of [int(str)]
    are those of CPython: beyond them [loads] raises something else than a decode error. *)
From Stdlib Require Import ZArith Lia Ascii String.
From Corelib Require Import SpecFloat.
From stdpp Require Import prelude strings gmap.
From S2P Require Import Prelude PyFloat Domain Normalizer NumberText.
Local Open Scope Z_scope.

(** ** Values; an object keeps its members in order *)
Inductive json :=
  | JNull
  | JBool (b : bool)
  | JInt (n : Z)
  | JFloat (x : float)
  | JStr (s : string)
  | JList (l : list json)
  | JObj (members : list (string * json)).

(** The scalar a Python check sees; lists and objects are opaque to the scalar parsers. *)
Definition scalar (v : json) : pyval :=
  match v with
  | JNull => PyNone | JBool b => PyBool b | JInt n => PyInt n | JFloat x => PyFloat x | JStr s => PyStr s
  | JList _ | JObj _ => PyOther
  end.
Definition jget (members : list (string * json)) (k : string) : json := default JNull (od_get k members).
Definition as_str (v : json) : option string := match v with JStr s => Some s | _ => None end.

(** What [json.loads] does with a text. *)
Inductive loaded := Parsed (v : json) | JSONDecodeError | LoadsRaises (e : exn).

(** ** [bytes.decode("utf-8")] *)
Definition continues (lo hi : Z) (c : ascii) : bool := in_range lo hi c.
Fixpoint utf8_valid (s : string) : bool :=
  match s with
  | "" => true
  | String a s1 =>
      if in_range 0 127 a then utf8_valid s1
      else match s1 with
      | "" => false
      | String b s2 =>
          if in_range 194 223 a then continues 128 191 b && utf8_valid s2
          else match s2 with
          | "" => false
          | String c s3 =>
              if in_range 224 239 a then
                (if bool_decide (code a = 224) then continues 160 191 b
                 else if bool_decide (code a = 237) then continues 128 159 b else continues 128 191 b)
                && continues 128 191 c && utf8_valid s3
              else match s3 with
              | "" => false
              | String d s4 =>
                  in_range 240 244 a &&
                  (if bool_decide (code a = 240) then continues 144 191 b
                   else if bool_decide (code a = 244) then continues 128 143 b else continues 128 191 b)
                  && continues 128 191 c && continues 128 191 d && utf8_valid s4
              end
          end
      end
  end.

Definition char_of (n : Z) : ascii := ascii_of_N (Z.to_N n).
Definition utf8_encode (u : Z) : string :=
  if u <? 128 then String (char_of u) ""
  else if u <? 2048 then String (char_of (192 + u / 64)) (String (char_of (128 + u mod 64)) "")
  else if u <? 65536 then
    String (char_of (224 + u / 4096)) (String (char_of (128 + u / 64 mod 64)) (String (char_of (128 + u mod 64)) ""))
  else String (char_of (240 + u / 262144)) (String (char_of (128 + u / 4096 mod 64))
         (String (char_of (128 + u / 64 mod 64)) (String (char_of (128 + u mod 64)) ""))).

(** ** Scanner results *)
Inductive scan (A : Type) :=
  | Got (a : A) (rest : string)
  | Bad (e : option exn).       (* [None] is [JSONDecodeError] *)
Arguments Got {A} a rest.
Arguments Bad {A} e.

Definition andthen {A B} (x : scan A) (k : A -> string -> scan B) : scan B :=
  match x with Got a r => k a r | Bad e => Bad e end.

Definition is_ws (c : ascii) : bool :=
  bool_decide (code c = 32) || bool_decide (code c = 9) || bool_decide (code c = 10) || bool_decide (code c = 13).
Fixpoint skip_ws (s : string) : string :=
  match s with String c s' => if is_ws c then skip_ws s' else s | "" => "" end.

Fixpoint eat_str (p s : string) : option string :=
  match p with "" => Some s | String c p => s ← eat c s; eat_str p s end.

(** ** Strings *)
Abbreviation QUOTE := ("034"%char).
Abbreviation BACKSLASH := ("092"%char).

Inductive escape_state := Plain | Escaped | Hex (digits : nat) (value : Z).

Definition hex_value (c : ascii) : option Z :=
  if is_digit c then Some (code c - 48)
  else if in_range 97 102 c then Some (code c - 87)
  else if in_range 65 70 c then Some (code c - 55)
  else None.
Definition unescape (c : ascii) : option ascii :=
  if decide (c = QUOTE) then Some QUOTE
  else if decide (c = BACKSLASH) then Some BACKSLASH
  else if decide (c = "/"%char) then Some "/"%char
  else if decide (c = "b"%char) then Some (char_of 8)
  else if decide (c = "f"%char) then Some (char_of 12)
  else if decide (c = "n"%char) then Some (char_of 10)
  else if decide (c = "r"%char) then Some (char_of 13)
  else if decide (c = "t"%char) then Some (char_of 9)
  else None.

Definition is_high (u : Z) : bool := (55296 <=? u) && (u <=? 56319).
Definition is_low (u : Z) : bool := (56320 <=? u) && (u <=? 57343).
(** A pending high surrogate that no low surrogate followed. *)
Definition flush (hi : option Z) : string := match hi with Some u => utf8_encode u | None => "" end.

Definition emit_text (p : string) (x : scan string) : scan string :=
  match x with Got s r => Got (p +:+ s) r | Bad e => Bad e end.

(** After the opening quote, to the closing one (control characters are refused). *)
Fixpoint scan_chars (st : escape_state) (hi : option Z) (s : string) : scan string :=
  match s with
  | "" => Bad None
  | String c s =>
      match st with
      | Plain =>
          if decide (c = QUOTE) then Got (flush hi) s
          else if decide (c = BACKSLASH) then scan_chars Escaped hi s
          else if code c <? 32 then Bad None
          else emit_text (flush hi +:+ String c "") (scan_chars Plain None s)
      | Escaped =>
          if decide (c = "u"%char) then scan_chars (Hex 3 0) hi s
          else match unescape c with
               | Some d => emit_text (flush hi +:+ String d "") (scan_chars Plain None s)
               | None => Bad None
               end
      | Hex k acc =>
          match hex_value c with
          | None => Bad None
          | Some d =>
              let u := 16 * acc + d in
              match k with
              | S k => scan_chars (Hex k u) hi s
              | O =>
                  match hi with
                  | Some h =>
                      if is_low u then emit_text (utf8_encode (65536 + (h - 55296) * 1024 + (u - 56320))) (scan_chars Plain None s)
                      else if is_high u then emit_text (utf8_encode h) (scan_chars Plain (Some u) s)
                      else emit_text (utf8_encode h +:+ utf8_encode u) (scan_chars Plain None s)
                  | None =>
                      if is_high u then scan_chars Plain (Some u) s
                      else emit_text (utf8_encode u) (scan_chars Plain None s)
                  end
              end
          end
      end
  end.

(** ** Values *)
Definition MAX_STR_DIGITS : nat := 4300.
Definition of_number (x : number) (r : string) : scan json :=
  match x with
  | NInt n k => if (k <=? MAX_STR_DIGITS)%nat then Got (JInt n) r else Bad (Some (ValueError "int digits"))
  | NFloat x => Got (JFloat x) r
  end.

Definition LITERALS : list (string * json) :=
  [("null", JNull); ("true", JBool true); ("false", JBool false); ("NaN", JFloat S754_nan);
   ("Infinity", JFloat (S754_infinity false)); ("-Infinity", JFloat (S754_infinity true))].
Fixpoint literal (l : list (string * json)) (s : string) : option (json * string) :=
  match l with
  | [] => None
  | (p, v) :: l => match eat_str p s with Some r => Some (v, r) | None => literal l s end
  end.

Section loops.
Context (sc : string -> scan json).

(** From the first character of an item. *)
Fixpoint scan_items (n : nat) (s : string) : scan (list json) :=
  match n with
  | O => Bad None
  | S n =>
      andthen (sc s) (fun v r =>
        match eat "]" (skip_ws r) with
        | Some r => Got [v] r
        | None => match eat "," (skip_ws r) with
                  | None => Bad None
                  | Some r => andthen (scan_items n (skip_ws r)) (fun vs r => Got (v :: vs) r)
                  end
        end)
  end.

Fixpoint scan_members (n : nat) (s : string) (acc : list (string * json)) : scan (list (string * json)) :=
  match n with
  | O => Bad None
  | S n =>
      match eat QUOTE s with
      | None => Bad None
      | Some s =>
          andthen (scan_chars Plain None s) (fun k r =>
            match eat ":" (skip_ws r) with
            | None => Bad None
            | Some r =>
                andthen (sc (skip_ws r)) (fun v r =>
                  match eat "}" (skip_ws r) with
                  | Some r => Got (od_set k v acc) r
                  | None => match eat "," (skip_ws r) with
                            | None => Bad None
                            | Some r => scan_members n (skip_ws r) (od_set k v acc)
                            end
                  end)
            end)
      end
  end.
End loops.

(** [limit] is the recursion depth left. *)
Fixpoint scan_once (limit : nat) (s : string) : scan json :=
  match eat QUOTE s with
  | Some r => andthen (scan_chars Plain None r) (fun k r => Got (JStr k) r)
  | None =>
  match eat "{" s with
  | Some r =>
      match limit with
      | O => Bad (Some (RuntimeError "RecursionError"))
      | S limit =>
          match eat "}" (skip_ws r) with
          | Some r => Got (JObj []) r
          | None => andthen (scan_members (scan_once limit) (String.length r) (skip_ws r) []) (fun m r => Got (JObj m) r)
          end
      end
  | None =>
  match eat "[" s with
  | Some r =>
      match limit with
      | O => Bad (Some (RuntimeError "RecursionError"))
      | S limit =>
          match eat "]" (skip_ws r) with
          | Some r => Got (JList []) r
          | None => andthen (scan_items (scan_once limit) (String.length r) (skip_ws r)) (fun l r => Got (JList l) r)
          end
      end
  | None =>
  match literal LITERALS s with
  | Some (v, r) => Got v r
  | None => match scan_number s with Some (x, r) => of_number x r | None => Bad None end
  end end end end.

Definition BOM : string := String (char_of 239) (String (char_of 187) (String (char_of 191) "")).

Definition loads (limit : nat) (text : string) : loaded :=
  match eat_str BOM text with
  | Some _ => JSONDecodeError
  | None =>
      match scan_once limit (skip_ws text) with
      | Got v r => if bool_decide (skip_ws r = "") then Parsed v else JSONDecodeError
      | Bad None => JSONDecodeError
      | Bad (Some e) => LoadsRaises e
      end
  end.

(** ** [json.dumps(value, ensure_ascii=False, ...)] *)
Definition hex_digit (n : Z) : ascii := if n <? 10 then char_of (48 + n) else char_of (87 + n).
Definition escape_char (c : ascii) : string :=
  let n := code c in
  if decide (c = QUOTE) then String BACKSLASH (String QUOTE "")
  else if decide (c = BACKSLASH) then String BACKSLASH (String BACKSLASH "")
  else if n =? 10 then String BACKSLASH "n"
  else if n =? 13 then String BACKSLASH "r"
  else if n =? 9 then String BACKSLASH "t"
  else if n =? 12 then String BACKSLASH "f"
  else if n =? 8 then String BACKSLASH "b"
  else if n <? 32 then String BACKSLASH ("u00" +:+ String (hex_digit (n / 16)) (String (hex_digit (n mod 16)) ""))
  else String c "".
Fixpoint escape (s : string) : string :=
  match s with "" => "" | String c s => escape_char c +:+ escape s end.
Definition quoted (s : string) : string := String QUOTE (escape s +:+ String QUOTE "").

(** Layout: what follows a comma and a colon, and the line break at a nesting level. *)
Record layout := mkLayout { after_comma : string; after_colon : string; break_at : nat -> string }.
Definition compact : layout := mkLayout "" "" (fun _ => "").
Fixpoint spaces (n : nat) : string := match n with O => "" | S n => String " " (spaces n) end.
Definition indented (w : nat) : layout := mkLayout "" " " (fun lvl => newline +:+ spaces (lvl * w)).

Definition float_text (x : float) : string :=
  match x with
  | S754_nan => "NaN"
  | S754_infinity s => if s then "-Infinity" else "Infinity"
  | _ => float_repr x
  end.

Fixpoint join (sep : string) (l : list string) : string :=
  match l with [] => "" | [x] => x | x :: l => x +:+ (sep +:+ join sep l) end.

Fixpoint text (st : layout) (lvl : nat) (v : json) : string :=
  let block open close (parts : list string) :=
    match parts with
    | [] => String open (String close "")
    | _ => String open (break_at st (S lvl) +:+
             (join (String "," (after_comma st +:+ break_at st (S lvl))) parts +:+ (break_at st lvl +:+ String close "")))
    end in
  match v with
  | JNull => "null"
  | JBool b => if b then "true" else "false"
  | JInt n => int_repr n
  | JFloat x => float_text x
  | JStr s => quoted s
  | JList l => block "["%char "]"%char (map (text st (S lvl)) l)
  | JObj ms => block "{"%char "}"%char
                 (map (fun p => quoted p.1 +:+ String ":" (after_colon st +:+ text st (S lvl) p.2)) ms)
  end.

Definition digits_ok (n : Z) : bool := (String.length (dec (Z.abs n)) <=? MAX_STR_DIGITS)%nat.
Fixpoint ints_ok (v : json) : bool :=
  match v with
  | JInt n => digits_ok n
  | JList l => forallb ints_ok l
  | JObj ms => forallb (fun p => ints_ok p.2) ms
  | _ => true
  end.
Definition dumps (st : layout) (v : json) : result string :=
  if ints_ok v then Ok (text st 0 v) else Err (ValueError "int digits").

(** Writes an apostrophe for a quote, to show texts. *)
Definition shown (s : string) : string := str_map (fun c => if decide (c = QUOTE) then "'"%char else c) s.

Example dumps_ex : shown (text compact 0 (JObj [("a", JList [JInt (-12); JFloat (flit 5 1); JNull]); ("b", JStr "x")]))
  = "{'a':[-12,0.5,null],'b':'x'}".
Proof. vm_compute. reflexivity. Qed.
Example loads_ex : loads 1000 (text (indented 2) 0 (JObj [("a", JList [JInt (-12); JFloat (flit 5 1); JNull]); ("b", JStr "x")]))
  = Parsed (JObj [("a", JList [JInt (-12); JFloat (flit 5 1); JNull]); ("b", JStr "x")]).
Proof. vm_compute. reflexivity. Qed.

(** ** Strings read back *)
Lemma emit_emit p q x : emit_text p (emit_text q x) = emit_text (p +:+ q) x.
Proof. destruct x; cbn; [|done]. by rewrite app_assoc_str. Qed.
Lemma emit_nil x : emit_text "" x = x.
Proof. by destruct x. Qed.

Lemma scan_escape_char c t : scan_chars Plain None (escape_char c +:+ t) = emit_text (String c "") (scan_chars Plain None t).
Proof. destruct c as [[] [] [] [] [] [] [] []]; reflexivity. Qed.

Lemma scan_escape s t : scan_chars Plain None (escape s +:+ String QUOTE t) = Got s t.
Proof.
  induction s as [|c s IH]; [done|]. cbn [escape]. rewrite app_assoc_str, scan_escape_char, IH. done.
Qed.

Lemma quoted_app s t : quoted s +:+ t = String QUOTE (escape s +:+ String QUOTE t).
Proof. unfold quoted. by rewrite append_cons, app_assoc_str. Qed.

(** ** White space *)
Lemma skip_ws_app w t : skip_ws w = "" -> skip_ws (w +:+ t) = skip_ws t.
Proof.
  induction w as [|c w IH]; [done|]. rewrite append_cons. cbn [skip_ws]. by destruct (is_ws c).
Qed.
Lemma skip_ws_head c t : is_ws c = false -> skip_ws (String c t) = String c t.
Proof. cbn. by intros ->. Qed.

Lemma ws_not_number c : is_ws c = true -> numchar c = false.
Proof. destruct c as [[] [] [] [] [] [] [] []]; vm_compute; congruence. Qed.

Lemma stops_ws w c t : skip_ws w = "" -> numchar c = false -> stops (w +:+ String c t).
Proof.
  destruct w as [|d w]; [done|]. rewrite append_cons. cbn. destruct (is_ws d) eqn:E; [|done].
  intros _ _. by apply ws_not_number.
Qed.

Definition layout_ok (st : layout) : Prop :=
  skip_ws (after_comma st) = "" /\ skip_ws (after_colon st) = "" /\ forall k, skip_ws (break_at st k) = "".

Lemma spaces_ws n : skip_ws (spaces n) = "".
Proof. by induction n. Qed.
Lemma compact_ok : layout_ok compact.
Proof. done. Qed.
Lemma indented_ok w : layout_ok (indented w).
Proof. split; [done|]. split; [done|]. intros k. cbn. apply spaces_ws. Qed.

(** ** Values a text can carry within the limits *)
Fixpoint fits (d : nat) (v : json) {struct v} : bool :=
  match v with
  | JInt n => digits_ok n
  | JFloat x => valid x
  | JList l => match d with O => false | S d => forallb (fits d) l end
  | JObj ms => match d with O => false | S d => bool_decide (NoDup ms.*1) && forallb (fun p => fits d p.2) ms end
  | _ => true
  end.

(** The first character of a value's text. *)
Definition value_char (c : ascii) : Prop := is_ws c = false /\ c <> "]"%char /\ c <> "}"%char /\ char_of 239 <> c.
Lemma digit_value_char c : is_digit c = true -> value_char c.
Proof. destruct c as [[] [] [] [] [] [] [] []]; vm_compute; intros D; repeat split; congruence. Qed.

Lemma dec_text_head n : 0 <= n -> exists c r, dec n = String c r /\ is_digit c = true.
Proof.
  intros H. destruct (dec_head n H) as (d & r & Hd & E & _). destruct (digit_char_spec d Hd) as [D _].
  by exists (digit_char d), r.
Qed.
Lemma int_head n : exists c r, int_repr n = String c r /\ (c = "-"%char \/ is_digit c = true).
Proof.
  unfold int_repr. destruct (Z.ltb_spec n 0); [by exists "-"%char, (dec (- n)); auto|].
  destruct (dec_text_head n) as (c & r & E & D); [lia|]. exists c, r. auto.
Qed.

Lemma number_first c s v r : scan_number (String c s) = Some (v, r) -> c = "-"%char /\ starts_digit s = true \/ is_digit c = true.
Proof.
  assert (H : forall u x, int_part u = Some x -> starts_digit u = true).
  { intros u x. unfold int_part. destruct (eat "0" u) eqn:E; [|by destruct (starts_digit u)].
    destruct u as [|d u]; [done|]. cbn [eat] in E. case_decide as Hd; [|done]. by subst. }
  unfold scan_number. cbn [eat]. destruct (decide ("-"%char = c)) as [<-|].
  - destruct (int_part s) eqn:E; [|done]. apply H in E. auto.
  - destruct (int_part (String c s)) eqn:E; [|done]. apply H in E. auto.
Qed.

Lemma repr_head x : valid x = true -> isfinite x = true ->
  exists c r, float_repr x = String c r /\ (c = "-"%char \/ is_digit c = true).
Proof.
  intros V F. pose proof (scan_number_repr x "" V F I) as E. rewrite app_nil_str in E.
  destruct (float_repr x) as [|c r]; [done|]. exists c, r. split; [done|].
  apply number_first in E as [[-> _]|]; auto.
Qed.

Lemma number_value_char c : c = "-"%char \/ is_digit c = true -> value_char c.
Proof. intros [->|H]; [done|by apply digit_value_char]. Qed.

Lemma text_head st lvl d v : fits d v = true -> exists c r, text st lvl v = String c r /\ value_char c.
Proof.
  destruct v as [|b|n|x|s|l|ms]; intros F; cbn [text].
  - by eexists _, _.
  - destruct b; by eexists _, _.
  - destruct (int_head n) as (c & r & -> & H). eauto using number_value_char.
  - unfold float_text. destruct x as [[]|[]| |s m e]; try by eexists _, _.
    destruct (repr_head (S754_finite s m e) F eq_refl) as (c & r & -> & H). eauto using number_value_char.
  - by eexists _, _.
  - destruct (map _ l); by eexists _, _.
  - destruct (map _ ms); by eexists _, _.
Qed.

Lemma text_skip st lvl d v t : fits d v = true -> skip_ws (text st lvl v +:+ t) = text st lvl v +:+ t.
Proof.
  intros F. destruct (text_head st lvl d v F) as (c & r & -> & W & _). rewrite append_cons. by apply skip_ws_head.
Qed.
Lemma text_eat st lvl d v t c : fits d v = true -> c = "]"%char \/ c = "}"%char -> eat c (text st lvl v +:+ t) = None.
Proof.
  intros F Hc. destruct (text_head st lvl d v F) as (a & r & -> & W & H1 & H2 & _). rewrite append_cons.
  cbn [eat]. rewrite decide_False; [done|]. destruct Hc; congruence.
Qed.

(** ** Arrays and objects read back *)
Lemma eat_same c t : eat c (String c t) = Some t.
Proof. cbn. by rewrite decide_True. Qed.
Lemma eat_other c d t : c <> d -> eat c (String d t) = None.
Proof. intros H. cbn. by rewrite decide_False. Qed.

Lemma join_cons sep x y l : join sep (x :: y :: l) = x +:+ (sep +:+ join sep (y :: l)).
Proof. done. Qed.

Lemma join_length sep l : Forall (fun x => x <> "") l -> (length l <= String.length (join sep l))%nat.
Proof.
  induction 1 as [|x [|y l] Hx Hl IH]; [done| |].
  - destruct x; [done|]. cbn. lia.
  - rewrite join_cons, !length_app_str. destruct x; [done|]. cbn [String.length length] in *. lia.
Qed.

Lemma od_set_fresh {V} k (v : V) (acc : list (string * V)) : k ∉ acc.*1 -> od_set k v acc = acc ++ [(k, v)].
Proof.
  induction acc as [|[a b] acc IH]; cbn; [done|]. rewrite not_elem_of_cons. intros [H1 H2].
  rewrite decide_False by done. by rewrite IH.
Qed.

Section blocks.
Context (sc : string -> scan json) (tx : json -> string) (wc wl ac : string).
Hypothesis (Hwc : skip_ws wc = "") (Hwl : skip_ws wl = "") (Hac : skip_ws ac = "").

Definition reads (v : json) : Prop :=
  (forall t, stops t -> sc (tx v +:+ t) = Got v t) /\ (forall t, skip_ws (tx v +:+ t) = tx v +:+ t).

Lemma scan_items_text l : forall v t n, Forall reads (v :: l) -> (length l < n)%nat ->
  scan_items sc n (join (String "," wc) (tx <$> v :: l) +:+ (wl +:+ String "]" t)) = Got (v :: l) t.
Proof.
  induction l as [|v' l IH]; intros v t [|n] H Hn; try (cbn in Hn; lia);
    apply Forall_cons in H as [[Hv _] H]; cbn [scan_items].
  - change (join _ (tx <$> [v])) with (tx v). rewrite Hv by (by apply stops_ws). cbn [andthen].
    rewrite skip_ws_app, skip_ws_head by done. by rewrite eat_same.
  - cbn [fmap list_fmap]. rewrite join_cons, !app_assoc_str, append_cons. rewrite Hv by done. cbn [andthen].
    rewrite skip_ws_head by done. rewrite eat_other by done. rewrite eat_same.
    pose proof H as H'. apply Forall_cons in H' as [[_ Hs] _].
    rewrite skip_ws_app by done.
    assert (E : skip_ws (join (String "," wc) (tx v' :: (tx <$> l)) +:+ (wl +:+ String "]" t))
      = join (String "," wc) (tx <$> v' :: l) +:+ (wl +:+ String "]" t)).
    { destruct l as [|y l]; [apply Hs|]. cbn [fmap list_fmap]. rewrite join_cons, !app_assoc_str. apply Hs. }
    change (list_fmap json string tx l) with (tx <$> l). rewrite E.
    rewrite (IH v' t n) by (done || (cbn in Hn; lia)). done.
Qed.

Definition member_text (p : string * json) : string := quoted p.1 +:+ String ":" (ac +:+ tx p.2).

Lemma member_app p t : member_text p +:+ t = String QUOTE (escape p.1 +:+ String QUOTE (String ":" (ac +:+ (tx p.2 +:+ t)))).
Proof. unfold member_text. by rewrite app_assoc_str, quoted_app, append_cons, app_assoc_str. Qed.

Lemma scan_members_text ms : forall p t n acc, Forall (fun p => reads p.2) (p :: ms) -> NoDup (acc ++ p :: ms).*1 -> (length ms < n)%nat ->
  scan_members sc n (join (String "," wc) (member_text <$> p :: ms) +:+ (wl +:+ String "}" t)) acc = Got (acc ++ p :: ms) t.
Proof.
  assert (step : forall p t n acc, reads p.2 -> stops t -> scan_members sc (S n) (member_text p +:+ t) acc =
    match eat "}" (skip_ws t) with
    | Some r => Got (od_set p.1 p.2 acc) r
    | None => match eat "," (skip_ws t) with None => Bad None | Some r => scan_members sc n (skip_ws r) (od_set p.1 p.2 acc) end
    end).
  { intros p t n acc [H1 H2] Ht. cbn [scan_members]. rewrite member_app, eat_same, scan_escape. cbn [andthen].
    rewrite skip_ws_head by done. rewrite eat_same. rewrite skip_ws_app by done. rewrite H2, H1 by done. done. }
  induction ms as [|q ms IH]; intros p t [|n] acc H Nd Hn; try (cbn in Hn; lia);
    apply Forall_cons in H as [Hv H].
  - change (join _ (member_text <$> [p])) with (member_text p). rewrite step by (done || by apply stops_ws).
    rewrite skip_ws_app, skip_ws_head by done. rewrite eat_same. rewrite od_set_fresh; [by destruct p|].
    rewrite fmap_app in Nd. cbn in Nd. apply NoDup_app in Nd as (_ & Nd & _). intros Hin. eapply Nd; [done|left].
  - cbn [fmap list_fmap]. rewrite join_cons, !app_assoc_str, append_cons. rewrite step by done.
    rewrite skip_ws_head by done. rewrite eat_other, eat_same by done.
    assert (Hfresh : p.1 ∉ acc.*1).
    { rewrite fmap_app in Nd. cbn in Nd. apply NoDup_app in Nd as (_ & Nd & _). intros Hin. eapply Nd; [done|left]. }
    rewrite od_set_fresh by done. rewrite skip_ws_app by done.
    assert (E : forall u, skip_ws (member_text q +:+ u) = member_text q +:+ u).
    { intros u. rewrite member_app. by apply skip_ws_head. }
    assert (E' : skip_ws (join (String "," wc) (member_text q :: (member_text <$> ms)) +:+ (wl +:+ String "}" t))
      = join (String "," wc) (member_text <$> q :: ms) +:+ (wl +:+ String "}" t)).
    { destruct ms as [|y ms]; [apply E|]. cbn [fmap list_fmap]. rewrite join_cons, !app_assoc_str. apply E. }
    change (list_fmap _ string member_text ms) with (member_text <$> ms). rewrite E'.
    rewrite (IH q t n (acc ++ [(p.1, p.2)])); [|done| |cbn in Hn; lia].
    + rewrite <- app_assoc. by destruct p.
    + rewrite <- app_assoc. by destruct p.
Qed.
End blocks.

Lemma digit_codes c : is_digit c = true ->
  c <> QUOTE /\ c <> "{"%char /\ c <> "["%char /\ c <> "n"%char /\ c <> "t"%char /\ c <> "f"%char /\ c <> "N"%char /\ c <> "I"%char /\ c <> "-"%char.
Proof. destruct c as [[] [] [] [] [] [] [] []]; vm_compute; try congruence; intros _; repeat split; congruence. Qed.

Lemma scan_once_number limit s x r : scan_number s = Some (x, r) -> scan_once limit s = of_number x r.
Proof.
  intros E. destruct s as [|c s]; [done|]. pose proof (number_first _ _ _ _ E) as F.
  assert (eat QUOTE (String c s) = None /\ eat "{" (String c s) = None /\ eat "[" (String c s) = None /\ literal LITERALS (String c s) = None)
    as (E1 & E2 & E3 & E4).
  { destruct F as [[-> D]|D].
    - split; [done|]. split; [done|]. split; [done|]. destruct s as [|d s]; [done|]. cbn in D.
      destruct (digit_codes d D) as (_ & _ & _ & _ & _ & _ & _ & H & _).
      revert H. clear. destruct d as [[] [] [] [] [] [] [] []]; vm_compute; congruence.
    - revert D. clear. destruct c as [[] [] [] [] [] [] [] []]; vm_compute; intros; first [done | repeat split; done | by exfalso; auto]. }
  destruct limit; cbn [scan_once]; rewrite E1, E2, E3, E4, E; done.
Qed.

Lemma block_length (w : string) sep parts (u : string) : Forall (fun x => x <> "") parts -> u <> "" ->
  (length parts < String.length (w +:+ (join sep parts +:+ u)))%nat.
Proof.
  intros H Hu. rewrite !length_app_str. pose proof (join_length sep parts H). destruct u; [done|]. cbn. lia.
Qed.

Lemma app_cons_nonnil (w : string) c u : w +:+ String c u <> "".
Proof. destruct w; [done|]. by rewrite append_cons. Qed.

Lemma forallb_elem {A} (f : A -> bool) l : forallb f l = true -> forall x, x ∈ l -> f x = true.
Proof. induction l as [|y l IH]; cbn; intros H x Hx; [by apply not_elem_of_nil in Hx|]. apply andb_prop in H as [H1 H2]. apply elem_of_cons in Hx as [->|Hx]; auto. Qed.

Lemma skip_join (tx : json -> string) sep l v u : (forall t, skip_ws (tx v +:+ t) = tx v +:+ t) ->
  skip_ws (join sep (tx <$> v :: l) +:+ u) = join sep (tx <$> v :: l) +:+ u.
Proof.
  intros H. destruct l as [|y l]; [apply H|]. cbn [fmap list_fmap]. rewrite join_cons, !app_assoc_str. apply H.
Qed.
Lemma eat_join (tx : json -> string) sep l v u c : (forall t, eat c (tx v +:+ t) = None) -> eat c (join sep (tx <$> v :: l) +:+ u) = None.
Proof.
  intros H. destruct l as [|y l]; [apply H|]. cbn [fmap list_fmap]. rewrite join_cons, !app_assoc_str. apply H.
Qed.

Lemma scan_text_list st limit lvl d l t : layout_ok st -> forallb (fits d) l = true ->
  Forall (reads (scan_once limit) (text st (S lvl))) l ->
  scan_once (S limit) (text st lvl (JList l) +:+ t) = Got (JList l) t.
Proof.
  intros (Lc & _ & Lb) F R. destruct l as [|v l]; [done|]. cbn [text map]. pose proof (forallb_elem _ _ F) as Fl.
  rewrite append_cons, !app_assoc_str, append_cons. cbn [scan_once]. rewrite !eat_other, eat_same by done.
  change (text st (S lvl) v :: map (text st (S lvl)) l) with (text st (S lvl) <$> v :: l). change ("" +:+ t) with t.
  assert (Fv : fits d v = true) by (apply Fl; left).
  assert (L : (length (text st (S lvl) <$> v :: l) < String.length (break_at st (S lvl) +:+
    (join (String "," (after_comma st +:+ break_at st (S lvl))) (text st (S lvl) <$> v :: l) +:+ (break_at st lvl +:+ String "]" t))))%nat).
  { apply block_length; [|apply app_cons_nonnil]. apply Forall_fmap, Forall_forall. intros u Hu. cbn.
    destruct (text_head st (S lvl) d u (Fl u Hu)) as (? & ? & -> & _). done. }
  rewrite skip_ws_app by done.
  rewrite (skip_join (text st (S lvl))) by (intros u; by apply (text_skip _ _ d)).
  rewrite (eat_join (text st (S lvl))) by (intros u; apply (text_eat _ _ d); auto).
  rewrite scan_items_text; [done|by rewrite skip_ws_app|done|done|]. rewrite length_fmap in L. cbn [length] in L. lia.
Qed.

Lemma scan_text_obj st limit lvl ms t : layout_ok st -> NoDup ms.*1 ->
  Forall (fun p => reads (scan_once limit) (text st (S lvl)) p.2) ms ->
  scan_once (S limit) (text st lvl (JObj ms) +:+ t) = Got (JObj ms) t.
Proof.
  intros (Lc & Lk & Lb) Nd R. destruct ms as [|p ms]; [done|]. cbn [text map].
  rewrite append_cons, !app_assoc_str, append_cons. cbn [scan_once]. rewrite eat_other, eat_same by done.
  set (mt := member_text (text st (S lvl)) (after_colon st)).
  change (_ :: map _ ms) with (mt <$> p :: ms). change ("" +:+ t) with t.
  assert (L : (length (mt <$> p :: ms) < String.length (break_at st (S lvl) +:+
    (join (String "," (after_comma st +:+ break_at st (S lvl))) (mt <$> p :: ms) +:+ (break_at st lvl +:+ String "}" t))))%nat).
  { apply block_length; [|apply app_cons_nonnil]. apply Forall_fmap, Forall_forall. done. }
  assert (H : forall sep u, skip_ws (join sep (mt <$> p :: ms) +:+ u) = join sep (mt <$> p :: ms) +:+ u /\
                        eat "}" (join sep (mt <$> p :: ms) +:+ u) = None).
  { intros sep u. assert (E : exists w, join sep (mt <$> p :: ms) +:+ u = mt p +:+ w).
    { destruct ms as [|q ms]; [by eexists|]. cbn [fmap list_fmap]. rewrite join_cons, !app_assoc_str. by eexists. }
    destruct E as [w ->]. unfold mt. by rewrite member_app. }
  rewrite skip_ws_app by done. rewrite (proj1 (H _ _)), (proj2 (H _ _)).
  unfold mt in *. rewrite scan_members_text; [done|by rewrite skip_ws_app|done..|].
  rewrite length_fmap in L. cbn [length] in L. lia.
Qed.

(** Reading a printed value, whatever ends it. *)
Lemma scan_text st : layout_ok st -> forall d limit v lvl t, fits d v = true -> (d <= limit)%nat -> stops t ->
  scan_once limit (text st lvl v +:+ t) = Got v t.
Proof.
  intros Hst. induction d as [d IH] using (well_founded_induction lt_wf). intros limit v lvl t F Hd Ht.
  assert (R : forall d' limit' u, d = S d' -> limit = S limit' -> fits d' u = true -> reads (scan_once limit') (text st (S lvl)) u).
  { intros d' limit' u -> -> Fu. split; [intros t' Ht'; apply (IH d'); (done || lia)|].
    intros t'. by apply (text_skip _ _ d'). }
  destruct v as [|b|n|x|s|l|ms].
  - by destruct limit.
  - by destruct b, limit.
  - cbn [text]. rewrite (scan_once_number _ _ _ _ (scan_number_int n t Ht)). unfold of_number.
    cbn in F. unfold digits_ok in F. by rewrite F.
  - cbn [text]. cbn in F. unfold float_text. destruct x as [[]|[]| |s m e]; try (by destruct limit).
    all: by rewrite (scan_once_number _ _ _ _ (scan_number_repr _ t F eq_refl Ht)).
  - cbn [text]. rewrite quoted_app. destruct limit; cbn [scan_once]; rewrite eat_same, scan_escape; done.
  - destruct d as [|d]; [done|]. destruct limit as [|limit]; [lia|]. apply (scan_text_list _ _ _ d); [done|done|].
    apply Forall_forall. intros u Hu. apply (R d); [done..|]. by apply (forallb_elem _ _ F).
  - destruct d as [|d]; [done|]. destruct limit as [|limit]; [lia|]. cbn in F. apply andb_prop in F as [Nd F].
    apply bool_decide_eq_true in Nd. apply scan_text_obj; [done..|].
    apply Forall_forall. intros p Hp. apply (R d); [done..|]. by apply (forallb_elem _ _ F).
Qed.

Lemma fits_ints d : forall v, fits d v = true -> ints_ok v = true.
Proof.
  induction d as [d IH] using (well_founded_induction lt_wf). intros v F.
  destruct v as [|b|n|x|s|l|ms]; try done; destruct d as [|d]; try done; cbn in F |- *.
  - apply forallb_forall. intros u Hu%list_elem_of_In. apply (IH d); [lia|]. by apply (forallb_elem _ _ F).
  - apply andb_prop in F as [_ F]. apply forallb_forall. intros u Hu%list_elem_of_In. apply (IH d); [lia|].
    by apply (forallb_elem _ _ F).
Qed.

(** [json.loads(json.dumps(v))] is [v]. *)
Lemma loads_dumps st limit v : layout_ok st -> fits limit v = true ->
  exists s, dumps st v = Ok s /\ loads limit s = Parsed v.
Proof.
  intros Hst F. unfold dumps. rewrite (fits_ints _ _ F). eexists. split; [done|].
  unfold loads. pose proof (text_skip st 0 _ v "" F) as S. pose proof (scan_text st Hst limit limit v 0 "" F ltac:(lia) I) as E.
  rewrite app_nil_str in S, E. rewrite S, E.
  assert (eat_str BOM (text st 0 v) = None) as ->; [|done].
  destruct (text_head st 0 _ v F) as (c & r & -> & _ & _ & _ & N). cbn [BOM eat_str]. by rewrite eat_other.
Qed.

(** ** What follows a value does not change it; runs of digits stay within the limit *)
Definition leading (s : string) : nat := (scan_digits s 0 0).1.2.
Fixpoint runs_ok (s : string) : bool :=
  (leading s <=? MAX_STR_DIGITS)%nat && match s with "" => true | String _ s => runs_ok s end.

Lemma runs_ok_app p s : runs_ok (p +:+ s) = true -> runs_ok s = true.
Proof.
  induction p as [|c p IH]; [done|]. rewrite append_cons. cbn [runs_ok]. intros H%andb_prop. tauto.
Qed.
Lemma scan_digits_mono p q : forall a b n, ((scan_digits p a n).1.2 <= (scan_digits (p +:+ q) b n).1.2)%nat.
Proof.
  induction p as [|c p IH]; intros a b n.
  - change ("" +:+ q) with q. destruct (scan_digits q b n) as [[v m] r] eqn:E. cbn.
    destruct (scan_digits_tail _ _ _ _ _ _ E) as [[_ ->]|[_ ?]]; lia.
  - rewrite append_cons. cbn [scan_digits]. destruct (is_digit c); [apply IH|done].
Qed.
Lemma runs_ok_prefix p q : runs_ok (p +:+ q) = true -> runs_ok p = true.
Proof.
  induction p as [|c p IH]; [done|]. rewrite append_cons. cbn [runs_ok]. intros [H1 H2]%andb_prop.
  rewrite IH by done. rewrite andb_true_r. apply Nat.leb_le in H1. apply Nat.leb_le. etransitivity; [|apply H1].
  unfold leading. rewrite <- append_cons. apply scan_digits_mono.
Qed.
Lemma runs_ok_tail r s : tail_of r s -> runs_ok s = true -> runs_ok r = true.
Proof. intros (p & _ & ->). apply runs_ok_app. Qed.

Lemma skip_ws_tail s : skip_ws s = s \/ tail_of (skip_ws s) s.
Proof.
  induction s as [|c s IH]; [by left|]. cbn [skip_ws]. destruct (is_ws c); [|by left]. right. by apply tail_cons.
Qed.
Lemma runs_ok_skip s : runs_ok s = true -> runs_ok (skip_ws s) = true.
Proof. destruct (skip_ws_tail s) as [->|H]; [done|]. by apply runs_ok_tail. Qed.
Lemma tail_skip s r : tail_of r (skip_ws s) -> tail_of r s.
Proof. destruct (skip_ws_tail s) as [->|H]; [done|]. intros. by eapply tail_trans. Qed.

Lemma skip_ws_more r t : skip_ws r <> "" -> skip_ws (r +:+ t) = skip_ws r +:+ t.
Proof. induction r as [|c r IH]; [done|]. rewrite append_cons. cbn [skip_ws]. by destruct (is_ws c). Qed.

(** Once a separator [c] is found after [r], text appended changes nothing. *)
Lemma eat_more c d r r' t : eat c (skip_ws r) = Some r' ->
  eat d (skip_ws (r +:+ t)) = (fun u => u +:+ t) <$> eat d (skip_ws r).
Proof.
  intros E. assert (skip_ws r <> "") as H by (by intros H; rewrite H in E). by rewrite skip_ws_more, eat_app.
Qed.
Lemma eat_stops c r r' t : eat c (skip_ws r) = Some r' -> numchar c = false -> stops (r +:+ t).
Proof.
  destruct r as [|x r]; [done|]. rewrite append_cons. cbn. destruct (is_ws x) eqn:W.
  - intros _ _. by apply ws_not_number.
  - cbn. case_decide; [|done]. by intros _ ?; subst.
Qed.
Lemma eat_skip_tail c r r' : eat c (skip_ws r) = Some r' -> tail_of r' r.
Proof. intros H%eat_tail. by apply tail_skip. Qed.

Lemma scan_chars_more s t : forall st hi v r, scan_chars st hi s = Got v r -> scan_chars st hi (s +:+ t) = Got v (r +:+ t).
Proof.
  induction s as [|c s IH]; intros st hi v r; [done|]. rewrite append_cons. cbn [scan_chars].
  assert (E : forall p st hi v r, emit_text p (scan_chars st hi s) = Got v r -> emit_text p (scan_chars st hi (s +:+ t)) = Got v (r +:+ t)).
  { intros p st' hi' v' r'. destruct (scan_chars st' hi' s) eqn:E; [|done]. apply IH in E. rewrite E. cbn. by intros [= <- <-]. }
  destruct st as [| |[|k] acc]; repeat case_match; try done; try apply IH; try apply E. by intros [= <- <-].
Qed.
Lemma scan_chars_tail s : forall st hi v r, scan_chars st hi s = Got v r -> tail_of r s.
Proof.
  induction s as [|c s IH]; intros st hi v r; [done|]. cbn [scan_chars].
  assert (E : forall p st hi v r, emit_text p (scan_chars st hi s) = Got v r -> tail_of r (String c s)).
  { intros p st' hi' v' r'. destruct (scan_chars st' hi' s) eqn:E; [|done]. apply IH in E. intros [= _ <-]. apply tail_cons; auto. }
  destruct st as [| |[|k] acc]; repeat case_match; try done; try apply E; intros Hs;
    first [injection Hs as _ <-; apply tail_cons; by left | apply tail_cons; right; by eapply IH].
Qed.
Lemma scan_chars_bad s : forall st hi e, scan_chars st hi s <> Bad (Some e).
Proof.
  induction s as [|c s IH]; intros st hi e; [done|]. cbn [scan_chars].
  assert (E : forall p st hi e, emit_text p (scan_chars st hi s) <> Bad (Some e)).
  { intros p st' hi' e'. destruct (scan_chars st' hi' s) eqn:E; [done|]. cbn. intros [= ->]. by apply IH in E. }
  destruct st as [| |[|k] acc]; repeat case_match; try done; try apply IH; apply E.
Qed.

(** Appending [t]: the same value, with the rest before [t]; an exception other than a decode
    error stays one. *)
Definition more {A} (x y : scan A) (s t : string) (guard : string -> Prop) : Prop :=
  match x with
  | Got v r => guard (r +:+ t) -> y = Got v (r +:+ t)
  | Bad None => True
  | Bad (Some _) => runs_ok s = true -> exists e, y = Bad (Some e)
  end.
Definition extends (sc : string -> scan json) : Prop := forall s t, more (sc s) (sc (s +:+ t)) s t stops.
Definition consumes {A} (sc : string -> scan A) : Prop := forall s v r, sc s = Got v r -> tail_of r s.

Section loops_more.
Context (sc : string -> scan json).
Hypothesis (Hext : extends sc) (Hcon : consumes sc) (Hnil : sc "" = Bad None).

Lemma items_consume n : consumes (scan_items sc n).
Proof.
  induction n as [|n IH]; intros s v r; [done|]. cbn [scan_items].
  destruct (sc s) as [x r1|] eqn:E; [|done]. cbn [andthen]. apply Hcon in E.
  destruct (eat "]" (skip_ws r1)) as [r2|] eqn:E2.
  { intros [= _ <-]. apply eat_skip_tail in E2. by eapply tail_trans. }
  destruct (eat "," (skip_ws r1)) as [r2|] eqn:E3; [|done].
  destruct (scan_items sc n (skip_ws r2)) as [vs r3|] eqn:E4; [|done]. intros [= _ <-].
  apply IH, tail_skip in E4. apply eat_skip_tail in E3. eauto using tail_trans.
Qed.

Lemma members_consume n : forall s acc v r, scan_members sc n s acc = Got v r -> tail_of r s.
Proof.
  induction n as [|n IH]; intros s acc v r; [done|]. cbn [scan_members].
  destruct (eat QUOTE s) as [r0|] eqn:E0; [|done]. apply eat_tail in E0.
  destruct (scan_chars Plain None r0) as [k r1|] eqn:E1; [|done]. cbn [andthen]. apply scan_chars_tail in E1.
  destruct (eat ":" (skip_ws r1)) as [r2|] eqn:E2; [|done]. apply eat_skip_tail in E2.
  destruct (sc (skip_ws r2)) as [x r3|] eqn:E3; [|done]. cbn [andthen]. apply Hcon, tail_skip in E3.
  destruct (eat "}" (skip_ws r3)) as [r4|] eqn:E4.
  { intros [= _ <-]. apply eat_skip_tail in E4. eauto using tail_trans. }
  destruct (eat "," (skip_ws r3)) as [r4|] eqn:E5; [|done]. intros H. apply IH, tail_skip in H.
  apply eat_skip_tail in E5. eauto 6 using tail_trans.
Qed.

Lemma items_more n : forall m s t, (n <= m)%nat ->
  more (scan_items sc n s) (scan_items sc m (s +:+ t)) s t (fun _ => True).
Proof.
  induction n as [|n IH]; intros m s t Hm; [done|]. destruct m as [|m]; [lia|]. cbn [scan_items].
  pose proof (Hext s t) as X. destruct (sc s) as [v r|[e|]] eqn:E; cbn [andthen more] in *; [| |done].
  2: { intros R. destruct (X R) as [e' ->]. by exists e'. }
  destruct (eat "]" (skip_ws r)) as [r'|] eqn:E1.
  { intros _. rewrite X by (by eapply eat_stops). cbn [andthen]. rewrite (eat_more _ _ _ _ t E1), E1. done. }
  destruct (eat "," (skip_ws r)) as [r'|] eqn:E2; [|done].
  rewrite X by (by eapply eat_stops). cbn [andthen]. rewrite !(eat_more _ _ _ _ t E2), E1, E2. cbn [fmap option_fmap option_map].
  assert (T : tail_of r' s) by (apply eat_skip_tail in E2; apply Hcon in E; by eapply tail_trans).
  assert (Hr : skip_ws r' = "" \/ skip_ws (r' +:+ t) = skip_ws r' +:+ t).
  { destruct (decide (skip_ws r' = "")); [by left|right; by apply skip_ws_more]. }
  destruct Hr as [Hr| ->].
  { rewrite Hr. destruct n; [done|]. cbn [scan_items]. by rewrite Hnil. }
  specialize (IH m (skip_ws r') t ltac:(lia)).
  destruct (scan_items sc n (skip_ws r')) as [vs r2|[e|]]; cbn [andthen more] in *; [| |done].
  - intros _. by rewrite IH.
  - intros R. destruct IH as [e' ->]; [|by exists e']. apply runs_ok_skip. by eapply runs_ok_tail.
Qed.

Lemma members_more n : forall m s t acc, (n <= m)%nat ->
  more (scan_members sc n s acc) (scan_members sc m (s +:+ t) acc) s t (fun _ => True).
Proof.
  induction n as [|n IH]; intros m s t acc Hm; [done|]. destruct m as [|m]; [lia|]. cbn [scan_members].
  destruct s as [|c0 s0]; [done|]. rewrite eat_app by done. remember (String c0 s0) as s eqn:Es. clear Es c0 s0.
  destruct (eat QUOTE s) as [r0|] eqn:E0; [|done]. cbn [fmap option_fmap option_map]. apply eat_tail in E0.
  destruct (scan_chars Plain None r0) as [k r1|[e|]] eqn:E1; [|by apply scan_chars_bad in E1|done].
  rewrite (scan_chars_more _ t _ _ _ _ E1). cbn [andthen]. apply scan_chars_tail in E1.
  destruct (eat ":" (skip_ws r1)) as [r2|] eqn:E2; [|done]. rewrite (eat_more _ _ _ _ t E2), E2. apply eat_skip_tail in E2.
  cbn [fmap option_fmap option_map].
  assert (T2 : tail_of r2 s) by eauto using tail_trans.
  destruct (decide (skip_ws r2 = "")) as [->|Hr]; [by rewrite Hnil|]. rewrite skip_ws_more by done.
  pose proof (Hext (skip_ws r2) t) as X. destruct (sc (skip_ws r2)) as [v r|[e|]] eqn:E3; cbn [andthen more] in *; [| |done].
  2: { intros R. destruct X as [e' ->]; [|by exists e']. apply runs_ok_skip. by eapply runs_ok_tail. }
  apply Hcon, tail_skip in E3.
  destruct (eat "}" (skip_ws r)) as [r'|] eqn:E4.
  { intros _. rewrite X by (by eapply eat_stops). cbn [andthen]. rewrite (eat_more _ _ _ _ t E4), E4. done. }
  destruct (eat "," (skip_ws r)) as [r'|] eqn:E5; [|done].
  rewrite X by (by eapply eat_stops). cbn [andthen]. rewrite !(eat_more _ _ _ _ t E5), E4, E5. cbn [fmap option_fmap option_map].
  apply eat_skip_tail in E5. assert (T : tail_of r' s) by eauto using tail_trans.
  destruct (decide (skip_ws r' = "")) as [->|Hr']; [by destruct n|]. rewrite skip_ws_more by done.
  specialize (IH m (skip_ws r') t (od_set k v acc) ltac:(lia)).
  destruct (scan_members sc n (skip_ws r') (od_set k v acc)) as [vs r3|[e|]]; cbn [more] in *; [| |done].
  - intros _. by rewrite IH.
  - intros R. destruct IH as [e' ->]; [|by exists e']. apply runs_ok_skip. by eapply runs_ok_tail.
Qed.
End loops_more.

Section fuel.
Context (sc : string -> scan json).
Hypothesis (Hcon : consumes sc) (Hnil : sc "" = Bad None).

(** The fuel of the loops is enough: beyond the length of the text it changes nothing. *)
Lemma items_fuel n : forall m s, (String.length s <= n <= m)%nat -> scan_items sc n s = scan_items sc m s.
Proof.
  induction n as [|n IH]; intros m s Hm.
  { destruct s; [|cbn in Hm; lia]. destruct m; [done|]. cbn. by rewrite Hnil. }
  destruct m as [|m]; [lia|]. cbn [scan_items]. destruct (sc s) as [v r|] eqn:E; [|done]. cbn [andthen].
  destruct (eat "]" _); [done|]. destruct (eat "," _) as [r'|] eqn:E2; [|done].
  rewrite (IH m); [done|]. apply Hcon, tail_length in E. apply eat_skip_tail, tail_length in E2.
  destruct (skip_ws_tail r') as [->|L%tail_length]; lia.
Qed.
Lemma members_fuel n : forall m s acc, (String.length s <= n <= m)%nat -> scan_members sc n s acc = scan_members sc m s acc.
Proof.
  induction n as [|n IH]; intros m s acc Hm.
  { destruct s; [|cbn in Hm; lia]. by destruct m. }
  destruct m as [|m]; [lia|]. cbn [scan_members]. destruct (eat QUOTE s) as [r0|] eqn:E0; [|done].
  destruct (scan_chars Plain None r0) as [k r1|] eqn:E1; [|done]. cbn [andthen].
  destruct (eat ":" _) as [r2|] eqn:E2; [|done]. destruct (sc (skip_ws r2)) as [v r|] eqn:E; [|done]. cbn [andthen].
  destruct (eat "}" _); [done|]. destruct (eat "," _) as [r'|] eqn:E4; [|done]. apply IH.
  apply eat_tail, tail_length in E0. apply scan_chars_tail, tail_length in E1. apply Hcon, tail_skip, tail_length in E.
  apply eat_skip_tail, tail_length in E2, E4. destruct (skip_ws_tail r') as [->|L%tail_length]; lia.
Qed.
End fuel.

Lemma eat_str_app p s r : eat_str p s = Some r -> s = p +:+ r.
Proof.
  revert s. induction p as [|c p IH]; intros s; cbn [eat_str]; [by intros [= ->]|].
  destruct s as [|d s]; [done|]. cbn [eat]. case_decide as Hc; [|done]. subst. cbn [mbind option_bind].
  intros ->%IH. by rewrite append_cons.
Qed.
Lemma literal_app l s v r : literal l s = Some (v, r) -> exists p, (p, v) ∈ l /\ s = p +:+ r.
Proof.
  induction l as [|[p w] l IH]; [done|]. cbn [literal]. destruct (eat_str p s) as [r'|] eqn:E.
  - intros [= <- <-]. exists p. split; [left|]. by apply eat_str_app.
  - intros (q & ? & ?)%IH. exists q. split; [by right|done].
Qed.

(** A literal is read the same whatever the limit and the rest. *)
Lemma scan_once_literal limit s t v r : literal LITERALS s = Some (v, r) ->
  tail_of r s /\ scan_once limit (s +:+ t) = Got v (r +:+ t).
Proof.
  intros (p & Hp & ->)%literal_app. unfold LITERALS in Hp. rewrite app_assoc_str.
  assert (p <> "" /\ forall u, scan_once limit (p +:+ u) = Got v u) as [N H]; [|by split; [exists p|apply H]].
  repeat (apply elem_of_cons in Hp as [[= -> ->]|Hp]; [by destruct limit|]). by apply elem_of_nil in Hp.
Qed.

Lemma scan_once_nil limit : scan_once limit "" = Bad None.
Proof. by destruct limit. Qed.

Lemma scan_once_consumes limit : consumes (scan_once limit).
Proof.
  induction limit as [|limit IH]; intros s v r; cbn [scan_once].
  all: destruct (eat QUOTE s) as [r0|] eqn:E0;
    [destruct (scan_chars Plain None r0) as [k r1|] eqn:E1; [|done]; intros [= _ <-];
     apply eat_tail in E0; apply scan_chars_tail in E1; by eapply tail_trans|].
  all: destruct (eat "{" s) as [r1|] eqn:E1; try done.
  2: { apply eat_tail in E1. destruct (eat "}" (skip_ws r1)) as [r2|] eqn:E2.
       - intros [= _ <-]. apply eat_skip_tail in E2. by eapply tail_trans.
       - destruct (scan_members _ _ _ _) as [m r2|] eqn:E3; [|done]. intros [= _ <-].
         apply (members_consume _ IH), tail_skip in E3. by eapply tail_trans. }
  all: destruct (eat "[" s) as [r1|] eqn:E2; try done.
  2: { apply eat_tail in E2. destruct (eat "]" (skip_ws r1)) as [r2|] eqn:E3.
       - intros [= _ <-]. apply eat_skip_tail in E3. by eapply tail_trans.
       - destruct (scan_items _ _ _) as [m r2|] eqn:E4; [|done]. intros [= _ <-].
         apply (items_consume _ IH), tail_skip in E4. by eapply tail_trans. }
  all: destruct (literal LITERALS s) as [[w r1]|] eqn:E3;
    [intros [= _ <-]; by destruct (scan_once_literal 0 _ "" _ _ E3)|].
  all: destruct (scan_number s) as [[x r1]|] eqn:E4; [|done]; apply scan_number_tail in E4.
  all: destruct x as [n k|x]; cbn [of_number]; [destruct (_ <=? _)%nat; [|done]|]; by intros [= _ <-].
Qed.

Lemma leading_digits s v n r : scan_digits s 0 0 = (v, n, r) -> runs_ok s = true -> (n <= MAX_STR_DIGITS)%nat.
Proof.
  intros E R. assert (leading s <= MAX_STR_DIGITS)%nat as L.
  { destruct s; cbn [runs_ok] in R; apply andb_prop in R as [R _]; by apply Nat.leb_le in R. }
  unfold leading in L. by rewrite E in L.
Qed.

Lemma number_runs s n k r : scan_number s = Some (NInt n k, r) -> runs_ok s = true -> (k <= MAX_STR_DIGITS)%nat.
Proof.
  unfold scan_number.
  set (p := match eat "-" s with Some s1 => (true, s1) | None => (false, s) end). intros H R.
  assert (R' : runs_ok p.2 = true).
  { unfold p. destruct (eat "-" s) eqn:E; [|done]. apply eat_tail in E. by eapply runs_ok_tail. }
  destruct p as [neg s1]. cbn [snd] in R'. destruct (int_part s1) as [[[ip m] r0]|] eqn:Ei; [|done]. cbn [mbind option_bind] in H.
  destruct (frac_part r0 ip) as [[w nf] r1]. destruct (exp_part r1) as [e r2].
  assert (m = k) as -> by (destruct nf, e; congruence).
  unfold int_part in Ei. destruct (eat "0" s1); [simplify_eq; unfold MAX_STR_DIGITS; lia|].
  destruct (starts_digit s1); [|done]. apply (inj Some) in Ei. by eapply leading_digits.
Qed.

Lemma more_weaken {A} (x y : scan A) s t : more x y s t (fun _ => True) -> more x y s t stops.
Proof. destruct x as [v r|[e|]]; cbn; auto. Qed.

(** An object ends with its brace: nothing that follows matters. *)
Lemma scan_object_more limit s t r : extends (scan_once limit) -> eat "{" s = Some r ->
  more (scan_once (S limit) s) (scan_once (S limit) (s +:+ t)) s t (fun _ => True).
Proof.
  intros IH E. assert (Hs : s <> "") by (by intros ->). cbn [scan_once]. rewrite !eat_app, E by done.
  assert (eat QUOTE s = None) as -> by (destruct s as [|c s]; [done|]; cbn in E |- *; repeat case_decide; congruence).
  cbn [fmap option_fmap option_map]. apply eat_tail in E.
  destruct (decide (skip_ws r = "")) as [->|Hr]; [cbn [eat]; by destruct (String.length r)|].
  rewrite skip_ws_more, eat_app by done. destruct (eat "}" (skip_ws r)) as [r2|]; [done|]. cbn [fmap option_fmap option_map].
  pose proof (members_more _ IH (scan_once_consumes _) (scan_once_nil _) (String.length r) (String.length (r +:+ t)) (skip_ws r) t []
    ltac:(rewrite length_app_str; lia)) as M.
  destruct (scan_members _ (String.length r) _ _) as [m r2|[e|]]; cbn [more andthen] in *; [| |done].
  - intros _. by rewrite M.
  - intros R. destruct M as [e' ->]; [|by exists e']. apply runs_ok_skip. by eapply runs_ok_tail.
Qed.
Lemma scan_array_more limit s t r : extends (scan_once limit) -> eat "[" s = Some r ->
  more (scan_once (S limit) s) (scan_once (S limit) (s +:+ t)) s t (fun _ => True).
Proof.
  intros IH E. assert (Hs : s <> "") by (by intros ->). cbn [scan_once]. rewrite !eat_app, E by done.
  assert (eat QUOTE s = None /\ eat "{" s = None) as [-> ->]
    by (destruct s as [|c s]; [done|]; cbn in E |- *; repeat case_decide; split; congruence).
  cbn [fmap option_fmap option_map]. apply eat_tail in E. destruct (decide (skip_ws r = "")) as [->|Hr].
  { cbn [eat]. destruct (String.length r); [done|]. cbn [scan_items]. by rewrite scan_once_nil. }
  rewrite skip_ws_more, eat_app by done. destruct (eat "]" (skip_ws r)) as [r2|]; [done|]. cbn [fmap option_fmap option_map].
  pose proof (items_more _ IH (scan_once_consumes _) (scan_once_nil _) (String.length r) (String.length (r +:+ t)) (skip_ws r) t
    ltac:(rewrite length_app_str; lia)) as M.
  destruct (scan_items _ (String.length r) _) as [m r2|[e|]]; cbn [more andthen] in *; [| |done].
  - intros _. by rewrite M.
  - intros R. destruct M as [e' ->]; [|by exists e']. apply runs_ok_skip. by eapply runs_ok_tail.
Qed.

Lemma scan_once_extends limit : extends (scan_once limit).
Proof.
  induction limit as [|limit IH]; intros s t; (destruct s as [|c0 s0]; [done|]);
    remember (String c0 s0) as s eqn:Es; assert (Hs : s <> "") by (by subst); clear Es c0 s0.
  2: destruct (eat "{" s) as [r|] eqn:E1; [by eapply more_weaken, scan_object_more|].
  2: destruct (eat "[" s) as [r|] eqn:E2; [by eapply more_weaken, scan_array_more|].
  all: destruct (literal LITERALS s) as [[w r1]|] eqn:EL;
    [pose proof (scan_once_literal) as L; rewrite <- (app_nil_str s) at 1; rewrite (proj2 (L _ _ "" _ _ EL)), app_nil_str;
     rewrite (proj2 (L _ _ t _ _ EL)); done|].
  all: destruct (scan_number s) as [[x r1]|] eqn:EN;
    [rewrite (scan_once_number _ _ _ _ EN); unfold of_number; destruct x as [n k|x]; cbn [more];
     [destruct (_ <=? _)%nat eqn:K; cbn [more];
      [|intros R; pose proof (number_runs _ _ _ _ EN R) as L; apply Nat.leb_gt in K; lia]|];
     intros Ht; rewrite (scan_once_number _ _ _ _ (scan_number_app _ t _ _ EN Ht)); cbn [of_number]; by rewrite ?K|].
  all: cbn [scan_once]; rewrite EL, EN, !eat_app by done.
  all: destruct (eat QUOTE s) as [r0|] eqn:E0; cbn [fmap option_fmap option_map];
    [destruct (scan_chars Plain None r0) as [k r1|[e|]] eqn:E3; [|by apply scan_chars_bad in E3|done];
     rewrite (scan_chars_more _ t _ _ _ _ E3); done|].
  - destruct (eat "{" s); [intros _; by eexists|]. destruct (eat "[" s); [intros _; by eexists|]. done.
  - by rewrite E1, E2.
Qed.

(** A proper prefix of an object's text is no JSON text; decoding it raises nothing else. *)
Lemma loads_prefix limit p q v : scan_once limit (p +:+ q) = Got v "" -> eat "{" (p +:+ q) <> None ->
  runs_ok (p +:+ q) = true -> q <> "" -> loads limit p = JSONDecodeError.
Proof.
  intros E H R Hq. destruct p as [|c p]; [by destruct limit|].
  destruct (eat "{" (String c p)) as [r|] eqn:Ep; [|rewrite append_cons in H; cbn in H, Ep; by case_decide].
  assert (c = "{"%char) as -> by (cbn in Ep; by case_decide).
  destruct limit as [|limit]; [done|]. unfold loads. cbn [BOM eat_str skip_ws].
  pose proof (scan_object_more limit _ q _ (scan_once_extends limit) Ep) as M. rewrite E in M.
  change (eat (char_of 239) (String "{" p)) with (@None string). change (is_ws "{") with false. cbn [mbind option_bind].
  destruct (scan_once (S limit) (String "{" p)) as [w u|[e|]]; cbn [more] in M; [| |done].
  - specialize (M I). destruct u as [|d u]; [|by rewrite append_cons in M].
    change ("" +:+ q) with q in M. congruence.
  - apply runs_ok_prefix in R. destruct (M R) as [? [=]].
Qed.

(** ** A compact text is one line *)
Fixpoint no_nl (s : string) : bool := match s with "" => true | String c s => negb (code c =? 10) && no_nl s end.
Lemma no_nl_app a b : no_nl (a +:+ b) = no_nl a && no_nl b.
Proof. induction a as [|c a IH]; [done|]. rewrite append_cons. cbn. by rewrite IH, andb_assoc. Qed.
Lemma no_nl_prefix a b : no_nl (a +:+ b) = true -> no_nl a = true.
Proof. rewrite no_nl_app. by intros [? ?]%andb_prop. Qed.

Lemma escape_no_nl s : no_nl (escape s) = true.
Proof.
  induction s as [|c s IH]; [done|]. cbn [escape]. rewrite no_nl_app, IH, andb_true_r.
  destruct c as [[] [] [] [] [] [] [] []]; reflexivity.
Qed.
Lemma quoted_no_nl s : no_nl (quoted s) = true.
Proof. unfold quoted. cbn [no_nl]. by rewrite no_nl_app, escape_no_nl. Qed.
Lemma nums_no_nl s : nums s = true -> no_nl s = true.
Proof.
  induction s as [|c s IH]; [done|]. cbn. intros [N H]%andb_prop. rewrite IH by done. rewrite andb_true_r.
  revert N. clear. destruct c as [[] [] [] [] [] [] [] []]; vm_compute; congruence.
Qed.
Lemma join_no_nl sep l : no_nl sep = true -> Forall (fun x => no_nl x = true) l -> no_nl (join sep l) = true.
Proof.
  intros Hs. induction 1 as [|x [|y l] Hx Hl IH]; [done|done|]. by rewrite join_cons, !no_nl_app, Hx, Hs, IH.
Qed.

Lemma text_no_nl d : forall v lvl, fits d v = true -> no_nl (text compact lvl v) = true.
Proof.
  induction d as [d IH] using (well_founded_induction lt_wf). intros v lvl F. destruct v as [|b|n|x|s|l|ms]; cbn [text].
  - done.
  - by destruct b.
  - apply nums_no_nl, int_repr_nums.
  - unfold float_text. destruct x as [[]|[]| |]; [done..|]. by apply nums_no_nl, float_repr_nums.
  - apply quoted_no_nl.
  - destruct d as [|d]; [done|]. cbn in F. destruct l as [|v l]; [done|]. cbn [map no_nl]. rewrite !no_nl_app.
    rewrite join_no_nl; [done..|]. change (_ :: map _ l) with (text compact (S lvl) <$> v :: l).
    apply Forall_fmap, Forall_forall. intros u Hu. apply (IH d); [lia|]. by apply (forallb_elem _ _ F).
  - destruct d as [|d]; [done|]. cbn in F. apply andb_prop in F as [_ F]. destruct ms as [|p ms]; [done|]. cbn [map no_nl]. rewrite !no_nl_app.
    rewrite join_no_nl; [done..|]. change (_ :: map _ ms) with ((fun p => quoted p.1 +:+ String ":" ("" +:+ text compact (S lvl) p.2)) <$> p :: ms).
    apply Forall_fmap, Forall_forall. intros q Hq. cbn. rewrite no_nl_app, quoted_no_nl. cbn. apply (IH d); [lia|].
    by apply (forallb_elem _ _ F).
Qed.

Lemma utf8_app b : forall a, utf8_valid a = true -> utf8_valid (a +:+ b) = utf8_valid b.
Proof.
  assert (H : forall n a, (String.length a <= n)%nat -> utf8_valid a = true -> utf8_valid (a +:+ b) = utf8_valid b).
  2: { intros a. by apply (H (String.length a)). }
  induction n as [|n IH]; intros [|c1 s1] Hn; try done; [cbn in Hn; lia|]. cbn in Hn.
  rewrite append_cons. cbn [utf8_valid]. destruct (in_range 0 127 c1); [apply IH; lia|].
  destruct s1 as [|c2 s2]; [done|]. cbn in Hn. rewrite append_cons.
  destruct (in_range 194 223 c1); [intros [-> ?]%andb_prop; apply IH; (done || lia)|].
  destruct s2 as [|c3 s3]; [done|]. cbn in Hn. rewrite append_cons.
  destruct (in_range 224 239 c1); [intros [-> ?]%andb_prop; apply IH; (done || lia)|].
  destruct s3 as [|c4 s4]; [done|]. cbn in Hn. rewrite append_cons. intros [-> ?]%andb_prop. apply IH; (done || lia).
Qed.

(** ** Induction on the nested lists of a value *)
Lemma json_nested_ind (P : json -> Prop) :
  (forall v, match v with JList _ | JObj _ => True | _ => P v end) ->
  (forall l, Forall P l -> P (JList l)) -> (forall ms, Forall (fun p => P p.2) ms -> P (JObj ms)) -> forall v, P v.
Proof.
  intros Hb Hl Ho. fix IH 1. intros v. pose proof (Hb v) as B. destruct v as [|b|n|x|s|l|ms]; try exact B.
  - apply Hl. induction l as [|u l IHl]; constructor; [apply IH|apply IHl].
  - apply Ho. induction ms as [|p ms IHm]; constructor; [apply IH|apply IHm].
Qed.

(** ** A text is UTF-8 when its strings are *)

(** Every string of a value passes [ok], every float is canonical. *)
Fixpoint strings_ok (ok : string -> bool) (v : json) : bool :=
  match v with
  | JStr s => ok s
  | JFloat x => valid x
  | JList l => forallb (strings_ok ok) l
  | JObj ms => forallb (fun p => ok p.1 && strings_ok ok p.2) ms
  | _ => true
  end.
Abbreviation encodable := (strings_ok utf8_valid).

Lemma utf8_both a b : utf8_valid a = true -> utf8_valid b = true -> utf8_valid (a +:+ b) = true.
Proof. intros Ha Hb. by rewrite utf8_app. Qed.
Lemma utf8_char c s : in_range 0 127 c = true -> utf8_valid (String c s) = utf8_valid s.
Proof. intros H. cbn. by rewrite H. Qed.

Lemma escape_char_high c : in_range 0 127 c = false -> escape_char c = String c "".
Proof. destruct c as [[] [] [] [] [] [] [] []]; vm_compute; congruence. Qed.
Lemma escape_char_low c : in_range 0 127 c = true -> utf8_valid (escape_char c) = true.
Proof. destruct c as [[] [] [] [] [] [] [] []]; vm_compute; congruence. Qed.
Lemma continues_high lo hi c : 128 <= lo -> continues lo hi c = true -> in_range 0 127 c = false.
Proof. unfold continues, in_range. intros H [L _]%andb_prop. apply Z.leb_le in L. apply andb_false_iff. right. apply Z.leb_gt. lia. Qed.
Lemma escape_keeps lo hi c s : 128 <= lo -> continues lo hi c = true -> escape (String c s) = String c (escape s).
Proof. intros L H. cbn [escape]. by rewrite (escape_char_high c (continues_high _ _ _ L H)). Qed.

(** The bounds of a continuation byte, whichever of the cases applies. *)
Ltac byte_range := repeat case_bool_decide; eexists _, _; (split; [|eassumption]); lia.

Lemma escape_utf8 s : utf8_valid s = true -> utf8_valid (escape s) = true.
Proof.
  remember (String.length s) as n eqn:E. assert (L : (String.length s <= n)%nat) by lia. clear E. revert s L.
  induction n as [|n IH]; intros [|a s1] L H; try done; [cbn in L; lia|]. cbn in L. cbn [utf8_valid] in H.
  destruct (in_range 0 127 a) eqn:Ra.
  - cbn [escape]. apply utf8_both; [by apply escape_char_low|]. apply IH; [lia|done].
  - cbn [escape]. rewrite (escape_char_high a Ra). change (String a "" +:+ escape s1) with (String a (escape s1)).
    destruct s1 as [|b s2]; [done|]. cbn in L. destruct (in_range 194 223 a) eqn:R2.
    { apply andb_prop in H as [Hb H]. rewrite (escape_keeps 128 191) by (done || lia). cbn [utf8_valid]. rewrite Ra, R2, Hb. cbn. apply IH; [lia|done]. }
    destruct s2 as [|c s3]; [done|]. cbn in L.
    assert (Eb : (exists lo hi, 128 <= lo /\ continues lo hi b = true) -> escape (String b (String c s3)) = String b (escape (String c s3)))
      by (intros (lo & hi & Hl & Hh); exact (escape_keeps lo hi _ _ Hl Hh)).
    destruct (in_range 224 239 a) eqn:R3.
    { apply andb_prop in H as [[Hb Hc]%andb_prop H]. rewrite Eb, (escape_keeps 128 191) by first [done|lia|byte_range].
      cbn [utf8_valid]. rewrite Ra, R2, R3, Hb, Hc. cbn. apply IH; [lia|done]. }
    destruct s3 as [|d s4]; [done|]. cbn in L. apply andb_prop in H as [[[[R4 Hb]%andb_prop Hc]%andb_prop Hd]%andb_prop H].
    rewrite Eb, !(escape_keeps 128 191) by first [done|lia|byte_range].
    cbn [utf8_valid]. rewrite Ra, R2, R3, R4, Hb, Hc, Hd. cbn. apply IH; [lia|done].
Qed.
Lemma quoted_utf8 s : utf8_valid s = true -> utf8_valid (quoted s) = true.
Proof. intros H. unfold quoted. rewrite utf8_char by done. by apply utf8_both; [apply escape_utf8|]. Qed.
Lemma nums_utf8 s : nums s = true -> utf8_valid s = true.
Proof.
  induction s as [|c s IH]; [done|]. cbn [nums]. intros [N H]%andb_prop. rewrite utf8_char; [by apply IH|].
  revert N. clear. destruct c as [[] [] [] [] [] [] [] []]; vm_compute; congruence.
Qed.

(** A property of texts that concatenation keeps, and that the characters of JSON's grammar and the
    quoted strings have, holds of a text. *)
Section closed.
Context (good ok : string -> bool) (good_app : forall a b, good a = true -> good b = true -> good (a +:+ b) = true).
Context (good_empty : good "" = true) (good_char : forall c, in_range 32 126 c = true -> good (String c "") = true).
Context (good_quoted : forall s, ok s = true -> good (quoted s) = true).

Lemma closed_char c s : in_range 32 126 c = true -> good s = true -> good (String c s) = true.
Proof. intros Hc Hs. exact (good_app (String c "") s (good_char c Hc) Hs). Qed.
Lemma closed_nums s : nums s = true -> good s = true.
Proof.
  induction s as [|c s IH]; [done|]. cbn [nums]. intros [N H]%andb_prop. apply closed_char; [|by apply IH].
  revert N. clear. destruct c as [[] [] [] [] [] [] [] []]; vm_compute; congruence.
Qed.
Lemma closed_join sep l : good sep = true -> Forall (fun x => good x = true) l -> good (join sep l) = true.
Proof.
  intros Hs. induction 1 as [|x [|y l] Hx Hl IH]; [done|done|]. rewrite join_cons. by repeat apply good_app.
Qed.
Definition layout_good (st : layout) : Prop :=
  good (after_comma st) = true /\ good (after_colon st) = true /\ forall k, good (break_at st k) = true.

Lemma closed_word s : forallb (in_range 32 126) (list_ascii_of_string s) = true -> good s = true.
Proof. induction s as [|c s IH]; [done|]. cbn. intros [Hc Hs]%andb_prop. apply closed_char; [done|by apply IH]. Qed.

Lemma text_closed st : layout_good st -> forall v lvl, strings_ok ok v = true -> good (text st lvl v) = true.
Proof.
  intros (Hc & Hk & Hb) v. pattern v. apply json_nested_ind; clear v.
  - intros v. destruct v as [|b|n|x|s|l|ms]; try exact I; cbn [text]; intros lvl H.
    + by apply closed_word.
    + by destruct b; apply closed_word.
    + apply closed_nums, int_repr_nums.
    + unfold float_text. destruct x as [[]|[]| |]; [by apply closed_word..|]. by apply closed_nums, float_repr_nums.
    + by apply good_quoted.
  - intros l IH lvl H. cbn [text]. cbn [strings_ok] in H. destruct l as [|v l]; [by apply closed_word|].
    cbn [map]. apply closed_char; [done|].
    apply good_app; [done|]. apply good_app; [|apply good_app; [done|by apply good_char]].
    change (_ :: map _ l) with (text st (S lvl) <$> v :: l).
    apply closed_join; [apply closed_char; [done|by apply good_app]|]. apply Forall_fmap, Forall_forall. intros u Hu.
    rewrite Forall_forall in IH. apply (IH u Hu). by apply (forallb_elem _ _ H).
  - intros ms IH lvl H. cbn [text]. cbn [strings_ok] in H. destruct ms as [|p ms]; [by apply closed_word|].
    cbn [map]. apply closed_char; [done|].
    apply good_app; [done|]. apply good_app; [|apply good_app; [done|by apply good_char]].
    change (_ :: map _ ms) with ((fun p => quoted p.1 +:+ String ":" (after_colon st +:+ text st (S lvl) p.2)) <$> p :: ms).
    apply closed_join; [apply closed_char; [done|by apply good_app]|]. apply Forall_fmap, Forall_forall. intros q Hq.
    rewrite Forall_forall in IH. pose proof (forallb_elem _ _ H q Hq) as Hq'. cbn in Hq'. apply andb_prop in Hq' as [H1 H2].
    cbn. apply good_app; [by apply good_quoted|]. apply closed_char; [done|]. apply good_app; [done|]. by apply (IH q Hq).
Qed.
End closed.

Lemma printable_low c : in_range 32 126 c = true -> in_range 0 127 c = true.
Proof. unfold in_range. rewrite !andb_true_iff, !Z.leb_le. lia. Qed.

Abbreviation layout_utf8 := (layout_good utf8_valid).
Lemma compact_utf8 : layout_utf8 compact.
Proof. done. Qed.
Lemma indented_utf8 w : layout_utf8 (indented w).
Proof. split; [done|]. split; [done|]. intros k. cbn. generalize (k * w)%nat. intros n. by induction n. Qed.

Lemma text_utf8 st : layout_utf8 st -> forall v lvl, encodable v = true -> utf8_valid (text st lvl v) = true.
Proof.
  apply text_closed; [apply utf8_both|done| |apply quoted_utf8]. intros c H. by rewrite utf8_char by by apply printable_low.
Qed.

(** ** A text is printable ASCII when its strings are; [ensure_ascii] then changes nothing *)
Definition printable (s : string) : bool := forallb (in_range 32 126) (list_ascii_of_string s).
Lemma printable_app a b : printable (a +:+ b) = printable a && printable b.
Proof. unfold printable. induction a as [|c a IH]; [done|]. rewrite append_cons. cbn. by rewrite IH, andb_assoc. Qed.
Lemma escape_printable s : printable s = true -> printable (escape s) = true.
Proof.
  induction s as [|c s IH]; [done|]. unfold printable at 1. cbn [list_ascii_of_string forallb escape]. intros [Hc Hs]%andb_prop.
  rewrite printable_app, (IH Hs), andb_true_r. revert Hc. clear. destruct c as [[] [] [] [] [] [] [] []]; vm_compute; congruence.
Qed.
Lemma text_printable st : layout_good printable st -> forall v lvl, strings_ok printable v = true -> printable (text st lvl v) = true.
Proof.
  apply text_closed; [by intros a b Ha Hb; rewrite printable_app, Ha, Hb|done|by intros c Hc; unfold printable; cbn; rewrite Hc|].
  intros s Hs. unfold quoted. change (String QUOTE ?t) with ((String QUOTE "") +:+ t). rewrite !printable_app, (escape_printable s Hs). done.
Qed.

(** [json.dumps(value)]: separators with a space, and characters beyond printable ASCII escaped. *)
Definition spaced : layout := mkLayout " " " " (fun _ => "").
Definition u_escape (u : Z) : string :=
  String BACKSLASH (String "u" (String (hex_digit (u / 4096)) (String (hex_digit (u / 256 mod 16))
    (String (hex_digit (u / 16 mod 16)) (String (hex_digit (u mod 16)) ""))))).
Definition u_escapes (u : Z) : string :=
  if u <? 65536 then u_escape u else u_escape (55296 + (u - 65536) / 1024) +:+ u_escape (56320 + (u - 65536) mod 1024).
Definition low6 (c : ascii) : Z := code c mod 64.
(** On the text's UTF-8; only the characters of strings can be outside printable ASCII. *)
Fixpoint to_ascii (s : string) : string :=
  match s with
  | "" => ""
  | String a s1 =>
      if in_range 32 126 a then String a (to_ascii s1)
      else if in_range 0 127 a then u_escape (code a) +:+ to_ascii s1
      else match s1 with
      | "" => ""
      | String b s2 =>
          if in_range 194 223 a then u_escapes (code a mod 32 * 64 + low6 b) +:+ to_ascii s2
          else match s2 with
          | "" => ""
          | String c s3 =>
              if in_range 224 239 a then u_escapes (code a mod 16 * 4096 + low6 b * 64 + low6 c) +:+ to_ascii s3
              else match s3 with
              | "" => ""
              | String d s4 => u_escapes (code a mod 8 * 262144 + low6 b * 4096 + low6 c * 64 + low6 d) +:+ to_ascii s4
              end
          end
      end
  end.
Definition dumps_ascii (v : json) : result string := t ← dumps spaced v; Ok (to_ascii t).

Example dumps_ascii_ex : shown <$> dumps_ascii (JObj [("é", JList [JInt 1; JStr "买😀"]); ("b", JNull)])
  = Ok "{'\u00e9': [1, '\u4e70\ud83d\ude00'], 'b': null}".
Proof. vm_compute. reflexivity. Qed.

Lemma to_ascii_printable s : printable s = true -> to_ascii s = s.
Proof. unfold printable. induction s as [|c s IH]; [done|]. cbn [list_ascii_of_string forallb to_ascii]. intros [-> H]%andb_prop. by rewrite IH. Qed.
Lemma dumps_ascii_printable v : strings_ok printable v = true -> dumps_ascii v = dumps spaced v.
Proof.
  intros H. unfold dumps_ascii, dumps. destruct (ints_ok v); [|done]. cbn [mbind result_bind]. f_equal. apply to_ascii_printable.
  by apply text_printable.
Qed.

Lemma spaced_ok : layout_ok spaced.
Proof. done. Qed.
Lemma spaced_printable : layout_good printable spaced.
Proof. done. Qed.
(** What is sent is what was built: the printed text parses to the value. *)
Lemma ascii_roundtrip limit v : strings_ok printable v = true -> fits limit v = true ->
  exists s, dumps_ascii v = Ok s /\ loads limit s = Parsed v /\ printable s = true.
Proof.
  intros Hs Hf. destruct (loads_dumps spaced limit v spaced_ok Hf) as (s & E & L). exists s. rewrite (dumps_ascii_printable v Hs).
  split; [done|]. split; [done|]. unfold dumps in E. destruct (ints_ok v); [|done]. injection E as <-. by apply text_printable; [apply spaced_printable|].
Qed.

(** ** What [json.loads] raises besides its own error *)
Definition raisable (e : exn) : Prop := e = ValueError "int digits" \/ e = RuntimeError "RecursionError".

Lemma andthen_bad {A B} (x : scan A) (k : A -> string -> scan B) e : andthen x k = Bad (Some e) ->
  x = Bad (Some e) \/ exists a r, x = Got a r /\ k a r = Bad (Some e).
Proof. destruct x as [a r|o]; cbn; [intros H; right; by exists a, r|intros [= ->]; by left]. Qed.

Section raises.
Context (sc : string -> scan json) (sc_raises : forall s e, sc s = Bad (Some e) -> raisable e).
Lemma items_raises n : forall s e, scan_items sc n s = Bad (Some e) -> raisable e.
Proof.
  induction n as [|n IH]; intros s e; cbn [scan_items]; [done|]. intros [H|(v & r & _ & H)]%andthen_bad; [by eapply sc_raises|].
  destruct (eat "]" _); [done|]. destruct (eat "," _) as [r2|]; [|done]. apply andthen_bad in H as [H|(vs & r3 & _ & H)]; [by eapply IH|done].
Qed.
Lemma members_raises n : forall s acc e, scan_members sc n s acc = Bad (Some e) -> raisable e.
Proof.
  induction n as [|n IH]; intros s acc e; cbn [scan_members]; [done|]. destruct (eat QUOTE s) as [r|]; [|done].
  intros [H|(k & r1 & _ & H)]%andthen_bad; [by apply scan_chars_bad in H|]. destruct (eat ":" _) as [r2|]; [|done].
  apply andthen_bad in H as [H|(v & r3 & _ & H)]; [by eapply sc_raises|].
  destruct (eat "}" _); [done|]. destruct (eat "," _) as [r4|]; [|done]. by eapply IH.
Qed.
End raises.

Lemma scan_raises limit : forall s e, scan_once limit s = Bad (Some e) -> raisable e.
Proof.
  induction limit as [|limit IH]; intros s e; cbn [scan_once]; (destruct (eat QUOTE s) as [r|];
    [by intros [H|(? & ? & _ & H)]%andthen_bad; [apply scan_chars_bad in H|]|]).
  - destruct (eat "{" s); [intros [= <-]; by right|]. destruct (eat "[" s); [intros [= <-]; by right|].
    destruct (literal LITERALS s) as [[v r]|]; [done|]. destruct (scan_number s) as [[[n k|x] r]|]; cbn; [|done|done].
    destruct (_ <=? _)%nat; [done|]. intros [= <-]. by left.
  - destruct (eat "{" s) as [r|].
    { destruct (eat "}" _); [done|]. intros [H|(? & ? & _ & H)]%andthen_bad; [|done]. by eapply members_raises. }
    destruct (eat "[" s) as [r|].
    { destruct (eat "]" _); [done|]. intros [H|(? & ? & _ & H)]%andthen_bad; [|done]. by eapply items_raises. }
    destruct (literal LITERALS s) as [[v r]|]; [done|]. destruct (scan_number s) as [[[n k|x] r]|]; cbn; [|done|done].
    destruct (_ <=? _)%nat; [done|]. intros [= <-]. by left.
Qed.
Lemma loads_raises limit s e : loads limit s = LoadsRaises e -> raisable e.
Proof.
  unfold loads. destruct (eat_str BOM s); [done|]. destruct (scan_once limit (skip_ws s)) as [v r|[x|]] eqn:E; [by case_bool_decide| |done].
  intros [= <-]. by eapply scan_raises.
Qed.

(** ** The floats of a decoded value are canonical *)
Abbreviation floats_ok := (strings_ok (fun _ => true)).
Lemma scan_number_valid s x r : scan_number s = Some (NFloat x, r) -> valid x = true.
Proof.
  unfold scan_number. destruct (match eat "-" s with Some s1 => (true, s1) | None => (false, s) end) as [neg s1].
  destruct (int_part s1) as [[[ip n] r0]|]; cbn [mbind option_bind]; [|done]. destruct (frac_part r0 ip) as [[v nf] r1].
  destruct nf, (exp_part r1) as [[e|] r2]; intros [= <- _]; apply valid_decimal.
Qed.
Lemma andthen_got {A B} (x : scan A) (k : A -> string -> scan B) b r : andthen x k = Got b r -> exists a r', x = Got a r' /\ k a r' = Got b r.
Proof. destruct x as [a r'|o]; cbn; [|done]. intros H. by exists a, r'. Qed.
Lemma od_set_floats (k : string) v ms : floats_ok v = true -> forallb (fun p => floats_ok p.2) ms = true -> forallb (fun p => floats_ok p.2) (od_set k v ms) = true.
Proof.
  intros Hv. induction ms as [|[a b] ms IH]; cbn [od_set forallb snd]; [by rewrite Hv|]. intros [Hb H]%andb_prop.
  case_decide; cbn [forallb snd]; [by rewrite Hv|]. by rewrite Hb, IH.
Qed.

Section floats.
Context (sc : string -> scan json) (sc_floats : forall s v r, sc s = Got v r -> floats_ok v = true).
Lemma items_floats n : forall s l r, scan_items sc n s = Got l r -> forallb floats_ok l = true.
Proof.
  induction n as [|n IH]; intros s l r; cbn [scan_items]; [done|]. intros (v & r1 & Hv & H)%andthen_got. apply sc_floats in Hv.
  destruct (eat "]" _); [injection H as <- _; cbn; by rewrite Hv|]. destruct (eat "," _); [|done].
  apply andthen_got in H as (vs & r3 & Hs & [= <- _]). cbn. rewrite Hv. by eapply IH.
Qed.
Lemma members_floats n : forall s acc ms r, forallb (fun p => floats_ok p.2) acc = true -> scan_members sc n s acc = Got ms r ->
  forallb (fun p => floats_ok p.2) ms = true.
Proof.
  induction n as [|n IH]; intros s acc ms r Ha; cbn [scan_members]; [done|]. destruct (eat QUOTE s); [|done].
  intros (k & r1 & _ & H)%andthen_got. destruct (eat ":" _); [|done]. apply andthen_got in H as (v & r3 & Hv & H). apply sc_floats in Hv.
  destruct (eat "}" _); [injection H as <- _; by apply od_set_floats|]. destruct (eat "," _); [|done]. eapply IH; [|exact H]. by apply od_set_floats.
Qed.
End floats.

Lemma literal_floats s v r : literal LITERALS s = Some (v, r) -> floats_ok v = true.
Proof. unfold LITERALS. cbn [literal]. repeat (case_match; [intros [= <- _]; reflexivity|]). done. Qed.
Lemma scan_floats limit : forall s v r, scan_once limit s = Got v r -> floats_ok v = true.
Proof.
  assert (L : forall s v r, match literal LITERALS s with
    | Some (v, r) => Got v r
    | None => match scan_number s with Some (x, r) => of_number x r | None => Bad None end
    end = Got v r -> floats_ok v = true).
  { intros s v r. destruct (literal LITERALS s) as [[u r1]|] eqn:El; [intros [= <- _]; by eapply literal_floats|].
    destruct (scan_number s) as [[[n k|x] r1]|] eqn:E; cbn [of_number]; [|intros [= <- _]; by eapply scan_number_valid|done].
    destruct (_ <=? _)%nat; [by intros [= <- _]|done]. }
  induction limit as [|limit IH]; intros s v r; cbn [scan_once];
    (destruct (eat QUOTE s); [by intros (? & ? & _ & [= <- _])%andthen_got|]).
  - destruct (eat "{" s); [done|]. destruct (eat "[" s); [done|]. apply L.
  - destruct (eat "{" s).
    { destruct (eat "}" _); [by intros [= <- _]|]. intros (ms & r1 & H & [= <- _])%andthen_got. apply (members_floats _ IH) in H; [|done]. exact H. }
    destruct (eat "[" s).
    { destruct (eat "]" _); [by intros [= <- _]|]. intros (l & r1 & H & [= <- _])%andthen_got. exact (items_floats _ IH _ _ _ _ H). }
    apply L.
Qed.
Lemma loads_floats limit s v : loads limit s = Parsed v -> floats_ok v = true.
Proof.
  unfold loads. destruct (eat_str BOM s); [done|]. destruct (scan_once limit (skip_ws s)) as [u r|[x|]] eqn:E; [|done..].
  case_bool_decide; [|done]. intros [= <-]. by eapply scan_floats.
Qed.

(** ** Subscripts of decoded values: [v[0]] and [v[key]] *)
Definition first_item (batch : json) : result json :=
  match batch with
  | JList (v :: _) => Ok v
  | JList [] | JStr "" => Err IndexError
  | JStr (String c _) => Ok (JStr (String c ""))
  | JObj _ => Err KeyError
  | _ => Err TypeError
  end.
Definition item_at (v : json) (key : string) : result json :=
  match v with JObj ms => of_option KeyError (od_get key ms) | _ => Err TypeError end.
