(* ===== verification/PyText.v ===== *)
(** * Python's string methods, as the program uses them

    [replace], [strip] with characters, [in], [endswith], [count] and [int(text, 16)], on the
    UTF-8 bytes of a string; letter cases and white space follow the ASCII rules. *)
From Stdlib Require Import ZArith Lia Ascii String.
From stdpp Require Import prelude strings.
From S2P Require Import Prelude PyFloat Normalizer NumberText Json.
Local Open Scope Z_scope.

Definition SLASH : ascii := "/"%char.
Fixpoint has_char (c : ascii) (s : string) : bool :=
  match s with "" => false | String d s => bool_decide (d = c) || has_char c s end.
Definition starts_with (p s : string) : bool := match eat_str p s with Some _ => true | None => false end.
(** [sub in s] *)
Fixpoint contains (sub s : string) : bool :=
  starts_with sub s || match s with "" => false | String _ s => contains sub s end.
Definition ends_with (suffix s : string) : bool := starts_with (String.rev suffix) (String.rev s).
Fixpoint count_char (c : ascii) (s : string) : nat :=
  match s with "" => 0%nat | String d s => if decide (d = c) then S (count_char c s) else count_char c s end.
Definition lower (s : string) : string := str_map lower_ascii s.
Definition upper_ascii (c : ascii) : ascii := if is_lower c then ascii_of_N (Z.to_N (code c - 32)) else c.
Definition upper (s : string) : string := str_map upper_ascii s.

(** [s.replace(old, new)] for a non-empty [old]: [n] characters of an occurrence are left to skip. *)
Fixpoint replace_from (old new : string) (n : nat) (s : string) : string :=
  match s with
  | "" => ""
  | String c rest =>
      match n with
      | S n => replace_from old new n rest
      | O => match eat_str old s with
             | Some _ => new +:+ replace_from old new (String.length old - 1) rest
             | None => String c (replace_from old new 0 rest)
             end
      end
  end.
Definition str_replace (old new s : string) : string := replace_from old new 0 s.

(** [str.strip(chars)] *)
Fixpoint lstrip_chars (cs : list ascii) (s : string) : string :=
  match s with String c r => if decide (c ∈ cs) then lstrip_chars cs r else s | "" => "" end.
Definition strip_chars (cs : list ascii) (s : string) : string := String.rev (lstrip_chars cs (String.rev (lstrip_chars cs s))).

(** [text.split(sep)] for one character. *)
Fixpoint split_on (sep : ascii) (s : string) : list string :=
  match s with
  | "" => [""]
  | String c s =>
      if decide (c = sep) then "" :: split_on sep s
      else match split_on sep s with p :: ps => String c p :: ps | [] => [String c ""] end
  end.
Example split_on_ex : split_on "," "a,,bc," = ["a"; ""; "bc"; ""] /\ split_on "," "" = [""].
Proof. by vm_compute. Qed.

(** [int(text, 16)]: white space, a sign, the prefix 0x, digits with single underscores between them. *)
Definition hex_of (c : ascii) : option Z :=
  if is_digit c then Some (code c - 48)
  else if in_range 97 102 c then Some (code c - 87)
  else if in_range 65 70 c then Some (code c - 55) else None.
Fixpoint hex_run (after_digit : bool) (acc : Z) (s : string) : option Z :=
  match s with
  | "" => if after_digit then Some acc else None
  | String c r =>
      if decide (c = "_"%char) then if after_digit then hex_run false acc r else None
      else match hex_of c with Some d => hex_run true (16 * acc + d) r | None => None end
  end.
Definition int_base16 (s : string) : option Z :=
  let '(neg, s) := split_sign (strip s) in
  let body := match s with
              | String a (String b r) =>
                  if bool_decide (a = "0"%char) && bool_decide (b = "x"%char \/ b = "X"%char)
                  then match r with String u r' => if decide (u = "_"%char) then r' else r | "" => r end
                  else s
              | _ => s
              end in
  n ← hex_run false 0 body; Some (if neg : bool then - n else n).

Example contains_ex : contains "rate limit" "a rate limit" = true /\ contains "x" "" = false. Proof. by vm_compute. Qed.
Example replace_ex : str_replace "ab" "<r>" "xababa" = "x<r><r>a". Proof. by vm_compute. Qed.
Example ends_ex : ends_with ".SH" "600519.SH" = true /\ ends_with ".SH" "SH" = false. Proof. by vm_compute. Qed.
Example base16_ex : int_base16 " +0x_f_F " = Some 255 /\ int_base16 "f__f" = None /\ int_base16 "" = None. Proof. by vm_compute. Qed.

Lemma starts_with_app p s : starts_with p s = true <-> exists t, s = p +:+ t.
Proof.
  unfold starts_with. revert s. induction p as [|c p IH]; intros s; [split; [by exists s|done]|]. cbn [eat_str].
  destruct s as [|d s]; [split; [done|by intros [t H]]|]. cbn [eat]. destruct (decide (c = d)) as [<-|Ne]; cbn [mbind option_bind].
  - rewrite IH. split; intros [t H]; exists t; [by rewrite H|]. rewrite append_cons in H. by injection H.
  - split; [done|]. intros [t H]. rewrite append_cons in H. by injection H as <- _.
Qed.

Lemma contains_app sub s : contains sub s = true <-> exists a b, s = a +:+ (sub +:+ b).
Proof.
  induction s as [|c s IH].
  - cbn. rewrite orb_false_r, starts_with_app. split; [intros [t H]; by exists "", t|]. intros (a & b & H). destruct a; [by exists b|done].
  - cbn [contains]. rewrite orb_true_iff, starts_with_app, IH. split.
    + intros [[t H]|(a & b & ->)]; [by exists "", t|]. by exists (String c a), b.
    + intros ([|d a] & b & H); [left; by exists b|]. right. rewrite append_cons in H. injection H as _ ->. by exists a, b.
Qed.
