(* ===== verification/FloatSum.v ===== *)
(** * Sign and error bounds of float sums

    Non-negative floats ([nn]: the value is not below zero, or NaN) are closed under the
    operations the feature code applies to gains, losses and volumes; in particular the
    compensation of the builtin [sum] never pushes a sum of non-negative floats below zero. *)
From Stdlib Require Import ZArith Lia Bool.
From Corelib Require Import SpecFloat.
From stdpp Require Import prelude.
From S2P Require Import Prelude PyFloat.
Local Open Scope Z_scope.

(** ** Rounding of exactly representable integers *)
Lemma rnd_pos_scaled m j : 0 <= m < 2 ^ 53 -> 0 <= j -> rnd_pos (m * 2 ^ j) = m * 2 ^ j.
Proof.
  intros Hm Hj. destruct m as [|p|p]; [done| |lia].
  unfold rnd_pos, ulpx. rewrite bits_shift by done. cbn [bits].
  pose proof (digits2_pos_bound p) as Hb.
  assert (Hd : Zpos (digits2_pos p) <= 53).
  { destruct (Z.le_gt_cases (Zpos (digits2_pos p)) 53); [done|].
    assert (2 ^ 53 <= 2 ^ (Zpos (digits2_pos p) - 1)) by (apply Z.pow_le_mono_r; lia). lia. }
  set (u := Z.max 0 _). assert (Hu : 0 <= u <= j) by lia.
  replace (2 ^ j) with (2 ^ (j - u) * 2 ^ u) by (rewrite <- Z.pow_add_r by lia; f_equal; lia).
  rewrite Z.mul_assoc. rewrite rne_exact by (lia || apply Z.mod_mul; lia).
  rewrite Z.div_mul by lia. done.
Qed.

Lemma rnd_abs_le v b : rnd_pos b = b -> Z.abs v <= b -> Z.abs (rnd v) <= b.
Proof.
  intros Rb H. assert (E : Z.abs (rnd v) = rnd_pos (Z.abs v)).
  { unfold rnd. destruct (Z.ltb_spec v 0).
    - pose proof (rnd_pos_nonneg (- v)). replace (Z.abs v) with (- v) by lia. lia.
    - pose proof (rnd_pos_nonneg v). replace (Z.abs v) with v by lia. lia. }
  rewrite E, <- Rb. apply rnd_pos_mono; lia.
Qed.

Lemma rnd_pos_double n : 0 <= n -> rnd_pos n = n -> rnd_pos (2 * n) = 2 * n.
Proof.
  intros Hn. destruct n as [|p|p]; [done| |lia]. unfold rnd_pos, ulpx.
  replace (2 * Zpos p) with (Zpos p * 2 ^ 1) by lia. rewrite bits_shift by lia. cbn [bits].
  set (d := Zpos (digits2_pos p)). intros H.
  destruct (Z.le_gt_cases d 52).
  - replace (Z.max 0 (d + 1 - 53)) with 0 by lia. rewrite rne_exact by (lia || apply Z.mod_1_r).
    rewrite Z.div_1_r. lia.
  - replace (Z.max 0 (d + 1 - 53)) with (Z.max 0 (d - 53) + 1) by lia. rewrite rne_scale by lia.
    rewrite Z.pow_add_r by lia. lia.
Qed.

(** Half a unit in the last place, as an exact value. *)
Definition half_ulp (n : Z) : Z := if bits n <=? 53 then 0 else 2 ^ (bits n - 54).

Lemma half_ulp_nonneg n : 0 <= half_ulp n.
Proof. unfold half_ulp. destruct (_ <=? _); [lia|]. apply Z.pow_nonneg; lia. Qed.

Lemma half_ulp_mono a b : bits a <= bits b -> half_ulp a <= half_ulp b.
Proof.
  intros H. unfold half_ulp. destruct (Z.leb_spec (bits a) 53), (Z.leb_spec (bits b) 53); try lia.
  apply Z.pow_le_mono_r; lia.
Qed.

Lemma half_ulp_rep n k : 0 <= k < 2 ^ 53 -> rnd_pos (k * half_ulp n) = k * half_ulp n.
Proof.
  intros Hk. unfold half_ulp. destruct (Z.leb_spec (bits n) 53); [by rewrite Z.mul_0_r|].
  apply rnd_pos_scaled; lia.
Qed.

Lemma rnd_pos_error n : 0 <= n -> Z.abs (n - rnd_pos n) <= half_ulp n.
Proof.
  intros Hn. unfold half_ulp. destruct (Z.leb_spec (bits n) 53) as [H|H].
  - assert (rnd_pos n = n) as ->; [|lia]. unfold rnd_pos, ulpx. replace (Z.max 0 (bits n - 53)) with 0 by lia.
    rewrite rne_exact by (lia || apply Z.mod_1_r). rewrite Z.div_1_r. lia.
  - unfold rnd_pos, ulpx. replace (Z.max 0 (bits n - 53)) with (bits n - 54 + 1) by lia.
    set (u := bits n - 54). assert (Hp : 0 < 2 ^ u) by lia.
    assert (E : 2 ^ (u + 1) = 2 * 2 ^ u) by (rewrite Z.pow_add_r by lia; lia).
    pose proof (Z.div_mod n (2 ^ (u + 1)) ltac:(lia)) as D.
    pose proof (Z.mod_pos_bound n (2 ^ (u + 1)) ltac:(lia)) as M.
    unfold rne. destruct (Z.compare_spec (2 * (n mod 2 ^ (u + 1))) (2 ^ (u + 1)));
      [destruct (Z.even _)| |]; rewrite E in *; lia.
Qed.

Lemma bits_rnd_pos n : 0 <= n -> bits n <= bits (rnd_pos n).
Proof.
  intros Hn. destruct n as [|p|p]; [done| |lia].
  pose proof (rnd_pos_bounds p) as [L _]. 
  pose proof (bits_shift 1 (bits (Zpos p) - 1) ltac:(cbn; lia)) as B. rewrite Z.mul_1_l in B.
  apply bits_mono in L; [|apply Z.pow_nonneg; lia]. rewrite B in L. cbn [bits digits2_pos] in *. lia.
Qed.

(** ** Subtraction of close values is exact (Sterbenz) *)
Lemma rnd_pos_multiple n : 0 <= n -> rnd_pos n = n <-> n mod 2 ^ ulpx n = 0.
Proof.
  intros Hn. unfold rnd_pos. assert (0 < 2 ^ ulpx n) by (unfold ulpx; lia). split.
  - intros E. rewrite <- E at 1. apply Z.mod_mul. lia.
  - intros H0. rewrite rne_exact by (unfold ulpx; lia || done).
    pose proof (Z.div_mod n (2 ^ ulpx n) ltac:(lia)). lia.
Qed.

Lemma pow2_divide_mod n a b : 0 <= a <= b -> n mod 2 ^ b = 0 -> n mod 2 ^ a = 0.
Proof.
  intros Hab H. apply Z.mod_divide in H; [|lia]. apply Z.mod_divide; [lia|].
  etransitivity; [|exact H]. exists (2 ^ (b - a)). rewrite <- Z.pow_add_r by lia. f_equal; lia.
Qed.

Lemma sterbenz a b : 0 <= a -> rnd_pos a = a -> rnd_pos b = b -> a <= b <= 2 * a ->
  rnd_pos (b - a) = b - a.
Proof.
  intros Ha Ra Rb Hab. apply rnd_pos_multiple in Ra, Rb; [|lia..]. apply rnd_pos_multiple; [lia|].
  pose proof (bits_mono a b ltac:(lia) ltac:(lia)). pose proof (bits_mono (b - a) a ltac:(lia) ltac:(lia)).
  apply (pow2_divide_mod _ _ (ulpx a)); [unfold ulpx; lia|].
  assert (0 < 2 ^ ulpx a) by (unfold ulpx; lia).
  apply (pow2_divide_mod b (ulpx a)) in Rb; [|unfold ulpx; lia].
  rewrite Zminus_mod, Ra, Rb. done.
Qed.

(** ** Non-negative floats *)
Definition nn (x : float) : Prop := valid x = true /\ 0 <= fval x.

Lemma valid_cases x : valid x = true -> fin x \/ (exists s, x = S754_infinity s) \/ x = S754_nan.
Proof. intros V. destruct x; [left; by split|naive_solver|naive_solver|left; by split]. Qed.

Lemma nn_cases x : nn x -> fin x /\ 0 <= fval x \/ x = S754_infinity false \/ x = S754_nan.
Proof.
  intros [V H]. destruct (valid_cases x V) as [F|[[s ->]| ->]]; [by left| |by right; right].
  destruct s; [|by right; left]. cbn in H. pose proof fval_max_big. lia.
Qed.

Lemma nn_inf : nn (S754_infinity false).
Proof. split; [done|]. pose proof fval_max_big. cbn. lia. Qed.
Lemma nn_nan : nn S754_nan.
Proof. by split. Qed.
Lemma nn_f0 : nn f0.
Proof. by split. Qed.

Lemma clamp_nonneg v : 0 <= v -> 0 <= clamp v.
Proof. intros H. rewrite <- clamp_small0. by apply clamp_mono. Qed.

Lemma rnd_nonneg v : 0 <= v -> 0 <= rnd v.
Proof. intros H. change 0 with (rnd 0). by apply rnd_mono. Qed.

Lemma fadd_inf_l x s : fin x -> fadd (S754_infinity s) x = S754_infinity s.
Proof. by intros [_ F]; destruct x. Qed.
Lemma fadd_inf_r x s : fin x -> fadd x (S754_infinity s) = S754_infinity s.
Proof. by intros [_ F]; destruct x. Qed.
Lemma fadd_nan_l x : fadd S754_nan x = S754_nan.
Proof. done. Qed.
Lemma fadd_nan_r x : fadd x S754_nan = S754_nan.
Proof. by destruct x. Qed.

(** A finite sum has finite operands. *)
Lemma fadd_fin_inv x y : valid x = true -> valid y = true -> fin (fadd x y) -> fin x /\ fin y.
Proof.
  intros Vx Vy [_ F]. destruct (valid_cases x Vx) as [Fx|[[s ->]| ->]], (valid_cases y Vy) as [Fy|[[s' ->]| ->]];
    try done; exfalso; revert F.
  - by rewrite fadd_inf_r. - by rewrite fadd_nan_r. - by rewrite fadd_inf_l.
  - by destruct s, s'.
Qed.

Lemma nn_fadd x y : nn x -> nn y -> nn (fadd x y).
Proof.
  intros Hx Hy.
  destruct (nn_cases x Hx) as [[Fx Px]|[-> | ->]], (nn_cases y Hy) as [[Fy Py]|[-> | ->]];
    rewrite ?fadd_nan_r, ?fadd_nan_l; try apply nn_nan;
    rewrite ?fadd_inf_l, ?fadd_inf_r by done; try apply nn_inf.
  destruct (fadd_spec x y Fx Fy) as [[V _] E]. split; [done|]. rewrite E.
  apply clamp_nonneg, rnd_nonneg. lia.
Qed.

Lemma nn_fmul x y : nn x -> nn y -> nn (fmul x y).
Proof.
  intros Hx Hy.
  destruct (nn_cases x Hx) as [[Fx Px]|[-> | ->]], (nn_cases y Hy) as [[Fy Py]|[-> | ->]].
  - destruct (fmul_spec x y Fx Fy) as [[V _] _]. split; [done|]. by apply fmul_nonneg.
  - destruct x as [s|s| |[] m e]; try apply nn_nan; [by destruct Fx..| |apply nn_inf].
    cbn [fval sgn] in Px. destruct Fx as [V _]. apply finite_bound in V as [B _]. lia.
  - destruct x; apply nn_nan.
  - destruct y as [s|s| |[] m e]; try apply nn_nan; [by destruct Fy..| |apply nn_inf].
    cbn [fval sgn] in Py. destruct Fy as [V _]. apply finite_bound in V as [B _]. lia.
  - apply nn_inf. - apply nn_nan. - apply nn_nan. - apply nn_nan. - apply nn_nan.
Qed.

(** A quotient of non-negative floats. *)
Lemma nn_fdiv x y q : nn x -> nn y -> fdiv x y = Some q -> nn q.
Proof.
  intros Hx Hy H.
  destruct (nn_cases y Hy) as [[Fy Py]|[-> | ->]]; cycle 1.
  { unfold fdiv in H. cbn in H. injection H as <-.
    destruct x; try apply nn_nan; by split. }
  { unfold fdiv in H. cbn in H. injection H as <-. destruct x; apply nn_nan. }
  assert (Hy0 : fval y <> 0).
  { intros E. unfold fdiv in H. rewrite feq_val in H by eauto with fl. by rewrite E in H. }
  assert (Ny : is_neg y = false).
  { pose proof (fval_sgn y). destruct (is_neg y); cbn [sgn] in *; [lia|done]. }
  destruct (nn_cases x Hx) as [[Fx Px]|[-> | ->]].
  - destruct (fdiv_spec x y Fx Fy Hy0) as (q' & E & [V _] & S & _). simplify_eq.
    split; [done|]. rewrite S, Ny. destruct (is_neg x) eqn:Nx; cbn [xorb sgn]; [|lia].
    assert (E0 : fval x = 0) by (pose proof (fval_sgn x); rewrite Nx in *; cbn [sgn] in *; lia).
    destruct x as [s|s| |[] m e]; try (by destruct Fx); try (by cbn in Nx).
    + unfold fdiv in H. destruct (feq y f0); [done|]. injection H as <-. by destruct y.
    + exfalso. cbn [fval sgn] in E0. destruct Fx as [V' _]. apply finite_bound in V' as [B _]. lia.
  - unfold fdiv in H. destruct (feq y f0); [done|]. injection H as <-.
    destruct y as [s|s| |s m e]; try (by destruct Fy); cbn in Ny; subst; apply nn_inf.
  - unfold fdiv in H. destruct (feq y f0); [done|]. injection H as <-. by destruct y.
Qed.

Lemma nn_fmax_l x : valid x = true -> nn (fmax f0 x).
Proof.
  intros V. unfold fmax. destruct (flt f0 x) eqn:E; [|apply nn_f0]. split; [done|].
  destruct (is_nan x) eqn:N; [by destruct x|]. rewrite flt_val in E by (done || by split).
  rewrite fval_f0 in E. lia.
Qed.

Lemma nn_fmax_r x : valid x = true -> nn (fmax x f0).
Proof.
  intros V. unfold fmax. destruct (flt x f0) eqn:E; [apply nn_f0|]. split; [done|].
  destruct (is_nan x) eqn:N; [by destruct x|]. rewrite flt_val in E by (done || by split).
  rewrite fval_f0 in E. lia.
Qed.

(** ** The compensated sum stays non-negative *)
Lemma fin_rnd x : fin x -> 0 <= fval x -> rnd_pos (fval x) = fval x.
Proof.
  intros [V F] H. destruct x as [s|s| |s m e]; [done|discriminate F|discriminate F|].
  cbn [fval] in *. pose proof (finite_bound _ _ _ V) as [B _].
  destruct s; cbn [sgn] in *; [lia|]. by apply (rnd_representable false).
Qed.

Lemma fin_fadd_val x y : fin x -> fin y -> fin (fadd x y) -> fval (fadd x y) = rnd (fval x + fval y).
Proof.
  intros Fx Fy Ft. destruct (fadd_spec x y Fx Fy) as [_ E]. pose proof (fin_bound _ Ft) as B.
  rewrite E in B |- *. pose proof fval_max_big. unfold clamp in *.
  destruct (Z.leb_spec fval_max (rnd (fval x + fval y))); [lia|].
  destruct (Z.leb_spec (rnd (fval x + fval y)) (- fval_max)); [lia|done].
Qed.

(** The error term of one step, larger operand first. *)
Lemma comp_error a b t : fin a -> fin b -> fin t -> 0 <= fval b <= fval a ->
  fval t = rnd (fval a + fval b) ->
  fin (fadd (fsub a t) b) /\ Z.abs (fval (fadd (fsub a t) b)) <= half_ulp (fval t).
Proof.
  intros Fa Fb Ft Hab Et. set (A := fval a) in *. set (B := fval b) in *.
  assert (Ra : rnd_pos A = A) by (apply fin_rnd; [done|unfold A; lia]).
  assert (Et' : fval t = rnd_pos (A + B)).
  { rewrite Et. unfold rnd. destruct (Z.ltb_spec (A + B) 0); [lia|done]. }
  assert (HT : A <= fval t <= 2 * A).
  { rewrite Et'. split.
    - rewrite <- Ra at 1. apply rnd_pos_mono; lia.
    - rewrite <- (rnd_pos_double A) by (lia || done). apply rnd_pos_mono; lia. }
  assert (Rt : rnd_pos (fval t) = fval t) by (apply fin_rnd; [done|lia]).
  assert (Rd : rnd_pos (fval t - A) = fval t - A) by (apply sterbenz; lia || done).
  pose proof (fin_bound _ Ft) as Bt. pose proof fval_max_big.
  destruct (fsub_spec a t Fa Ft) as [Nd Ed]. fold A in Ed.
  assert (Ed' : fval (fsub a t) = - (fval t - A)).
  { rewrite Ed. replace (A - fval t) with (- (fval t - A)) by lia. rewrite rnd_opp, clamp_opp. f_equal.
    unfold rnd. destruct (Z.ltb_spec (fval t - A) 0); [lia|]. rewrite Rd. apply clamp_small. lia. }
  assert (Fd : fin (fsub a t)) by (apply num_fin; [done|lia]).
  destruct (fadd_spec (fsub a t) b Fd Fb) as [Ne Ee]. fold B in Ee. rewrite Ed' in Ee.
  pose proof (rnd_pos_error (A + B) ltac:(lia)) as Herr. rewrite <- Et' in Herr.
  pose proof (half_ulp_mono (A + B) (fval t)) as Hm.
  rewrite Et' in Hm at 1. specialize (Hm (bits_rnd_pos (A + B) ltac:(lia))).
  assert (Hle : Z.abs (rnd (- (fval t - A) + B)) <= half_ulp (fval t)).
  { apply rnd_abs_le; [|lia]. pose proof (half_ulp_rep (fval t) 1 ltac:(lia)) as R. by rewrite Z.mul_1_l in R. }
  assert (Hsmall : half_ulp (fval t) < fval_max).
  { unfold half_ulp. destruct (Z.leb_spec (bits (fval t)) 53); [lia|].
    destruct (fval t) as [|p|p] eqn:E; cbn [bits] in *; [lia| |lia]. pose proof (digits2_pos_bound p).
    assert (2 ^ (Zpos (digits2_pos p) - 54) <= 2 ^ (Zpos (digits2_pos p) - 1)) by (apply Z.pow_le_mono_r; lia). lia. }
  rewrite clamp_small in Ee by lia. split; [apply num_fin; [done|lia]|by rewrite Ee].
Qed.

(** State of the loop after [k] additions. *)
Definition comp_inv (k : nat) (st : float * float) : Prop :=
  nn st.1 /\ valid st.2 = true /\
  (fin st.1 -> fin st.2 -> Z.abs (fval st.2) <= Z.of_nat k * half_ulp (fval st.1)).

Lemma valid_fadd x y : valid x = true -> valid y = true -> valid (fadd x y) = true.
Proof.
  intros Vx Vy. destruct (valid_cases x Vx) as [Fx|[[s ->]| ->]], (valid_cases y Vy) as [Fy|[[s' ->]| ->]];
    rewrite ?fadd_nan_r, ?fadd_nan_l; rewrite ?fadd_inf_l, ?fadd_inf_r by done; try done.
  - by apply fadd_spec. - by destruct s, s'.
Qed.

Lemma valid_opp x : valid (SFopp x) = valid x.
Proof. by destruct x. Qed.

Lemma valid_fsub x y : valid x = true -> valid y = true -> valid (fsub x y) = true.
Proof.
  intros Vx Vy. destruct (valid_cases x Vx) as [Fx|[[s ->]| ->]], (valid_cases y Vy) as [Fy|[[s' ->]| ->]];
    try done.
  - by apply fsub_spec.
  - destruct Fx as [_ F]. by destruct x.
  - destruct Fx as [_ F]. by destruct x.
  - destruct Fy as [_ F]. by destruct y.
  - by destruct s, s'.
Qed.

Lemma comp_inv_step k f c x : Z.of_nat k + 1 < 2 ^ 53 -> nn x -> comp_inv k (f, c) ->
  comp_inv (S k) (sum_step (f, c) x).
Proof.
  intros Hk Hx (Hf & Vc & Hb). cbn [fst snd] in *. unfold sum_step. cbn zeta.
  set (t := fadd f x). set (e := if fle _ _ then _ else _).
  assert (Ht : nn t) by by apply nn_fadd.
  assert (Ve : valid e = true).
  { unfold e. destruct Hf, Hx, Ht. destruct (fle _ _); apply valid_fadd; try done; by apply valid_fsub. }
  split; [done|]. split; [by apply valid_fadd|]. cbn [fst snd]. intros Ft Fc.
  destruct (fadd_fin_inv f x (proj1 Hf) (proj1 Hx) Ft) as [Ff Fx].
  destruct (fadd_fin_inv c e Vc Ve Fc) as [Fc0 Fe]. specialize (Hb Ff Fc0).
  pose proof (fin_fadd_val f x Ff Fx Ft) as Et. fold t in Et.
  assert (He : Z.abs (fval e) <= half_ulp (fval t)).
  { destruct Hf as [_ Pf], Hx as [_ Px]. unfold e.
    rewrite fle_val by eauto with fl. rewrite !fval_fabs.
    destruct (Z.leb_spec (Z.abs (fval x)) (Z.abs (fval f))).
    - apply (comp_error f x t Ff Fx Ft); [lia|done].
    - apply (comp_error x f t Fx Ff Ft); [lia|]. by rewrite Z.add_comm. }
  assert (Hmono : half_ulp (fval f) <= half_ulp (fval t)).
  { apply half_ulp_mono, bits_mono; [apply Hf|]. rewrite Et.
    transitivity (rnd (fval f)); [|apply rnd_mono; destruct Hx; lia].
    rewrite <- (fin_rnd f Ff) at 1 by apply Hf. unfold rnd. destruct Hf.
    destruct (Z.ltb_spec (fval f) 0); lia. }
  rewrite (fin_fadd_val c e Fc0 Fe Fc). pose proof (half_ulp_nonneg (fval f)).
  apply rnd_abs_le; [apply half_ulp_rep; lia|]. nia.
Qed.

Lemma comp_inv_foldl l : forall k st, Forall nn l -> comp_inv k st ->
  Z.of_nat (k + length l) < 2 ^ 53 -> comp_inv (k + length l) (foldl sum_step st l).
Proof.
  induction l as [|x l IH]; intros k [f c] Hl Hst Hk; cbn [foldl length] in *; [by rewrite Nat.add_0_r|].
  apply Forall_cons in Hl as [Hx Hl].
  replace (k + S (length l))%nat with (S k + length l)%nat by lia.
  apply IH; [done| |lia]. apply comp_inv_step; [lia|done|done].
Qed.

Lemma nn_py_sum l : Z.of_nat (length l) < 2 ^ 53 -> Forall nn l -> nn (py_sum l).
Proof.
  intros Hn Hl. destruct l as [|x l]; [apply nn_f0|]. apply Forall_cons in Hl as [Hx Hl].
  unfold py_sum. cbn [length] in Hn.
  pose proof (comp_inv_foldl l 0 (fadd f0 x, f0) Hl) as H.
  destruct (foldl sum_step _ _) as [f c].
  destruct H as (Hf & Vc & Hb); [|lia|].
  { split; [apply nn_fadd; [apply nn_f0|done]|]. split; [done|]. cbn. lia. }
  cbn [fst snd] in *. destruct (negb _ && isfinite c) eqn:E; [|done].
  apply andb_prop in E as [_ Fc]. assert (Fc' : fin c) by by split.
  destruct (nn_cases f Hf) as [[Ff Pf]|[-> | ->]]; [|rewrite fadd_inf_l by done; apply nn_inf|apply nn_nan].
  specialize (Hb Ff Fc'). destruct (fadd_spec f c Ff Fc') as [[V _] Ev]. split; [done|]. rewrite Ev.
  apply clamp_nonneg, rnd_nonneg. unfold half_ulp in Hb.
  destruct (Z.leb_spec (bits (fval f)) 53); [lia|].
  destruct (fval f) as [|p|p]; cbn [bits] in *; [lia| |lia]. pose proof (digits2_pos_bound p) as [L _].
  replace (Z.pos (digits2_pos p) - 1) with (53 + (Z.pos (digits2_pos p) - 54)) in L by lia.
  rewrite (Z.pow_add_r 2 53) in L by lia. assert (0 < 2 ^ (Z.pos (digits2_pos p) - 54)) by lia. nia.
Qed.
