(* ===== verification/Features.v ===== *)
(** * Feature computation (src/market_sentinel/features)

    Minute bars, EMA, Wilder RSI, VWAP, rolling changes and volume ratios, and the engine
    that assembles them into [MarketFeatures].  Every float operation is the binary64 one
    the code performs, in the order it performs it; a division by zero, an unbuildable date
    or an unrepresentable bucket is an error value. *)
From Stdlib Require Import ZArith Lia String Sorting.Sorted.
From Corelib Require Import SpecFloat.
From stdpp Require Import prelude strings.
From S2P Require Import Prelude PyFloat FloatSum Domain RingBuffer Session Normalizer.
Local Open Scope Z_scope.

(** [a / b] on floats, raising [ZeroDivisionError]. *)
Definition div (x y : float) : result float := of_option ZeroDivisionError (fdiv x y).
Definition int_f (n : Z) : result float := of_option OverflowError (of_Z n).

(** ** [bars.py] *)

(** [math.floor(ts / bar_seconds) * bar_seconds] *)
Definition bucket_start (ts bar_seconds : float) : result float :=
  q ← div ts bar_seconds;
  n ← match q with
      | S754_nan => Err (ValueError "cannot convert float NaN to integer")
      | _ => of_option OverflowError (ffloor q)
      end;
  nf ← int_f n;
  Ok (fmul nf bar_seconds).

Definition interval_delta (current previous : option float) (contiguous : bool) : option float :=
  match current, previous with
  | Some c, Some p => if contiguous then Some (fmax f0 (fsub c p)) else None
  | _, _ => None
  end.

Fixpoint fill_buckets (snapshots : list MarketSnapshot) (latest_ts bar_seconds forming_start : float)
    (buckets : list (float * list MarketSnapshot)) : result (list (float * list MarketSnapshot)) :=
  match snapshots with
  | [] => Ok buckets
  | s :: rest =>
      same ← is_same_session (sn_market_ts s) latest_ts;
      if negb same then fill_buckets rest latest_ts bar_seconds forming_start buckets
      else
        start ← bucket_start (sn_market_ts s) bar_seconds;
        if fle forming_start start then fill_buckets rest latest_ts bar_seconds forming_start buckets
        else fill_buckets rest latest_ts bar_seconds forming_start
               (od_set start (default [] (od_get start buckets) ++ [s]) buckets)
  end.

Definition builtin_max (x : float) (l : list float) : float := foldl fmax x l.
Definition builtin_min (x : float) (l : list float) : float := foldl fmin x l.

(** The loop state: end of the previous bar, its last cumulative volume and turnover. *)
Definition bar_step (bar_seconds : float) (st : list MarketBar * option float * option float * option float)
    (b : float * list MarketSnapshot) : list MarketBar * option float * option float * option float :=
  let '(bars, prev_end, last_volume, last_turnover) := st in
  let start := b.1 in
  let group := sort_by (fun x y => fle (sn_market_ts x) (sn_market_ts y)) b.2 in
  match group, last group with
  | first :: rest, Some last_ =>
      let contiguous := match prev_end with Some e => feq start e | None => false end in
      (bars ++ [mkBar (sn_symbol last_) start (fadd start bar_seconds) (sn_price first)
                  (builtin_max (sn_price first) (sn_price <$> rest))
                  (builtin_min (sn_price first) (sn_price <$> rest))
                  (sn_price last_)
                  (interval_delta (Some (sn_volume last_)) last_volume contiguous)
                  (interval_delta (sn_turnover last_) last_turnover contiguous)],
       Some (fadd start bar_seconds), Some (sn_volume last_), sn_turnover last_)
  | _, _ => st      (* buckets are never empty *)
  end.

Definition completed_minute_bars (snapshots : list MarketSnapshot) (latest_ts bar_seconds : float)
    : result (list MarketBar) :=
  match snapshots with
  | [] => Ok []
  | _ =>
      if fle bar_seconds f0 then Ok []
      else
        forming_start ← bucket_start latest_ts bar_seconds;
        buckets ← fill_buckets snapshots latest_ts bar_seconds forming_start [];
        Ok (foldl (bar_step bar_seconds) ([], None, None, None)
              (sort_by (fun x y => fle x.1 y.1) buckets)).1.1.1
  end.

(** ** [indicators.py] *)
Definition ema (closes : list float) (period : Z) : result (option float) :=
  if (period <=? 0) || (Z.of_nat (length closes) <? period) then Ok None
  else
    let n := Z.to_nat period in
    p ← int_f period; p1 ← int_f (period + 1);
    seed ← div (py_sum (take n closes)) p;
    k ← div (flit 2 0) p1;
    Ok (Some (foldl (fun value close =>
                fadd (fmul close k) (fmul value (fsub (flit 1 0) k))) seed (drop n closes))).

Fixpoint changes (closes : list float) : list float :=
  match closes with
  | a :: ((b :: _) as rest) => fsub b a :: changes rest
  | _ => []
  end.

(** [(avg * (period - 1) + x) / period], one Wilder smoothing step. *)
Definition smooth (pm1 p avg x : float) : result float := div (fadd (fmul avg pm1) x) p.

Fixpoint smooth_loop (pm1 p avg_gain avg_loss : float) (l : list (float * float)) : result (float * float) :=
  match l with
  | [] => Ok (avg_gain, avg_loss)
  | (gain, loss) :: l =>
      g ← smooth pm1 p avg_gain gain;
      s ← smooth pm1 p avg_loss loss;
      smooth_loop pm1 p g s l
  end.

Definition hundred : float := flit 100 0.

Definition rsi_wilder (closes : list float) (period : Z) : result (option float) :=
  if (period <=? 0) || (Z.of_nat (length closes) <? period + 1) then Ok None
  else
    let n := Z.to_nat period in
    let gains := (fun change => fmax change f0) <$> changes closes in
    let losses := (fun change => fmax (fneg change) f0) <$> changes closes in
    p ← int_f period; pm1 ← int_f (period - 1);
    g ← div (py_sum (take n gains)) p;
    l ← div (py_sum (take n losses)) p;
    '(avg_gain, avg_loss) ← smooth_loop pm1 p g l (zip (drop n gains) (drop n losses));
    if feq avg_gain f0 && feq avg_loss f0 then Ok (Some (flit 50 0))
    else if feq avg_loss f0 then Ok (Some hundred)
    else if feq avg_gain f0 then Ok (Some f0)
    else
      relative_strength ← div avg_gain avg_loss;
      q ← div hundred (fadd (flit 1 0) relative_strength);
      Ok (Some (fsub hundred q)).

Definition session_vwap (s : MarketSnapshot) : result (option float * option bool) :=
  match sn_turnover s with
  | None => Ok (None, None)
  | Some turnover =>
      if fle (sn_volume s) f0 then Ok (None, None)
      else v ← div turnover (sn_volume s); Ok (Some v, Some (flt v (sn_price s)))
  end.

(** ** [rolling.py] *)
Definition resolve_anchor (buffer : RingBuffer) (latest : MarketSnapshot) (window_s max_anchor_lag_s : float)
    : result (option MarketSnapshot) :=
  let t_ref := fsub (sn_market_ts latest) window_s in
  same ← is_same_session t_ref (sn_market_ts latest);
  if negb same then Ok None
  else match rb_at_or_before buffer t_ref with
       | None => Ok None
       | Some anchor =>
           same ← is_same_session (sn_market_ts anchor) (sn_market_ts latest);
           if negb same then Ok None
           else if flt max_anchor_lag_s (fsub t_ref (sn_market_ts anchor)) then Ok None
           else Ok (Some anchor)
       end.

Definition price_change (buffer : RingBuffer) (latest : MarketSnapshot) (window_s : float)
    (policy : FeaturePolicy) : result (option float) :=
  anchor ← resolve_anchor buffer latest window_s (max_anchor_lag_s policy);
  match anchor with
  | None => Ok None
  | Some a =>
      if feq (sn_price a) f0 then Ok None
      else c ← div (fsub (sn_price latest) (sn_price a)) (sn_price a); Ok (Some c)
  end.

Definition volume_delta (buffer : RingBuffer) (latest : MarketSnapshot) (window_s : float)
    (policy : FeaturePolicy) : result (option float) :=
  anchor ← resolve_anchor buffer latest window_s (max_anchor_lag_s policy);
  Ok (a ← anchor; Some (fmax f0 (fsub (sn_volume latest) (sn_volume a)))).

Definition snapshot_as_of (buffer : RingBuffer) (timestamp : float) (latest : MarketSnapshot)
    (max_anchor_lag_s : float) : result (option MarketSnapshot) :=
  match rb_at_or_before buffer timestamp with
  | None => Ok None
  | Some found =>
      same ← is_same_session (sn_market_ts found) (sn_market_ts latest);
      if negb same then Ok None
      else if flt max_anchor_lag_s (fsub timestamp (sn_market_ts found)) then Ok None
      else Ok (Some found)
  end.

Fixpoint volume_samples (buffer : RingBuffer) (latest : MarketSnapshot) (window_s : float)
    (policy : FeaturePolicy) (steps : list Z) : result (option (list float)) :=
  match steps with
  | [] => Ok (Some [])
  | step :: steps =>
      stepf ← int_f step;
      let as_of_ts := fsub (sn_market_ts latest) (fmul stepf (flit 60 0)) in
      as_of ← snapshot_as_of buffer as_of_ts latest (max_anchor_lag_s policy);
      match as_of with
      | None => Ok None
      | Some as_of =>
          delta ← volume_delta buffer as_of window_s policy;
          match delta with
          | None => Ok None
          | Some d =>
              rest ← volume_samples buffer latest window_s policy steps;
              Ok (option_map (cons d) rest)
          end
      end
  end.

Definition historical_volume_deltas (buffer : RingBuffer) (latest : MarketSnapshot) (window_s : float)
    (policy : FeaturePolicy) : result (option (list float)) :=
  volume_samples buffer latest window_s policy (seqZ 1 (volume_ratio_lookback policy)).

Definition volume_ratio (buffer : RingBuffer) (latest : MarketSnapshot) (window_s : float)
    (policy : FeaturePolicy) : result (option float) :=
  current ← volume_delta buffer latest window_s policy;
  match current with
  | None => Ok None
  | Some current =>
      samples ← historical_volume_deltas buffer latest window_s policy;
      match samples with
      | None => Ok None
      | Some samples =>
          n ← int_f (Z.of_nat (length samples));
          baseline ← div (py_sum samples) n;
          if fle baseline f0 then Ok None
          else r ← div current baseline; Ok (Some r)
      end
  end.

(** ** [engine.py] *)
Fixpoint session_refs_loop (latest : MarketSnapshot) (l : list MarketSnapshot)
    (refs : option float * option float) : result (option float * option float) :=
  match l with
  | [] => Ok refs
  | s :: l =>
      if fle (sn_market_ts latest) (sn_market_ts s) then session_refs_loop latest l refs
      else
        same ← is_same_session (sn_market_ts s) (sn_market_ts latest);
        if negb same then session_refs_loop latest l refs
        else
          let high := session_extreme_high s in
          let low := session_extreme_low s in
          session_refs_loop latest l
            (Some (match refs.1 with None => high | Some r => fmax r high end),
             Some (match refs.2 with None => low | Some r => fmin r low end))
  end.

Definition session_refs (buffer : RingBuffer) (latest : MarketSnapshot) : result (option float * option float) :=
  session_refs_loop latest (rb_since buffer f0) (None, None).

Fixpoint same_session_snaps (latest : MarketSnapshot) (l : list MarketSnapshot) : result (list MarketSnapshot) :=
  match l with
  | [] => Ok []
  | s :: l =>
      same ← is_same_session (sn_market_ts s) (sn_market_ts latest);
      rest ← same_session_snaps latest l;
      Ok (if same : bool then s :: rest else rest)
  end.

Definition high_now (high_ref : option float) (latest : MarketSnapshot) : float :=
  match high_ref with
  | None => session_extreme_high latest
  | Some r => fmax r (session_extreme_high latest)
  end.
Definition low_now (low_ref : option float) (latest : MarketSnapshot) : float :=
  match low_ref with
  | None => session_extreme_low latest
  | Some r => fmin r (session_extreme_low latest)
  end.

Definition day_range_of (high_ref low_ref : option float) (latest : MarketSnapshot) : result (option float) :=
  let high := high_now high_ref latest in
  let low := low_now low_ref latest in
  if flt low high then
    r ← div (fsub (sn_price latest) low) (fsub high low); Ok (Some r)
  else Ok None.

Definition day_change_of (latest : MarketSnapshot) : result (option float) :=
  if feq (sn_prev_close latest) f0 then Ok None
  else c ← div (fsub (sn_price latest) (sn_prev_close latest)) (sn_prev_close latest); Ok (Some c).

(** [FeatureEngine.compute] *)
Definition compute (policy : FeaturePolicy) (buffer : RingBuffer) : result (option MarketFeatures) :=
  match rb_latest buffer with
  | None => Ok None
  | Some latest =>
      '(high_ref, low_ref) ← session_refs buffer latest;
      day_range ← day_range_of high_ref low_ref latest;
      day_change ← day_change_of latest;
      session_snaps ← same_session_snaps latest (rb_since buffer f0);
      bars ← completed_minute_bars session_snaps (sn_market_ts latest) (bar_seconds policy);
      let closes := bar_close <$> bars in
      '(vwap, above_vwap) ← session_vwap latest;
      c1 ← price_change buffer latest (flit 60 0) policy;
      c5 ← price_change buffer latest (flit 300 0) policy;
      c15 ← price_change buffer latest (flit 900 0) policy;
      v1 ← volume_delta buffer latest (flit 60 0) policy;
      v5 ← volume_delta buffer latest (flit 300 0) policy;
      r1 ← volume_ratio buffer latest (flit 60 0) policy;
      r5 ← volume_ratio buffer latest (flit 300 0) policy;
      e5 ← ema closes 5;
      e20 ← ema closes 20;
      rsi ← rsi_wilder closes 14;
      Ok (Some (mkFeatures (sn_symbol latest) (sn_market_ts latest) (sn_received_ts latest)
                  c1 c5 c15 day_change day_range v1 v5 r1 r5 vwap above_vwap e5 e20 rsi
                  high_ref low_ref (session_extreme_high latest) (session_extreme_low latest)))
  end.

(** ** Examples *)
Definition bar_snap (t p v : Z) : MarketSnapshot :=
  mkSnapshot "600519.SH" (flit p 0) (flit 100 0) (flit p 0) (flit 100 0) (flit 100 0) (flit v 0) None
    (flit t 0) (flit t 0).
Definition ramp (n : nat) : list MarketSnapshot :=
  (fun i => bar_snap (1700011800 + 30 * i) (100 + i) (1000 + 10 * i)) <$> seqZ 0 (Z.of_nat n).

Example ramp_bars :
  match completed_minute_bars (ramp 5) (flit 1700011920 0) (flit 60 0) with
  | Ok bars => map (fun b => (bar_close b, bar_volume b)) bars
  | Err _ => []
  end = [(flit 101 0, None); (flit 103 0, Some (flit 20 0))].
Proof. vm_compute. reflexivity. Qed.
Example sum_comp : py_sum [flit 1 1; flit 2 1; flit 3 1] = flit 6 1.
Proof. vm_compute. reflexivity. Qed.
Example rsi_up : rsi_wilder ((fun i => flit i 0) <$> seqZ 1 20) 14 = Ok (Some hundred).
Proof. vm_compute. reflexivity. Qed.
Example ramp_features :
  match compute default_feature_policy (mkRB (flit 3600 0) 4096 (ramp 60)) with
  | Ok (Some f) => (change_1m f, volume_1m f, day_range_position f)
      = (Some (SFdiv 53 1024 (flit 2 0) (flit 157 0)), Some (flit 20 0), Some (flit 1 0))
  | _ => False
  end.
Proof. vm_compute. reflexivity. Qed.

(** ** Lemmas: no division by zero *)
Definition nz {A} (r : result A) : Prop := r <> Err ZeroDivisionError.

Lemma nz_bind {A B} (r : result A) (k : A -> result B) :
  nz r -> (forall a, r = Ok a -> nz (k a)) -> nz (r ≫= k).
Proof. unfold nz. destruct r as [a|e]; cbn; [eauto|congruence]. Qed.

Lemma nz_ok {A} (a : A) : nz (Ok a).
Proof. done. Qed.

Lemma nz_div x y : feq y f0 = false -> nz (div x y).
Proof. unfold nz, div, fdiv. by intros ->. Qed.

Lemma feq_fle_false x : fle x f0 = false -> feq x f0 = false.
Proof. unfold fle, feq, SFleb, SFeqb. by destruct (SFcompare x f0) as [[]|]. Qed.

Lemma nz_int_f n : nz (int_f n).
Proof. unfold nz, int_f. by destruct (of_Z n). Qed.

Lemma nz_local_us x : nz (local_us x).
Proof.
  unfold local_us. apply nz_bind; [|intros [sec us] _; by repeat case_match].
  unfold timeval. destruct x; try done. by repeat case_match.
Qed.

Lemma nz_is_same_session a b : nz (is_same_session a b).
Proof.
  assert (S : forall x, nz (session_id x)).
  { intros x. unfold session_id, session_day. apply nz_bind; [|done]. apply nz_bind; [apply nz_local_us|done]. }
  unfold is_same_session. apply nz_bind; [apply S|]. intros ? _. by apply nz_bind.
Qed.

Create HintDb nzdb.
#[export] Hint Resolve nz_ok nz_div nz_int_f nz_is_same_session feq_fle_false : nzdb.

(** Walks through a fallible computation in the order it runs. *)
Ltac nz_step :=
  match goal with
  | |- nz (_ ≫= _) => apply nz_bind; [|intros ? ?]
  | |- nz (match ?x with _ => _ end) => destruct x eqn:?
  | |- nz _ => solve [eauto with nzdb]
  end.

Lemma nz_resolve_anchor b latest w lag : nz (resolve_anchor b latest w lag).
Proof. unfold resolve_anchor. repeat nz_step. Qed.
Lemma nz_snapshot_as_of b t latest lag : nz (snapshot_as_of b t latest lag).
Proof. unfold snapshot_as_of. repeat nz_step. Qed.
#[export] Hint Resolve nz_resolve_anchor nz_snapshot_as_of : nzdb.

Lemma nz_price_change b latest w p : nz (price_change b latest w p).
Proof. unfold price_change. repeat nz_step. Qed.
Lemma nz_volume_delta b latest w p : nz (volume_delta b latest w p).
Proof. unfold volume_delta. repeat nz_step. Qed.
#[export] Hint Resolve nz_price_change nz_volume_delta : nzdb.

Lemma nz_volume_samples b latest w p steps : nz (volume_samples b latest w p steps).
Proof. induction steps as [|s steps IH]; cbn [volume_samples]; repeat nz_step. Qed.

Lemma volume_samples_length b latest w p steps l :
  volume_samples b latest w p steps = Ok (Some l) -> length l = length steps.
Proof.
  revert l. induction steps as [|s steps IH]; cbn [volume_samples]; intros l H; [by simplify_eq|].
  apply bind_ok in H as (sf & _ & H). cbn zeta in H. apply bind_ok in H as ([a|] & _ & H); [|done].
  apply bind_ok in H as ([d|] & _ & H); [|done]. apply bind_ok in H as (rest & E & H).
  destruct rest as [r|]; cbn in H; simplify_eq. cbn. f_equal. by apply IH.
Qed.

Lemma int_f_nonzero n x : 0 < n -> int_f n = Ok x -> feq x f0 = false.
Proof.
  intros Hn. unfold int_f, of_Z. destruct (normalize_spec n 0 false ltac:(lia)) as [N E].
  intros H. assert (x = binary_normalize 53 1024 n 0 false) as ->
    by (destruct (binary_normalize 53 1024 n 0 false); cbn in H; congruence).
  rewrite feq_val by eauto with fl. rewrite E, fval_f0. apply Z.eqb_neq.
  intros H0. pose proof (clamp_rnd_sgn (n * 2 ^ (0 + 1074))) as S. rewrite H0 in S.
  assert (0 < 2 ^ (0 + 1074)) by lia. lia.
Qed.

Lemma nz_volume_ratio b latest w p : 1 <= volume_ratio_lookback p -> nz (volume_ratio b latest w p).
Proof.
  intros Hl. unfold volume_ratio. nz_step; [nz_step|]. nz_step; [|nz_step].
  nz_step; [apply nz_volume_samples|]. destruct a0 as [l|]; [|nz_step].
  apply volume_samples_length in H0. rewrite length_seqZ in H0.
  nz_step; [nz_step|]. nz_step; [apply nz_div; apply int_f_nonzero in H1; [done|lia]|].
  repeat nz_step.
Qed.

Lemma nz_ema closes period : nz (ema closes period).
Proof.
  unfold ema. destruct (_ || _) eqn:E; [nz_step|]. split_bool.
  nz_step; [nz_step|]. nz_step; [nz_step|].
  nz_step; [apply nz_div; eapply int_f_nonzero; [|eassumption]; lia|].
  nz_step; [apply nz_div; eapply int_f_nonzero; [|eassumption]; lia|]. nz_step.
Qed.

(** Gains and losses are non-negative, so is every smoothed average of them. *)
Lemma nn_int_f n x : 0 <= n -> int_f n = Ok x -> nn x.
Proof.
  intros Hn. unfold int_f, of_Z. destruct (normalize_spec n 0 false ltac:(lia)) as [[V _] E].
  intros H. assert (x = binary_normalize 53 1024 n 0 false) as ->
    by (destruct (binary_normalize 53 1024 n 0 false); cbn in H; congruence).
  split; [done|]. rewrite E. apply clamp_nonneg, rnd_nonneg. lia.
Qed.

Lemma nn_div x y q : nn x -> nn y -> div x y = Ok q -> nn q.
Proof.
  unfold div, of_option. intros Hx Hy. destruct (fdiv x y) eqn:E; [|done]. intros [= <-].
  exact (nn_fdiv x y _ Hx Hy E).
Qed.

Lemma valid_changes closes : Forall (fun x => valid x = true) closes ->
  Forall (fun x => valid x = true) (changes closes).
Proof.
  induction closes as [|a [|b l] IH]; [constructor|constructor|]. intros H.
  apply Forall_cons in H as [Ha H]. cbn [changes]. constructor; [|by apply IH].
  apply Forall_cons in H as [Hb _]. by apply valid_fsub.
Qed.

Lemma nn_smooth_loop pm1 p l : nn pm1 -> nn p -> Forall (fun x => nn x.1 /\ nn x.2) l ->
  forall g s g' s', nn g -> nn s -> smooth_loop pm1 p g s l = Ok (g', s') -> nn g' /\ nn s'.
Proof.
  intros Hm Hp. induction 1 as [|[x y] l [Hx Hy] _ IH]; intros g s g' s' Hg Hs; cbn [smooth_loop]; [by intros [= <- <-]|].
  intros H. apply bind_ok in H as (g1 & Eg & H). apply bind_ok in H as (s1 & Es & H). unfold smooth in *.
  eapply IH; [| |exact H]; (eapply nn_div; [| |eassumption]); try done; apply nn_fadd; try done; by apply nn_fmul.
Qed.

Lemma nz_smooth_loop pm1 p l : feq p f0 = false -> forall g s, nz (smooth_loop pm1 p g s l).
Proof.
  intros Hp. induction l as [|[x y] l IH]; intros g s; cbn [smooth_loop]; [nz_step|].
  unfold smooth. repeat nz_step.
Qed.

Lemma one_plus_nonzero x : nn x -> feq (fadd (flit 1 0) x) f0 = false.
Proof.
  intros Hx. destruct (nn_cases x Hx) as [[Fx Px]|[-> | ->]]; [|done..].
  assert (F1 : fin (flit 1 0)) by done.
  destruct (fadd_spec (flit 1 0) x F1 Fx) as [N E]. rewrite feq_val by eauto with fl.
  rewrite E, fval_f0. apply Z.eqb_neq. intros H0. pose proof (clamp_rnd_sgn (fval (flit 1 0) + fval x)) as S.
  assert (0 < fval (flit 1 0)) by (vm_compute; done). rewrite H0 in S. lia.
Qed.

Lemma nz_rsi closes period : period < 2 ^ 53 ->
  Forall (fun x => valid x = true) closes -> nz (rsi_wilder closes period).
Proof.
  intros Hn Hv. unfold rsi_wilder. destruct (_ || _) eqn:E; [nz_step|]. split_bool.
  pose proof (valid_changes closes Hv) as Hc.
  set (gains := _ <$> changes closes). set (losses := (fun change => fmax (fneg change) f0) <$> changes closes).
  assert (Hg : Forall nn gains).
  { apply Forall_fmap. eapply Forall_impl; [exact Hc|]. intros x Vx. by apply nn_fmax_r. }
  assert (Hs : Forall nn losses).
  { apply Forall_fmap. eapply Forall_impl; [exact Hc|]. intros x Vx. cbn. apply nn_fmax_r. unfold fneg. by rewrite valid_opp. }
  nz_step; [nz_step|]. rename a into p. nz_step; [nz_step|]. rename a into pm1.
  assert (Np : nn p) by (eapply nn_int_f; [|done]; lia).
  assert (Nm : nn pm1) by (eapply nn_int_f; [|done]; lia).
  assert (Zp : feq p f0 = false) by (eapply int_f_nonzero; [|done]; lia).
  assert (S : forall l, Forall nn l -> nn (py_sum (take (Z.to_nat period) l))).
  { intros l Hl. apply nn_py_sum; [rewrite length_take; lia|by apply Forall_take]. }
  nz_step; [nz_step|]. nz_step; [nz_step|].
  apply nn_div in H3; [|by apply S|done].
  apply nn_div in H4; [|by apply S|done].
  nz_step; [by apply nz_smooth_loop|]. destruct a1 as [g s].
  apply nn_smooth_loop in H5 as [Hg' Hs']; [|done|done| |done|done].
  2: { apply Forall_zip_both; by apply Forall_drop. }
  destruct (feq g f0 && feq s f0) eqn:E1; [nz_step|]. destruct (feq s f0) eqn:E2; [nz_step|].
  destruct (feq g f0) eqn:E3; [nz_step|]. nz_step; [by apply nz_div|].
  nz_step; [|nz_step]. apply nz_div, one_plus_nonzero. by eapply nn_div; [| |eassumption].
Qed.

(** ** Lemmas: buckets and bars *)
Definition in_bucket (snaps : list MarketSnapshot) (latest_ts bs forming start : float) (s : MarketSnapshot) : Prop :=
  s ∈ snaps /\ is_same_session (sn_market_ts s) latest_ts = Ok true /\
  bucket_start (sn_market_ts s) bs = Ok start /\ fle forming start = false.

Definition buckets_ok (snaps : list MarketSnapshot) (latest_ts bs forming : float)
    (buckets : list (float * list MarketSnapshot)) : Prop :=
  NoDup buckets.*1 /\
  Forall (fun b => b.2 <> [] /\ Forall (in_bucket snaps latest_ts bs forming b.1) b.2) buckets.

Lemma od_set_forall {K V} `{!EqDecision K} (P : K * V -> Prop) k v (d : list (K * V)) :
  P (k, v) -> Forall P d -> Forall P (od_set k v d).
Proof.
  intros Hk. induction 1 as [|[a b] d Ha Hd IH]; cbn [od_set]; [by repeat constructor|].
  case_decide; subst; by constructor.
Qed.

Lemma fill_buckets_ok snaps latest_ts bs forming : forall l buckets out,
  Forall (fun s => s ∈ snaps) l -> buckets_ok snaps latest_ts bs forming buckets ->
  fill_buckets l latest_ts bs forming buckets = Ok out -> buckets_ok snaps latest_ts bs forming out.
Proof.
  induction l as [|s l IH]; intros buckets out Hl Hb; cbn [fill_buckets]; [by intros [= <-]|].
  apply Forall_cons in Hl as [Hs Hl]. intros H. apply bind_ok in H as ([] & Es & H); cbn [negb] in H.
  2: { by eapply IH. }
  apply bind_ok in H as (start & Eb & H). destruct (fle forming start) eqn:Ef; [by eapply IH|].
  eapply IH; [done| |exact H]. destruct Hb as [Hn Hb]. split; [by apply od_set_nodup|].
  apply od_set_forall; [|done]. cbn. split; [by destruct (default _ _)|].
  apply Forall_app. split; [|by repeat constructor].
  destruct (od_get start buckets) as [g|] eqn:Eg; [|constructor]. cbn.
  apply od_get_elem in Eg. rewrite Forall_forall in Hb. by apply (Hb _ Eg).
Qed.

Lemma nz_bucket_start t bs : feq bs f0 = false -> nz (bucket_start t bs).
Proof.
  intros H. unfold bucket_start. nz_step; [by apply nz_div|]. nz_step; [|repeat nz_step].
  unfold nz, of_option. repeat case_match; done.
Qed.

Lemma nz_fill_buckets latest_ts bs forming : feq bs f0 = false -> forall l buckets,
  nz (fill_buckets l latest_ts bs forming buckets).
Proof.
  intros H. induction l as [|s l IH]; intros buckets; cbn [fill_buckets]; [nz_step|].
  nz_step; [nz_step|]. destruct a; cbn [negb]; [|apply IH]. nz_step; [by apply nz_bucket_start|].
  nz_step; apply IH.
Qed.

(** What a bar says about its bucket. *)
Record bar_of (bs : float) (b : float * list MarketSnapshot) (bar : MarketBar) : Prop := {
  bo_start : bar_start bar = b.1;
  bo_end : bar_end bar = fadd b.1 bs;
  bo_close : exists s, s ∈ b.2 /\ bar_close bar = sn_price s /\
    (Forall (fun s => num (sn_market_ts s)) b.2 -> forall s', s' ∈ b.2 ->
       fval (sn_market_ts s') <= fval (sn_market_ts s));
  bo_open : exists s, s ∈ b.2 /\ bar_open bar = sn_price s;
  bo_range : Forall (fun s => num (sn_price s)) b.2 -> forall s, s ∈ b.2 ->
    fval (bar_low bar) <= fval (sn_price s) <= fval (bar_high bar);
  bo_high : exists s, s ∈ b.2 /\ bar_high bar = sn_price s;
  bo_low : exists s, s ∈ b.2 /\ bar_low bar = sn_price s
}.

Lemma foldl_pick {A} (f : A -> A -> A) l : (forall a b, f a b = a \/ f a b = b) ->
  forall x, foldl f x l ∈ x :: l.
Proof.
  intros Hf. induction l as [|z l IH]; intros x; cbn [foldl]; [by left|].
  destruct (proj1 (elem_of_cons _ _ _) (IH (f x z))) as [E|Hin]; [|by right; right].
  rewrite E. destruct (Hf x z) as [-> | ->]; [by left|by right; left].
Qed.

Lemma fmax_pick a b : fmax a b = a \/ fmax a b = b.
Proof. unfold fmax. destruct (flt a b); auto. Qed.
Lemma fmin_pick a b : fmin a b = a \/ fmin a b = b.
Proof. unfold fmin. destruct (flt b a); auto. Qed.

Lemma builtin_max_spec l : forall x, Forall num (x :: l) ->
  num (builtin_max x l) /\ forall y, y ∈ x :: l -> fval y <= fval (builtin_max x l).
Proof.
  unfold builtin_max. induction l as [|z l IH]; intros x H; cbn [foldl].
  - inversion H; subst. split; [assumption|]. intros y ->%list_elem_of_singleton. cbn. lia.
  - apply Forall_cons in H as [Hx H]. apply Forall_cons in H as [Hz H].
    assert (Hm : num (fmax x z)) by by apply num_fmax.
    destruct (IH (fmax x z) ltac:(by constructor)) as [Hin Hle]. split; [done|].
    pose proof (Hle (fmax x z) ltac:(by left)) as H0. rewrite fval_fmax in H0 by done.
    intros y [->|[->|Hy]%elem_of_cons]%elem_of_cons; [lia|lia|]. apply Hle. by right.
Qed.

Lemma builtin_min_spec l : forall x, Forall num (x :: l) ->
  num (builtin_min x l) /\ forall y, y ∈ x :: l -> fval (builtin_min x l) <= fval y.
Proof.
  unfold builtin_min. induction l as [|z l IH]; intros x H; cbn [foldl].
  - inversion H; subst. split; [assumption|]. intros y ->%list_elem_of_singleton. cbn. lia.
  - apply Forall_cons in H as [Hx H]. apply Forall_cons in H as [Hz H].
    assert (Hm : num (fmin x z)) by by apply num_fmin.
    destruct (IH (fmin x z) ltac:(by constructor)) as [Hin Hle]. split; [done|].
    pose proof (Hle (fmin x z) ltac:(by left)) as H0. rewrite fval_fmin in H0 by done.
    intros y [->|[->|Hy]%elem_of_cons]%elem_of_cons; [lia|lia|]. apply Hle. by right.
Qed.

(** Sorting by timestamp: the last element is the newest. *)
Definition ts_le (x y : MarketSnapshot) : bool := fle (sn_market_ts x) (sn_market_ts y).

Lemma sort_ts_last g last_ : last (sort_by ts_le g) = Some last_ ->
  last_ ∈ g /\ (Forall (fun s => num (sn_market_ts s)) g -> forall s, s ∈ g ->
    fval (sn_market_ts s) <= fval (sn_market_ts last_)).
Proof.
  intros Hl. split; [apply (elem_of_sort_by ts_le), last_Some_elem_of, Hl|]. intros Hn s Hs.
  assert (S : StronglySorted (fun a b => ts_le a b = true) (sort_by ts_le g)).
  { apply (sort_by_sorted ts_le (fun s => num (sn_market_ts s))); [| |done]; unfold ts_le; intros; fcmp; lia. }
  assert (N : forall s, s ∈ sort_by ts_le g -> num (sn_market_ts s)).
  { intros x Hx%elem_of_sort_by. rewrite Forall_forall in Hn. by apply Hn. }
  apply (elem_of_sort_by ts_le) in Hs. clear Hn. revert Hl Hs N. induction S as [|x l S IH Hx]; [done|].
  rewrite last_cons. destruct (last l) as [z|] eqn:El; intros Hl Hs N; simplify_eq.
  - apply elem_of_cons in Hs as [->|Hs]; [|apply IH; [done|done|intros y Hy; apply N; by right]].
    rewrite Forall_forall in Hx. pose proof (Hx _ (last_Some_elem_of _ _ El)) as H. unfold ts_le in H.
    rewrite fle_val in H; [lia|apply N; by left|apply N; right; by apply last_Some_elem_of].
  - apply last_None in El as ->. apply list_elem_of_singleton in Hs as ->. lia.
Qed.

Definition last_valid (v : option float) : Prop := from_option (fun x => valid x = true) True v.

Lemma nn_interval_delta c p k v : valid c = true -> last_valid p -> interval_delta (Some c) p k = Some v -> nn v.
Proof.
  intros Vc Vp. unfold interval_delta. destruct p as [p|]; [|done]. destruct k; [|done].
  intros [= <-]. apply nn_fmax_l. by apply valid_fsub.
Qed.

(** One iteration of the bar loop on a non-empty bucket. *)
Lemma bar_step_spec bs bars pe lv lt b : b.2 <> [] ->
  exists bar pe' lv' lt', bar_step bs (bars, pe, lv, lt) b = (bars ++ [bar], pe', lv', lt') /\ bar_of bs b bar /\
    (Forall (fun s => valid (sn_volume s) = true) b.2 -> last_valid lv ->
       last_valid lv' /\ from_option nn True (bar_volume bar)).
Proof.
  intros Hne. unfold bar_step. fold ts_le. cbn zeta.
  destruct (sort_by ts_le b.2) as [|first rest] eqn:Es; [by apply sort_by_nil in Es|].
  destruct (last (first :: rest)) as [last_|] eqn:El; [|by apply last_None in El].
  assert (Hp : first :: rest ≡ₚ b.2) by (rewrite <- Es; apply sort_by_perm).
  rewrite <- Es in El. destruct (sort_ts_last _ _ El) as [Hin Hmax]. do 4 eexists. split; [done|].
  assert (Hpr : forall f, (forall a b, f a b = a \/ f a b = b) ->
    exists s, s ∈ b.2 /\ foldl f (sn_price first) (sn_price <$> rest) = sn_price s).
  { intros f Hf. pose proof (foldl_pick f (sn_price <$> rest) Hf (sn_price first)) as H.
    change (sn_price first :: (sn_price <$> rest)) with (sn_price <$> (first :: rest)) in H.
    rewrite Hp in H. apply list_elem_of_fmap in H as (s & -> & Hs). by exists s. }
  split; [split; cbn|].
  - done.
  - done.
  - by exists last_.
  - exists first. split; [|done]. rewrite <- Hp. by left.
  - intros Hnum s Hs. rewrite <- Hp in Hnum, Hs.
    assert (Hn' : Forall num (sn_price first :: (sn_price <$> rest))) 
      by (change (Forall num (sn_price <$> (first :: rest))); by apply Forall_fmap).
    assert (Hs' : sn_price s ∈ sn_price first :: (sn_price <$> rest)).
    { change (sn_price s ∈ sn_price <$> (first :: rest)). by apply list_elem_of_fmap_2. }
    split; [by apply builtin_min_spec|by apply builtin_max_spec].
  - apply Hpr, fmax_pick.
  - apply Hpr, fmin_pick.
  - intros Hv Hlv. cbn -[interval_delta from_option]. rewrite Forall_forall in Hv. split; [by apply Hv|].
    destruct (interval_delta (Some _) _ _) eqn:E; [|done]. cbn. eapply nn_interval_delta; [| |exact E]; [by apply Hv|done].
Qed.

Lemma bars_foldl bs l : forall bars pe lv lt, Forall (fun b => b.2 <> []) l ->
  exists new, (foldl (bar_step bs) (bars, pe, lv, lt) l).1.1.1 = bars ++ new /\ Forall2 (bar_of bs) l new /\
    (Forall (fun b => Forall (fun s => valid (sn_volume s) = true) b.2) l -> last_valid lv ->
       Forall (fun bar => from_option nn True (bar_volume bar)) new).
Proof.
  induction l as [|b l IH]; intros bars pe lv lt Hl; cbn [foldl].
  - exists []. rewrite app_nil_r. repeat constructor.
  - apply Forall_cons in Hl as [Hb Hl].
    destruct (bar_step_spec bs bars pe lv lt b Hb) as (bar & pe' & lv' & lt' & -> & Hbar & Hvol).
    destruct (IH (bars ++ [bar]) pe' lv' lt' Hl) as (new & -> & H2 & Hv2).
    exists (bar :: new). rewrite <- app_assoc. split; [done|]. split; [by constructor|].
    intros [Hv Hvs]%Forall_cons Hlv. destruct (Hvol Hv Hlv). constructor; auto.
Qed.

(** The bars of a successful call, one per bucket of earlier minutes in time order. *)
Lemma completed_bars_of snaps latest_ts bs bars :
  completed_minute_bars snaps latest_ts bs = Ok bars ->
  bars = [] \/ exists forming buckets, bucket_start latest_ts bs = Ok forming /\
    buckets_ok snaps latest_ts bs forming buckets /\
    Forall2 (bar_of bs) (sort_by (fun x y => fle x.1 y.1) buckets) bars /\
    (Forall (fun s => valid (sn_volume s) = true) snaps -> Forall (fun bar => from_option nn True (bar_volume bar)) bars).
Proof.
  unfold completed_minute_bars. destruct snaps as [|s0 snaps]; [intros [= <-]; by left|].
  destruct (fle bs f0); [intros [= <-]; by left|]. intros H. right.
  apply bind_ok in H as (forming & Ef & H). apply bind_ok in H as (buckets & Eb & H).
  assert (Hok : buckets_ok (s0 :: snaps) latest_ts bs forming buckets).
  { refine (fill_buckets_ok _ _ _ _ (s0 :: snaps) [] buckets _ _ Eb); [by apply Forall_forall|].
    split; constructor. }
  exists forming, buckets. split; [done|]. split; [done|].
  set (le := fun x y : float * list MarketSnapshot => fle x.1 y.1) in *.
  assert (Hall : Forall (fun b => b.2 <> [] /\ Forall (in_bucket (s0 :: snaps) latest_ts bs forming b.1) b.2) (sort_by le buckets)).
  { rewrite sort_by_perm. apply Hok. }
  destruct (bars_foldl bs (sort_by le buckets) [] None None None) as (new & E & H2 & Hv).
  { eapply Forall_impl; [exact Hall|]. by intros b []. }
  rewrite E in H. cbn in H. simplify_eq. split; [done|]. intros Hvs. apply Hv; [|done].
  eapply Forall_impl; [exact Hall|]. intros b [_ Hb]. eapply Forall_impl; [exact Hb|].
  intros s (Hs & _). rewrite Forall_forall in Hvs. by apply Hvs.
Qed.

Lemma completed_bars_closes snaps latest_ts bs bars : completed_minute_bars snaps latest_ts bs = Ok bars ->
  Forall (fun c => c ∈ sn_price <$> snaps) (bar_close <$> bars).
Proof.
  intros [->|(forming & buckets & _ & [_ Hb] & H2 & _)]%completed_bars_of; [constructor|].
  apply Forall_fmap. apply Forall_forall. intros bar Hbar. unfold compose.
  apply list_elem_of_lookup in Hbar as (i & Hi). destruct (Forall2_lookup_r _ _ _ _ _ H2 Hi) as (b & Hbi & Hof).
  destruct (bo_close _ _ _ Hof) as (s & Hs & -> & _).
  apply list_elem_of_lookup_2, elem_of_sort_by in Hbi. rewrite Forall_forall in Hb.
  destruct (Hb _ Hbi) as [_ Hin]. rewrite Forall_forall in Hin. destruct (Hin _ Hs) as [? _].
  by apply list_elem_of_fmap_2.
Qed.

Lemma nz_completed_bars snaps latest_ts bs : nz (completed_minute_bars snaps latest_ts bs).
Proof.
  unfold completed_minute_bars. destruct snaps; [nz_step|]. destruct (fle bs f0) eqn:E; [nz_step|].
  apply feq_fle_false in E. nz_step; [by apply nz_bucket_start|]. nz_step; [by apply nz_fill_buckets|nz_step].
Qed.

(** ** Lemmas: the engine *)
Lemma nz_session_refs_loop latest l : forall refs, nz (session_refs_loop latest l refs).
Proof.
  induction l as [|s l IH]; intros refs; cbn [session_refs_loop]; [nz_step|]. nz_step; [apply IH|].
  nz_step; [nz_step|]. cbn zeta. nz_step; apply IH.
Qed.

Lemma nz_same_session_snaps latest l : nz (same_session_snaps latest l).
Proof. induction l as [|s l IH]; cbn [same_session_snaps]; repeat nz_step. Qed.

Lemma same_session_snaps_spec latest l out : same_session_snaps latest l = Ok out ->
  (length out <= length l)%nat /\ forall s, s ∈ out <-> s ∈ l /\ is_same_session (sn_market_ts s) (sn_market_ts latest) = Ok true.
Proof.
  revert out. induction l as [|s l IH]; intros out; cbn [same_session_snaps]; [intros [= <-]; split; [done|set_solver]|].
  intros H. apply bind_ok in H as (same & Es & H). apply bind_ok in H as (rest & Er & H).
  destruct (IH _ Er) as [Hl Hr]. destruct same; simplify_eq.
  - split; [cbn; lia|]. intros x. rewrite !elem_of_cons, Hr. naive_solver.
  - split; [cbn; lia|]. intros x. rewrite !elem_of_cons, Hr. naive_solver congruence.
Qed.

(** The session references: extremes of the earlier snapshots of the same session. *)
Definition earlier (latest : MarketSnapshot) (l : list MarketSnapshot) (s : MarketSnapshot) : Prop :=
  s ∈ l /\ fle (sn_market_ts latest) (sn_market_ts s) = false /\
  is_same_session (sn_market_ts s) (sn_market_ts latest) = Ok true.

Definition refs_ok (latest : MarketSnapshot) (l : list MarketSnapshot) (refs : option float * option float) : Prop :=
  match refs.1 with
  | Some h => (exists s, earlier latest l s /\ h = session_extreme_high s) /\
              (forall s, earlier latest l s -> fval (session_extreme_high s) <= fval h)
  | None => forall s, ~ earlier latest l s
  end /\
  match refs.2 with
  | Some w => (exists s, earlier latest l s /\ w = session_extreme_low s) /\
              (forall s, earlier latest l s -> fval w <= fval (session_extreme_low s))
  | None => forall s, ~ earlier latest l s
  end.

Lemma extremes_num s : snapshot_finite s -> fin (session_extreme_high s) /\ fin (session_extreme_low s).
Proof. intros []. unfold session_extreme_high, session_extreme_low. eauto with fl. Qed.

Lemma refs_skip latest l refs s : ~ earlier latest (l ++ [s]) s -> refs_ok latest l refs -> refs_ok latest (l ++ [s]) refs.
Proof.
  intros Hn. assert (E : forall x, earlier latest (l ++ [s]) x <-> earlier latest l x).
  { intros x. split; [|intros (? & ?); split; [by apply elem_of_app; left|done]].
    intros (Hx & Hr). destruct (proj1 (elem_of_app _ _ _) Hx) as [|Hs]; [by split|].
    apply list_elem_of_singleton in Hs as ->. destruct Hn. by split. }
  unfold refs_ok. intros [H1 H2]. split; [destruct refs.1|destruct refs.2]; setoid_rewrite E; done.
Qed.

Lemma refs_add latest l refs s : Forall snapshot_finite l -> snapshot_finite s -> earlier latest (l ++ [s]) s ->
  refs_ok latest l refs ->
  refs_ok latest (l ++ [s])
    (Some (match refs.1 with None => session_extreme_high s | Some r => fmax r (session_extreme_high s) end),
     Some (match refs.2 with None => session_extreme_low s | Some r => fmin r (session_extreme_low s) end)).
Proof.
  intros Hf Hs He [H1 H2]. destruct (extremes_num s Hs) as [Fh Fl].
  assert (E : forall x, earlier latest (l ++ [s]) x <-> earlier latest l x \/ x = s).
  { intros x. split; [|intros [(? & ?)| ->]; [split; [by apply elem_of_app; left|done]|done]].
    intros (Hx & Hr). destruct (proj1 (elem_of_app _ _ _) Hx) as [|Hs']; [by left; split|].
    apply list_elem_of_singleton in Hs'. by right. }
  rewrite Forall_forall in Hf.
  split; cbn [fst snd].
  - destruct refs.1 as [r|].
    + destruct H1 as [(s0 & He0 & ->) Hle]. destruct (extremes_num s0 (Hf _ (proj1 He0))) as [F0 _]. split.
      * destruct (fmax_pick (session_extreme_high s0) (session_extreme_high s)) as [-> | ->];
          [exists s0|exists s]; rewrite E; auto.
      * intros x [Hx| ->]%E; rewrite fval_fmax by eauto with fl; [specialize (Hle _ Hx)|]; lia.
    + split; [exists s; rewrite E; auto|]. intros x [Hx| ->]%E; [by destruct (H1 x)|lia].
  - destruct refs.2 as [r|].
    + destruct H2 as [(s0 & He0 & ->) Hle]. destruct (extremes_num s0 (Hf _ (proj1 He0))) as [_ F0]. split.
      * destruct (fmin_pick (session_extreme_low s0) (session_extreme_low s)) as [-> | ->];
          [exists s0|exists s]; rewrite E; auto.
      * intros x [Hx| ->]%E; rewrite fval_fmin by eauto with fl; [specialize (Hle _ Hx)|]; lia.
    + split; [exists s; rewrite E; auto|]. intros x [Hx| ->]%E; [by destruct (H2 x)|lia].
Qed.

Lemma session_refs_loop_ok latest : forall l done_ refs out, Forall snapshot_finite (done_ ++ l) ->
  refs_ok latest done_ refs -> session_refs_loop latest l refs = Ok out -> refs_ok latest (done_ ++ l) out.
Proof.
  induction l as [|s l IH]; intros done_ refs out Hf Hr; cbn [session_refs_loop].
  - intros [= <-]. by rewrite app_nil_r.
  - rewrite (cons_middle s done_ l), app_assoc in Hf |- *.
    pose proof (proj1 (Forall_app _ _ _) Hf) as [Hd _]. apply Forall_app in Hd as [Hd Hs].
    inversion Hs as [|? ? Hs0 _]; subst; clear Hs; rename Hs0 into Hs.
    destruct (fle (sn_market_ts latest) (sn_market_ts s)) eqn:E1.
    { apply IH; [done|]. apply refs_skip; [|done]. intros (_ & ? & _). congruence. }
    intros H. apply bind_ok in H as ([] & E2 & H); cbn [negb] in H.
    + eapply IH; [done| |exact H]. apply refs_add; [done..| |done].
      split; [|done]. apply elem_of_app. right. by left.
    + eapply IH; [done| |exact H]. apply refs_skip; [|done]. intros (_ & _ & ?). congruence.
Qed.

Lemma session_refs_ok b latest refs : Forall snapshot_finite (rb_items b) ->
  session_refs b latest = Ok refs -> refs_ok latest (rb_since b f0) refs.
Proof.
  intros Hf. apply (session_refs_loop_ok latest (rb_since b f0) [] (None, None)).
  - cbn. apply Forall_forall. intros s [_ Hs]%list_elem_of_filter. rewrite Forall_forall in Hf. by apply Hf.
  - split; cbn; intros s (Hs & _); by apply elem_of_nil in Hs.
Qed.

(** A buffer whose snapshots all passed the normalizer. *)
Definition buffer_ok (b : RingBuffer) : Prop := Forall snapshot_ok (rb_items b).

Lemma buffer_ok_finite b : buffer_ok b -> Forall snapshot_finite (rb_items b).
Proof. intros H. eapply Forall_impl; [exact H|]. by intros s []. Qed.

Lemma latest_in b latest : rb_latest b = Some latest -> latest ∈ rb_items b.
Proof. apply last_Some_elem_of. Qed.

(** Prices lie within the day's range used for [day_range_position]. *)
Lemma high_now_ge href latest : snapshot_finite latest -> from_option fin True href ->
  fin (high_now href latest) /\ fval (sn_price latest) <= fval (high_now href latest).
Proof.
  intros Hs Hh. destruct (extremes_num latest Hs) as [Fh _]. destruct Hs as [Fp _ Fhi _ _ _ _ _].
  unfold high_now. assert (fval (sn_price latest) <= fval (session_extreme_high latest)).
  { unfold session_extreme_high. rewrite fval_fmax by eauto with fl. lia. }
  destruct href as [h|]; cbn in Hh; [|done]. split; [by apply fin_fmax|]. rewrite fval_fmax by eauto with fl. lia.
Qed.

Lemma low_now_le lref latest : snapshot_finite latest -> from_option fin True lref ->
  fin (low_now lref latest) /\ fval (low_now lref latest) <= fval (sn_price latest).
Proof.
  intros Hs Hh. destruct (extremes_num latest Hs) as [_ Fl]. destruct Hs as [Fp _ _ Flo _ _ _ _].
  unfold low_now. assert (fval (session_extreme_low latest) <= fval (sn_price latest)).
  { unfold session_extreme_low. rewrite fval_fmin by eauto with fl. lia. }
  destruct lref as [h|]; cbn in Hh; [|done]. split; [by apply fin_fmin|]. rewrite fval_fmin by eauto with fl. lia.
Qed.

Lemma nz_day_range href lref latest : snapshot_finite latest -> from_option fin True href ->
  from_option fin True lref -> nz (day_range_of href lref latest).
Proof.
  intros Hs Hh Hl. destruct (high_now_ge href latest Hs Hh) as [Fh _]. destruct (low_now_le lref latest Hs Hl) as [Fl _].
  unfold day_range_of. destruct (flt _ _) eqn:E; [|nz_step]. nz_step; [|nz_step]. apply nz_div.
  fcmp. intros E0.
  pose proof (fsub_sgn _ _ Fh Fl). lia.
Qed.

Lemma day_range_unit href lref latest r : snapshot_finite latest -> from_option fin True href ->
  from_option fin True lref -> 0 <= fval (low_now lref latest) ->
  day_range_of href lref latest = Ok (Some r) -> num r /\ 0 <= fval r <= one_val.
Proof.
  intros Hs Hh Hl Hlow. destruct (high_now_ge href latest Hs Hh) as [Fh Gh].
  destruct (low_now_le lref latest Hs Hl) as [Fl Gl]. pose proof (sf_price _ Hs) as Fp.
  unfold day_range_of. destruct (flt _ _) eqn:E; [|done]. fcmp. intros H.
  apply bind_ok in H as (q & Eq & [= <-]). unfold div, of_option in Eq.
  set (low := low_now lref latest) in *. set (high := high_now href latest) in *.
  assert (F1 : fin (fsub (sn_price latest) low)) by (apply fin_fsub_nonneg; done || lia).
  assert (F2 : fin (fsub high low)) by (apply fin_fsub_nonneg; done || lia).
  pose proof (fsub_sgn _ _ Fp Fl) as S1. pose proof (fsub_sgn _ _ Fh Fl) as S2.
  destruct (fdiv_spec _ _ F1 F2 ltac:(lia)) as (q' & E' & N & S & Hle). rewrite E' in Eq. simplify_eq.
  split; [done|]. pose proof (fsub_mono _ _ _ _ Fp Fh Fl Fl Gh ltac:(lia)) as M.
  specialize (Hle ltac:(lia)).
  assert (nn q) by (eapply nn_fdiv; [| |exact E']; split; [apply F1|lia|apply F2|lia]).
  destruct H. lia.
Qed.

Lemma refs_fin b latest refs : buffer_ok b -> session_refs b latest = Ok refs ->
  refs_ok latest (rb_since b f0) refs /\ from_option fin True refs.1 /\ from_option fin True refs.2.
Proof.
  intros Hb H. pose proof (buffer_ok_finite b Hb) as Hf. pose proof (session_refs_ok b latest refs Hf H) as R.
  split; [done|]. rewrite Forall_forall in Hf.
  assert (G : forall s, earlier latest (rb_since b f0) s -> snapshot_finite s).
  { intros x ([_ Hx]%list_elem_of_filter & _). by apply Hf. }
  destruct R as [R1 R2]. split.
  - destruct refs.1; [|done]. destruct R1 as [(x & Hx & ->) _]. by apply extremes_num, G.
  - destruct refs.2; [|done]. destruct R2 as [(x & Hx & ->) _]. by apply extremes_num, G.
Qed.

Lemma nz_session_vwap s : nz (session_vwap s).
Proof. unfold session_vwap. repeat nz_step. Qed.
Lemma nz_day_change s : nz (day_change_of s).
Proof. unfold day_change_of. repeat nz_step. Qed.
Lemma nz_session_refs b latest : nz (session_refs b latest).
Proof. apply nz_session_refs_loop. Qed.
#[export] Hint Resolve nz_session_vwap nz_day_change nz_session_refs nz_same_session_snaps
  nz_completed_bars nz_ema nz_volume_ratio : nzdb.

(** ** Properties *)

(** [compute_no_zero_division] no quote can make the feature engine divide by zero: for every buffer
    of normalised snapshots and every policy whose volume baseline has at least one
    sample, [compute] guards each of its divisions (day range, day change, window
    changes, volume baselines, VWAP, EMA and the three RSI cases). *)
Theorem compute_no_zero_division policy b : buffer_ok b ->
  1 <= volume_ratio_lookback policy ->
  compute policy b <> Err ZeroDivisionError.
Proof.
  intros Hb Hlook. change (nz (compute policy b)). unfold compute.
  destruct (rb_latest b) as [latest|] eqn:El; [|nz_step].
  assert (Hs : snapshot_finite latest).
  { pose proof (buffer_ok_finite b Hb) as Hf. rewrite Forall_forall in Hf. by apply Hf, latest_in. }
  nz_step; [nz_step|]. destruct a as [href lref]. apply refs_fin in H as (_ & Hh & Hl); [|done]. cbn in Hh, Hl.
  nz_step; [by apply nz_day_range|]. nz_step; [nz_step|]. nz_step; [nz_step|]. rename a1 into snaps.
  nz_step; [nz_step|]. rename a1 into bars.
  nz_step; [nz_step|]. destruct a1 as [vw av].
  do 9 (nz_step; [nz_step|]). nz_step; [|nz_step].
  apply same_session_snaps_spec in H1 as [L1 M1].
  pose proof (completed_bars_closes _ _ _ _ H2) as Hc.
  apply nz_rsi; [lia|]. eapply Forall_impl; [exact Hc|]. cbn.
  intros c (s & -> & (Hin & _)%M1)%list_elem_of_fmap. apply list_elem_of_filter in Hin as [_ Hin].
  pose proof (buffer_ok_finite b Hb) as Hf. rewrite Forall_forall in Hf. apply (sf_price _ (Hf _ Hin)).
Qed.

Lemma volume_delta_nn b latest w p v : valid (sn_volume latest) = true ->
  Forall (fun s => valid (sn_volume s) = true) (rb_items b) ->
  volume_delta b latest w p = Ok (Some v) -> nn v.
Proof.
  intros Vl Vb. unfold volume_delta. intros H. apply bind_ok in H as ([a|] & Ea & H); cbn in H; [|done].
  simplify_eq. apply nn_fmax_l, valid_fsub; [done|]. rewrite Forall_forall in Vb. apply Vb.
  unfold resolve_anchor in Ea. apply bind_ok in Ea as ([] & _ & Ea); cbn [negb] in Ea; [|done].
  destruct (rb_at_or_before b _) as [x|] eqn:Ex; [|done].
  apply bind_ok in Ea as ([] & _ & Ea); cbn [negb] in Ea; [|done].
  destruct (flt _ _); simplify_eq. unfold rb_at_or_before in Ex. destruct (rb_items b) as [|y l] eqn:El; [done|].
  rewrite <- El in *. destruct (bisect_right _ _); [done|]. by eapply list_elem_of_lookup_2.
Qed.

(** [compute_spec] what the engine reports for the newest snapshot: identity and timestamps are the
    snapshot's; the breakout references are the exact extremes of the earlier snapshots of
    the same session (never the newest itself), and absent exactly when there is none; the
    day range position lies in [0, 1] for non-negative lows; window volumes are never
    negative; [above_vwap] is the comparison of the price with the reported VWAP; the day
    change is absent exactly when the previous close is zero. *)
Theorem compute_spec policy b f latest : buffer_ok b -> rb_latest b = Some latest ->
  compute policy b = Ok (Some f) ->
  ft_symbol f = sn_symbol latest /\ ft_market_ts f = sn_market_ts latest /\
  ft_received_ts f = sn_received_ts latest /\
  refs_ok latest (rb_since b f0) (session_high_ref f, session_low_ref f) /\
  session_high_obs f = session_extreme_high latest /\ session_low_obs f = session_extreme_low latest /\
  (forall r, day_range_position f = Some r -> 0 <= fval (low_now (session_low_ref f) latest) ->
     0 <= fval r <= one_val) /\
  (forall v, volume_1m f = Some v \/ volume_5m f = Some v -> nn v) /\
  (forall a, above_vwap f = Some a -> exists v, vwap f = Some v /\ a = flt v (sn_price latest)) /\
  (change_day f = None <-> fval (sn_prev_close latest) = 0).
Proof.
  intros Hb El H. pose proof (buffer_ok_finite b Hb) as Hf.
  assert (Hs : snapshot_finite latest) by (rewrite Forall_forall in Hf; by apply Hf, latest_in).
  assert (Hv : Forall (fun s => valid (sn_volume s) = true) (rb_items b)).
  { eapply Forall_impl; [exact Hf|]. intros s Fs. apply (sf_volume s Fs). }
  unfold compute in H. rewrite El in H.
  apply bind_ok in H as ([href lref] & Er & H). apply refs_fin in Er as (Hr & Hh & Hl); [|done]. cbn in Hh, Hl.
  apply bind_ok in H as (dr & Ed & H). apply bind_ok in H as (dc & Ec & H).
  apply bind_ok in H as (snaps & _ & H). apply bind_ok in H as (bars & _ & H).
  apply bind_ok in H as ([vw av] & Ev & H). repeat (apply bind_ok in H as (? & ? & H)).
  simplify_eq. cbn. do 6 (split; [done|]). split.
  { intros r -> Hlow. apply (day_range_unit href lref latest r Hs Hh Hl Hlow Ed). }
  split. { intros v [-> | ->]; eapply volume_delta_nn; eauto using sf_volume; apply Hs. }
  split.
  - intros a ->. unfold session_vwap in Ev. destruct (sn_turnover latest); [|by simplify_eq].
    destruct (fle _ _); [by simplify_eq|]. apply bind_ok in Ev as (v & _ & Ev). simplify_eq. eauto.
  - pose proof (sf_prev_close _ Hs) as Fp. unfold day_change_of in Ec. destruct (feq (sn_prev_close latest) f0) eqn:E.
    + simplify_eq. fcmp. naive_solver.
    + apply bind_ok in Ec as (c & _ & [= <-]). fcmp. naive_solver.
Qed.

Lemma num_bucket_start t bs start : fin bs -> bucket_start t bs = Ok start -> num start.
Proof.
  intros Fbs E. unfold bucket_start in E. apply bind_ok in E as (q & _ & E). apply bind_ok in E as (n & _ & E).
  apply bind_ok in E as (nf & Enf & E). simplify_eq.
  assert (fin nf) as Fnf; [|by apply fmul_spec].
  unfold int_f, of_Z in Enf. destruct (normalize_spec n 0 false ltac:(lia)) as [[V N] _].
  destruct (binary_normalize 53 1024 n 0 false) as [x|x| |x m e]; cbn in Enf; simplify_eq; by split.
Qed.

Lemma bars_sorted bs l bars : Forall2 (bar_of bs) l bars -> (forall b, b ∈ l -> num b.1) ->
  StronglySorted (fun a b : float * list MarketSnapshot => fle a.1 b.1 = true) l ->
  StronglySorted (fun a b => fval (bar_start a) <= fval (bar_start b)) bars.
Proof.
  induction 1 as [|b bar l bars Ho H2 IH]; intros Hnum S; [constructor|].
  inversion S as [|? ? S' Hle]; subst. constructor; [apply IH; [|done]; intros; apply Hnum; by right|].
  apply Forall_forall. intros bar' Hin.
  apply list_elem_of_lookup in Hin as (i & Hi). destruct (Forall2_lookup_r _ _ _ _ _ H2 Hi) as (b' & Hbi & Ho').
  rewrite (bo_start _ _ _ Ho), (bo_start _ _ _ Ho'). apply list_elem_of_lookup_2 in Hbi.
  rewrite Forall_forall in Hle. specialize (Hle _ Hbi).
  rewrite fle_val in Hle by (apply Hnum; first [by left|by right]). lia.
Qed.

(** [completed_minute_bars_spec] the bars of [completed_minute_bars]: in time order, each built from the snapshots
    of one finished minute of the latest snapshot's session; open, close, high and low are
    prices of those snapshots, low and high bound all of them, the close is the newest
    one's price, and an interval volume is never negative. *)
Theorem completed_minute_bars_spec snaps latest_ts bs bars : Forall snapshot_ok snaps -> fin bs ->
  completed_minute_bars snaps latest_ts bs = Ok bars ->
  StronglySorted (fun a b => fval (bar_start a) <= fval (bar_start b)) bars /\
  (forall bar, bar ∈ bars -> exists forming group, bucket_start latest_ts bs = Ok forming /\
     Forall (in_bucket snaps latest_ts bs forming (bar_start bar)) group /\
     bar_of bs (bar_start bar, group) bar /\
     (forall s, s ∈ group -> fval (bar_low bar) <= fval (sn_price s) <= fval (bar_high bar)) /\
     from_option nn True (bar_volume bar)).
Proof.
  intros Hs Fbs H. destruct (completed_bars_of _ _ _ _ H) as [->|(forming & buckets & Ef & [Hn Hb] & H2 & Hv)].
  { split; [constructor|]. intros bar Hin. by apply elem_of_nil in Hin. }
  set (le := fun x y : float * list MarketSnapshot => fle x.1 y.1) in *.
  rewrite Forall_forall in Hs. specialize (Hv ltac:(apply Forall_forall; intros s Hin; apply (sf_volume _ (so_finite _ (Hs _ Hin))))).
  assert (Hb' : Forall (fun b => b.2 <> [] /\ Forall (in_bucket snaps latest_ts bs forming b.1) b.2) (sort_by le buckets))
    by by rewrite sort_by_perm.
  assert (Hnum : forall b, b ∈ sort_by le buckets -> num b.1).
  { rewrite Forall_forall in Hb'. intros b Hin. destruct (Hb' _ Hin) as [Hne Hall].
    destruct b.2 as [|s g]; [done|]. apply Forall_cons in Hall as [(_ & _ & E & _) _].
    by eapply num_bucket_start. }
  split.
  - eapply bars_sorted; [exact H2|exact Hnum|].
    apply (sort_by_sorted le (fun b => num b.1)); unfold le; intros; fcmp; [lia|lia|].
    apply Forall_forall. intros b Hin. by apply Hnum, elem_of_sort_by.
  - intros bar Hin. rewrite Forall_forall in Hv. pose proof (Hv _ Hin).
    apply list_elem_of_lookup in Hin as (i & Hi). destruct (Forall2_lookup_r _ _ _ _ _ H2 Hi) as ([start group] & Hbi & Ho).
    apply list_elem_of_lookup_2 in Hbi. rewrite Forall_forall in Hb'. destruct (Hb' _ Hbi) as [_ Hg].
    pose proof (bo_start _ _ _ Ho) as E. cbn in E, Hg. subst start.
    exists forming, group. split_and!; [done..| |done].
    apply (bo_range _ _ _ Ho). cbn. apply Forall_forall. intros s Hin. rewrite Forall_forall in Hg.
    apply fin_num, (sf_price _ (so_finite _ (Hs _ (proj1 (Hg _ Hin))))).
Qed.

(** ** Witnesses *)
Definition demo_buffer : RingBuffer :=
  mkRB (flit 3600 0) 4096 [bar_snap 1700011800 100 1000; bar_snap 1700011860 102 1010].


Lemma demo_buffer_ok : buffer_ok demo_buffer.
Proof. repeat constructor; vm_compute; done. Qed.

Lemma compute_no_zero_division_witness : compute default_feature_policy demo_buffer <> Err ZeroDivisionError.
Proof. apply (compute_no_zero_division default_feature_policy demo_buffer); [apply demo_buffer_ok|done]. Defined.

Lemma compute_spec_witness :
  match compute default_feature_policy demo_buffer with
  | Ok (Some f) => change_day f = None <-> fval (flit 100 0) = 0
  | _ => True
  end.
Proof.
  destruct (compute default_feature_policy demo_buffer) as [[f|]|] eqn:E; try exact I.
  apply (compute_spec default_feature_policy demo_buffer f (bar_snap 1700011860 102 1010));
    [apply demo_buffer_ok|reflexivity|exact E].
Defined.

Lemma fin_60 : fin (flit 60 0).
Proof. by split. Qed.

Lemma completed_minute_bars_witness :
  match completed_minute_bars (rb_items demo_buffer) (flit 1700011920 0) (flit 60 0) with
  | Ok bars => StronglySorted (fun a b => fval (bar_start a) <= fval (bar_start b)) bars
  | Err _ => True
  end.
Proof.
  destruct (completed_minute_bars (rb_items demo_buffer) (flit 1700011920 0) (flit 60 0)) as [bars|] eqn:E; [|exact I].
  exact (proj1 (completed_minute_bars_spec (rb_items demo_buffer) (flit 1700011920 0) (flit 60 0) bars
                  demo_buffer_ok fin_60 E)).
Defined.
