(* ===== verification/Events.v ===== *)
(** * Event rules and detector (src/market_sentinel/events)

    Six rules look at a pair of feature records and raise at most one event each; the
    detector runs them in a fixed order with one clock reading.  [uuid4().hex] is a
    sequence of identifiers with a cursor, advanced once per event built. *)
From Stdlib Require Import ZArith Lia String.
From stdpp Require Import prelude strings.
From S2P Require Import Prelude PyFloat FloatSum Domain Features.
Local Open Scope Z_scope.

(** ** [thresholds.py] *)
Definition RAPID_1M_SEV2 : float := flit 6 3.
Definition RAPID_1M_SEV3 : float := flit 10 3.
Definition RAPID_5M_SEV3 : float := flit 12 3.
Definition RAPID_1M_SEV4 : float := flit 15 3.
Definition RAPID_5M_SEV4 : float := flit 20 3.
Definition RAPID_5M_SEV5 : float := flit 35 3.
Definition VOL_5M_SEV2 : float := flit 18 1.
Definition VOL_5M_SEV3 : float := flit 25 1.
Definition VOL_1M_SEV3 : float := flit 3 0.
Definition VOL_5M_SEV4 : float := flit 4 0.
Definition VOL_5M_SEV5 : float := flit 6 0.
Definition BREAKOUT_SEV4 : float := flit 3 3.
Definition BREAKOUT_SEV5 : float := flit 8 3.
Definition VWAP_CROSS_SEV3_5M : float := flit 8 3.
Definition TTL_SHORT_S : float := flit 60 0.
Definition TTL_LONG_S : float := flit 120 0.

(** [a >= b] on floats *)
Definition fge (a b : float) : bool := fle b a.

(** [severity or None] *)
Definition or_none (severity : Z) : option Z := if severity =? 0 then None else Some severity.

(** ** [rules/common.py] *)
Definition rapid_move_severity (change_1m change_5m : option float) : option Z :=
  let severity := 0 in
  let severity :=
    match change_1m with
    | None => severity
    | Some c =>
        let magnitude := fabs c in
        if fge magnitude RAPID_1M_SEV4 then Z.max severity 4
        else if fge magnitude RAPID_1M_SEV3 then Z.max severity 3
        else if fge magnitude RAPID_1M_SEV2 then Z.max severity 2
        else severity
    end in
  let severity :=
    match change_5m with
    | None => severity
    | Some c =>
        let magnitude := fabs c in
        if fge magnitude RAPID_5M_SEV5 then Z.max severity 5
        else if fge magnitude RAPID_5M_SEV4 then Z.max severity 4
        else if fge magnitude RAPID_5M_SEV3 then Z.max severity 3
        else severity
    end in
  or_none severity.

Definition volume_spike_severity (ratio_1m ratio_5m : option float) : option Z :=
  let severity := 0 in
  let severity :=
    match ratio_5m with
    | None => severity
    | Some r =>
        if fge r VOL_5M_SEV5 then Z.max severity 5
        else if fge r VOL_5M_SEV4 then Z.max severity 4
        else if fge r VOL_5M_SEV3 then Z.max severity 3
        else if fge r VOL_5M_SEV2 then Z.max severity 2
        else severity
    end in
  let severity :=
    match ratio_1m with
    | Some r => if fge r VOL_1M_SEV3 then Z.max severity 3 else severity
    | None => severity
    end in
  or_none severity.

Definition one_minute_severity (magnitude : float) : Z :=
  if fge magnitude RAPID_1M_SEV4 then 4
  else if fge magnitude RAPID_1M_SEV3 then 3
  else if fge magnitude RAPID_1M_SEV2 then 2
  else 0.

Definition five_minute_severity (magnitude : float) : Z :=
  if fge magnitude RAPID_5M_SEV5 then 5
  else if fge magnitude RAPID_5M_SEV4 then 4
  else if fge magnitude RAPID_5M_SEV3 then 3
  else 0.

Definition move_direction (change_1m change_5m : option float) (severity : Z) : EventDirection :=
  let chosen := None in
  let chosen := match change_5m with
                | Some c => if five_minute_severity (fabs c) =? severity then Some c else chosen
                | None => chosen
                end in
  let chosen := match change_1m with
                | Some c => if one_minute_severity (fabs c) =? severity then Some c else chosen
                | None => chosen
                end in
  let chosen := match chosen with
                | Some c => Some c
                | None => match change_1m with Some c => Some c | None => change_5m end
                end in
  match chosen with
  | None => NONE
  | Some c => if feq c f0 then NONE else if flt f0 c then UP else DOWN
  end.

Definition breakout_severity (excess : float) : Z :=
  if fge excess BREAKOUT_SEV5 then 5 else if fge excess BREAKOUT_SEV4 then 4 else 3.

Definition dedupe_key_of (symbol : string) (t : EventType) (d : EventDirection) : string :=
  symbol +:+ "|" +:+ type_value t +:+ "|" +:+ direction_value d.

Definition build_event (id : string) (current : MarketFeatures) (event_type : EventType)
    (direction : EventDirection) (severity : Z) (detected_at : float) (metrics : list (string * metric))
    (ttl_s : float) (rule_name : string) : MarketEvent :=
  mkEvent id (ft_symbol current) event_type direction severity (ft_market_ts current)
    (ft_received_ts current) detected_at metrics
    (dedupe_key_of (ft_symbol current) event_type direction) ttl_s rule_name.

Definition opt_metric (x : option float) : metric := match x with Some x => MFloat x | None => MNone end.

(** ** The rules: [evaluate] of each class, with the identifier it would draw *)
Definition Rule := option MarketFeatures -> MarketFeatures -> float -> string -> result (list MarketEvent).

Definition RapidMoveRule : Rule := fun _ current detected_at id =>
  match rapid_move_severity (change_1m current) (change_5m current) with
  | None => Ok []
  | Some severity =>
      let direction := move_direction (change_1m current) (change_5m current) severity in
      Ok [build_event id current RAPID_MOVE direction severity detected_at
            [("change_1m", opt_metric (change_1m current)); ("change_5m", opt_metric (change_5m current))]
            TTL_SHORT_S (type_value RAPID_MOVE)]
  end.

Definition VolumeSpikeRule : Rule := fun _ current detected_at id =>
  match volume_spike_severity (volume_ratio_1m current) (volume_ratio_5m current) with
  | None => Ok []
  | Some severity =>
      Ok [build_event id current VOLUME_SPIKE NONE severity detected_at
            [("volume_ratio_1m", opt_metric (volume_ratio_1m current));
             ("volume_ratio_5m", opt_metric (volume_ratio_5m current))]
            TTL_LONG_S (type_value VOLUME_SPIKE)]
  end.

Definition PriceVolumeExpansionRule : Rule := fun _ current detected_at id =>
  match rapid_move_severity (change_1m current) (change_5m current),
        volume_spike_severity (volume_ratio_1m current) (volume_ratio_5m current) with
  | Some move, Some volume =>
      if (move <? 2) || (volume <? 2) then Ok []
      else
        let severity := Z.min 5 (Z.max move volume + 1) in
        let direction := move_direction (change_1m current) (change_5m current) move in
        fmove ← int_f move; fvolume ← int_f volume;
        Ok [build_event id current PRICE_VOLUME_EXPANSION direction severity detected_at
              [("change_1m", opt_metric (change_1m current)); ("change_5m", opt_metric (change_5m current));
               ("volume_ratio_1m", opt_metric (volume_ratio_1m current));
               ("volume_ratio_5m", opt_metric (volume_ratio_5m current));
               ("move_severity", MFloat fmove); ("volume_severity", MFloat fvolume)]
              TTL_LONG_S (type_value PRICE_VOLUME_EXPANSION)]
  | _, _ => Ok []
  end.

Definition DayHighBreakoutRule : Rule := fun _ current detected_at id =>
  match session_high_ref current with
  | None => Ok []
  | Some ref =>
      if fle ref f0 then Ok []
      else
        let obs := session_high_obs current in
        if fle obs ref then Ok []
        else
          excess ← div (fsub obs ref) ref;
          Ok [build_event id current DAY_HIGH_BREAKOUT UP (breakout_severity excess) detected_at
                [("session_high_ref", MFloat ref); ("session_high_obs", MFloat obs); ("excess", MFloat excess)]
                TTL_SHORT_S (type_value DAY_HIGH_BREAKOUT)]
  end.

Definition DayLowBreakdownRule : Rule := fun _ current detected_at id =>
  match session_low_ref current with
  | None => Ok []
  | Some ref =>
      if fle ref f0 then Ok []
      else
        let obs := session_low_obs current in
        if fge obs ref then Ok []
        else
          excess ← div (fsub ref obs) ref;
          Ok [build_event id current DAY_LOW_BREAKDOWN DOWN (breakout_severity excess) detected_at
                [("session_low_ref", MFloat ref); ("session_low_obs", MFloat obs); ("excess", MFloat excess)]
                TTL_SHORT_S (type_value DAY_LOW_BREAKDOWN)]
  end.

Definition VwapCrossRule : Rule := fun previous current detected_at id =>
  match previous with
  | None => Ok []
  | Some previous =>
      match above_vwap previous, above_vwap current, vwap current with
      | Some was, Some is_, Some v =>
          if eqb was is_ then Ok []
          else
            let direction := if is_ then UP else DOWN in
            let severity := match change_5m current with
                            | Some c => if fge (fabs c) VWAP_CROSS_SEV3_5M then 3 else 2
                            | None => 2
                            end in
            Ok [build_event id current VWAP_CROSS direction severity detected_at
                  [("vwap", MFloat v); ("above_vwap", MBool is_); ("change_5m", opt_metric (change_5m current))]
                  TTL_SHORT_S (type_value VWAP_CROSS)]
      | _, _, _ => Ok []
      end
  end.

Definition default_rules : list Rule :=
  [RapidMoveRule; VolumeSpikeRule; PriceVolumeExpansionRule; DayHighBreakoutRule; DayLowBreakdownRule;
   VwapCrossRule].

(** ** [EventDetector.evaluate] *)
Fixpoint run_rules (rules : list Rule) (previous : option MarketFeatures) (current : MarketFeatures)
    (detected_at : float) (uuids : nat -> string) (n : nat) : result (list MarketEvent * nat) :=
  match rules with
  | [] => Ok ([], n)
  | rule :: rules =>
      es ← rule previous current detected_at (uuids n);
      '(rest, n) ← run_rules rules previous current detected_at uuids (n + length es);
      Ok (es ++ rest, n)
  end.

Definition detect (previous : option MarketFeatures) (current : MarketFeatures) (detected_at : float)
    (uuids : nat -> string) (n : nat) : result (list MarketEvent * nat) :=
  run_rules default_rules previous current detected_at uuids n.

(** ** Lemmas *)
Lemma one_minute_sev_range m : one_minute_severity m = 0 \/ 2 <= one_minute_severity m <= 4.
Proof. unfold one_minute_severity. repeat case_match; lia. Qed.
Lemma five_minute_sev_range m : five_minute_severity m = 0 \/ 3 <= five_minute_severity m <= 5.
Proof. unfold five_minute_severity. repeat case_match; lia. Qed.

Definition sev1 (c : option float) : Z := match c with Some c => one_minute_severity (fabs c) | None => 0 end.
Definition sev5 (c : option float) : Z := match c with Some c => five_minute_severity (fabs c) | None => 0 end.

Lemma rapid_move_max c1 c5 : rapid_move_severity c1 c5 = or_none (Z.max (sev1 c1) (sev5 c5)).
Proof.
  unfold rapid_move_severity, sev1, sev5, one_minute_severity, five_minute_severity. f_equal.
  destruct c1, c5; repeat case_match; lia.
Qed.

Lemma sev1_range c : sev1 c = 0 \/ 2 <= sev1 c <= 4.
Proof. destruct c; [apply one_minute_sev_range|by left]. Qed.
Lemma sev5_range c : sev5 c = 0 \/ 3 <= sev5 c <= 5.
Proof. destruct c; [apply five_minute_sev_range|by left]. Qed.

Lemma or_none_some z s : or_none z = Some s -> z = s /\ s <> 0.
Proof. unfold or_none. destruct (Z.eqb_spec z 0); intros; simplify_eq; done. Qed.

Lemma volume_spike_range r1 r5 s : volume_spike_severity r1 r5 = Some s -> 2 <= s <= 5.
Proof.
  unfold volume_spike_severity. intros [H Hs]%or_none_some. revert H.
  destruct r1, r5; repeat case_match; lia.
Qed.

Lemma rapid_move_range c1 c5 s : rapid_move_severity c1 c5 = Some s -> 2 <= s <= 5.
Proof.
  rewrite rapid_move_max. intros [H Hs]%or_none_some. pose proof (sev1_range c1). pose proof (sev5_range c5). lia.
Qed.

Lemma breakout_range x : 3 <= breakout_severity x <= 5.
Proof. unfold breakout_severity. repeat case_match; lia. Qed.

(** A magnitude that reaches a positive threshold is not zero. *)
Lemma sev_nonzero c : one_minute_severity (fabs c) <> 0 \/ five_minute_severity (fabs c) <> 0 -> feq c f0 = false.
Proof.
  intros H. destruct c as [s|s| |s m e]; [|by destruct s|done|by destruct s].
  exfalso. destruct H as [H|H]; apply H; reflexivity.
Qed.

(** A change's contribution decides the direction. *)
Definition direction_sign (c : float) : EventDirection := if flt f0 c then UP else DOWN.

Lemma rapid_move_spec_dir c1 c5 s : rapid_move_severity c1 c5 = Some s -> exists c,
  (c1 = Some c /\ one_minute_severity (fabs c) = s \/
   c5 = Some c /\ five_minute_severity (fabs c) = s /\ sev1 c1 <> s) /\
  feq c f0 = false /\ move_direction c1 c5 s = direction_sign c.
Proof.
  rewrite rapid_move_max. intros [E Hs]%or_none_some.
  pose proof (sev1_range c1) as R1. pose proof (sev5_range c5) as R5.
  unfold move_direction, direction_sign. cbn zeta.
  destruct (Z.eq_dec (sev1 c1) s) as [E1|N1].
  - destruct c1 as [c|]; [|cbn in E1; lia]. cbn [sev1] in *.
    exists c. split; [left; auto|]. assert (Hz : feq c f0 = false) by (apply sev_nonzero; left; lia).
    split; [done|]. rewrite E1, Z.eqb_refl, Hz. done.
  - destruct c5 as [c|]; [|cbn in *; lia]. cbn [sev5] in *.
    assert (E5 : five_minute_severity (fabs c) = s) by lia.
    exists c. split; [right; auto|]. assert (Hz : feq c f0 = false) by (apply sev_nonzero; right; lia).
    split; [done|]. rewrite E5, Z.eqb_refl. destruct c1 as [c'|]; cbn [sev1] in *.
    + destruct (Z.eqb_spec (one_minute_severity (fabs c')) s); [done|]. by rewrite Hz.
    + by rewrite Hz.
Qed.

Lemma dedupe_key_inj s t d t' d' : dedupe_key_of s t d = dedupe_key_of s t' d' -> t = t' /\ d = d'.
Proof. unfold dedupe_key_of. intros H%(inj _)%(inj _). by destruct t, t', d, d'. Qed.

(** What every event built by a rule says about the features it came from. *)
Record event_of (previous : option MarketFeatures) (current : MarketFeatures) (detected_at : float)
    (e : MarketEvent) : Prop := {
  eo_symbol : ev_symbol e = ft_symbol current;
  eo_market : ev_market_ts e = ft_market_ts current;
  eo_received : ev_received_ts e = ft_received_ts current;
  eo_detected : ev_detected_ts e = detected_at;
  eo_key : ev_dedupe_key e = dedupe_key_of (ft_symbol current) (ev_type e) (ev_direction e);
  eo_rule : ev_rule_name e = type_value (ev_type e);
  eo_severity : 2 <= ev_severity e <= 5;
  eo_ttl : ev_ttl_s e = TTL_SHORT_S \/ ev_ttl_s e = TTL_LONG_S
}.

Definition rule_types : list EventType :=
  [RAPID_MOVE; VOLUME_SPIKE; PRICE_VOLUME_EXPANSION; DAY_HIGH_BREAKOUT; DAY_LOW_BREAKDOWN; VWAP_CROSS].

(** A rule of type [t]: it succeeds with no event, or one event of that type with the offered id. *)
Definition rule_ok (t : EventType) (r : Rule) : Prop := forall previous current detected_at id,
  r previous current detected_at id = Ok [] \/
  exists e, r previous current detected_at id = Ok [e] /\ ev_type e = t /\ ev_id e = id /\
    event_of previous current detected_at e.

Lemma int_f_small n : 0 <= n <= 5 -> exists x, int_f n = Ok x.
Proof.
  intros H. assert (n = 0 \/ n = 1 \/ n = 2 \/ n = 3 \/ n = 4 \/ n = 5) as Hc by lia.
  repeat (destruct Hc as [->|Hc]; [by eexists|]). subst. by eexists.
Qed.

Lemma div_pos_ok x y : fle y f0 = false -> exists q, div x y = Ok q.
Proof. intros H. unfold div, fdiv. rewrite (feq_fle_false _ H). by eexists. Qed.

Lemma default_rules_ok : Forall2 rule_ok rule_types default_rules.
Proof.
  unfold rule_types, default_rules. repeat (apply Forall2_cons; split); [intros previous current t id..|constructor].
  - unfold RapidMoveRule. destruct (rapid_move_severity _ _) eqn:E; [right|by left].
    apply rapid_move_range in E. eexists. split; [done|]. split; [done|]. split; [done|]. by split; cbn; auto.
  - unfold VolumeSpikeRule. destruct (volume_spike_severity _ _) eqn:E; [right|by left].
    apply volume_spike_range in E. eexists. split; [done|]. split; [done|]. split; [done|]. by split; cbn; auto.
  - unfold PriceVolumeExpansionRule. destruct (rapid_move_severity _ _) as [mv|] eqn:E; [|by left].
    destruct (volume_spike_severity _ _) as [v|] eqn:E2; [|by left].
    apply rapid_move_range in E. apply volume_spike_range in E2.
    destruct (_ || _); [by left|right].
    destruct (int_f_small mv) as [x ->]; [lia|]. destruct (int_f_small v) as [y ->]; [lia|]. cbn [mbind result_bind].
    eexists. split; [done|]. split; [done|]. split; [done|]. split; cbn; auto; lia.
  - unfold DayHighBreakoutRule. destruct (session_high_ref current) as [ref|]; [|by left].
    destruct (fle ref f0) eqn:E; [by left|]. cbn zeta. destruct (fle _ ref); [by left|right].
    destruct (div_pos_ok (fsub (session_high_obs current) ref) ref E) as [q ->]. cbn [mbind result_bind].
    eexists. split; [done|]. split; [done|]. split; [done|]. pose proof (breakout_range q).
    split; cbn; auto; lia.
  - unfold DayLowBreakdownRule. destruct (session_low_ref current) as [ref|]; [|by left].
    destruct (fle ref f0) eqn:E; [by left|]. cbn zeta. destruct (fge _ ref); [by left|right].
    destruct (div_pos_ok (fsub ref (session_low_obs current)) ref E) as [q ->]. cbn [mbind result_bind].
    eexists. split; [done|]. split; [done|]. split; [done|]. pose proof (breakout_range q).
    split; cbn; auto; lia.
  - unfold VwapCrossRule. destruct previous as [p|]; [|by left].
    destruct (above_vwap p), (above_vwap current), (vwap current); try by left.
    destruct (eqb _ _); [by left|right]. eexists. split; [done|]. split; [done|]. split; [done|].
    split; cbn; auto. repeat case_match; lia.
Qed.

Lemma run_rules_ok types rules previous current t uuids : Forall2 rule_ok types rules -> forall n,
  exists es, run_rules rules previous current t uuids n = Ok (es, n + length es)%nat /\
    (ev_type <$> es) `sublist_of` types /\
    Forall (event_of previous current t) es /\
    ev_id <$> es = uuids <$> seq n (length es).
Proof.
  induction 1 as [|ty r types rules Hr _ IH]; intros n; cbn [run_rules].
  { exists []. cbn. rewrite Nat.add_0_r. repeat split; constructor. }
  destruct (Hr previous current t (uuids n)) as [->|(e & -> & Ht & Hid & He)]; cbn [mbind result_bind length].
  - rewrite Nat.add_0_r. destruct (IH n) as (es & -> & Hs & Hf & Hi). exists es. cbn.
    split; [done|]. split; [by apply sublist_cons|]. done.
  - rewrite Nat.add_1_r. destruct (IH (S n)) as (es & -> & Hs & Hf & Hi). exists (e :: es). cbn.
    split; [by rewrite Nat.add_succ_r|]. split; [rewrite Ht; by apply sublist_skip|].
    split; [by constructor|]. by rewrite Hid, Hi.
Qed.

(** ** Properties *)

(** [detect_spec] the detector never raises, whatever the features (NaN and infinities included),
    and raises at most one event per rule, in rule order: the event types are distinct,
    so are the dedupe keys of one batch; every event carries the current features'
    symbol and timestamps, the key [symbol|type|direction], a severity between 2 and 5
    and the next identifiers of the generator, one each. *)
Theorem detect_spec previous current detected_at uuids n :
  exists es, detect previous current detected_at uuids n = Ok (es, n + length es)%nat /\
    (ev_type <$> es) `sublist_of` rule_types /\ NoDup (ev_dedupe_key <$> es) /\
    Forall (event_of previous current detected_at) es /\
    ev_id <$> es = uuids <$> seq n (length es).
Proof.
  destruct (run_rules_ok rule_types default_rules previous current detected_at uuids default_rules_ok n)
    as (es & E & Hs & Hf & Hi).
  exists es. split; [done|]. split; [done|]. split; [|done].
  assert (Hnd : NoDup (ev_type <$> es)) by (eapply sublist_NoDup; [|exact Hs]; by apply (bool_decide_unpack _)).
  clear E Hi Hs. induction Hf as [|e es He Hf IH]; [constructor|].
  apply NoDup_cons in Hnd as [Hn Hnd]. cbn. apply NoDup_cons. split; [|auto].
  intros (e' & Hk & Hin)%list_elem_of_fmap. apply Hn. apply list_elem_of_fmap. exists e'. split; [|done].
  rewrite Forall_forall in Hf. pose proof (eo_key _ _ _ _ (Hf _ Hin)) as K'. pose proof (eo_key _ _ _ _ He) as K.
  rewrite K, K' in Hk. by apply dedupe_key_inj in Hk as [? _].
Qed.

(** [rapid_move_spec] a rapid move is scored by the larger of its two windows' scores, and its direction
    is the sign of a change that reaches that score: never [NONE], never the sign of the
    weaker window, and the one-minute change wins a tie. *)
Theorem rapid_move_spec c1 c5 :
  rapid_move_severity c1 c5 = or_none (Z.max (sev1 c1) (sev5 c5)) /\
  (forall s, rapid_move_severity c1 c5 = Some s -> exists c,
     (c1 = Some c /\ one_minute_severity (fabs c) = s \/
      c5 = Some c /\ five_minute_severity (fabs c) = s /\ sev1 c1 <> s) /\
     feq c f0 = false /\ move_direction c1 c5 s = direction_sign c).
Proof. split; [apply rapid_move_max|]. apply rapid_move_spec_dir. Qed.

(** [price_volume_spec] price-volume expansion is the conjunction of its two ingredients: it fires exactly
    when both the move rule and the volume rule fire on the same features, one step more
    severe than the stronger of them (at most 5), in the direction of the move. *)
Theorem price_volume_spec previous current detected_at id :
  match RapidMoveRule previous current detected_at id, VolumeSpikeRule previous current detected_at id,
        PriceVolumeExpansionRule previous current detected_at id with
  | Ok [m], Ok [v], Ok [e] =>
      ev_severity e = Z.min 5 (Z.max (ev_severity m) (ev_severity v) + 1) /\
      ev_direction e = ev_direction m /\ ev_direction e <> NONE
  | Ok ms, Ok vs, Ok es => (ms = [] \/ vs = []) /\ es = []
  | _, _, _ => False
  end.
Proof.
  unfold RapidMoveRule, VolumeSpikeRule, PriceVolumeExpansionRule.
  destruct (rapid_move_severity _ _) as [mv|] eqn:E; [|destruct (volume_spike_severity _ _); cbn; auto].
  destruct (volume_spike_severity _ _) as [v|] eqn:E2; [|cbn; auto].
  pose proof (rapid_move_range _ _ _ E). apply volume_spike_range in E2.
  destruct (Z.ltb_spec mv 2); [lia|]. destruct (Z.ltb_spec v 2); [lia|]. cbn [orb].
  destruct (int_f_small mv) as [x ->]; [lia|]. destruct (int_f_small v) as [y ->]; [lia|]. cbn.
  split; [done|]. split; [done|].
  destruct (rapid_move_spec_dir _ _ _ E) as (c & _ & Hz & ->). unfold direction_sign. by destruct (flt f0 c).
Qed.
