(* ===== verification/Gate.v ===== *)
(** * Keyed gates: the interface behind deduplication and cooldown

    Both [EventDeduper] and [CooldownGate] remember one record per key and let an item pass
    when the record of its key allows it, replacing the record by the item's own.  This
    file states that behaviour once, against the history of passed items instead of the
    map, so that each component only has to show that its step is a gate step. *)
From stdpp Require Import prelude strings gmap list.
From S2P Require Import Prelude.

(** What a component supplies: its items' keys, the record kept, and the decision. *)
Class Gate (X R : Type) := {
  gate_key : X -> string;
  gate_rec : X -> R;
  gate_passes : R -> X -> bool
}.

Section gate.
Context {X R : Type} `{G : Gate X R}.

Definition gate_step (m : gmap string R) (x : X) : bool * gmap string R :=
  match m !! gate_key x with
  | None => (true, <[gate_key x := gate_rec x]> m)
  | Some r => if gate_passes r x then (true, <[gate_key x := gate_rec x]> m) else (false, m)
  end.

(** The items that pass, in order, and the final records. *)
Fixpoint gate_run (m : gmap string R) (xs : list X) : list X * gmap string R :=
  match xs with
  | [] => ([], m)
  | x :: xs =>
      let '(b, m) := gate_step m x in
      let '(ys, m) := gate_run m xs in
      (if b : bool then x :: ys else ys, m)
  end.

Definition same_key (k : string) (l : list X) : list X := filter (fun x => gate_key x = k) l.

(** The decision as a function of the passed history. *)
Definition history_passes (passed : list X) (x : X) : bool :=
  match last (same_key (gate_key x) passed) with
  | None => true
  | Some y => gate_passes (gate_rec y) x
  end.

(** The records are the last passed item of each key. *)
Definition tracks (m : gmap string R) (passed : list X) : Prop :=
  forall k, m !! k = gate_rec <$> last (same_key k passed).

Lemma tracks_empty : tracks ∅ [].
Proof. intros k. by rewrite lookup_empty. Qed.

Lemma same_key_snoc k l x :
  same_key k (l ++ [x]) = if decide (gate_key x = k) then same_key k l ++ [x] else same_key k l.
Proof.
  unfold same_key. rewrite filter_app, filter_cons, filter_nil.
  destruct (decide (gate_key x = k)); by rewrite ?app_nil_r.
Qed.

Lemma gate_step_spec m passed x : tracks m passed ->
  (gate_step m x).1 = history_passes passed x /\
  tracks (gate_step m x).2 (if history_passes passed x then passed ++ [x] else passed).
Proof.
  intros T. unfold gate_step, history_passes. rewrite (T (gate_key x)).
  assert (P : tracks (<[gate_key x := gate_rec x]> m) (passed ++ [x])).
  { intros k. rewrite same_key_snoc. destruct (decide (gate_key x = k)) as [<-|Hk].
    - by rewrite lookup_insert_eq, last_snoc.
    - by rewrite lookup_insert_ne by done. }
  destruct (last (same_key (gate_key x) passed)) as [y|]; cbn; [|done].
  by destruct (gate_passes (gate_rec y) x).
Qed.

Lemma gate_run_app m xs ys :
  gate_run m (xs ++ ys) =
  let '(p, m1) := gate_run m xs in let '(q, m2) := gate_run m1 ys in (p ++ q, m2).
Proof.
  revert m. induction xs as [|x xs IH]; intros m; cbn; [by destruct (gate_run m ys)|].
  destruct (gate_step m x) as [b m1]. rewrite IH. destruct (gate_run m1 xs) as [p m2].
  destruct (gate_run m2 ys) as [q m3]. by destruct b.
Qed.

Lemma gate_run_tracks m passed xs : tracks m passed ->
  tracks (gate_run m xs).2 (passed ++ (gate_run m xs).1).
Proof.
  revert m passed. induction xs as [|x xs IH]; intros m passed T; cbn; [by rewrite app_nil_r|].
  destruct (gate_step_spec m passed x T) as [E T']. destruct (gate_step m x) as [b m1]. cbn in E, T'.
  specialize (IH m1 _ T'). destruct (gate_run m1 xs) as [p m2]. cbn in IH |- *. rewrite E.
  destruct (history_passes passed x); [|done]. by rewrite <- app_assoc in IH.
Qed.

(** One more item: it is appended exactly when the history lets it pass. *)
Lemma gate_run_snoc xs x :
  (gate_run ∅ (xs ++ [x])).1 =
  (gate_run ∅ xs).1 ++ (if history_passes (gate_run ∅ xs).1 x then [x] else []).
Proof.
  rewrite gate_run_app. pose proof (gate_run_tracks ∅ [] xs tracks_empty) as T. cbn in T.
  destruct (gate_run ∅ xs) as [p m]. cbn in T |- *.
  destruct (gate_step_spec m p x T) as [E _]. destruct (gate_step m x) as [b m']. cbn in E |- *.
  rewrite <- E. by destruct b.
Qed.

(** Consecutive passed items of one key: the later passed against the earlier's record. *)
Definition linked (Rel : X -> X -> Prop) (l : list X) : Prop :=
  forall i a b, l !! i = Some a -> l !! S i = Some b -> Rel a b.

Lemma linked_snoc Rel l x : linked Rel l -> (forall y, last l = Some y -> Rel y x) -> linked Rel (l ++ [x]).
Proof.
  intros Hl Hx i a b Ha Hb. apply lookup_app_Some in Hb as [Hb|[Hge Hb]].
  - apply (Hl i); [|done]. rewrite lookup_app_l in Ha; [done|]. apply lookup_lt_Some in Hb. lia.
  - apply list_lookup_singleton_Some in Hb as [Hi <-].
    rewrite lookup_app_l in Ha by lia. apply Hx. rewrite last_lookup. replace (pred (length l)) with i by lia. done.
Qed.

Lemma linked_infix Rel pre run post : linked Rel (pre ++ run ++ post) -> linked Rel run.
Proof.
  intros L i a b Ha Hb. apply (L (length pre + i)%nat).
  - rewrite lookup_app_r by lia. replace (length pre + i - length pre)%nat with i by lia.
    rewrite lookup_app_l; [done|]. by apply lookup_lt_Some in Ha.
  - rewrite lookup_app_r by lia. replace (S (length pre + i) - length pre)%nat with (S i) by lia.
    rewrite lookup_app_l; [done|]. by apply lookup_lt_Some in Hb.
Qed.

Lemma gate_run_linked xs k :
  linked (fun a b => gate_passes (gate_rec a) b = true) (same_key k (gate_run ∅ xs).1).
Proof.
  induction xs as [|x xs IH] using rev_ind; [by intros i a b H|].
  rewrite gate_run_snoc. destruct (history_passes _ x) eqn:E; [|by rewrite app_nil_r].
  rewrite same_key_snoc. destruct (decide (gate_key x = k)) as [<-|]; [|done].
  apply linked_snoc; [done|]. intros y Hy. unfold history_passes in E. by rewrite Hy in E.
Qed.

Lemma gate_run_sublist m xs : (gate_run m xs).1 `sublist_of` xs.
Proof.
  revert m. induction xs as [|x xs IH]; intros m; cbn; [done|].
  destruct (gate_step m x) as [b m']. specialize (IH m'). destruct (gate_run m' xs) as [p m2]. cbn in IH |- *.
  destruct b; [by apply sublist_skip|by apply sublist_cons].
Qed.

(** A strictly increasing bounded measure bounds the length of a chain. *)
Lemma linked_measure (f : X -> Z) (Rel : X -> X -> Prop) l lo hi :
  (forall a b, Rel a b -> (f a < f b)%Z) -> linked Rel l -> (forall x, x ∈ l -> (lo <= f x <= hi)%Z) ->
  (Z.of_nat (length l) <= Z.max 0 (hi - lo + 1))%Z.
Proof.
  intros HR. revert lo. induction l as [|x l IH]; intros lo Hl Hb; cbn [length]; [lia|].
  pose proof (Hb x ltac:(left)).
  specialize (IH (f x + 1)%Z). destruct l as [|y l]; [cbn; lia|].
  assert (Hlt : forall z, z ∈ y :: l -> (f x + 1 <= f z)%Z).
  { assert (Hg : forall i z, (y :: l) !! i = Some z -> (f x + 1 <= f z)%Z).
    { induction i as [|i IHi]; intros z Hz.
      - cbn in Hz. simplify_eq. pose proof (HR x z (Hl 0%nat x z eq_refl eq_refl)). lia.
      - destruct (lookup_lt_is_Some_2 (y :: l) i) as [w Hw]; [apply lookup_lt_Some in Hz; lia|].
        pose proof (IHi w Hw). pose proof (HR w z (Hl (S i) w z Hw Hz)). lia. }
    intros z (i & Hz)%list_elem_of_lookup. eauto. }
  assert ((Z.of_nat (length (y :: l)) <= Z.max 0 (hi - (f x + 1) + 1))%Z).
  { apply IH.
    - intros i a b Ha Hb'. apply (Hl (S i)); done.
    - intros z Hz. split; [by apply Hlt|]. apply Hb. by right. }
  lia.
Qed.
End gate.
