(* ===== verification/Dedupe.v ===== *)
(** * Event deduplication (src/market_sentinel/signals/dedupe.py) *)
From Stdlib Require Import ZArith Lia.
From stdpp Require Import prelude strings gmap.
From S2P Require Import Prelude PyFloat Domain Features Events Gate.
Local Open Scope Z_scope.

(** ** [_Record] and [EventDeduper] *)
Record DedupeRecord := mkRecord {
  rec_market_ts : float;
  rec_severity : Z;
  rec_ttl_s : float
}.

Abbreviation Deduper := (gmap string DedupeRecord).

Definition record_of (e : MarketEvent) : DedupeRecord := mkRecord (ev_market_ts e) (ev_severity e) (ev_ttl_s e).
Definition store (d : Deduper) (e : MarketEvent) : Deduper := <[ev_dedupe_key e := record_of e]> d.

(** [EventDeduper.accept] *)
Definition accept (d : Deduper) (e : MarketEvent) : option MarketEvent * Deduper :=
  match d !! ev_dedupe_key e with
  | None => (Some e, store d e)
  | Some previous =>
      let elapsed := fsub (ev_market_ts e) (rec_market_ts previous) in
      if flt elapsed f0 then (None, d)
      else if flt elapsed (rec_ttl_s previous) then
        if rec_severity previous <? ev_severity e then (Some e, store d e) else (None, d)
      else (Some e, store d e)
  end.

(** Accepting a sequence of events, as the pipeline does. *)
Fixpoint accept_all (d : Deduper) (es : list MarketEvent) : list MarketEvent * Deduper :=
  match es with
  | [] => ([], d)
  | e :: es =>
      let '(kept, d) := accept d e in
      let '(rest, d) := accept_all d es in
      (match kept with Some e => e :: rest | None => rest end, d)
  end.

(** ** The deduper is a gate *)
Definition dedupe_passes (r : DedupeRecord) (e : MarketEvent) : bool :=
  let elapsed := fsub (ev_market_ts e) (rec_market_ts r) in
  negb (flt elapsed f0) && (negb (flt elapsed (rec_ttl_s r)) || (rec_severity r <? ev_severity e)).

#[export] Instance dedupe_gate : Gate MarketEvent DedupeRecord := {
  gate_key := ev_dedupe_key;
  gate_rec := record_of;
  gate_passes := dedupe_passes
}.

Lemma accept_gate d e :
  accept d e = (if (gate_step d e).1 then Some e else None, (gate_step d e).2).
Proof.
  unfold accept, gate_step, store. cbn [gate_key gate_rec gate_passes dedupe_gate].
  destruct (d !! ev_dedupe_key e) as [r|]; [|done]. unfold dedupe_passes. cbn zeta. destruct (flt _ f0); [done|]. destruct (flt _ (rec_ttl_s r)); [|done].
  by destruct (rec_severity r <? ev_severity e).
Qed.

Lemma accept_all_gate es : forall d, accept_all d es = gate_run d es.
Proof.
  induction es as [|e es IH]; intros d; cbn [accept_all gate_run]; [done|]. rewrite accept_gate.
  destruct (gate_step d e) as [b d']. cbn [fst snd]. rewrite IH. destruct (gate_run d' es) as [p d2]. by destruct b.
Qed.

(** ** Properties *)

(** [accept_all_history] deduplication depends only on the history of accepted events: after any sequence,
    the next event is accepted exactly when its key was never accepted, or the last
    accepted event of its key is not later in market time and either its TTL has elapsed
    or it was strictly less severe. *)
Theorem accept_all_history es e :
  (accept_all ∅ (es ++ [e])).1 = (accept_all ∅ es).1 ++
    match last (same_key (ev_dedupe_key e) (accept_all ∅ es).1) with
    | None => [e]
    | Some p =>
        let elapsed := fsub (ev_market_ts e) (ev_market_ts p) in
        if negb (flt elapsed f0) && (negb (flt elapsed (ev_ttl_s p)) || (ev_severity p <? ev_severity e))
        then [e] else []
    end.
Proof.
  rewrite !accept_all_gate, gate_run_snoc. f_equal. unfold history_passes. cbn [gate_key dedupe_gate].
  destruct (last _); [|done]. done.
Qed.

(** [accept_burst_bound] no alert storm from one key: accepted events of one key that follow each other
    inside the previous one's TTL are strictly more severe each time, so a run of them has
    at most four events (severities run from 2 to 5), whatever the input. *)
Theorem accept_burst_bound es k run :
  (forall e, e ∈ es -> 2 <= ev_severity e <= 5) ->
  (exists pre post, same_key k (accept_all ∅ es).1 = pre ++ run ++ post) ->
  (forall i a b, run !! i = Some a -> run !! S i = Some b ->
     flt (fsub (ev_market_ts b) (ev_market_ts a)) (ev_ttl_s a) = true) ->
  (length run <= 4)%nat.
Proof.
  intros Hsev (pre & post & Hrun) Hburst. rewrite accept_all_gate in Hrun.
  pose proof (gate_run_linked es k) as L. rewrite Hrun in L.
  assert (Hlink : linked (fun a b => ev_severity a < ev_severity b) run).
  { intros i a b Ha Hb. specialize (Hburst i a b Ha Hb).
    pose proof (linked_infix _ pre run post L i a b Ha Hb) as P. cbn in P. unfold dedupe_passes in P.
    cbn in P. rewrite Hburst in P. apply andb_prop in P as [_ P]. by apply Z.ltb_lt. }
  pose proof (linked_measure ev_severity _ run 2 5 (fun a b H => H) Hlink) as B.
  enough (Z.of_nat (length run) <= Z.max 0 (5 - 2 + 1)) by lia. apply B. intros x Hx. apply Hsev.
  assert (Hin : x ∈ same_key k (gate_run ∅ es).1) by (rewrite Hrun; set_solver).
  apply list_elem_of_filter in Hin as [_ Hin]. eapply elem_of_sublist; [exact Hin|apply gate_run_sublist].
Qed.

Definition demo_event (id : string) (t : EventType) (d : EventDirection) (severity market_ts : Z) : MarketEvent :=
  mkEvent id "600519.SH" t d severity (flit market_ts 0) (flit market_ts 0) (flit market_ts 0) []
    (dedupe_key_of "600519.SH" t d) TTL_SHORT_S (type_value t).

Definition demo_burst : list MarketEvent :=
  [demo_event "a" RAPID_MOVE UP 2 100; demo_event "b" RAPID_MOVE UP 2 110; demo_event "c" RAPID_MOVE UP 4 120].

Lemma accept_burst_witness :
  same_key "600519.SH|rapid_move|up" (accept_all ∅ demo_burst).1 =
    [demo_event "a" RAPID_MOVE UP 2 100; demo_event "c" RAPID_MOVE UP 4 120] /\
  (length [demo_event "a" RAPID_MOVE UP 2 100; demo_event "c" RAPID_MOVE UP 4 120] <= 4)%nat.
Proof.
  split; [vm_compute; reflexivity|].
  apply (accept_burst_bound demo_burst "600519.SH|rapid_move|up"
    [demo_event "a" RAPID_MOVE UP 2 100; demo_event "c" RAPID_MOVE UP 4 120]).
  - intros e He. repeat (apply elem_of_cons in He as [->|He]; [cbn; lia|]). by apply elem_of_nil in He.
  - exists [], []. vm_compute. reflexivity.
  - intros [|[|i]] a b Ha Hb; cbn in Ha, Hb; simplify_eq. vm_compute. reflexivity.
Defined.
