(* ===== verification/Cooldown.v ===== *)
(** * Alert cooldown (src/market_sentinel/signals/cooldown.py) *)
From Stdlib Require Import ZArith Lia.
From stdpp Require Import prelude strings gmap.
From S2P Require Import Prelude PyFloat Domain Gate.
Local Open Scope Z_scope.

Definition DEFAULT_COOLDOWN_S : float := flit 300 0.

(** [CooldownGate]: last alert per signal id, with its monotonic time and priority. *)
Abbreviation CooldownState := (gmap string (float * SignalPriority)).

(** [CooldownGate.allow], at monotonic time [now]. *)
Definition allow (cooldown_s : float) (st : CooldownState) (now : float) (signal_id : string)
    (priority : SignalPriority) : bool * CooldownState :=
  match st !! signal_id with
  | None => (true, <[signal_id := (now, priority)]> st)
  | Some (last_mono, last_priority) =>
      if fle cooldown_s (fsub now last_mono) then (true, <[signal_id := (now, priority)]> st)
      else if priority_rank last_priority <? priority_rank priority
      then (true, <[signal_id := (now, priority)]> st)
      else (false, st)
  end.

(** A request: the clock reading, the signal id and its priority. *)
Record Request := mkRequest { rq_now : float; rq_id : string; rq_priority : SignalPriority }.

Fixpoint allow_all (cooldown_s : float) (st : CooldownState) (rs : list Request) : list Request * CooldownState :=
  match rs with
  | [] => ([], st)
  | r :: rs =>
      let '(ok, st) := allow cooldown_s st (rq_now r) (rq_id r) (rq_priority r) in
      let '(rest, st) := allow_all cooldown_s st rs in
      (if ok : bool then r :: rest else rest, st)
  end.

(** ** The cooldown is a gate *)
Section cooldown.
Context (cooldown_s : float).

Definition cooldown_passes (r : float * SignalPriority) (x : Request) : bool :=
  fle cooldown_s (fsub (rq_now x) r.1) || (priority_rank r.2 <? priority_rank (rq_priority x)).

Instance cooldown_gate : Gate Request (float * SignalPriority) := {
  gate_key := rq_id;
  gate_rec := fun r => (rq_now r, rq_priority r);
  gate_passes := cooldown_passes
}.

Lemma allow_gate st r : allow cooldown_s st (rq_now r) (rq_id r) (rq_priority r) = gate_step st r.
Proof.
  unfold allow, gate_step. cbn [gate_key gate_rec gate_passes cooldown_gate].
  destruct (st !! rq_id r) as [[t p]|]; [|done]. unfold cooldown_passes. cbn [fst snd].
  destruct (fle _ _); [done|]. cbn [orb]. by destruct (_ <? _).
Qed.

Lemma allow_all_gate rs : forall st, allow_all cooldown_s st rs = gate_run st rs.
Proof.
  induction rs as [|r rs IH]; intros st; cbn [allow_all gate_run]; [done|]. rewrite allow_gate.
  destruct (gate_step st r) as [b st']. by rewrite IH.
Qed.

Lemma allow_all_linked rs k :
  linked (fun a b => fle cooldown_s (fsub (rq_now b) (rq_now a)) = true \/
                     priority_rank (rq_priority a) < priority_rank (rq_priority b))
         (filter (fun r => rq_id r = k) (allow_all cooldown_s ∅ rs).1).
Proof.
  rewrite allow_all_gate. intros i a b Ha Hb.
  pose proof (gate_run_linked rs k i a b Ha Hb) as [H|H]%orb_prop; [by left|right].
  by apply Z.ltb_lt in H.
Qed.

Lemma allow_all_snoc rs r :
  (allow_all cooldown_s ∅ (rs ++ [r])).1 = (allow_all cooldown_s ∅ rs).1 ++
    match last (filter (fun x => rq_id x = rq_id r) (allow_all cooldown_s ∅ rs).1) with
    | None => [r]
    | Some p => if cooldown_passes (rq_now p, rq_priority p) r then [r] else []
    end.
Proof. rewrite !allow_all_gate, gate_run_snoc. f_equal. unfold history_passes. by destruct (last _). Qed.
End cooldown.

(** Requests of distinct ids do not influence each other: each is answered as if it came alone. *)
Lemma allow_frame cooldown_s st st' now id priority : st !! id = st' !! id ->
  (allow cooldown_s st now id priority).1 = (allow cooldown_s st' now id priority).1.
Proof. unfold allow. intros ->. by repeat case_match. Qed.
Lemma allow_other cooldown_s st now id priority x : x <> id -> (allow cooldown_s st now id priority).2 !! x = st !! x.
Proof. intros Hx. unfold allow. repeat case_match; cbn; by rewrite ?lookup_insert_ne. Qed.
Lemma allow_all_ids cooldown_s rs : forall st, (rq_id <$> (allow_all cooldown_s st rs).1) ⊆ rq_id <$> rs.
Proof.
  induction rs as [|r rs IH]; intros st; cbn [allow_all]; [done|]. destruct (allow _ _ _ _ _) as [ok st1]. specialize (IH st1).
  destruct (allow_all cooldown_s st1 rs) as [rest st2]. cbn in IH |- *. destruct ok; cbn; set_solver.
Qed.
Lemma allow_all_alone cooldown_s rs : forall st i r, NoDup (rq_id <$> rs) -> rs !! i = Some r ->
  rq_id r ∈ rq_id <$> (allow_all cooldown_s st rs).1 <-> (allow cooldown_s st (rq_now r) (rq_id r) (rq_priority r)).1 = true.
Proof.
  induction rs as [|r0 rs IH]; intros st i r N Hi; [done|]. cbn in N. apply NoDup_cons in N as [N0 N]. cbn [allow_all].
  pose proof (allow_other cooldown_s st (rq_now r0) (rq_id r0) (rq_priority r0)) as O.
  destruct (allow cooldown_s st (rq_now r0) (rq_id r0) (rq_priority r0)) as [ok st1] eqn:E. pose proof (allow_all_ids cooldown_s rs st1) as I.
  destruct i as [|i]; cbn in Hi.
  - injection Hi as <-. rewrite E. cbn [fst]. destruct (allow_all cooldown_s st1 rs) as [rest st2]. cbn in I |- *. destruct ok; cbn; set_solver.
  - assert (Hin : rq_id r ∈ rq_id <$> rs) by (apply list_elem_of_fmap_2; by eapply list_elem_of_lookup_2).
    assert (Hne : rq_id r <> rq_id r0) by congruence. rewrite (allow_frame _ st st1) by (symmetry; by apply O). rewrite <- (IH st1 i r N Hi).
    destruct (allow_all cooldown_s st1 rs) as [rest st2]. destruct ok; cbn; [|done]. rewrite elem_of_cons. naive_solver.
Qed.

(** ** Properties *)

(** [allow_all_history] an alert is decided by the alerts already let through for the same signal id: the
    first one passes, a later one passes exactly when the cooldown has elapsed since the
    last one or its priority is strictly higher; ids never influence each other. *)
Theorem allow_all_history cooldown_s rs r :
  (allow_all cooldown_s ∅ (rs ++ [r])).1 = (allow_all cooldown_s ∅ rs).1 ++
    match last (filter (fun x => rq_id x = rq_id r) (allow_all cooldown_s ∅ rs).1) with
    | None => [r]
    | Some p =>
        if fle cooldown_s (fsub (rq_now r) (rq_now p)) ||
           (priority_rank (rq_priority p) <? priority_rank (rq_priority r))
        then [r] else []
    end.
Proof. apply allow_all_snoc. Qed.

(** [allow_burst_bound] an episode cannot flood: alerts of one signal id that follow each other inside the
    cooldown have strictly increasing priorities, so a run of them has at most four. *)
Theorem allow_burst_bound cooldown_s rs k run :
  (exists pre post, filter (fun r => rq_id r = k) (allow_all cooldown_s ∅ rs).1 = pre ++ run ++ post) ->
  (forall i a b, run !! i = Some a -> run !! S i = Some b ->
     fle cooldown_s (fsub (rq_now b) (rq_now a)) = false) ->
  (length run <= 4)%nat.
Proof.
  intros (pre & post & Hrun) Hburst. pose proof (allow_all_linked cooldown_s rs k) as L. rewrite Hrun in L.
  assert (Hl : linked (fun a b => priority_rank (rq_priority a) < priority_rank (rq_priority b)) run).
  { intros i a b Ha Hb. specialize (Hburst i a b Ha Hb).
    destruct (linked_infix _ pre run post L i a b Ha Hb); [congruence|done]. }
  pose proof (linked_measure (fun r => priority_rank (rq_priority r)) _ run 1 4 (fun a b H => H) Hl) as B.
  enough (Z.of_nat (length run) <= Z.max 0 (4 - 1 + 1)) by lia.
  apply B. intros x _. apply priority_rank_bounds.
Qed.

Definition demo_requests : list Request :=
  [mkRequest (flit 0 0) "s" NOTICE; mkRequest (flit 10 0) "s" NOTICE; mkRequest (flit 20 0) "s" CRITICAL].

Lemma allow_burst_witness :
  (length [mkRequest (flit 0 0) "s" NOTICE; mkRequest (flit 20 0) "s" CRITICAL] <= 4)%nat.
Proof.
  apply (allow_burst_bound DEFAULT_COOLDOWN_S demo_requests "s").
  - exists [], []. vm_compute. reflexivity.
  - intros [|[|i]] a b Ha Hb; cbn in Ha, Hb; simplify_eq. vm_compute. reflexivity.
Defined.
