(* ===== verification/Cluster.v ===== *)
(** * Clustering, families and priorities (src/market_sentinel/signals/cluster.py, copy.py) *)
From Stdlib Require Import ZArith Lia String Ascii Sorting.Sorted.
From Corelib Require Import SpecFloat.
From stdpp Require Import prelude strings pretty.
From S2P Require Import Prelude PyFloat FloatSum Domain Features Events.
Local Open Scope Z_scope.

Definition CLUSTER_LOOKBACK_S : float := flit 90 0.

(** Lineages are the two strings ["tape"] and ["vwap"]. *)
Definition lineage_of (t : EventType) : string := if decide (t = VWAP_CROSS) then "vwap" else "tape".

Definition TAPE_TYPES : list EventType :=
  [RAPID_MOVE; VOLUME_SPIKE; PRICE_VOLUME_EXPANSION; DAY_HIGH_BREAKOUT; DAY_LOW_BREAKDOWN].

Definition events_in_lookback (accepted : list MarketEvent) (now_market_ts lookback_s : float) : list MarketEvent :=
  let start := fsub now_market_ts lookback_s in
  filter (fun e => fle start (ev_market_ts e) && fle (ev_market_ts e) now_market_ts = true) accepted.

(** Sorting by [(market_timestamp, id)]: tuples compare their first unequal components. *)
Definition event_lt (a b : MarketEvent) : bool :=
  if feq (ev_market_ts a) (ev_market_ts b) then String.ltb (ev_id a) (ev_id b)
  else flt (ev_market_ts a) (ev_market_ts b).
Definition event_le (a b : MarketEvent) : bool := negb (event_lt b a).
Definition sort_events (l : list MarketEvent) : list MarketEvent := sort_by event_le l.

Definition compatible_members (event : MarketEvent) (members : list MarketEvent) : list MarketEvent :=
  sort_events
    (if decide (ev_direction event = NONE) then members
     else filter (fun e => ev_direction e = ev_direction event \/ ev_direction e = NONE) members).

Definition cluster_members (event : MarketEvent) (recent : list MarketEvent) : list MarketEvent :=
  let lineage := lineage_of (ev_type event) in
  compatible_members event
    (if decide (lineage = "vwap") then filter (fun e => ev_type e = VWAP_CROSS) recent
     else filter (fun e => ev_type e ∈ TAPE_TYPES) recent).

Definition of_direction (d : EventDirection) (l : list MarketEvent) : list MarketEvent :=
  filter (fun e => ev_direction e = d) l.

Definition episode (d : EventDirection) (members : list MarketEvent) : list (EventDirection * list MarketEvent) :=
  match members with [] => [] | _ => [(d, sort_events members)] end.

Definition partition_lineage_episodes (recent : list MarketEvent) (none_target : EventDirection)
    : list (EventDirection * list MarketEvent) :=
  let ups := of_direction UP recent in
  let downs := of_direction DOWN recent in
  let nones := of_direction NONE recent in
  let none_up := if decide (none_target = UP) then nones else [] in
  let none_down := if decide (none_target = DOWN) then nones else [] in
  let none_alone := if decide (none_target = NONE) then nones else [] in
  episode UP (none_up ++ ups) ++ episode DOWN (none_down ++ downs) ++ episode NONE none_alone.

Definition has_direction (d : EventDirection) (l : list MarketEvent) : bool :=
  existsb (fun e => bool_decide (ev_direction e = d)) l.

Definition resolve_none_target (batch recent : list MarketEvent) (live_directions : list EventDirection)
    : EventDirection :=
  match has_direction UP batch, has_direction DOWN batch with
  | true, false => UP
  | false, true => DOWN
  | true, true => NONE
  | false, false =>
      match has_direction UP recent || bool_decide (UP ∈ live_directions),
            has_direction DOWN recent || bool_decide (DOWN ∈ live_directions) with
      | true, false => UP
      | false, true => DOWN
      | _, _ => NONE
      end
  end.

Definition has_type (t : EventType) (l : list MarketEvent) : bool :=
  existsb (fun e => bool_decide (ev_type e = t)) l.
Definition has_vol (l : list MarketEvent) : bool := has_type VOLUME_SPIKE l || has_type PRICE_VOLUME_EXPANSION l.
Definition has_move (l : list MarketEvent) : bool := has_type RAPID_MOVE l || has_type PRICE_VOLUME_EXPANSION l.

Definition classify_family (events : list MarketEvent) : string :=
  if has_vol events && has_move events then "price_volume"
  else if has_type DAY_HIGH_BREAKOUT events then "breakout"
  else if has_type DAY_LOW_BREAKDOWN events then "breakdown"
  else if has_vol events then "volume"
  else if has_move events then "move"
  else if has_type VWAP_CROSS events then "vwap"
  else "other".

(** ** [copy.py]: priority *)

(** [max(priorities, key=rank)]: the first one of the highest rank. *)
Definition max_priority (a b : SignalPriority) : SignalPriority :=
  if priority_rank a <? priority_rank b then b else a.

Definition priority_from_severity (severity : Z) : SignalPriority :=
  if 5 <=? severity then CRITICAL
  else if 4 <=? severity then IMPORTANT
  else if 3 <=? severity then NOTICE
  else INFO.

Definition max_severity (e : MarketEvent) (l : list MarketEvent) : Z :=
  foldl (fun m x => Z.max m (ev_severity x)) (ev_severity e) l.

Definition compose_priority (events : list MarketEvent) (family : string) : result (SignalPriority * string) :=
  match events with
  | [] => Err (ValueError "max() arg is an empty sequence")
  | e :: l =>
      let sev := max_severity e l in
      let base := priority_from_severity sev in
      if bool_decide (family = "price_volume") || (has_vol events && has_move events) then
        Ok (max_priority base IMPORTANT,
            "family=" +:+ family +:+ "; max_severity=" +:+ pretty sev +:+ "; cluster=price_volume")
      else if bool_decide (family = "volume") then
        Ok (max_priority base NOTICE,
            "family=volume; max_severity=" +:+ pretty sev +:+ "; standalone_volume_notice")
      else Ok (base, "family=" +:+ family +:+ "; max_severity=" +:+ pretty sev)
  end.

(** ** [copy.py]: text *)

(** [format(x, ".2f")], the exact binary value rounded half to even; [plus] is the ["+"] flag. *)
Definition fixed2 (plus : bool) (x : float) : string :=
  let sign (s : bool) : string := if s then "-" else if plus then "+" else "" in
  let digits (n : Z) : string := pretty (n / 100) +:+ "." +:+
    String (ascii_of_N (Z.to_N (48 + n / 10 mod 10))) (String (ascii_of_N (Z.to_N (48 + n mod 10))) "") in
  match x with
  | S754_nan => if plus then "+nan" else "nan"
  | S754_infinity s => sign s +:+ "inf"
  | S754_zero s => sign s +:+ "0.00"
  | S754_finite s m e =>
      sign s +:+ digits (if 0 <=? e then Zpos m * 2 ^ e * 100 else rne (Zpos m * 100) (- e))
  end.

Definition title_of (family symbol : string) : string :=
  symbol +:+
  (if decide (family = "volume") then " 成交量明显放大"
   else if decide (family = "move") then " 出现短时快速涨跌"
   else if decide (family = "price_volume") then " 出现量价同步扩张"
   else if decide (family = "breakout") then " 突破日内高点"
   else if decide (family = "breakdown") then " 跌破日内低点"
   else if decide (family = "vwap") then " 价格穿越VWAP"
   else " 出现市场异动").

Definition fact {A} (o : option A) (f : A -> string) : list string :=
  match o with Some x => [f x] | None => [] end.

(** [sorted({item.type.value for item in events})] *)
Definition type_names (events : list MarketEvent) : list string :=
  sort_by (fun a b => negb (String.ltb b a)) (remove_dups ((fun e => type_value (ev_type e)) <$> events)).

Fixpoint join (sep : string) (l : list string) : string :=
  match l with
  | [] => ""
  | [x] => x
  | x :: l => x +:+ sep +:+ join sep l
  end.

Definition render_copy (events : list MarketEvent) (family : string) (ft : MarketFeatures) : result (string * string) :=
  match last events with
  | None => Err IndexError
  | Some e =>
      let facts :=
        fact (change_1m ft) (fun c => "1分钟涨跌 " +:+ fixed2 true (fmul c hundred) +:+ "%") ++
        fact (change_5m ft) (fun c => "5分钟涨跌 " +:+ fixed2 true (fmul c hundred) +:+ "%") ++
        fact (volume_ratio_1m ft) (fun r => "1分钟成交量 " +:+ fixed2 false r +:+ " 倍") ++
        fact (volume_ratio_5m ft) (fun r => "5分钟成交量 " +:+ fixed2 false r +:+ " 倍") ++
        fact (session_high_ref ft) (fun r => "观测日内高 " +:+ fixed2 false (session_high_obs ft) +:+ " vs 前高 " +:+ fixed2 false r) ++
        fact (session_low_ref ft) (fun r => "观测日内低 " +:+ fixed2 false (session_low_obs ft) +:+ " vs 前低 " +:+ fixed2 false r) ++
        match vwap ft, above_vwap ft with
        | Some v, Some a => ["价格位于VWAP" +:+ (if a : bool then "上方" else "下方") +:+ " " +:+ fixed2 false v]
        | _, _ => []
        end ++
        ["触发规则 " +:+ join " + " (type_names events)] in
      Ok (title_of family (ev_symbol e), join "，" facts)
  end.

Example fixed2_a : fixed2 true (flit 12345 4) = "+1.23". Proof. vm_compute. reflexivity. Qed.
Example fixed2_b : fixed2 false (fneg (flit 1 3)) = "-0.00". Proof. vm_compute. reflexivity. Qed.
Example fixed2_c : fixed2 false (flit 2675 3) = "2.67". Proof. vm_compute. reflexivity. Qed.
Example fixed2_d : fixed2 false (flit 125 3) = "0.12". Proof. vm_compute. reflexivity. Qed.

(** ** Lemmas: order *)
Definition ev_fin (e : MarketEvent) : Prop := fin (ev_market_ts e).

Lemma sle_trans a b c : String.leb a b = true -> String.leb b c = true -> String.leb a c = true.
Proof.
  revert b c. induction a as [|x a IH]; intros [|y b] [|z c]; try done. unfold String.leb in *.
  cbn [String.compare]. unfold Ascii.compare.
  destruct (N.compare_spec (N_of_ascii x) (N_of_ascii y)) as [E|E|E]; [|intros _|done].
  - rewrite E. destruct (N.compare_spec (N_of_ascii y) (N_of_ascii z)); [apply IH|done|done].
  - destruct (N.compare_spec (N_of_ascii y) (N_of_ascii z)) as [E'|E'|E'].
    + rewrite <- E'. apply N.compare_lt_iff in E. by rewrite E.
    + intros _. assert (H : (N_of_ascii x < N_of_ascii z)%N) by lia. apply N.compare_lt_iff in H. by rewrite H.
    + done.
Qed.

Lemma negb_sltb a b : negb (String.ltb a b) = String.leb b a.
Proof. unfold String.ltb, String.leb. rewrite String.compare_antisym. by destruct (String.compare b a). Qed.

(** [event_le] as a lexicographic order on the exact time and the id. *)
Lemma event_le_spec a b : ev_fin a -> ev_fin b ->
  event_le a b = true <->
  fval (ev_market_ts a) < fval (ev_market_ts b) \/
  (fval (ev_market_ts a) = fval (ev_market_ts b) /\ String.leb (ev_id a) (ev_id b) = true).
Proof.
  unfold event_le, event_lt, ev_fin. intros Fa Fb.
  destruct (feq (ev_market_ts b) (ev_market_ts a)) eqn:E.
  - fcmp. rewrite negb_sltb. rewrite E. intuition lia.
  - rewrite negb_true_iff. destruct (flt (ev_market_ts b) (ev_market_ts a)) eqn:E2; fcmp; intuition (try done; lia).
Qed.

Definition by_time (l : list MarketEvent) : Prop := StronglySorted (fun a b => event_le a b = true) l.

Lemma sort_events_sorted l : Forall ev_fin l -> by_time (sort_events l).
Proof.
  apply (sort_by_sorted event_le ev_fin).
  - intros a b Fa Fb. rewrite !event_le_spec by done.
    destruct (Z.lt_trichotomy (fval (ev_market_ts a)) (fval (ev_market_ts b))) as [?|[?|?]]; [auto| |auto].
    destruct (String.leb_total (ev_id a) (ev_id b)); auto.
  - intros a b c Fa Fb Fc. rewrite !event_le_spec by done.
    pose proof (sle_trans (ev_id a) (ev_id b) (ev_id c)). intuition lia.
Qed.

Lemma elem_of_sort_events e l : e ∈ sort_events l <-> e ∈ l.
Proof. apply elem_of_sort_by. Qed.

(** ** Lemmas: partition *)
Lemma elem_of_direction d l e : e ∈ of_direction d l <-> ev_direction e = d /\ e ∈ l.
Proof. unfold of_direction. by rewrite list_elem_of_filter. Qed.

Lemma directions_perm l : of_direction UP l ++ of_direction DOWN l ++ of_direction NONE l ≡ₚ l.
Proof.
  induction l as [|e l IH]; [done|]. unfold of_direction in *. rewrite !filter_cons.
  destruct (ev_direction e); repeat (rewrite decide_True by done || rewrite decide_False by done); cbn [app].
  - by rewrite IH.
  - transitivity (e :: (filter (fun e => ev_direction e = UP) l ++ filter (fun e => ev_direction e = DOWN) l
      ++ filter (fun e => ev_direction e = NONE) l)); [|by rewrite IH]. symmetry. apply Permutation_middle.
  - transitivity (e :: (filter (fun e => ev_direction e = UP) l ++ filter (fun e => ev_direction e = DOWN) l
      ++ filter (fun e => ev_direction e = NONE) l)); [|by rewrite IH].
    rewrite !app_assoc. symmetry. apply Permutation_middle.
Qed.

Lemma episode_concat d l : concat (episode d l).*2 ≡ₚ l.
Proof.
  destruct l as [|e l]; [done|]. cbn [episode fmap list_fmap concat snd]. rewrite app_nil_r.
  apply (sort_by_perm event_le (e :: l)).
Qed.

Lemma episode_in d l d' m : (d', m) ∈ episode d l -> d' = d /\ m = sort_events l /\ l <> [].
Proof. destruct l; cbn [episode]; [intros H; by apply elem_of_nil in H|]. intros H%list_elem_of_singleton. by simplify_eq. Qed.

Lemma partition_perm recent nt : concat (partition_lineage_episodes recent nt).*2 ≡ₚ recent.
Proof.
  unfold partition_lineage_episodes. cbn zeta. rewrite !fmap_app, !concat_app, !episode_concat.
  etransitivity; [|apply (directions_perm recent)].
  generalize (of_direction UP recent) (of_direction DOWN recent) (of_direction NONE recent). intros u w z.
  destruct nt; repeat (rewrite decide_True by done || rewrite decide_False by done); cbn [app];
    rewrite ?app_nil_r; solve_Permutation.
Qed.

Lemma partition_in recent nt d m : (d, m) ∈ partition_lineage_episodes recent nt ->
  m <> [] /\ forall e, e ∈ m -> e ∈ recent /\ (ev_direction e = d \/ (ev_direction e = NONE /\ nt = d)).
Proof.
  unfold partition_lineage_episodes. cbn zeta. rewrite !elem_of_app.
  intros [H|[H|H]]; apply episode_in in H as (-> & -> & Hne);
    (split; [by rewrite (sort_by_nil event_le)|]); intros e; rewrite elem_of_sort_events, ?elem_of_app.
  - rewrite elem_of_direction. destruct (decide _); rewrite ?elem_of_direction; set_solver.
  - rewrite elem_of_direction. destruct (decide _); rewrite ?elem_of_direction; set_solver.
  - destruct (decide _); rewrite ?elem_of_direction; set_solver.
Qed.

Lemma episode_fst d l : (episode d l).*1 `sublist_of` [d].
Proof. destruct l; cbn [episode]; [apply sublist_nil_l|done]. Qed.

Lemma partition_directions recent nt : (partition_lineage_episodes recent nt).*1 `sublist_of` [UP; DOWN; NONE].
Proof.
  unfold partition_lineage_episodes. cbn zeta. rewrite !fmap_app.
  change [UP; DOWN; NONE] with ([UP] ++ [DOWN] ++ [NONE]).
  repeat apply sublist_app; apply episode_fst.
Qed.

(** ** Properties *)

(** [partition_spec] the episodes of one lineage are an exact partition of the events given: together a
    permutation of them (no event lost or duplicated), one episode per direction at most,
    none empty, each sorted by market time and id; directed events go to their own
    direction and the direction-less ones all to the chosen target. *)
Theorem partition_spec recent none_target :
  let eps := partition_lineage_episodes recent none_target in
  concat eps.*2 ≡ₚ recent /\ NoDup eps.*1 /\
  (forall d members, (d, members) ∈ eps -> members <> [] /\ (Forall ev_fin recent -> by_time members) /\
     forall e, e ∈ members -> ev_direction e = d \/ (ev_direction e = NONE /\ d = none_target)).
Proof.
  cbn zeta. split; [apply partition_perm|]. split.
  - eapply sublist_NoDup; [|apply partition_directions]. by apply (bool_decide_unpack _).
  - intros d m Hin. destruct (partition_in _ _ _ _ Hin) as [Hne He]. split; [done|]. split.
    + intros Hf. assert (exists l, m = sort_events l) as [l ->].
      { unfold partition_lineage_episodes in Hin. cbn zeta in Hin. rewrite !elem_of_app in Hin.
        destruct Hin as [H|[H|H]]; apply episode_in in H as (_ & -> & _); eauto. }
      apply sort_events_sorted. apply Forall_forall. intros e Hel. rewrite Forall_forall in Hf.
      apply Hf, He. by apply elem_of_sort_events.
    + intros e Hel. destruct (He e Hel) as [_ [?|[? ->]]]; auto.
Qed.

Definition demo_member (id : string) (t : EventType) (d : EventDirection) (severity market_ts : Z) : MarketEvent :=
  mkEvent id "600519.SH" t d severity (flit market_ts 0) (flit market_ts 0) (flit market_ts 0) []
    (dedupe_key_of "600519.SH" t d) TTL_SHORT_S (type_value t).

(** ** Lemmas: families and priorities *)
Lemma has_type_elem t l : has_type t l = true <-> exists e, e ∈ l /\ ev_type e = t.
Proof.
  unfold has_type. rewrite existsb_exists. split.
  - intros (e & Hin & He%bool_decide_eq_true). exists e. split; [by apply list_elem_of_In|done].
  - intros (e & Hin & He). exists e. split; [by apply list_elem_of_In|by apply bool_decide_eq_true].
Qed.

Lemma has_type_mono t l l' : l ⊆ l' -> has_type t l = true -> has_type t l' = true.
Proof. rewrite !has_type_elem. intros Hs (e & Hin & He). exists e. split; [by apply Hs|done]. Qed.

Definition family_names : list string := ["price_volume"; "breakout"; "breakdown"; "volume"; "move"; "vwap"].

Lemma classify_known l : l <> [] -> classify_family l ∈ family_names.
Proof.
  intros Hne. unfold classify_family. unfold family_names.
  repeat match goal with |- context [if ?b then _ else _] => destruct b eqn:? end; try set_solver.
  exfalso. destruct l as [|e l]; [done|]. unfold has_vol, has_move in *.
  assert (F : forall t, has_type t (e :: l) = false -> ev_type e <> t).
  { intros t H Ht. assert (has_type t (e :: l) = true); [|congruence]. apply has_type_elem. exists e. set_solver. }
  repeat match goal with
    | H : (_ || _) = false |- _ => apply orb_false_elim in H as [? ?]
    | H : has_type _ _ = false |- _ => apply F in H
    end. by destruct (ev_type e).
Qed.

(** Events as the detector emits them: breakouts are at least severity 3. *)
Definition severity_ok (e : MarketEvent) : Prop :=
  2 <= ev_severity e <= 5 /\
  (ev_type e = DAY_HIGH_BREAKOUT \/ ev_type e = DAY_LOW_BREAKDOWN -> 3 <= ev_severity e).

Lemma foldl_max_spec (l : list MarketEvent) : forall m,
  m <= foldl (fun m x => Z.max m (ev_severity x)) m l /\
  (forall e, e ∈ l -> ev_severity e <= foldl (fun m x => Z.max m (ev_severity x)) m l) /\
  (foldl (fun m x => Z.max m (ev_severity x)) m l = m \/
   exists e, e ∈ l /\ foldl (fun m x => Z.max m (ev_severity x)) m l = ev_severity e).
Proof.
  induction l as [|x l IH]; intros m; cbn [foldl].
  - split; [lia|]. split; [intros e He; by apply elem_of_nil in He|by left].
  - destruct (IH (Z.max m (ev_severity x))) as (H1 & H2 & H3). split; [lia|]. split.
    + intros e [->|He]%elem_of_cons; [lia|auto].
    + destruct H3 as [->|(e & He & E)]; [|right; exists e; split; [by right|done]].
      destruct (Z.max_spec m (ev_severity x)) as [[_ ->]|[_ ->]]; [right; exists x; split; [by left|done]|by left].
Qed.

Lemma max_severity_spec e l :
  (forall x, x ∈ e :: l -> ev_severity x <= max_severity e l) /\
  exists x, x ∈ e :: l /\ max_severity e l = ev_severity x.
Proof.
  unfold max_severity. destruct (foldl_max_spec l (ev_severity e)) as (H1 & H2 & H3). split.
  - intros x [->|Hx]%elem_of_cons; auto.
  - destruct H3 as [->|(x & Hx & E)]; [exists e|exists x]; (split; [|done]); [by left|by right].
Qed.

Lemma rank_from_severity s : priority_rank (priority_from_severity s) = Z.max 1 (Z.min 4 (s - 1)).
Proof.
  unfold priority_from_severity.
  destruct (Z.leb_spec 5 s), (Z.leb_spec 4 s), (Z.leb_spec 3 s); cbn [priority_rank]; lia.
Qed.

Lemma rank_max a b : priority_rank (max_priority a b) = Z.max (priority_rank a) (priority_rank b).
Proof. unfold max_priority. destruct (Z.ltb_spec (priority_rank a) (priority_rank b)); lia. Qed.

(** The rank of an episode's priority: its severity, with the family's floor. *)
Definition family_floor (l : list MarketEvent) : Z :=
  if has_vol l && has_move l then 3 else if bool_decide (classify_family l = "volume") then 2 else 1.

Lemma classify_volume l : classify_family l = "volume" ->
  has_vol l = true /\ has_type DAY_HIGH_BREAKOUT l = false /\ has_type DAY_LOW_BREAKDOWN l = false.
Proof. unfold classify_family. repeat match goal with |- context [if ?b then _ else _] => destruct b eqn:? end; done. Qed.

Lemma classify_price_volume l : classify_family l = "price_volume" -> has_vol l && has_move l = true.
Proof. unfold classify_family. repeat match goal with |- context [if ?b then _ else _] => destruct b eqn:? end; done. Qed.

Lemma compose_priority_rank e l : exists p reason,
  compose_priority (e :: l) (classify_family (e :: l)) = Ok (p, reason) /\
  priority_rank p = Z.max (Z.max 1 (Z.min 4 (max_severity e l - 1))) (family_floor (e :: l)).
Proof.
  unfold compose_priority, family_floor. cbn zeta.
  destruct (has_vol (e :: l) && has_move (e :: l)) eqn:E.
  - rewrite orb_true_r. do 2 eexists. split; [done|]. by rewrite rank_max, rank_from_severity.
  - rewrite orb_false_r. case_bool_decide as H; [apply classify_price_volume in H; congruence|].
    case_bool_decide; do 2 eexists; (split; [done|]); rewrite ?rank_max, rank_from_severity; cbn [priority_rank]; lia.
Qed.

Lemma floor_mono l l' : l ⊆ l' ->
  family_floor l <= family_floor l' \/
  exists e, e ∈ l' /\ (ev_type e = DAY_HIGH_BREAKOUT \/ ev_type e = DAY_LOW_BREAKDOWN).
Proof.
  intros Hs. unfold family_floor.
  assert (Hv : has_vol l = true -> has_vol l' = true).
  { unfold has_vol. rewrite !orb_true_iff. intros [H|H]; eauto using has_type_mono. }
  assert (Hm : has_move l = true -> has_move l' = true).
  { unfold has_move. rewrite !orb_true_iff. intros [H|H]; eauto using has_type_mono. }
  destruct (has_vol l && has_move l) eqn:E.
  { apply andb_prop in E as [E1 E2]. rewrite Hv, Hm by done. left. cbn. lia. }
  destruct (has_vol l' && has_move l') eqn:E'; [left; case_bool_decide; lia|].
  case_bool_decide as F; [|left; case_bool_decide; lia].
  apply classify_volume in F as (V & _ & _). case_bool_decide as F'; [left; lia|]. right.
  destruct (has_type DAY_HIGH_BREAKOUT l') eqn:B1.
  { apply has_type_elem in B1 as (e & ? & ?). eauto. }
  destruct (has_type DAY_LOW_BREAKDOWN l') eqn:B2.
  { apply has_type_elem in B2 as (e & ? & ?). eauto. }
  exfalso. apply F'. unfold classify_family. by rewrite E', B1, B2, Hv.
Qed.

(** [episode_total] every non-empty episode gets a family from the known list (never the fallback
    ["other"]) and composing its priority and text never raises. *)
Theorem episode_total e l ft :
  classify_family (e :: l) ∈ family_names /\
  is_ok (compose_priority (e :: l) (classify_family (e :: l))) = true /\
  is_ok (render_copy (e :: l) (classify_family (e :: l)) ft) = true.
Proof.
  split; [by apply classify_known|]. split.
  - by destruct (compose_priority_rank e l) as (p & r & -> & _).
  - unfold render_copy. by destruct (last (e :: l)) eqn:E; [|apply last_None in E].
Qed.

(** [compose_priority_spec] the priority of an episode is that of its most severe event, raised to [IMPORTANT]
    when volume and price move together and to [NOTICE] for volume alone, and it never
    drops when events join the episode, even if they change its family. *)
Theorem compose_priority_spec e l e' l' : e :: l ⊆ e' :: l' -> Forall severity_ok (e' :: l') ->
  exists p r p' r',
    compose_priority (e :: l) (classify_family (e :: l)) = Ok (p, r) /\
    compose_priority (e' :: l') (classify_family (e' :: l')) = Ok (p', r') /\
    priority_rank p = Z.max (priority_rank (priority_from_severity (max_severity e l))) (family_floor (e :: l)) /\
    priority_rank p <= priority_rank p'.
Proof.
  intros Hs Hok. destruct (compose_priority_rank e l) as (p & r & -> & E).
  destruct (compose_priority_rank e' l') as (p' & r' & -> & E').
  exists p, r, p', r'. split; [done|]. split; [done|]. split; [by rewrite rank_from_severity|].
  rewrite E, E'. destruct (max_severity_spec e l) as [_ (x & Hx & Ex)].
  destruct (max_severity_spec e' l') as [Hmax _]. pose proof (Hmax x (Hs _ Hx)).
  destruct (floor_mono _ _ Hs) as [?|(b & Hb & Ht)]; [lia|].
  rewrite Forall_forall in Hok. destruct (Hok b Hb) as [_ H3]. specialize (H3 Ht). pose proof (Hmax b Hb).
  assert (family_floor (e :: l) <= 3) by (unfold family_floor; repeat case_match; lia).
  destruct (Z.eq_dec (family_floor (e :: l)) 3) as [F|F]; [|assert (family_floor (e :: l) <= 2) by (unfold family_floor in *; repeat case_match; lia); lia].
  assert (family_floor (e' :: l') = 3); [|lia].
  unfold family_floor in F |- *. destruct (has_vol (e :: l) && has_move (e :: l)) eqn:V; [|case_bool_decide; lia].
  apply andb_prop in V as [V1 V2]. unfold has_vol, has_move in *. rewrite orb_true_iff in V1, V2.
  assert (has_type VOLUME_SPIKE (e' :: l') || has_type PRICE_VOLUME_EXPANSION (e' :: l') = true) as ->.
  { apply orb_true_iff. destruct V1; eauto using has_type_mono. }
  assert (has_type RAPID_MOVE (e' :: l') || has_type PRICE_VOLUME_EXPANSION (e' :: l') = true) as ->; [|done].
  apply orb_true_iff. destruct V2; eauto using has_type_mono.
Qed.

Lemma compose_priority_witness :
  exists p r p' r',
    compose_priority [demo_member "a" VOLUME_SPIKE NONE 2 100] "volume" = Ok (p, r) /\
    compose_priority [demo_member "a" VOLUME_SPIKE NONE 2 100; demo_member "b" DAY_HIGH_BREAKOUT UP 3 100] "breakout"
      = Ok (p', r') /\ priority_rank p <= priority_rank p'.
Proof.
  destruct (compose_priority_spec (demo_member "a" VOLUME_SPIKE NONE 2 100) []
    (demo_member "a" VOLUME_SPIKE NONE 2 100) [demo_member "b" DAY_HIGH_BREAKOUT UP 3 100])
    as (p & r & p' & r' & E1 & E2 & _ & H).
  - intros x ->%list_elem_of_singleton. by left.
  - apply Forall_forall. intros x Hx. repeat (apply elem_of_cons in Hx as [->|Hx]; [split; cbn; lia || (intros [?|?]; done)|]). by apply elem_of_nil in Hx.
  - exists p, r, p', r'. done.
Defined.

Lemma partition_witness :
  by_time (sort_events [demo_member "b" RAPID_MOVE UP 3 120; demo_member "a" RAPID_MOVE UP 2 100]).
Proof.
  apply (partition_spec [demo_member "b" RAPID_MOVE UP 3 120; demo_member "a" RAPID_MOVE UP 2 100] NONE) with (d := UP).
  - vm_compute. by left.
  - repeat constructor.
Defined.
