(* ===== verification/Composer.v ===== *)
(** * Signal composition (src/market_sentinel/signals/composer.py)

    [SignalComposer] keeps, per symbol, the accepted events of the look-back window, and the
    live episodes, their traces and the home episode of each event.  [uuid4().hex] and the
    wall clock are sequences with cursors in the state. *)
From Stdlib Require Import ZArith Lia String.
From stdpp Require Import prelude strings gmap pretty.
From S2P Require Import Prelude PyFloat FloatSum Domain Features Events Cluster.
Local Open Scope Z_scope.

(** Keys of live episodes: symbol, lineage, direction. *)
Abbreviation EpisodeKey := (string * string * EventDirection)%type.

Record Composer := mkComposer {
  cp_accepted : gmap string (list MarketEvent);
  cp_active : list (EpisodeKey * Signal);
  cp_traces : gmap string SignalTrace;
  cp_home : gmap string EpisodeKey;
  cp_uuid : nat;
  cp_clock : nat
}.

Definition composer_init : Composer := mkComposer ∅ [] ∅ ∅ 0 0.

Definition LINEAGE_ORDER (lineage : string) : Z :=
  if decide (lineage = "tape") then 0 else if decide (lineage = "vwap") then 1 else 9.
Definition DIRECTION_ORDER (d : EventDirection) : Z := match d with NONE => 0 | UP => 1 | DOWN => 2 end.

(** [rows.sort()] on (lineage order, direction order, id). *)
Definition row_lt (a b : EpisodeKey * Signal) : bool :=
  let la := LINEAGE_ORDER a.1.1.2 in let lb := LINEAGE_ORDER b.1.1.2 in
  let da := DIRECTION_ORDER a.1.2 in let db := DIRECTION_ORDER b.1.2 in
  if la =? lb then if da =? db then String.ltb (sig_id a.2) (sig_id b.2) else da <? db else la <? lb.

Definition active_signals (c : Composer) (symbol : string) : list Signal :=
  snd <$> sort_by (fun a b => negb (row_lt b a)) (filter (fun r => r.1.1.1 = symbol) (cp_active c)).

Definition trace_for (c : Composer) (signal_id : string) : result SignalTrace :=
  of_option KeyError (cp_traces c !! signal_id).

(** Field updates, the assignments of the code. *)
Definition set_accepted (c : Composer) a := mkComposer a (cp_active c) (cp_traces c) (cp_home c) (cp_uuid c) (cp_clock c).
Definition set_active (c : Composer) a := mkComposer (cp_accepted c) a (cp_traces c) (cp_home c) (cp_uuid c) (cp_clock c).
Definition set_traces (c : Composer) t := mkComposer (cp_accepted c) (cp_active c) t (cp_home c) (cp_uuid c) (cp_clock c).
Definition set_home (c : Composer) h := mkComposer (cp_accepted c) (cp_active c) (cp_traces c) h (cp_uuid c) (cp_clock c).
Definition draw (c : Composer) := mkComposer (cp_accepted c) (cp_active c) (cp_traces c) (cp_home c) (S (cp_uuid c)) (S (cp_clock c)).

(** ** [_prune_active]: every symbol's episodes older than the cut-off go. *)
Definition unhome (key : EpisodeKey) (ids : list string) (home : gmap string EpisodeKey) : gmap string EpisodeKey :=
  foldl (fun h id => if decide (h !! id = Some key) then delete id h else h) home ids.

Definition prune_one (c : Composer) (row : EpisodeKey * Signal) : Composer :=
  let '(key, signal) := row in
  let c := set_active c (od_del key (cp_active c)) in
  let c := set_traces c (delete (sig_id signal) (cp_traces c)) in
  set_home c (unhome key (sig_event_ids signal) (cp_home c)).

Definition prune_active (lookback_s : float) (c : Composer) (now_ts : float) : Composer :=
  let cutoff := fsub now_ts lookback_s in
  foldl prune_one c (filter (fun row => flt (sig_market_ts row.2) cutoff = true) (cp_active c)).

Definition fresh_events (cutoff : float) (l : list MarketEvent) : list MarketEvent :=
  filter (fun e => fle cutoff (ev_market_ts e) = true) l.

Definition prune (lookback_s : float) (c : Composer) (symbol : string) (now_ts : float) : Composer :=
  let cutoff := fsub now_ts lookback_s in
  let kept := fresh_events cutoff (default [] (cp_accepted c !! symbol)) in
  prune_active lookback_s (set_accepted c (<[symbol := kept]> (cp_accepted c))) now_ts.

(** ** [_events_for_partition] *)
Definition selects (home : gmap string EpisodeKey) (symbol lineage : string) (batch_ids : list string)
    (none_target : EventDirection) (e : MarketEvent) : bool :=
  if decide (ev_direction e = NONE) then
    match home !! ev_id e with
    | None => bool_decide (ev_id e ∈ batch_ids)
    | Some (home_symbol, home_lineage, home_dir) =>
        if bool_decide (home_symbol <> symbol) || bool_decide (home_lineage <> lineage) then false
        else if decide (home_dir = none_target) then true
        else bool_decide (home_dir = NONE) && bool_decide (none_target <> NONE)
    end
  else true.

Definition events_for_partition (c : Composer) (symbol lineage : string) (recent batch : list MarketEvent)
    (none_target : EventDirection) : list MarketEvent :=
  filter (fun e => selects (cp_home c) symbol lineage (ev_id <$> batch) none_target e = true) recent.

Section composer.
Context (lookback_s : float) (uuids : nat -> string) (wall : nat -> float).

(** ** [_resolve_identity]: id and creation time, the stolen keys, the state *)
Definition resolve_identity (c : Composer) (symbol lineage : string) (direction : EventDirection)
    (now_ts : float) (stolen_none : list (string * string))
    : string * float * list (string * string) * Composer :=
  let cutoff := fsub now_ts lookback_s in
  let fresh_id := (uuids (cp_uuid c), wall (cp_clock c), stolen_none, draw c) in
  let steal :=
    if bool_decide (direction <> NONE) && bool_decide ((symbol, lineage) ∉ stolen_none) then
      match od_get (symbol, lineage, NONE) (cp_active c) with
      | Some none_signal =>
          if fle cutoff (sig_market_ts none_signal) then
            let c := set_active c (od_del (symbol, lineage, NONE) (cp_active c)) in
            let c := set_home c (foldl (fun h id => <[id := (symbol, lineage, direction)]> h)
                                   (cp_home c) (sig_event_ids none_signal)) in
            (sig_id none_signal, sig_created_ts none_signal, (symbol, lineage) :: stolen_none, c)
          else fresh_id
      | None => fresh_id
      end
    else fresh_id in
  match od_get (symbol, lineage, direction) (cp_active c) with
  | Some existing =>
      if fle cutoff (sig_market_ts existing) then (sig_id existing, sig_created_ts existing, stolen_none, c)
      else steal
  | None => steal
  end.

(** ** [_compose_episode] *)
Definition compose_episode (c : Composer) (symbol lineage : string) (direction : EventDirection)
    (members : list MarketEvent) (features : MarketFeatures) (now_ts : float)
    (stolen_none : list (string * string))
    : result (Signal * SignalTrace * list (string * string) * Composer) :=
  let '(signal_id, created_at, stolen_none, c) :=
    resolve_identity c symbol lineage direction now_ts stolen_none in
  let family := classify_family members in
  '(priority, reason) ← compose_priority members family;
  '(title, summary) ← render_copy members family features;
  latest ← of_option IndexError (last members);
  let signal := mkSignal signal_id (ev_id <$> members) symbol family direction priority title summary RULE
    (ev_market_ts latest) (ev_received_ts latest) (ev_detected_ts latest) created_at None in
  let c := set_active c (od_set (symbol, lineage, direction) signal (cp_active c)) in
  let c := set_home c (foldl (fun h e => <[ev_id e := (symbol, lineage, direction)]> h) (cp_home c) members) in
  let trace := mkTrace signal_id (ev_id <$> members) (ev_rule_name <$> members) features family direction
    priority reason (ev_detected_ts latest) created_at in
  let c := set_traces c (<[signal_id := trace]> (cp_traces c)) in
  Ok (signal, trace, stolen_none, c).

(** ** [_consume_symbol] *)
Fixpoint compose_episodes (c : Composer) (symbol lineage : string) (new_ids : list string)
    (episodes : list (EventDirection * list MarketEvent)) (features : MarketFeatures) (now_ts : float)
    (stolen_none : list (string * string))
    : result (list (Signal * SignalTrace) * list (string * string) * Composer) :=
  match episodes with
  | [] => Ok ([], stolen_none, c)
  | (direction, members) :: episodes =>
      if existsb (fun e => bool_decide (ev_id e ∈ new_ids)) members then
        '(signal, trace, stolen_none, c) ← compose_episode c symbol lineage direction members features now_ts stolen_none;
        '(rest, stolen_none, c) ← compose_episodes c symbol lineage new_ids episodes features now_ts stolen_none;
        Ok ((signal, trace) :: rest, stolen_none, c)
      else compose_episodes c symbol lineage new_ids episodes features now_ts stolen_none
  end.

Definition in_lineage (lineage : string) (l : list MarketEvent) : list MarketEvent :=
  filter (fun e => lineage_of (ev_type e) = lineage) l.

Definition live_dirs (c : Composer) (symbol lineage : string) : list EventDirection :=
  (fun row => row.1.2) <$> filter (fun row => row.1.1 = (symbol, lineage)) (cp_active c).

Definition consume_lineage (c : Composer) (symbol lineage : string) (batch recent : list MarketEvent)
    (features : MarketFeatures) (now_ts : float) (stolen_none : list (string * string))
    : result (list (Signal * SignalTrace) * list (string * string) * Composer) :=
  match in_lineage lineage batch with
  | [] => Ok ([], stolen_none, c)
  | lineage_batch =>
      let lineage_recent := in_lineage lineage recent in
      let none_target := resolve_none_target lineage_batch lineage_recent (live_dirs c symbol lineage) in
      let compose_recent := events_for_partition c symbol lineage lineage_recent lineage_batch none_target in
      compose_episodes c symbol lineage (ev_id <$> batch)
        (partition_lineage_episodes compose_recent none_target) features now_ts stolen_none
  end.

Definition consume_symbol (c : Composer) (symbol : string) (batch : list MarketEvent) (features : MarketFeatures)
    : result (list (Signal * SignalTrace) * Composer) :=
  match batch with
  | [] => Err (ValueError "max() arg is an empty sequence")
  | e :: rest =>
      let now_ts := builtin_max (ev_market_ts e) (ev_market_ts <$> rest) in
      let history := default [] (cp_accepted c !! symbol) ++ batch in
      let recent := fresh_events (fsub now_ts lookback_s) history in
      let c := set_accepted c (<[symbol := recent]> (cp_accepted c)) in
      let c := prune_active lookback_s c now_ts in
      '(p1, stolen_none, c) ← consume_lineage c symbol "tape" batch recent features now_ts [];
      '(p2, _, c) ← consume_lineage c symbol "vwap" batch recent features now_ts stolen_none;
      Ok (p1 ++ p2, c)
  end.

(** ** [consume_batch], [consume] *)
Fixpoint consume_symbols (c : Composer) (by_symbol : list (string * list MarketEvent)) (features : MarketFeatures)
    : result (list (Signal * SignalTrace) * Composer) :=
  match by_symbol with
  | [] => Ok ([], c)
  | (symbol, batch) :: by_symbol =>
      '(p, c) ← consume_symbol c symbol batch features;
      '(rest, c) ← consume_symbols c by_symbol features;
      Ok (p ++ rest, c)
  end.

Definition group_by_symbol (events : list MarketEvent) : list (string * list MarketEvent) :=
  foldl (fun d e => od_set (ev_symbol e) (default [] (od_get (ev_symbol e) d) ++ [e]) d) [] events.

Definition consume_batch (c : Composer) (events : list MarketEvent) (features : MarketFeatures)
    : result (list (Signal * SignalTrace) * Composer) :=
  consume_symbols c (group_by_symbol events) features.

Definition consume (c : Composer) (event : MarketEvent) (features : MarketFeatures)
    : result (Signal * SignalTrace * Composer) :=
  '(produced, c) ← consume_batch c [event] features;
  match filter (fun p => ev_id event ∈ sig_event_ids p.1) produced with
  | p :: _ => Ok (p.1, p.2, c)
  | [] => Err (RuntimeError "accepted event was not composed into a signal")
  end.
End composer.

(** ** Invariant

    [seen lineage id] holds of the event ids the composer has been given in that lineage. *)
Section invariant.
Context (lookback_s : float) (uuids : nat -> string) (wall : nat -> float).

Definition trace_matches (s : Signal) (t : SignalTrace) : Prop :=
  tr_signal_id t = sig_id s /\ tr_event_ids t = sig_event_ids s /\ tr_family t = sig_family s /\
  tr_direction t = sig_direction s /\ tr_priority t = sig_priority s /\
  tr_detected_ts t = sig_detected_ts s /\ tr_created_ts t = sig_created_ts s.

Record row_ok (seen : string -> string -> Prop) (c : Composer) (k : EpisodeKey) (s : Signal) : Prop := {
  ro_trace : exists t, cp_traces c !! sig_id s = Some t /\ trace_matches s t;
  ro_symbol : k.1.1 = sig_symbol s;
  ro_direction : k.2 = sig_direction s;
  ro_id : exists i, (i < cp_uuid c)%nat /\ sig_id s = uuids i;
  ro_events : forall x, x ∈ sig_event_ids s -> seen k.1.2 x
}.

Record composer_wf (seen : string -> string -> Prop) (c : Composer) : Prop := {
  cw_keys : NoDup (cp_active c).*1;
  cw_rows : forall k s, (k, s) ∈ cp_active c -> row_ok seen c k s;
  cw_ids : forall k s k' s', (k, s) ∈ cp_active c -> (k', s') ∈ cp_active c -> sig_id s = sig_id s' -> k = k';
  cw_home : forall id k, cp_home c !! id = Some k -> seen k.1.2 id;
  cw_acc : forall sym l e, cp_accepted c !! sym = Some l -> e ∈ l ->
    seen (lineage_of (ev_type e)) (ev_id e) /\ ev_symbol e = sym
}.

Lemma composer_init_wf seen : composer_wf seen composer_init.
Proof.
  split; cbn.
  - constructor.
  - intros k s H. by apply elem_of_nil in H.
  - intros k s k' s' H. by apply elem_of_nil in H.
  - intros id k. by rewrite lookup_empty.
  - intros sym l e. by rewrite lookup_empty.
Qed.

Lemma row_ok_seen (seen seen' : string -> string -> Prop) c k s : (forall l x, seen l x -> seen' l x) -> row_ok seen c k s -> row_ok seen' c k s.
Proof. intros Hs []. split; auto. Qed.

Lemma composer_wf_seen (seen seen' : string -> string -> Prop) c : (forall l x, seen l x -> seen' l x) -> composer_wf seen c -> composer_wf seen' c.
Proof.
  intros Hs [K R I H A]. split; [done| |done| |].
  - intros k s Hin. eapply row_ok_seen; [exact Hs|auto].
  - intros id k Hk. apply Hs. eauto.
  - intros sym l e Hl He. destruct (A sym l e Hl He). auto.
Qed.

Lemma unhome_sub key ids home id k : unhome key ids home !! id = Some k -> home !! id = Some k.
Proof.
  unfold unhome. revert home. induction ids as [|x ids IH]; intros home; cbn [foldl]; [done|].
  intros H%IH. case_decide; [|done]. by apply lookup_delete_Some in H as [_ H].
Qed.

(** Pruning a row keeps the invariant and the other rows. *)
Lemma prune_one_wf seen c k s : composer_wf seen c -> (k, s) ∈ cp_active c -> composer_wf seen (prune_one c (k, s)).
Proof.
  intros [K R I H A] Hin. unfold prune_one, set_active, set_traces, set_home. cbn.
  split; cbn.
  - by apply od_del_nodup.
  - intros k' s' [Hk Hin']%elem_of_od_del; [|done]. destruct (R k' s' Hin') as [(t & Ht & Hm) Hs Hd Hi He].
    split; cbn; try done. exists t. split; [|done]. rewrite lookup_delete_ne; [done|].
    intros E. apply Hk. exact (I _ _ _ _ Hin' Hin (eq_sym E)).
  - intros k1 s1 k2 s2 [_ H1]%elem_of_od_del [_ H2]%elem_of_od_del; [|done..]. eauto.
  - intros id k' Hk'%unhome_sub. eauto.
  - done.
Qed.

Lemma prune_rows_wf seen rows : forall c, composer_wf seen c -> NoDup rows.*1 -> (forall r, r ∈ rows -> r ∈ cp_active c) ->
  let c' := foldl prune_one c rows in
  composer_wf seen c' /\ cp_accepted c' = cp_accepted c /\ cp_uuid c' = cp_uuid c /\ cp_clock c' = cp_clock c /\
  (forall k s, (k, s) ∈ cp_active c' <-> (k, s) ∈ cp_active c /\ k ∉ rows.*1).
Proof.
  induction rows as [|[k s] rows IH]; intros c W Hnd Hin; cbn [foldl].
  - split_and!; [done..|]. intros k s. cbn. set_solver.
  - cbn in Hnd. apply NoDup_cons in Hnd as [Hk Hnd].
    pose proof (prune_one_wf seen c k s W ltac:(apply Hin; by left)) as W'.
    destruct (IH _ W' Hnd) as (W2 & E1 & E2 & E3 & E4).
    { intros [k' s'] Hr. cbn. apply elem_of_od_del; [apply W|]. split; [|apply Hin; by right].
      intros ->. apply Hk. apply list_elem_of_fmap. by exists (k, s'). }
    split; [done|]. split; [by rewrite E1|]. split; [by rewrite E2|]. split; [by rewrite E3|].
    intros k' s'. rewrite E4. cbn. rewrite elem_of_od_del by apply W. rewrite not_elem_of_cons. naive_solver.
Qed.

Lemma prune_active_spec seen c now_ts : composer_wf seen c ->
  let c' := prune_active lookback_s c now_ts in
  composer_wf seen c' /\ cp_accepted c' = cp_accepted c /\ cp_uuid c' = cp_uuid c /\ cp_clock c' = cp_clock c /\
  (forall k s, (k, s) ∈ cp_active c' <->
     (k, s) ∈ cp_active c /\ flt (sig_market_ts s) (fsub now_ts lookback_s) = false).
Proof.
  intros W. unfold prune_active. cbn zeta. set (rows := filter _ (cp_active c)).
  destruct (prune_rows_wf seen rows c W) as (W' & E1 & E2 & E3 & E4).
  { eapply sublist_NoDup; [apply (cw_keys _ _ W)|]. apply fmap_sublist. apply sublist_filter. }
  { intros r Hr. by apply list_elem_of_filter in Hr as [_ Hr]. }
  split_and!; [done..|]. intros k s. rewrite E4. split; intros [Hin Hr]; (split; [done|]).
  - apply not_true_is_false. intros E. apply Hr. apply list_elem_of_fmap. exists (k, s).
    split; [done|]. by apply list_elem_of_filter.
  - intros ([k' s'] & -> & [F Hin']%list_elem_of_filter)%list_elem_of_fmap. cbn in *.
    pose proof (od_elem_get _ _ _ (cw_keys _ _ W) Hin). pose proof (od_elem_get _ _ _ (cw_keys _ _ W) Hin').
    congruence.
Qed.

(** Only homes in the lineage at hand are assigned. *)
Definition home_frame (lineage : string) (c c' : Composer) : Prop :=
  forall id k, cp_home c' !! id = Some k -> k.1.2 = lineage \/ cp_home c !! id = Some k.

Lemma home_frame_trans lineage c1 c2 c3 : home_frame lineage c1 c2 -> home_frame lineage c2 c3 -> home_frame lineage c1 c3.
Proof. intros H1 H2 id k [?|H]%H2; [by left|]. by apply H1. Qed.

(** Which rows an identity resolution may drop: only the direction-less sibling it adopts. *)
Definition dropped_none (symbol lineage : string) (direction : EventDirection)
    (old new : list (EpisodeKey * Signal)) : Prop :=
  new = old \/ (direction <> NONE /\ new = od_del (symbol, lineage, NONE) old).

Lemma home_fold_in (k0 : EpisodeKey) ids : forall (h : gmap string EpisodeKey) id k,
  foldl (fun h id => <[id := k0]> h) h ids !! id = Some k -> (k = k0 /\ id ∈ ids) \/ h !! id = Some k.
Proof.
  induction ids as [|x ids IH]; intros h id k; cbn [foldl]; [auto|]. intros [[-> H]|H]%IH; [left; split; [done|by right]|].
  destruct (decide (x = id)) as [->|Hx]; [|right; by rewrite lookup_insert_ne in H].
  rewrite lookup_insert_eq in H. simplify_eq. left. split; [done|by left].
Qed.

Hypothesis uuids_inj : Inj (=) (=) uuids.

Lemma row_ok_draw seen c k s : row_ok seen c k s -> row_ok seen (draw c) k s.
Proof. intros [T ? ? (i & Hi & E) ?]. split; try done. exists i. cbn. split; [lia|done]. Qed.

Lemma draw_wf seen c : composer_wf seen c -> composer_wf seen (draw c).
Proof. intros [K R I H A]. split; try done. intros k s Hin. by apply row_ok_draw, R. Qed.

Lemma resolve_identity_spec seen c symbol lineage direction now_ts stolen : composer_wf seen c ->
  exists id created stolen' c',
    resolve_identity lookback_s uuids wall c symbol lineage direction now_ts stolen = (id, created, stolen', c') /\
    composer_wf seen c' /\ cp_accepted c' = cp_accepted c /\ cp_traces c' = cp_traces c /\
    dropped_none symbol lineage direction (cp_active c) (cp_active c') /\
    (exists i, (i < cp_uuid c')%nat /\ id = uuids i) /\
    (forall k s, (k, s) ∈ cp_active c' -> sig_id s = id -> k = (symbol, lineage, direction)) /\
    home_frame lineage c c'.
Proof.
  intros W. unfold resolve_identity. cbn zeta.
  assert (F : exists id created stolen' c',
    (uuids (cp_uuid c), wall (cp_clock c), stolen, draw c) = (id, created, stolen', c') /\
    composer_wf seen c' /\ cp_accepted c' = cp_accepted c /\ cp_traces c' = cp_traces c /\
    dropped_none symbol lineage direction (cp_active c) (cp_active c') /\
    (exists i, (i < cp_uuid c')%nat /\ id = uuids i) /\
    (forall k s, (k, s) ∈ cp_active c' -> sig_id s = id -> k = (symbol, lineage, direction)) /\
    home_frame lineage c c').
  { do 4 eexists. split; [done|]. split; [by apply draw_wf|]. split; [done|]. split; [done|].
    split; [by left|]. split; [exists (cp_uuid c); cbn; split; [lia|done]|].
    split; [|by right]. cbn. intros k s Hin E. destruct (ro_id _ _ _ _ (cw_rows _ _ W _ _ Hin)) as (i & Hi & E'). rewrite E' in E.
    apply uuids_inj in E. lia. }
  assert (S : exists id created stolen' c',
    (if bool_decide (direction <> NONE) && bool_decide ((symbol, lineage) ∉ stolen) then
      match od_get (symbol, lineage, NONE) (cp_active c) with
      | Some none_signal =>
          if fle (fsub now_ts lookback_s) (sig_market_ts none_signal) then
            (sig_id none_signal, sig_created_ts none_signal, (symbol, lineage) :: stolen,
             set_home (set_active c (od_del (symbol, lineage, NONE) (cp_active c)))
               (foldl (fun h id => <[id := (symbol, lineage, direction)]> h)
                  (cp_home (set_active c (od_del (symbol, lineage, NONE) (cp_active c)))) (sig_event_ids none_signal)))
          else (uuids (cp_uuid c), wall (cp_clock c), stolen, draw c)
      | None => (uuids (cp_uuid c), wall (cp_clock c), stolen, draw c)
      end
    else (uuids (cp_uuid c), wall (cp_clock c), stolen, draw c)) = (id, created, stolen', c') /\
    composer_wf seen c' /\ cp_accepted c' = cp_accepted c /\ cp_traces c' = cp_traces c /\
    dropped_none symbol lineage direction (cp_active c) (cp_active c') /\
    (exists i, (i < cp_uuid c')%nat /\ id = uuids i) /\
    (forall k s, (k, s) ∈ cp_active c' -> sig_id s = id -> k = (symbol, lineage, direction)) /\
    home_frame lineage c c').
  { destruct (bool_decide (direction <> NONE) && _) eqn:B; [|exact F].
    apply andb_prop in B as [B _]. apply bool_decide_eq_true in B.
    destruct (od_get _ _) as [ns|] eqn:E; [|exact F]. destruct (fle _ _); [|exact F].
    apply od_get_elem in E. pose proof (cw_rows _ _ W _ _ E) as Rn. destruct W as [K R I H A].
    do 4 eexists. split; [done|]. cbn. split; [split; cbn|].
    - by apply od_del_nodup.
    - intros k s [_ Hin]%elem_of_od_del; [|done]. destruct (R k s Hin). by split.
    - intros k1 s1 k2 s2 [_ H1]%elem_of_od_del [_ H2]%elem_of_od_del; [|done..]. eauto.
    - intros id k [[-> Hid]|Hh]%home_fold_in; [by apply (ro_events _ _ _ _ Rn)|eauto].
    - done.
    - split; [done|]. split; [done|]. split; [by right|].
      split; [destruct (ro_id _ _ _ _ Rn) as (i & ? & ?); eauto|].
      split; [intros k s [Hk Hin]%elem_of_od_del Es; [|done]; destruct Hk; eauto|].
      intros id k [[-> _]|Hh]%home_fold_in; [by left|by right]. }
  destruct (od_get (symbol, lineage, direction) (cp_active c)) as [ex|] eqn:E; [|exact S].
  destruct (fle _ (sig_market_ts ex)); [|exact S]. apply od_get_elem in E.
  do 4 eexists. split; [done|]. split; [done|]. split; [done|]. split; [done|]. split; [by left|].
  split; [destruct (ro_id _ _ _ _ (cw_rows _ _ W _ _ E)) as (i & ? & ?); eauto|].
  split; [|by right]. intros k s Hin Es. exact (cw_ids _ _ W _ _ _ _ Hin E Es).
Qed.

Lemma home_fold_members (k0 : EpisodeKey) (es : list MarketEvent) (h : gmap string EpisodeKey) id k :
  foldl (fun h e => <[ev_id e := k0]> h) h es !! id = Some k -> (k = k0 /\ id ∈ ev_id <$> es) \/ h !! id = Some k.
Proof.
  revert h. induction es as [|x es IH]; intros h; cbn [foldl]; [auto|].
  intros [[-> H]|H]%IH; [left; split; [done|by right]|].
  destruct (decide (ev_id x = id)) as [<-|Hx]; [|right; by rewrite lookup_insert_ne in H].
  rewrite lookup_insert_eq in H. simplify_eq. left. split; [done|by left].
Qed.

(** What one composed episode is. *)
Record episode_of (symbol lineage : string) (direction : EventDirection) (members : list MarketEvent)
    (features : MarketFeatures) (s : Signal) (t : SignalTrace) : Prop := {
  eq_ids : sig_event_ids s = ev_id <$> members;
  eq_symbol : sig_symbol s = symbol;
  eq_family : sig_family s = classify_family members;
  eq_direction : sig_direction s = direction;
  eq_priority : exists reason, compose_priority members (classify_family members) = Ok (sig_priority s, reason);
  eq_text : render_copy members (classify_family members) features = Ok (sig_title s, sig_summary s);
  eq_times : exists latest, last members = Some latest /\ sig_market_ts s = ev_market_ts latest /\
    sig_received_ts s = ev_received_ts latest /\ sig_detected_ts s = ev_detected_ts latest;
  eq_trace : trace_matches s t /\ tr_features t = features /\ tr_rule_names t = ev_rule_name <$> members
}.

(** Composing never raises on a non-empty episode, keeps the invariant, stores the
    signal and its trace, and touches no other row but an adopted direction-less one. *)
Lemma compose_episode_spec seen c symbol lineage direction members features now_ts stolen :
  composer_wf seen c -> members <> [] -> (forall e, e ∈ members -> seen lineage (ev_id e)) ->
  exists s t stolen' c',
    compose_episode lookback_s uuids wall c symbol lineage direction members features now_ts stolen
      = Ok (s, t, stolen', c') /\
    composer_wf seen c' /\ cp_accepted c' = cp_accepted c /\
    episode_of symbol lineage direction members features s t /\
    od_get (symbol, lineage, direction) (cp_active c') = Some s /\ cp_traces c' !! sig_id s = Some t /\
    (forall k, k <> (symbol, lineage, direction) -> (direction = NONE \/ k <> (symbol, lineage, NONE)) ->
       od_get k (cp_active c') = od_get k (cp_active c)) /\
    (forall k s', (k, s') ∈ cp_active c' -> k <> (symbol, lineage, direction) ->
       cp_traces c' !! sig_id s' = cp_traces c !! sig_id s') /\
    home_frame lineage c c'.
Proof.
  intros W Hne Hseen. unfold compose_episode.
  destruct (resolve_identity_spec seen c symbol lineage direction now_ts stolen W)
    as (id & created & stolen' & c1 & -> & W1 & Ea & Et & Hd & (i & Hi & Eid) & Huniq & Hhome).
  destruct members as [|e l]; [done|]. cbn zeta.
  destruct (compose_priority_rank e l) as (p & reason & Ep & _). rewrite Ep. cbn [mbind result_bind].
  destruct (episode_total e l features) as (_ & _ & Ok2).
  destruct (render_copy (e :: l) (classify_family (e :: l)) features) as [[title summary]|] eqn:Er; [|done].
  cbn [mbind result_bind]. destruct (last (e :: l)) as [latest|] eqn:El; [|by apply last_None in El].
  cbn [of_option mbind result_bind].
  set (key := (symbol, lineage, direction)) in *.
  set (s := mkSignal id _ symbol _ direction p title summary RULE _ _ _ created None).
  set (t := mkTrace id _ _ features _ direction p reason _ created).
  set (home' := foldl (fun h e => <[ev_id e := key]> h) (cp_home c1) (e :: l)).
  exists s, t, stolen'. eexists. split; [done|]. destruct W1 as [K R I H A].
  assert (Hset : forall k s', (k, s') ∈ od_set key s (cp_active c1) <->
    (k = key /\ s' = s) \/ (k <> key /\ (k, s') ∈ cp_active c1)) by (intros; by apply elem_of_od_set).
  assert (Hother : forall k s', k <> key -> (k, s') ∈ cp_active c1 -> sig_id s' <> id).
  { intros k s' Hk Hin E. apply Hk. by apply (Huniq k s'). }
  split; [split; cbn|].
  - by apply od_set_nodup.
  - intros k s' [[-> ->]|[Hk Hin]]%Hset.
    + split; cbn; try done.
      * exists t. split; [by rewrite lookup_insert_eq|]. by split_and!.
      * by exists i.
      * intros x Hx. change (x ∈ ev_id <$> (e :: l)) in Hx. apply list_elem_of_fmap in Hx as (e' & -> & He'). by apply Hseen.
    + destruct (R k s' Hin) as [(t' & Ht' & Hm) ? ? ? ?]. split; cbn; try done. exists t'. split; [|done].
      rewrite lookup_insert_ne; [done|]. intros E. by apply (Hother k s').
  - intros k1 s1 k2 s2 [[-> ->]|[Hk1 H1]]%Hset [[-> ->]|[Hk2 H2]]%Hset E; cbn in E; [done| | |eauto].
    + exfalso. by apply (Hother k2 s2).
    + exfalso. by apply (Hother k1 s1).
  - intros id' k Hk. destruct (home_fold_members key (e :: l) (cp_home c1) id' k Hk) as [[-> Hin]|Hh]; [|eauto].
    apply list_elem_of_fmap in Hin as (e' & -> & He'). by apply Hseen.
  - done.
  - split; [done|]. split.
    { split; cbn; try done; [by eexists|by exists latest]. }
    split; [cbn; rewrite od_get_set; by rewrite decide_True|]. split; [cbn; by rewrite lookup_insert_eq|]. split; [|split].
    + intros k Hk Hnone. cbn. rewrite od_get_set, decide_False by congruence.
      destruct Hd as [->|[Hdir ->]]; [done|]. rewrite od_get_del by apply W.
      rewrite decide_False; [done|]. intros <-. by destruct Hnone.
    + intros k s' [[-> ->]|[Hk Hin]]%Hset Hk'; [done|]. cbn. rewrite lookup_insert_ne, Et; [done|].
      intros E. by apply (Hother k s').
    + intros id' k Hk. destruct (home_fold_members key (e :: l) (cp_home c1) id' k Hk) as [[-> _]|Hh]; [by left|].
      by apply Hhome.
Qed.

(** Rows that composing the episodes [ds] of (symbol, lineage) cannot touch. *)
Definition untouched (symbol lineage : string) (ds : list EventDirection) (k : EpisodeKey) : Prop :=
  (k.1 <> (symbol, lineage)) \/ ((k.2 ∉ ds) /\ (k.2 <> NONE \/ ds = [])).

Definition stored (c : Composer) (lineage : string) (p : Signal * SignalTrace) : Prop :=
  od_get (sig_symbol p.1, lineage, sig_direction p.1) (cp_active c) = Some p.1 /\
  cp_traces c !! sig_id p.1 = Some p.2.

Definition kept (c c' : Composer) (k : EpisodeKey) : Prop := forall s, od_get k (cp_active c) = Some s ->
  od_get k (cp_active c') = Some s /\ cp_traces c' !! sig_id s = cp_traces c !! sig_id s.

Lemma kept_trans c1 c2 c3 k : kept c1 c2 k -> kept c2 c3 k -> kept c1 c3 k.
Proof. intros H1 H2 s Hs. destruct (H1 s Hs) as [E1 T1]. destruct (H2 s E1) as [E2 T2]. split; congruence. Qed.

Lemma kept_refl c k : kept c c k.
Proof. by intros s Hs. Qed.

Lemma stored_kept c c' lineage p : kept c c' (sig_symbol p.1, lineage, sig_direction p.1) ->
  stored c lineage p -> stored c' lineage p.
Proof. intros K [E T]. destruct (K _ E) as [E' T']. split; [done|]. by rewrite T'. Qed.

Lemma directions_nodup : NoDup [UP; DOWN; NONE].
Proof. by apply (bool_decide_unpack _). Qed.

Lemma sublist_none_last ds : (NONE :: ds) `sublist_of` [UP; DOWN; NONE] -> ds = [].
Proof.
  intros H. repeat match goal with
    | H : _ `sublist_of` _ |- _ => inversion H; subst; clear H
    end; done.
Qed.

Definition has_new (new_ids : list string) (ep : EventDirection * list MarketEvent) : bool :=
  existsb (fun e => bool_decide (ev_id e ∈ new_ids)) ep.2.

Lemma compose_episodes_spec seen symbol lineage new_ids features now_ts eps : forall c stolen,
  composer_wf seen c -> eps.*1 `sublist_of` [UP; DOWN; NONE] ->
  (forall d m, (d, m) ∈ eps -> m <> [] /\ forall e, e ∈ m -> seen lineage (ev_id e)) ->
  exists ps stolen' c',
    compose_episodes lookback_s uuids wall c symbol lineage new_ids eps features now_ts stolen
      = Ok (ps, stolen', c') /\
    composer_wf seen c' /\ cp_accepted c' = cp_accepted c /\
    Forall2 (fun ep p => episode_of symbol lineage ep.1 ep.2 features p.1 p.2)
      (filter (fun ep => has_new new_ids ep = true) eps) ps /\
    Forall (stored c' lineage) ps /\
    (forall k, untouched symbol lineage eps.*1 k -> kept c c' k) /\
    home_frame lineage c c'.
Proof.
  induction eps as [|[d m] eps IH]; intros c stolen W Hsub Hm; cbn [compose_episodes].
  { exists [], stolen, c. split_and!; try done. by right. }
  destruct (Hm d m ltac:(by left)) as [Hne Hs].
  assert (Hsub' : eps.*1 `sublist_of` [UP; DOWN; NONE]) by (etransitivity; [|exact Hsub]; by apply sublist_cons).
  assert (Hm' : forall d m, (d, m) ∈ eps -> m <> [] /\ forall e, e ∈ m -> seen lineage (ev_id e)).
  { intros d' m' Hin. apply (Hm d' m'). by right. }
  assert (Hu : forall k, untouched symbol lineage ((d, m) :: eps).*1 k -> untouched symbol lineage eps.*1 k).
  { intros k [?|[Hk [?|?]]]; [by left|right|done]. cbn in Hk. rewrite not_elem_of_cons in Hk. split; [tauto|auto]. }
  rewrite filter_cons. change (existsb _ m) with (has_new new_ids (d, m)).
  destruct (has_new new_ids (d, m)) eqn:Hn.
  - destruct (compose_episode_spec seen c symbol lineage d m features now_ts stolen W Hne Hs)
      as (s & t & st1 & c1 & -> & W1 & A1 & Ep & G1 & T1 & F1 & FT1 & H1). cbn [mbind result_bind].
    destruct (IH c1 st1 W1 Hsub' Hm') as (ps & st2 & c2 & -> & W2 & A2 & P2 & S2 & F2 & H2). cbn [mbind result_bind].
    assert (K1 : forall k, untouched symbol lineage ((d, m) :: eps).*1 k -> kept c c1 k).
    { intros k Hk s' Hs'. assert (Hkk : k <> (symbol, lineage, d) /\ (d = NONE \/ k <> (symbol, lineage, NONE))).
      { destruct Hk as [Hk|[Hk1 [Hk2|Hk2]]]; [|cbn in Hk1; rewrite not_elem_of_cons in Hk1|done].
        - split; [|right]; intros ->; done.
        - split; [|right]; intros ->; naive_solver. }
      destruct Hkk as [Hk1 Hk2]. pose proof (F1 k Hk1 Hk2) as E. rewrite Hs' in E. split; [done|].
      apply (FT1 k); [by apply od_get_elem|done]. }
    exists ((s, t) :: ps), st2, c2. split; [done|]. split; [done|]. split; [congruence|].
    split; [rewrite decide_True by done; by constructor|]. split.
    + constructor; [|done]. apply (stored_kept c1).
      * apply F2. cbn. rewrite (eq_symbol _ _ _ _ _ _ _ Ep), (eq_direction _ _ _ _ _ _ _ Ep). right. cbn.
        cbn in Hsub. pose proof (sublist_NoDup _ _ directions_nodup Hsub) as N.
        apply NoDup_cons in N as [N _]. split; [done|].
        destruct (decide (d = NONE)) as [->|]; [right; by apply sublist_none_last|by left].
      * split; cbn; [|done]. by rewrite (eq_symbol _ _ _ _ _ _ _ Ep), (eq_direction _ _ _ _ _ _ _ Ep).
    + split; [|by eapply home_frame_trans]. intros k Hk. eapply kept_trans; [by apply K1|]. apply F2. by apply Hu.
  - destruct (IH c stolen W Hsub' Hm') as (ps & st2 & c2 & -> & W2 & A2 & P2 & S2 & F2 & H2).
    exists ps, st2, c2. split; [done|]. split; [done|]. split; [done|].
    split; [by rewrite decide_False by done|]. split; [done|]. split; [|done]. intros k Hk. apply F2. by apply Hu.
Qed.

(** ** One lineage *)
Lemma elem_of_in_lineage e lineage l : e ∈ in_lineage lineage l <-> lineage_of (ev_type e) = lineage /\ e ∈ l.
Proof. unfold in_lineage. by rewrite list_elem_of_filter. Qed.

Lemma consume_lineage_spec seen c symbol lineage batch recent features now_ts stolen :
  composer_wf seen c -> (forall e, e ∈ recent -> seen (lineage_of (ev_type e)) (ev_id e)) ->
  exists ps stolen' c',
    consume_lineage lookback_s uuids wall c symbol lineage batch recent features now_ts stolen = Ok (ps, stolen', c') /\
    composer_wf seen c' /\ cp_accepted c' = cp_accepted c /\
    Forall (stored c' lineage) ps /\ Forall (fun p => sig_symbol p.1 = symbol) ps /\
    NoDup (sig_direction <$> ps.*1) /\
    (forall k, k.1 <> (symbol, lineage) -> kept c c' k) /\
    home_frame lineage c c' /\
    (forall p, p ∈ ps -> exists members, episode_of symbol lineage (sig_direction p.1) members features p.1 p.2 /\
       forall e, e ∈ members -> e ∈ recent /\ lineage_of (ev_type e) = lineage) /\
    (forall e, e ∈ batch -> e ∈ recent -> lineage_of (ev_type e) = lineage ->
       ev_direction e <> NONE \/ cp_home c !! ev_id e = None ->
       exists p, p ∈ ps /\ ev_id e ∈ sig_event_ids p.1).
Proof.
  intros W Hseen. unfold consume_lineage.
  destruct (in_lineage lineage batch) as [|b0 lb] eqn:Eb.
  { exists [], stolen, c. split_and!; try done; try by constructor.
    - intros p Hp. by apply elem_of_nil in Hp.
    - intros e Hb _ Hl _. assert (He : e ∈ in_lineage lineage batch) by by apply elem_of_in_lineage.
      rewrite Eb in He. by apply elem_of_nil in He. }
  rewrite <- Eb. cbn zeta. set (batch_l := in_lineage lineage batch).
  set (recent_l := in_lineage lineage recent). set (nt := resolve_none_target _ _ _).
  set (sel := events_for_partition c symbol lineage recent_l batch_l nt).
  set (eps := partition_lineage_episodes sel nt).
  assert (Hsel : forall e, e ∈ sel -> e ∈ recent /\ lineage_of (ev_type e) = lineage).
  { intros e [_ He]%list_elem_of_filter. by apply elem_of_in_lineage in He as [? ?]. }
  assert (Heps : forall d m, (d, m) ∈ eps -> m <> [] /\ forall e, e ∈ m -> e ∈ sel).
  { intros d m Hin. destruct (partition_in _ _ _ _ Hin) as [Hne He]. split; [done|]. intros e Hel. by apply He. }
  pose proof (partition_directions sel nt) as Hsub. fold eps in Hsub.
  destruct (compose_episodes_spec seen symbol lineage (ev_id <$> batch) features now_ts eps c stolen W Hsub)
    as (ps & st & c' & -> & W' & A' & P' & S' & F' & H').
  { intros d m Hin. destruct (Heps d m Hin) as [Hne He]. split; [done|]. intros e Hel.
    destruct (Hsel e (He e Hel)) as [Hr <-]. by apply Hseen. }
  set (live := filter (fun ep => has_new (ev_id <$> batch) ep = true) eps) in *.
  assert (Hdirs : sig_direction <$> ps.*1 = live.*1).
  { clear - P'. induction P' as [|ep p eps' ps Hp P IH]; [done|]. cbn. rewrite IH. f_equal.
    by apply (eq_direction _ _ _ _ _ _ _ Hp). }
  exists ps, st, c'. split; [done|]. split; [done|]. split; [done|]. split; [done|]. split.
  { clear - P'. induction P' as [|ep p eps' ps Hp P IH]; constructor; [|done].
    by apply (eq_symbol _ _ _ _ _ _ _ Hp). }
  split.
  { rewrite Hdirs. eapply sublist_NoDup; [|etransitivity; [apply fmap_sublist, sublist_filter|exact Hsub]].
    apply directions_nodup. }
  split; [intros k Hk; apply F'; by left|]. split; [done|]. split.
  - intros p Hp. apply list_elem_of_lookup in Hp as (i & Hi).
    destruct (Forall2_lookup_r _ _ _ _ _ P' Hi) as ([d m] & Hl & Hep). cbn in Hep.
    exists m. rewrite (eq_direction _ _ _ _ _ _ _ Hep). split; [done|].
    apply list_elem_of_lookup_2, list_elem_of_filter in Hl as [_ Hl].
    destruct (Heps d m Hl) as [_ He]. intros e Hel. by apply Hsel, He.
  - intros e Hb Hr Hl Hfree.
    assert (Hin : e ∈ sel).
    { apply list_elem_of_filter. split; [|by apply elem_of_in_lineage]. unfold selects.
      destruct (decide (ev_direction e = NONE)); [|done]. destruct Hfree as [|Hfree]; [done|]. rewrite Hfree.
      apply bool_decide_eq_true. apply list_elem_of_fmap. exists e. split; [done|]. by apply elem_of_in_lineage. }
    assert (Hc : e ∈ concat eps.*2) by (unfold eps; by rewrite partition_perm).
    apply list_elem_of_In, in_concat in Hc as (m & Hm%list_elem_of_In & Hem%list_elem_of_In). apply list_elem_of_fmap in Hm as ([d m'] & -> & Hdm). cbn in Hem.
    assert (Hlive : (d, m') ∈ live).
    { apply list_elem_of_filter. split; [|done]. unfold has_new. apply existsb_exists. exists e.
      split; [by apply list_elem_of_In|]. apply bool_decide_eq_true. by apply list_elem_of_fmap_2. }
    apply list_elem_of_lookup in Hlive as (i & Hi).
    destruct (Forall2_lookup_l _ _ _ _ _ P' Hi) as (p & Hp & Hep). exists p.
    split; [by apply list_elem_of_lookup_2 in Hp|]. rewrite (eq_ids _ _ _ _ _ _ _ Hep). by apply list_elem_of_fmap_2.
Qed.

(** ** One symbol *)
Lemma prune_active_home c now_ts id k : cp_home (prune_active lookback_s c now_ts) !! id = Some k -> cp_home c !! id = Some k.
Proof.
  unfold prune_active. cbn zeta. generalize (filter (fun row : EpisodeKey * Signal => flt (sig_market_ts row.2) (fsub now_ts lookback_s) = true) (cp_active c)).
  intros rows. revert c. induction rows as [|[k0 s] rows IH]; intros c; cbn [foldl]; [done|].
  intros H%IH. cbn in H. by apply unhome_sub in H.
Qed.

Definition seen_after (seen : string -> string -> Prop) (batch : list MarketEvent) : string -> string -> Prop :=
  fun lineage x => seen lineage x \/ exists e, e ∈ batch /\ lineage_of (ev_type e) = lineage /\ ev_id e = x.

Lemma builtin_max_same t l : Forall (fun x => x = t) l -> builtin_max t l = t.
Proof.
  unfold builtin_max. induction 1 as [|x l -> Hl IH]; [done|]. cbn [foldl].
  assert (fmax t t = t) as -> by (unfold fmax; by destruct (flt t t)). done.
Qed.

(** A batch as the detector produces it: one symbol, one market time, new distinct ids. *)
Record batch_ok (seen : string -> string -> Prop) (symbol : string) (t : float) (batch : list MarketEvent) : Prop := {
  bk_symbol : Forall (fun e => ev_symbol e = symbol) batch;
  bk_time : Forall (fun e => ev_market_ts e = t) batch;
  bk_ids : NoDup (ev_id <$> batch);
  bk_fresh : forall e lineage, e ∈ batch -> ~ seen lineage (ev_id e)
}.

Definition from_lookback (symbol lineage : string) (t : float) (features : MarketFeatures) (p : Signal * SignalTrace)
    (recent : list MarketEvent) : Prop :=
  exists members, episode_of symbol lineage (sig_direction p.1) members features p.1 p.2 /\
    forall e, e ∈ members -> e ∈ recent /\ lineage_of (ev_type e) = lineage /\ ev_symbol e = symbol /\
      fle (fsub t lookback_s) (ev_market_ts e) = true.

Lemma lineage_cases ty : lineage_of ty = "tape" \/ lineage_of ty = "vwap".
Proof. unfold lineage_of. case_decide; auto. Qed.

Lemma consume_symbol_spec seen c symbol t batch features : composer_wf seen c -> batch <> [] ->
  fin lookback_s -> 0 <= fval lookback_s -> fin t -> batch_ok seen symbol t batch ->
  exists ps c',
    consume_symbol lookback_s uuids wall c symbol batch features = Ok (ps, c') /\
    composer_wf (seen_after seen batch) c' /\
    cp_accepted c' = <[symbol := fresh_events (fsub t lookback_s) (default [] (cp_accepted c !! symbol) ++ batch)]> (cp_accepted c) /\
    NoDup (sig_id <$> ps.*1) /\
    (forall p, p ∈ ps -> exists lineage, stored c' lineage p /\ sig_symbol p.1 = symbol /\
       from_lookback symbol lineage t features p (default [] (cp_accepted c' !! symbol))) /\
    (forall e, e ∈ batch -> exists p, p ∈ ps /\ ev_id e ∈ sig_event_ids p.1).
Proof.
  intros W Hne Fl Hl Ft [Bs Bt Bi Bf]. unfold consume_symbol. destruct batch as [|b0 batch0]; [done|].
  set (batch := b0 :: batch0) in *. cbn zeta.
  assert (Enow : builtin_max (ev_market_ts b0) (ev_market_ts <$> batch0) = t).
  { apply Forall_cons in Bt as [E Bt]. rewrite E. apply builtin_max_same. by apply Forall_fmap. }
  rewrite Enow. set (recent := fresh_events _ _). set (c0 := set_accepted c _).
  assert (Hrec : forall e, e ∈ recent <-> fle (fsub t lookback_s) (ev_market_ts e) = true /\
    (e ∈ default [] (cp_accepted c !! symbol) \/ e ∈ batch)).
  { intros e. unfold recent, fresh_events. rewrite list_elem_of_filter, elem_of_app. done. }
  assert (Hold : forall e, e ∈ default [] (cp_accepted c !! symbol) -> seen (lineage_of (ev_type e)) (ev_id e) /\ ev_symbol e = symbol).
  { intros e He. destruct (cp_accepted c !! symbol) as [l|] eqn:E; [|by apply elem_of_nil in He].
    by apply (cw_acc _ _ W symbol l e). }
  rewrite Forall_forall in Bs. rewrite Forall_forall in Bt.
  assert (Hsym : forall e, e ∈ recent -> ev_symbol e = symbol) by (intros e [_ [He|He]]%Hrec; [by apply Hold|by apply Bs]).
  assert (Hseen : forall e, e ∈ recent -> seen_after seen batch (lineage_of (ev_type e)) (ev_id e)).
  { intros e [_ [He|He]]%Hrec; [left; by apply Hold|right; by exists e]. }
  assert (Hb : forall e, e ∈ batch -> e ∈ recent).
  { intros e He. apply Hrec. split; [|by right]. rewrite (Bt e He). rewrite fle_val by eauto with fl.
    apply Z.leb_le. by apply fsub_le_self. }
  assert (W0 : composer_wf (seen_after seen batch) c0).
  { pose proof (composer_wf_seen seen (seen_after seen batch) c ltac:(by left) W) as [K R I H A]. split; try done.
    - intros k s Hin. destruct (R k s Hin). by split.
    - cbn. intros sym l e El He. destruct (decide (symbol = sym)) as [<-|Hd].
      + rewrite lookup_insert_eq in El. simplify_eq. split; [by apply Hseen|by apply Hsym].
      + rewrite lookup_insert_ne in El by done. eauto. }
  pose proof (prune_active_spec _ c0 t W0) as (W1 & A1 & _ & _ & _).
  set (c1 := prune_active lookback_s c0 t) in *.
  destruct (consume_lineage_spec _ c1 symbol "tape" batch recent features t [] W1 Hseen)
    as (p1 & st & c2 & E2 & W2 & A2 & S2 & Y2 & D2 & K2 & H2 & G2 & M2).
  rewrite E2. cbn [mbind result_bind].
  destruct (consume_lineage_spec _ c2 symbol "vwap" batch recent features t st W2 Hseen)
    as (p2 & st' & c3 & E3 & W3 & A3 & S3 & Y3 & D3 & K3 & H3 & G3 & M3).
  rewrite E3. cbn [mbind result_bind].
  assert (Hfree1 : forall e, e ∈ batch -> cp_home c1 !! ev_id e = None).
  { intros e He. apply eq_None_not_Some. intros [k Hk]. apply prune_active_home in Hk. cbn in Hk.
    apply (Bf e k.1.2 He). by apply (cw_home _ _ W). }
  assert (Hfree2 : forall e, e ∈ batch -> lineage_of (ev_type e) = "vwap" -> cp_home c2 !! ev_id e = None).
  { intros e He Hv. apply eq_None_not_Some. intros [k Hk]. pose proof (cw_home _ _ W2 _ _ Hk) as [Hs|(e' & He' & Hl' & Hid)].
    - by apply (Bf e k.1.2 He).
    - assert (e' = e) as ->.
      { apply list_elem_of_lookup in He as (i & Hi). apply list_elem_of_lookup in He' as (j & Hj).
        assert (i = j) as ->; [|congruence]. apply (NoDup_lookup (ev_id <$> batch) i j (ev_id e) Bi); rewrite list_lookup_fmap.
        + by rewrite Hi.
        + rewrite Hj. cbn. by rewrite Hid. }
      destruct (H2 _ _ Hk) as [Ht|Hc]; [congruence|]. by rewrite (Hfree1 e He) in Hc. }
  assert (S2' : Forall (stored c3 "tape") p1).
  { rewrite Forall_forall in S2, Y2 |- *. intros p Hp. apply (stored_kept c2); [|by apply S2].
    apply K3. rewrite (Y2 p Hp). cbn. congruence. }
  exists (p1 ++ p2), c3. split; [done|]. split; [done|]. split; [by rewrite A3, A2, A1|].
  assert (Hall : forall p, p ∈ p1 ++ p2 -> exists lineage, stored c3 lineage p /\ sig_symbol p.1 = symbol /\
    (p ∈ p1 /\ lineage = "tape" \/ p ∈ p2 /\ lineage = "vwap")).
  { rewrite Forall_forall in S2', S3, Y2, Y3.
    intros p [Hp|Hp]%elem_of_app; [exists "tape"|exists "vwap"].
    - split; [by apply S2'|]. split; [by apply Y2|]. by left.
    - split; [by apply S3|]. split; [by apply Y3|]. by right. }
  assert (Hinj : forall p q, p ∈ p1 ++ p2 -> q ∈ p1 ++ p2 -> sig_id p.1 = sig_id q.1 -> p = q).
  { intros p q Hp Hq Hid. destruct (Hall p Hp) as (lp & [Gp Tp] & _). destruct (Hall q Hq) as (lq & [Gq Tq] & _).
    pose proof (cw_ids _ _ W3 _ _ _ _ (od_get_elem _ _ _ Gp) (od_get_elem _ _ _ Gq) Hid) as Ek.
    rewrite Ek in Gp. destruct p, q; cbn in *. congruence. }
  split; [|split].
  - rewrite <- list_fmap_compose. apply NoDup_fmap_2_strong; [intros p q Hp Hq; by apply Hinj|].
    apply NoDup_app. split; [by eapply NoDup_fmap_1, NoDup_fmap_1|]. split; [|by eapply NoDup_fmap_1, NoDup_fmap_1].
    rewrite Forall_forall in S2', S3, Y2, Y3. intros p H1 H1'.
    pose proof (S2' p H1) as [Ga _]. pose proof (S3 p H1') as [Gb _].
    pose proof (cw_ids _ _ W3 _ _ _ _ (od_get_elem _ _ _ Ga) (od_get_elem _ _ _ Gb) eq_refl) as Ek. by simplify_eq.
  - intros p Hp. destruct (Hall p Hp) as (lineage & Hst & Hsy & Hcase). exists lineage. split; [done|]. split; [done|].
    rewrite A3, A2, A1. cbn. rewrite lookup_insert_eq. cbn. fold recent.
    destruct Hcase as [[Hp' ->]|[Hp' ->]]; [destruct (G2 p Hp') as (m & Hep & Hm)|destruct (G3 p Hp') as (m & Hep & Hm)];
      (exists m; split; [done|]; intros e He; destruct (Hm e He) as [Hr Hli]; split_and!; [done|done|by apply Hsym|]; by apply Hrec in Hr as [? _]).
  - intros e He. destruct (lineage_cases (ev_type e)) as [El|El].
    + destruct (M2 e He (Hb e He) El) as (p & Hp & Hin); [right; by apply Hfree1|].
      exists p. split; [apply elem_of_app; by left|done].
    + destruct (M3 e He (Hb e He) El) as (p & Hp & Hin); [right; by apply Hfree2|].
      exists p. split; [apply elem_of_app; by right|done].
Qed.

(** Without any assumption on times and ids: no exception, invariant kept. *)
Lemma consume_symbol_safe seen c symbol batch features : composer_wf seen c -> batch <> [] ->
  Forall (fun e => ev_symbol e = symbol) batch ->
  exists ps c', consume_symbol lookback_s uuids wall c symbol batch features = Ok (ps, c') /\
    composer_wf (seen_after seen batch) c'.
Proof.
  intros W Hne Bs. unfold consume_symbol. destruct batch as [|b0 batch0]; [done|].
  set (batch := b0 :: batch0) in *. cbn zeta. set (t := builtin_max _ _).
  set (recent := fresh_events _ _). set (c0 := set_accepted c _). rewrite Forall_forall in Bs.
  assert (Hrec : forall e, e ∈ recent -> e ∈ default [] (cp_accepted c !! symbol) \/ e ∈ batch).
  { intros e [_ He]%list_elem_of_filter. by apply elem_of_app. }
  assert (Hseen : forall e, e ∈ recent -> seen_after seen batch (lineage_of (ev_type e)) (ev_id e) /\ ev_symbol e = symbol).
  { intros e [He|He]%Hrec; [|split; [right; by exists e|by apply Bs]].
    destruct (cp_accepted c !! symbol) as [l|] eqn:E; [|by apply elem_of_nil in He].
    destruct (cw_acc _ _ W symbol l e E He). split; [by left|done]. }
  assert (W0 : composer_wf (seen_after seen batch) c0).
  { pose proof (composer_wf_seen seen (seen_after seen batch) c ltac:(by left) W) as [K R I H A]. split; try done.
    - intros k s Hin. destruct (R k s Hin). by split.
    - cbn. intros sym l e El He. destruct (decide (symbol = sym)) as [<-|Hd].
      + rewrite lookup_insert_eq in El. simplify_eq. by apply Hseen.
      + rewrite lookup_insert_ne in El by done. eauto. }
  pose proof (prune_active_spec _ c0 t W0) as (W1 & _).
  destruct (consume_lineage_spec _ _ symbol "tape" batch recent features t [] W1 ltac:(intros; by apply Hseen))
    as (p1 & st & c2 & E2 & W2 & _).
  rewrite E2. cbn [mbind result_bind].
  destruct (consume_lineage_spec _ c2 symbol "vwap" batch recent features t st W2 ltac:(intros; by apply Hseen))
    as (p2 & st' & c3 & E3 & W3 & _).
  rewrite E3. cbn [mbind result_bind]. by exists (p1 ++ p2), c3.
Qed.

Definition groups_ok (events : list MarketEvent) (d : list (string * list MarketEvent)) : Prop :=
  NoDup d.*1 /\ (forall sym b, (sym, b) ∈ d ->
    b <> [] /\ Forall (fun e => ev_symbol e = sym) b /\ forall e, e ∈ b -> e ∈ events).

Lemma group_by_symbol_ok events : groups_ok events (group_by_symbol events).
Proof.
  unfold group_by_symbol.
  assert (G : forall done_ d, groups_ok events d -> (forall e, e ∈ done_ -> e ∈ events) ->
    groups_ok events (foldl (fun d e => od_set (ev_symbol e) (default [] (od_get (ev_symbol e) d) ++ [e]) d) d done_)).
  { induction done_ as [|e l IH]; intros d Hd Hl; cbn [foldl]; [done|].
    apply IH; [|intros; apply Hl; by right]. destruct Hd as [Hn Hd]. split; [by apply od_set_nodup|].
    intros sym b [[-> ->]|[_ Hin]]%elem_of_od_set; [|by apply Hd|done].
    pose proof (Hl e ltac:(by left)).
    destruct (od_get (ev_symbol e) d) as [g|] eqn:Eg; cbn.
    - apply od_get_elem in Eg. destruct (Hd _ _ Eg) as (G1 & G2 & G3). split; [by destruct g|].
      split; [apply Forall_app; by repeat constructor|]. intros x [Hx| ->%list_elem_of_singleton]%elem_of_app; auto.
    - split; [done|]. split; [by repeat constructor|]. by intros x ->%list_elem_of_singleton. }
  apply G; [|done]. split; [constructor|]. intros sym b H. by apply elem_of_nil in H.
Qed.

Lemma consume_symbols_safe events features d : forall seen c, composer_wf seen c ->
  (forall sym b, (sym, b) ∈ d -> b <> [] /\ Forall (fun e => ev_symbol e = sym) b /\ forall e, e ∈ b -> e ∈ events) ->
  exists ps c', consume_symbols lookback_s uuids wall c d features = Ok (ps, c') /\
    composer_wf (seen_after seen events) c'.
Proof.
  induction d as [|[sym b] d IH]; intros seen c W Hd; cbn [consume_symbols].
  { exists [], c. split; [done|]. eapply composer_wf_seen; [|exact W]. by left. }
  destruct (Hd sym b ltac:(by left)) as (Hne & Hs & Hsub).
  destruct (consume_symbol_safe seen c sym b features W Hne Hs) as (p1 & c1 & -> & W1). cbn [mbind result_bind].
  assert (W1' : composer_wf (seen_after seen events) c1).
  { eapply composer_wf_seen; [|exact W1]. intros l x [?|(e & He & ?)]; [by left|right; exists e; auto]. }
  destruct (IH (seen_after seen events) c1 W1') as (p2 & c2 & -> & W2); [intros; apply Hd; by right|].
  cbn [mbind result_bind]. exists (p1 ++ p2), c2. split; [done|].
  eapply composer_wf_seen; [|exact W2]. intros l x [?|?]; [done|by right].
Qed.

Lemma consume_batch_safe seen c events features : composer_wf seen c ->
  exists ps c', consume_batch lookback_s uuids wall c events features = Ok (ps, c') /\
    composer_wf (seen_after seen events) c'.
Proof.
  intros W. destruct (group_by_symbol_ok events) as [_ Hd]. by apply consume_symbols_safe.
Qed.

Lemma prune_wf seen c symbol now_ts : composer_wf seen c -> composer_wf seen (prune lookback_s c symbol now_ts).
Proof.
  intros W. unfold prune. cbn zeta. apply prune_active_spec. destruct W as [K R I H A]. split; try done.
  - intros k s Hin. destruct (R k s Hin). by split.
  - cbn. intros sym l e El He. destruct (decide (symbol = sym)) as [<-|Hd].
    + rewrite lookup_insert_eq in El. simplify_eq. unfold fresh_events in He. apply list_elem_of_filter in He as [_ He].
      destruct (cp_accepted c !! symbol) as [l|] eqn:E; [|by apply elem_of_nil in He]. eauto.
    + rewrite lookup_insert_ne in El by done. eauto.
Qed.

Lemma active_signals_elem c symbol s : s ∈ active_signals c symbol <-> exists k, (k, s) ∈ cp_active c /\ k.1.1 = symbol.
Proof.
  unfold active_signals. rewrite list_elem_of_fmap. split.
  - intros ([k s'] & -> & [Hk Hin]%elem_of_sort_by%list_elem_of_filter). by exists k.
  - intros (k & Hin & Hk). exists (k, s). split; [done|]. apply elem_of_sort_by, list_elem_of_filter. by split.
Qed.

Lemma active_trace seen c symbol s : composer_wf seen c -> s ∈ active_signals c symbol ->
  exists t, trace_for c (sig_id s) = Ok t /\ trace_matches s t /\ sig_symbol s = symbol.
Proof.
  intros W (k & Hin & Hk)%active_signals_elem. destruct (cw_rows _ _ W _ _ Hin) as [(t & Ht & Hm) Hsy _ _ _].
  exists t. unfold trace_for. rewrite Ht. split; [done|]. split; [done|]. congruence.
Qed.

Lemma active_ids_nodup seen c symbol : composer_wf seen c -> NoDup (sig_id <$> active_signals c symbol).
Proof.
  intros W. unfold active_signals. rewrite <- list_fmap_compose.
  set (rows := sort_by _ _). assert (Hp : rows ≡ₚ filter (fun r => r.1.1.1 = symbol) (cp_active c)) by apply sort_by_perm.
  rewrite Hp. assert (N : NoDup (cp_active c)) by (eapply NoDup_fmap_1; apply (cw_keys _ _ W)).
  apply NoDup_fmap_2_strong; [|by apply NoDup_filter].
  intros [k s] [k' s'] [_ H1]%list_elem_of_filter [_ H2]%list_elem_of_filter E. cbn in E.
  pose proof (cw_ids _ _ W _ _ _ _ H1 H2 E) as ->.
  apply (od_elem_get _ _ _ (cw_keys _ _ W)) in H1, H2. congruence.
Qed.
End invariant.

(** ** Properties *)

(** C6: whatever events it is given - any symbols, times, repeats - composing a batch never
    raises and keeps the composer's invariant: one live episode per (symbol, lineage,
    direction), no two with the same signal id, each with a stored trace that agrees with
    it (so [trace_for] of a live signal cannot raise [KeyError]). *)
Theorem consume_batch_invariant lookback_s uuids wall seen c events features :
  Inj (=) (=) uuids -> composer_wf uuids seen c ->
  exists produced c', consume_batch lookback_s uuids wall c events features = Ok (produced, c') /\
    composer_wf uuids (seen_after seen events) c' /\
    forall symbol s, s ∈ active_signals c' symbol ->
      exists t, trace_for c' (sig_id s) = Ok t /\ trace_matches s t /\ sig_symbol s = symbol.
Proof.
  intros Hinj W. destruct (consume_batch_safe lookback_s uuids wall Hinj seen c events features W) as (ps & c' & E & W').
  exists ps, c'. split; [done|]. split; [done|]. intros symbol s Hs. by eapply active_trace.
Qed.

(** [consume_symbol_complete] every accepted event is composed, exactly where it belongs: for a batch as the
    detector produces it (one symbol, one market time, new ids) each event is in a produced
    signal; produced signals have distinct ids, are live afterwards with exactly their
    trace, and consist only of events of their own symbol and lineage from the look-back
    window. *)
Theorem consume_symbol_complete lookback_s uuids wall seen c symbol t batch features :
  Inj (=) (=) uuids -> composer_wf uuids seen c -> batch <> [] -> fin lookback_s -> 0 <= fval lookback_s ->
  fin t -> batch_ok seen symbol t batch ->
  exists produced c',
    consume_symbol lookback_s uuids wall c symbol batch features = Ok (produced, c') /\
    (forall e, e ∈ batch -> exists p, p ∈ produced /\ ev_id e ∈ sig_event_ids p.1) /\
    NoDup (sig_id <$> produced.*1) /\
    (forall p, p ∈ produced -> p.1 ∈ active_signals c' symbol /\ trace_for c' (sig_id p.1) = Ok p.2 /\
       exists lineage, from_lookback lookback_s symbol lineage t features p (default [] (cp_accepted c' !! symbol))).
Proof.
  intros Hinj W Hne Fl Hl Ft Hb.
  destruct (consume_symbol_spec lookback_s uuids wall Hinj seen c symbol t batch features W Hne Fl Hl Ft Hb)
    as (ps & c' & E & W' & _ & Hn & Hp & Hall).
  exists ps, c'. split; [done|]. split; [done|]. split; [done|]. intros p Hin.
  destruct (Hp p Hin) as (lineage & [G T] & Hs & Hfrom). split; [|split; [unfold trace_for; by rewrite T|by exists lineage]].
  apply active_signals_elem. exists (sig_symbol p.1, lineage, sig_direction p.1). split; [by apply od_get_elem|done].
Qed.

(** ** Witnesses *)
Definition demo_uuids : nat -> string := pretty.
Lemma demo_uuids_inj : Inj (=) (=) demo_uuids.
Proof. apply _. Qed.

Definition never_seen : string -> string -> Prop := fun _ _ => False.
Definition demo_batch : list MarketEvent :=
  [demo_member "a" RAPID_MOVE UP 3 100; demo_member "b" VOLUME_SPIKE NONE 2 100; demo_member "c" VWAP_CROSS UP 2 100].
Definition demo_features : MarketFeatures :=
  mkFeatures "600519.SH" (flit 100 0) (flit 100 0) (Some (flit 1 2)) None None None None None None None None
    None None None None None None None (flit 10 0) (flit 9 0).

Lemma demo_batch_ok : batch_ok never_seen "600519.SH" (flit 100 0) demo_batch.
Proof.
  split; [by repeat constructor|by repeat constructor| |by intros e l _ []].
  by apply (bool_decide_unpack _).
Qed.

Example demo_composed :
  match consume_symbol CLUSTER_LOOKBACK_S demo_uuids (fun _ => flit 5 0) composer_init "600519.SH" demo_batch demo_features with
  | Ok (ps, c) => map (fun p => (sig_id p.1, sig_event_ids p.1, sig_family p.1, sig_priority p.1)) ps
      = [("0", ["a"; "b"], "price_volume", IMPORTANT); ("1", ["c"], "vwap", INFO)]
  | Err _ => False
  end.
Proof. vm_compute. reflexivity. Qed.

Lemma consume_batch_witness :
  exists produced c',
    consume_batch CLUSTER_LOOKBACK_S demo_uuids (fun _ => f0) composer_init demo_batch demo_features = Ok (produced, c').
Proof.
  destruct (consume_batch_invariant CLUSTER_LOOKBACK_S demo_uuids (fun _ => f0) never_seen composer_init demo_batch
    demo_features demo_uuids_inj (composer_init_wf demo_uuids never_seen)) as (p & c' & E & _).
  exists p, c'. exact E.
Defined.

Lemma lookback_fin : fin CLUSTER_LOOKBACK_S /\ 0 <= fval CLUSTER_LOOKBACK_S.
Proof. split; [by split|vm_compute; discriminate]. Qed.

Lemma consume_symbol_witness :
  exists produced c',
    consume_symbol CLUSTER_LOOKBACK_S demo_uuids (fun _ => f0) composer_init "600519.SH" demo_batch demo_features
      = Ok (produced, c') /\ forall e, e ∈ demo_batch -> exists p, p ∈ produced /\ ev_id e ∈ sig_event_ids p.1.
Proof.
  destruct (consume_symbol_complete CLUSTER_LOOKBACK_S demo_uuids (fun _ => f0) never_seen composer_init "600519.SH"
    (flit 100 0) demo_batch demo_features demo_uuids_inj (composer_init_wf demo_uuids never_seen) ltac:(done)
    (proj1 lookback_fin) (proj2 lookback_fin) ltac:(by split) demo_batch_ok) as (p & c' & E & H & _).
  exists p, c'. split; [exact E|exact H].
Defined.
