(* ===== verification/Telemetry.v ===== *)
(** * Telemetry records and runtime (src/market_sentinel/telemetry/)

    contract.py: the taxonomy, the allow lists, the validated records, the once-per-run
    cluster tracker; collector.py and runtime.py: the fail-open collector and [emit];
    host_interaction.py and user_feedback.py: the parsers of the two host commands.
    A collector is any function from its state and a record to its next state and an
    optional exception; keyword arguments of [emit] are a function that fills the record. *)
From Stdlib Require Import ZArith Lia Ascii String.
From stdpp Require Import prelude strings gmap pretty.
From S2P Require Import Prelude PyFloat Domain Normalizer.
Local Open Scope Z_scope.

(** ** Taxonomy *)
Inductive TelemetryKind := PIPELINE | HOST | INTELLIGENCE.
Inductive TelemetryName :=
  | EVENT_GENERATED | EVENT_DEDUPED | EVENT_CLUSTERED | SIGNAL_EPISODE_CREATED | SIGNAL_ESCALATED
  | ALERT_CANDIDATE | ALERT_SUPPRESSED | ALERT_PRESENTED | SIGNAL_OPENED | ALERT_BADGE_RESET
  | ALERT_DISMISSED | SIGNAL_MUTED | INTELLIGENCE_ROUTED | INTELLIGENCE_SKIPPED
  | INTELLIGENCE_SUCCEEDED | INTELLIGENCE_FALLBACK | INTELLIGENCE_TOKEN_USAGE | INTELLIGENCE_LATENCY.
Inductive FeedbackLabel := USEFUL | NOT_USEFUL | TOO_NOISY | TOO_LATE.
Inductive TuningSource := MANUAL | OFFLINE_EVAL.
Inductive SuppressionReason := COOLDOWN | SAME_TICK_DUPLICATE.
Inductive DecisionReason :=
  | EXPIRED_EPISODE | SUPPRESSED_EDGE | STALE_FEED | INSUFFICIENT_FEATURES | NOT_CANDIDATE | EPISODE_BUDGET.
Inductive LatencyStage := ROUTER | MODEL | PARSE.

#[export] Instance TelemetryKind_eq : EqDecision TelemetryKind.
Proof. solve_decision. Defined.
#[export] Instance TelemetryName_eq : EqDecision TelemetryName.
Proof. solve_decision. Defined.
#[export] Instance FeedbackLabel_eq : EqDecision FeedbackLabel.
Proof. solve_decision. Defined.
#[export] Instance SuppressionReason_eq : EqDecision SuppressionReason.
Proof. solve_decision. Defined.
#[export] Instance DecisionReason_eq : EqDecision DecisionReason.
Proof. solve_decision. Defined.
#[export] Instance LatencyStage_eq : EqDecision LatencyStage.
Proof. solve_decision. Defined.

#[export] Instance pyval_eq : EqDecision pyval.
Proof. solve_decision. Defined.

(** The enums' values. *)
Definition kind_value (k : TelemetryKind) : string :=
  match k with PIPELINE => "pipeline" | HOST => "host" | INTELLIGENCE => "intelligence" end.
Definition name_value (n : TelemetryName) : string :=
  match n with
  | EVENT_GENERATED => "event_generated" | EVENT_DEDUPED => "event_deduped"
  | EVENT_CLUSTERED => "event_clustered" | SIGNAL_EPISODE_CREATED => "signal_episode_created"
  | SIGNAL_ESCALATED => "signal_escalated" | ALERT_CANDIDATE => "alert_candidate"
  | ALERT_SUPPRESSED => "alert_suppressed" | ALERT_PRESENTED => "alert_presented"
  | SIGNAL_OPENED => "signal_opened" | ALERT_BADGE_RESET => "alert_badge_reset"
  | ALERT_DISMISSED => "alert_dismissed" | SIGNAL_MUTED => "signal_muted"
  | INTELLIGENCE_ROUTED => "intelligence_routed" | INTELLIGENCE_SKIPPED => "intelligence_skipped"
  | INTELLIGENCE_SUCCEEDED => "intelligence_succeeded" | INTELLIGENCE_FALLBACK => "intelligence_fallback"
  | INTELLIGENCE_TOKEN_USAGE => "intelligence_token_usage" | INTELLIGENCE_LATENCY => "intelligence_latency"
  end.
Definition label_value (l : FeedbackLabel) : string :=
  match l with USEFUL => "useful" | NOT_USEFUL => "not_useful" | TOO_NOISY => "too_noisy" | TOO_LATE => "too_late" end.
Definition source_value (s : TuningSource) : string :=
  match s with MANUAL => "manual" | OFFLINE_EVAL => "offline_eval" end.
Definition suppression_value (r : SuppressionReason) : string :=
  match r with COOLDOWN => "cooldown" | SAME_TICK_DUPLICATE => "same_tick_duplicate" end.
Definition decision_value (r : DecisionReason) : string :=
  match r with
  | EXPIRED_EPISODE => "expired_episode" | SUPPRESSED_EDGE => "suppressed_edge" | STALE_FEED => "stale_feed"
  | INSUFFICIENT_FEATURES => "insufficient_features" | NOT_CANDIDATE => "not_candidate"
  | EPISODE_BUDGET => "episode_budget"
  end.
Definition stage_value (s : LatencyStage) : string :=
  match s with ROUTER => "router" | MODEL => "model" | PARSE => "parse" end.

(** ** Allow and deny lists *)
Definition TELEMETRY_ALLOWLIST : list string :=
  ["telemetry_id"; "name"; "kind"; "created_timestamp"; "run_id"; "market_timestamp"; "symbol"; "event_id";
   "signal_id"; "event_type"; "family"; "direction"; "priority"; "host_action"; "intelligence_status";
   "decision_reason"; "fallback_reason"; "suppression_reason"; "latency_s"; "latency_stage"; "token_in"; "token_out"].
Definition TELEMETRY_DENYLIST : list string :=
  ["workspace"; "source_code"; "conversation"; "files"; "ticks"; "snapshots"; "ring_buffer"; "features";
   "prompt"; "api_key"; "title"; "summary"; "reason"; "notes"; "session_id"; "event_ids"; "rule_names";
   "priority_reason"; "delete_event"; "rewrite_threshold"; "mutate_signal"; "apply_online"].
Definition FEEDBACK_ALLOWLIST : list string :=
  ["feedback_id"; "created_timestamp"; "run_id"; "label"; "symbol"; "event_id"; "signal_id"; "telemetry_id"].
Definition TUNING_ALLOWLIST : list string := ["snapshot_id"; "created_timestamp"; "source"; "config_version"].

Definition kind_for (n : TelemetryName) : TelemetryKind :=
  match n with
  | EVENT_GENERATED | EVENT_DEDUPED | EVENT_CLUSTERED | SIGNAL_EPISODE_CREATED | SIGNAL_ESCALATED
  | ALERT_CANDIDATE | ALERT_SUPPRESSED => PIPELINE
  | ALERT_PRESENTED | SIGNAL_OPENED | ALERT_BADGE_RESET | ALERT_DISMISSED | SIGNAL_MUTED => HOST
  | INTELLIGENCE_ROUTED | INTELLIGENCE_SKIPPED | INTELLIGENCE_SUCCEEDED | INTELLIGENCE_FALLBACK
  | INTELLIGENCE_TOKEN_USAGE | INTELLIGENCE_LATENCY => INTELLIGENCE
  end.

Definition EVENT_ID_NAMES : list TelemetryName := [EVENT_GENERATED; EVENT_DEDUPED; EVENT_CLUSTERED].
Definition SIGNAL_SYMBOL_NAMES : list TelemetryName :=
  [SIGNAL_EPISODE_CREATED; SIGNAL_ESCALATED; ALERT_CANDIDATE; ALERT_SUPPRESSED].
Definition HOST_SIGNAL_NAMES : list TelemetryName := [ALERT_PRESENTED; SIGNAL_OPENED; ALERT_DISMISSED; SIGNAL_MUTED].
Definition INTEL_NAMES : list TelemetryName :=
  [INTELLIGENCE_ROUTED; INTELLIGENCE_SKIPPED; INTELLIGENCE_SUCCEEDED; INTELLIGENCE_FALLBACK;
   INTELLIGENCE_TOKEN_USAGE; INTELLIGENCE_LATENCY].

Abbreviation record := (list (string * pyval)).

Definition require (b : bool) (msg : string) : result unit := if b then Ok tt else Err (ValueError msg).

Definition project_allowlist {V} (payload : list (string * V)) (allowed : list string) : result (list (string * V)) :=
  require (negb (existsb (fun p => bool_decide (p.1 ∈ TELEMETRY_DENYLIST)) payload)) "denied keys";;
  Ok (filter (fun p => p.1 ∈ allowed) payload).

(** [value.strip() == ""], and falsy optional text. *)
Definition blank (s : string) : bool := bool_decide (strip s = "").
Definition missing (o : option string) : bool := match o with None => true | Some s => bool_decide (s = "") end.
Definition require_text (s field : string) : result unit := require (negb (blank s)) field.
Definition require_finite (x : float) (field : string) : result unit := require (isfinite x) field.

(** ** [ClusterMembershipTracker] *)
Definition fromkeys (ids : list string) : list string :=
  foldl (fun acc x => if decide (x ∈ acc) then acc else acc ++ [x]) [] ids.
Definition newly_clustered (clustered : gset string) (member_ids : list string) : list string * gset string :=
  let unique := fromkeys member_ids in
  if (length unique <? 2)%nat then ([], clustered)
  else let fresh := filter (fun id => id ∉ clustered) unique in (fresh, clustered ∪ list_to_set fresh).
Definition seen_count (clustered : gset string) : nat := size clustered.

(** ** [TelemetryEvent] *)
Record TelemetryEvent := mkTelemetry {
  te_id : string;
  te_name : TelemetryName;
  te_kind : TelemetryKind;
  te_created : float;
  te_run_id : string;
  te_market : option float;
  te_symbol : option string;
  te_event_id : option string;
  te_signal_id : option string;
  te_event_type : option string;
  te_family : option string;
  te_direction : option string;
  te_priority : option string;
  te_host_action : option string;
  te_status : option string;
  te_decision : option DecisionReason;
  te_fallback : option string;
  te_suppression : option SuppressionReason;
  te_latency : option float;
  te_stage : option LatencyStage;
  te_token_in : option Z;
  te_token_out : option Z
}.

(** An optional field is checked when present. *)
Definition when {A} (o : option A) (check : A -> result unit) : result unit :=
  match o with None => Ok tt | Some a => check a end.

Definition is_none {A} (o : option A) : bool := match o with None => true | Some _ => false end.

Definition is_in (n : TelemetryName) (l : list TelemetryName) : bool := bool_decide (n ∈ l).

Definition validate_correlations (e : TelemetryEvent) : result unit :=
  let name := te_name e in
  require (negb (is_in name EVENT_ID_NAMES && (missing (te_event_id e) || missing (te_symbol e)))) "requires event_id and symbol";;
  require (negb (is_in name SIGNAL_SYMBOL_NAMES && (missing (te_signal_id e) || missing (te_symbol e)))) "requires signal_id and symbol";;
  require (negb (is_in name HOST_SIGNAL_NAMES && missing (te_signal_id e))) "requires signal_id";;
  require (negb (is_in name INTEL_NAMES && missing (te_signal_id e))) "requires signal_id";;
  require (negb (bool_decide (name = ALERT_SUPPRESSED) && is_none (te_suppression e))) "alert_suppressed requires suppression_reason";;
  require (negb (bool_decide (name = INTELLIGENCE_SKIPPED) && is_none (te_decision e))) "intelligence_skipped requires decision_reason";;
  require (negb (bool_decide (name = INTELLIGENCE_SKIPPED) && negb (is_none (te_fallback e)))) "intelligence_skipped must not set fallback_reason";;
  require (negb (bool_decide (name = INTELLIGENCE_FALLBACK) && missing (te_fallback e))) "intelligence_fallback requires fallback_reason";;
  require (negb (bool_decide (name = INTELLIGENCE_FALLBACK) && negb (is_none (te_decision e)))) "intelligence_fallback must not set decision_reason";;
  require (negb (bool_decide (name = INTELLIGENCE_LATENCY) && (is_none (te_latency e) || is_none (te_stage e)))) "intelligence_latency requires latency_s and latency_stage";;
  require (negb (bool_decide (name = INTELLIGENCE_TOKEN_USAGE) && (is_none (te_token_in e) && is_none (te_token_out e)))) "intelligence_token_usage requires provider token usage".

Definition post_init (e : TelemetryEvent) : result unit :=
  require (bool_decide (te_kind e = kind_for (te_name e))) "kind";;
  require_text (te_id e) "telemetry_id";;
  require_text (te_run_id e) "run_id";;
  require_finite (te_created e) "created_timestamp";;
  when (te_market e) (fun x => require_finite x "market_timestamp");;
  when (te_latency e) (fun x => require_finite x "latency_s";; require (negb (flt x f0)) "latency_s");;
  when (te_token_in e) (fun n => require (negb (n <? 0)) "token_in");;
  when (te_token_out e) (fun n => require (negb (n <? 0)) "token_out");;
  when (te_fallback e) (fun s => require_text s "fallback_reason");;
  validate_correlations e.

Definition opt_str (o : option string) : pyval := match o with Some s => PyStr s | None => PyNone end.
Definition opt_float (o : option float) : pyval := match o with Some x => PyFloat x | None => PyNone end.
Definition opt_int (o : option Z) : pyval := match o with Some n => PyInt n | None => PyNone end.

Definition to_record (e : TelemetryEvent) : result record :=
  project_allowlist
    [("telemetry_id", PyStr (te_id e));
     ("name", PyStr (name_value (te_name e)));
     ("kind", PyStr (kind_value (te_kind e)));
     ("created_timestamp", PyFloat (te_created e));
     ("run_id", PyStr (te_run_id e));
     ("market_timestamp", opt_float (te_market e));
     ("symbol", opt_str (te_symbol e));
     ("event_id", opt_str (te_event_id e));
     ("signal_id", opt_str (te_signal_id e));
     ("event_type", opt_str (te_event_type e));
     ("family", opt_str (te_family e));
     ("direction", opt_str (te_direction e));
     ("priority", opt_str (te_priority e));
     ("host_action", opt_str (te_host_action e));
     ("intelligence_status", opt_str (te_status e));
     ("decision_reason", opt_str (decision_value <$> te_decision e));
     ("fallback_reason", opt_str (te_fallback e));
     ("suppression_reason", opt_str (suppression_value <$> te_suppression e));
     ("latency_s", opt_float (te_latency e));
     ("latency_stage", opt_str (stage_value <$> te_stage e));
     ("token_in", opt_int (te_token_in e));
     ("token_out", opt_int (te_token_out e))] TELEMETRY_ALLOWLIST.

(** ** [UserFeedback], [TuningSnapshot] *)
Record UserFeedback := mkFeedback {
  uf_id : string;
  uf_created : float;
  uf_run_id : string;
  uf_label : FeedbackLabel;
  uf_symbol : option string;
  uf_event_id : option string;
  uf_signal_id : option string;
  uf_telemetry_id : option string
}.

Definition feedback_post_init (f : UserFeedback) : result unit :=
  require_text (uf_id f) "feedback_id";;
  require_text (uf_run_id f) "run_id";;
  require_finite (uf_created f) "created_timestamp";;
  require (match uf_signal_id f with Some s => negb (blank s) | None => false end) "signal_id must be non-empty".

Definition feedback_record (f : UserFeedback) : result record :=
  project_allowlist
    [("feedback_id", PyStr (uf_id f));
     ("created_timestamp", PyFloat (uf_created f));
     ("run_id", PyStr (uf_run_id f));
     ("label", PyStr (label_value (uf_label f)));
     ("symbol", opt_str (uf_symbol f));
     ("event_id", opt_str (uf_event_id f));
     ("signal_id", opt_str (uf_signal_id f));
     ("telemetry_id", opt_str (uf_telemetry_id f))] FEEDBACK_ALLOWLIST.

Record TuningSnapshot := mkTuningSnapshot {
  ts_id : string;
  ts_created : float;
  ts_source : TuningSource;
  ts_version : string
}.

Definition tuning_post_init (t : TuningSnapshot) : result unit :=
  require_text (ts_id t) "snapshot_id";;
  require_text (ts_version t) "config_version";;
  require_finite (ts_created t) "created_timestamp".

Definition tuning_record (t : TuningSnapshot) : result record :=
  project_allowlist
    [("snapshot_id", PyStr (ts_id t));
     ("created_timestamp", PyFloat (ts_created t));
     ("source", PyStr (source_value (ts_source t)));
     ("config_version", PyStr (ts_version t))] TUNING_ALLOWLIST.

(** ** Collectors: a step on the collector's state, and what it raises *)
Abbreviation Recorder S A := (S -> A -> S * option exn).

Definition noop_record {S A} : Recorder S A := fun s _ => (s, None).
Definition inmemory_record {A} : Recorder (list A) A := fun l e => (l ++ [e], None).
Definition sink_record {S A} (project : A -> result record) (write : Recorder S record) : Recorder S A :=
  fun s e => match project e with Ok r => write s r | Err ex => (s, Some ex) end.
(** [FailOpenTelemetryCollector.record]: the exception is dropped. *)
Definition fail_open {S A} (inner : Recorder S A) (s : S) (e : A) : S := (inner s e).1.

(** ** [TelemetryRuntime] *)
Record TelemetryRuntime (S F : Type) := mkRuntime {
  rt_run_id : string;
  rt_cluster : gset string;
  rt_collector : S;
  rt_feedback : F;
  rt_uuid : nat;
  rt_clock : nat
}.
Arguments mkRuntime {S F}.
Arguments rt_run_id {S F}.
Arguments rt_cluster {S F}.
Arguments rt_collector {S F}.
Arguments rt_feedback {S F}.
Arguments rt_uuid {S F}.
Arguments rt_clock {S F}.

(** The record a producer asks for, given the fields [emit] supplies. *)
Abbreviation Fields := (string -> TelemetryName -> TelemetryKind -> float -> string -> TelemetryEvent).

Section runtime.
Context {S F : Type} (collect : Recorder S TelemetryEvent) (store : Recorder F UserFeedback).
Context (uuids : nat -> string) (wall : nat -> float).

Definition runtime_init (collector : S) (feedback : F) (run_id : option string) : TelemetryRuntime S F :=
  match run_id with
  | Some r => if blank r then mkRuntime (uuids 0) ∅ collector feedback 1 0 else mkRuntime r ∅ collector feedback 0 0
  | None => mkRuntime (uuids 0) ∅ collector feedback 1 0
  end.

Definition emit (t : TelemetryRuntime S F) (name : TelemetryName) (created : option float) (fields : Fields)
    : TelemetryRuntime S F :=
  let created := default (wall (rt_clock t)) created in
  let event := fields (uuids (rt_uuid t)) name (kind_for name) created (rt_run_id t) in
  let collector :=
    match post_init event with
    | Ok _ => fail_open collect (rt_collector t) event
    | Err _ => rt_collector t
    end in
  mkRuntime (rt_run_id t) (rt_cluster t) collector (rt_feedback t) (1 + rt_uuid t) (1 + rt_clock t).

(** The id is drawn before validation; the collector's own exception escapes. *)
Definition record_feedback (t : TelemetryRuntime S F) (signal_id : string) (label : FeedbackLabel) (created : float)
    : result UserFeedback * TelemetryRuntime S F :=
  let item := mkFeedback (uuids (rt_uuid t)) created (rt_run_id t) label None None (Some signal_id) None in
  let drawn f := mkRuntime (rt_run_id t) (rt_cluster t) (rt_collector t) f (1 + rt_uuid t) (rt_clock t) in
  match feedback_post_init item with
  | Err ex => (Err ex, drawn (rt_feedback t))
  | Ok _ =>
      match store (rt_feedback t) item with
      | (f, None) => (Ok item, drawn f)
      | (f, Some ex) => (Err ex, drawn f)
      end
  end.

(** [runtime.cluster.newly_clustered] *)
Definition cluster_update (t : TelemetryRuntime S F) (ids : list string) : list string * TelemetryRuntime S F :=
  let '(fresh, c) := newly_clustered (rt_cluster t) ids in
  (fresh, mkRuntime (rt_run_id t) c (rt_collector t) (rt_feedback t) (rt_uuid t) (rt_clock t)).
End runtime.

(** ** The host commands *)
Definition HOST_INTERACTION_ACTIONS (action : string) : option TelemetryName :=
  if decide (action = "alert_presented") then Some ALERT_PRESENTED
  else if decide (action = "alert_badge_reset") then Some ALERT_BADGE_RESET
  else if decide (action = "signal_opened") then Some SIGNAL_OPENED
  else if decide (action = "alert_dismissed") then Some ALERT_DISMISSED
  else if decide (action = "signal_muted") then Some SIGNAL_MUTED
  else None.
Definition INTERACTION_KEYS : list string :=
  ["protocol_version"; "type"; "request_id"; "action"; "signal_id"; "created_timestamp"].
Definition SIGNAL_REQUIRED : list TelemetryName := [ALERT_PRESENTED; SIGNAL_OPENED; ALERT_DISMISSED; SIGNAL_MUTED].
Definition HOST_ACTION (n : TelemetryName) : option string :=
  match n with
  | ALERT_PRESENTED => Some "presented" | ALERT_BADGE_RESET => Some "reset_unread" | SIGNAL_OPENED => Some "opened"
  | ALERT_DISMISSED => Some "dismissed" | SIGNAL_MUTED => Some "muted" | _ => None
  end.

Record HostInteractionFact := mkFact {
  hf_name : TelemetryName;
  hf_created : option float;
  hf_signal_id : option string;
  hf_action : string
}.

(** [isinstance(v, int | float)] and not a bool, finite: its float. *)
Definition finite_number (v : pyval) (message : string) : result (float + string) :=
  match v with
  | PyInt _ | PyFloat _ =>
      x ← py_float v;
      Ok (if isfinite x then inl x else inr message)
  | _ => Ok (inr message)
  end.

Definition extra_keys (command : record) (allowed : list string) : list string :=
  filter (fun k => k ∉ allowed) command.*1.

Definition optional_created (v : pyval) : result (option float + string) :=
  match v with
  | PyNone => Ok (inl None)
  | v => r ← finite_number v "created_timestamp must be a finite number";
         Ok (match r with inl x => inl (Some x) | inr m => inr m end)
  end.

(** [inr] is the refusal's text, [Err] what escapes. *)
Definition parse_host_interaction (command : record) : result (HostInteractionFact + string) :=
  let extra := extra_keys command INTERACTION_KEYS in
  if existsb (fun k => bool_decide (k ∈ TELEMETRY_DENYLIST)) extra then Ok (inr "denied keys")
  else if negb (bool_decide (extra = [])) then Ok (inr "unknown keys")
  else
    match get command "action" with
    | PyStr action =>
        match HOST_INTERACTION_ACTIONS action with
        | None => Ok (inr "action is invalid")
        | Some name =>
            created ← optional_created (get command "created_timestamp");
            match created with
            | inr message => Ok (inr message)
            | inl created =>
                let signal_id := get command "signal_id" in
                let text := symbol_of signal_id in
                if bool_decide (signal_id <> PyNone) && match text with Some s => blank s | None => true end
                then Ok (inr "signal_id must be a non-empty string when present")
                else if is_in name SIGNAL_REQUIRED && is_none text then Ok (inr (action +:+ " requires signal_id"))
                else
                  let text := if decide (name = ALERT_BADGE_RESET) then None else text in
                  host_action ← of_option KeyError (HOST_ACTION name);
                  Ok (inl (mkFact name created text host_action))
            end
        end
    | _ => Ok (inr "action is invalid")
    end.

Definition FEEDBACK_KEYS : list string :=
  ["protocol_version"; "type"; "request_id"; "signal_id"; "feedback_type"; "created_timestamp"].

Definition label_of (s : string) : option FeedbackLabel :=
  if decide (s = "useful") then Some USEFUL
  else if decide (s = "not_useful") then Some NOT_USEFUL
  else if decide (s = "too_noisy") then Some TOO_NOISY
  else if decide (s = "too_late") then Some TOO_LATE
  else None.

Record UserFeedbackFact := mkFeedbackFact { ff_signal_id : string; ff_label : FeedbackLabel; ff_created : float }.

Definition parse_user_feedback (command : record) : result (UserFeedbackFact + string) :=
  let extra := extra_keys command FEEDBACK_KEYS in
  if existsb (fun k => bool_decide (k ∈ TELEMETRY_DENYLIST)) extra then Ok (inr "denied keys")
  else if negb (bool_decide (extra = [])) then Ok (inr "unknown keys")
  else
    match get command "feedback_type" with
    | PyStr raw_type =>
        match label_of raw_type with
        | None => Ok (inr "feedback_type is invalid")
        | Some label =>
            match get command "signal_id" with
            | PyStr signal_id =>
                if blank signal_id then Ok (inr "signal_id is required")
                else match get command "created_timestamp" with
                     | PyNone => Ok (inr "created_timestamp is required")
                     | v => r ← finite_number v "created_timestamp must be a finite number";
                            Ok (match r with inl x => inl (mkFeedbackFact signal_id label x) | inr m => inr m end)
                     end
            | _ => Ok (inr "signal_id is required")
            end
        end
    | _ => Ok (inr "feedback_type is invalid")
    end.

(** The record the daemon asks for from a fact ([_host_interaction] of ipc/daemon.py). *)
Definition interaction_fields (fact : HostInteractionFact) : Fields := fun id name kind created run_id =>
  mkTelemetry id name kind created run_id None None None (hf_signal_id fact) None None None None
    (Some (hf_action fact)) None None None None None None None None.

(** ** Lemmas *)
#[export] Instance kind_value_inj : Inj (=) (=) kind_value.
Proof. by intros [] []. Qed.
#[export] Instance name_value_inj : Inj (=) (=) name_value.
Proof. by intros [] []. Qed.
#[export] Instance label_value_inj : Inj (=) (=) label_value.
Proof. by intros [] []. Qed.
#[export] Instance source_value_inj : Inj (=) (=) source_value.
Proof. by intros [] []. Qed.
#[export] Instance suppression_value_inj : Inj (=) (=) suppression_value.
Proof. by intros [] []. Qed.
#[export] Instance decision_value_inj : Inj (=) (=) decision_value.
Proof. by intros [] []. Qed.
#[export] Instance stage_value_inj : Inj (=) (=) stage_value.
Proof. by intros [] []. Qed.

Lemma require_ok b msg u : require b msg = Ok u <-> b = true.
Proof. destruct b, u; cbn; split; congruence. Qed.

Lemma opt_str_inj a b : opt_str a = opt_str b -> a = b.
Proof. destruct a, b; cbn; congruence. Qed.
Lemma opt_float_inj a b : opt_float a = opt_float b -> a = b.
Proof. destruct a, b; cbn; congruence. Qed.
Lemma opt_int_inj a b : opt_int a = opt_int b -> a = b.
Proof. destruct a, b; cbn; congruence. Qed.
Lemma opt_value_inj {A} (f : A -> string) `{!Inj (=) (=) f} a b : opt_str (f <$> a) = opt_str (f <$> b) -> a = b.
Proof. intros H%opt_str_inj. by apply (inj (fmap f)) in H. Qed.

(** A record whose keys are allowed and not denied is projected to itself. *)
Lemma project_id {V} (payload : list (string * V)) allowed :
  Forall (fun k => k ∈ allowed /\ k ∉ TELEMETRY_DENYLIST) payload.*1 -> project_allowlist payload allowed = Ok payload.
Proof.
  intros H. rewrite Forall_fmap in H. unfold project_allowlist.
  replace (existsb _ payload) with false.
  - cbn. f_equal. induction H as [|p l [Hp _] H IH]; [done|]. by rewrite filter_cons, decide_True, IH.
  - symmetry. apply not_true_is_false. intros (p & Hin & Hd%bool_decide_eq_true)%existsb_exists.
    rewrite Forall_forall in H. by apply (H p) in Hd; [|apply list_elem_of_In].
Qed.

Lemma allowed_keys : Forall (fun k => k ∉ TELEMETRY_DENYLIST) (TELEMETRY_ALLOWLIST ++ FEEDBACK_ALLOWLIST ++ TUNING_ALLOWLIST).
Proof. apply (bool_decide_unpack _). vm_compute. exact I. Qed.

(** The records' keys are computed whatever their values are. *)
Ltac project_keys := rewrite ?project_id by (cbn [fmap list_fmap fst]; apply (bool_decide_unpack _); vm_compute; exact I).

Lemma to_record_keys e : exists r, to_record e = Ok r /\ r.*1 = TELEMETRY_ALLOWLIST.
Proof.
  unfold to_record. project_keys. by eexists.
Qed.

Lemma feedback_record_keys f : exists r, feedback_record f = Ok r /\ r.*1 = FEEDBACK_ALLOWLIST.
Proof.
  unfold feedback_record. project_keys. by eexists.
Qed.

Lemma tuning_record_keys t : exists r, tuning_record t = Ok r /\ r.*1 = TUNING_ALLOWLIST.
Proof.
  unfold tuning_record. project_keys. by eexists.
Qed.

Lemma to_record_inj e e' : to_record e = to_record e' -> e = e'.
Proof.
  unfold to_record. project_keys.
  destruct e, e'. cbn. intros [= ? H1%name_value_inj H2%kind_value_inj ? ? H3%opt_float_inj H4%opt_str_inj H5%opt_str_inj
    H6%opt_str_inj H7%opt_str_inj H8%opt_str_inj H9%opt_str_inj H10%opt_str_inj H11%opt_str_inj H12%opt_str_inj
    H13 H14%opt_str_inj H15 H16%opt_float_inj H17 H18%opt_int_inj H19%opt_int_inj].
  apply (opt_value_inj _) in H13, H15, H17. subst. reflexivity.
Qed.

(** *** The tracker *)
Lemma fromkeys_aux ids : forall acc, NoDup acc ->
  let l := foldl (fun acc x => if decide (x ∈ acc) then acc else acc ++ [x]) acc ids in
  NoDup l /\ forall x, x ∈ l <-> x ∈ acc \/ x ∈ (ids : list string).
Proof.
  induction ids as [|y ids IH]; intros acc Hn; cbn [foldl].
  - split; [done|]. intros x. split; [by left|]. intros [?|H]; [done|by apply elem_of_nil in H].
  - destruct (decide (y ∈ acc)) as [Hy|Hy].
    + destruct (IH acc Hn) as [N M]. split; [done|]. intros x. rewrite M, elem_of_cons.
      split; [tauto|]. intros [?|[->|?]]; tauto.
    + destruct (IH (acc ++ [y])) as [N M].
      { apply NoDup_app. split; [done|]. split; [|apply NoDup_singleton].
        intros x Hx ->%list_elem_of_singleton. done. }
      split; [done|]. intros x. rewrite M, elem_of_app, list_elem_of_singleton, elem_of_cons. tauto.
Qed.

Lemma fromkeys_nodup ids : NoDup (fromkeys ids).
Proof. apply fromkeys_aux. constructor. Qed.
Lemma elem_of_fromkeys x ids : x ∈ fromkeys ids <-> x ∈ ids.
Proof.
  destruct (fromkeys_aux ids [] ltac:(constructor)) as [_ M]. unfold fromkeys. rewrite M.
  split; [|by right]. intros [H|?]; [by apply elem_of_nil in H|done].
Qed.

(** At least two distinct ids: every id of the list has another beside it. *)
Lemma fromkeys_multi ids id : id ∈ ids ->
  (length (fromkeys ids) <? 2)%nat = false <-> exists other, other ∈ ids /\ other <> id.
Proof.
  intros Hid. rewrite Nat.ltb_ge. pose proof (fromkeys_nodup ids) as N.
  pose proof (fun x => elem_of_fromkeys x ids) as M. destruct (fromkeys ids) as [|a [|b l]]; cbn [length].
  - split; [lia|]. apply M in Hid. by apply elem_of_nil in Hid.
  - split; [lia|]. apply M, list_elem_of_singleton in Hid as ->. by intros (o & ->%M%list_elem_of_singleton & ?).
  - split; [intros _|lia]. apply NoDup_cons in N as [Hab _]. rewrite not_elem_of_cons in Hab.
    destruct (decide (id = a)) as [->|]; [exists b|exists a]; (split; [apply M; set_solver|naive_solver]).
Qed.

Fixpoint cluster_run (clustered : gset string) (calls : list (list string)) : list (list string) * gset string :=
  match calls with
  | [] => ([], clustered)
  | ids :: calls =>
      let '(fresh, clustered) := newly_clustered clustered ids in
      let '(outs, clustered) := cluster_run clustered calls in
      (fresh :: outs, clustered)
  end.

Lemma newly_clustered_spec c ids :
  let '(fresh, c') := newly_clustered c ids in
  NoDup fresh /\ c' = c ∪ list_to_set fresh /\
  (forall id, id ∈ fresh <-> id ∈ ids /\ (id ∉ c) /\ (exists other, other ∈ ids /\ other <> id)).
Proof.
  unfold newly_clustered. cbn zeta. destruct (length (fromkeys ids) <? 2)%nat eqn:E.
  - split; [constructor|]. split; [set_solver|]. intros id. split; [intros H; by apply elem_of_nil in H|].
    intros (Hid & _ & Ho). apply (fromkeys_multi ids id Hid) in Ho. congruence.
  - split; [apply NoDup_filter, fromkeys_nodup|]. split; [done|]. intros id.
    rewrite list_elem_of_filter, elem_of_fromkeys. split.
    + intros [Hc Hid]. split; [done|]. split; [done|]. by apply (fromkeys_multi ids id Hid).
    + tauto.
Qed.

Lemma cluster_run_spec calls : forall c,
  let '(outs, c') := cluster_run c calls in
  NoDup (concat outs) /\ c' = c ∪ list_to_set (concat outs) /\
  (forall id, id ∈ concat outs <-> (id ∉ c) /\ (exists ids, ids ∈ calls /\ id ∈ ids /\ (exists other, other ∈ ids /\ other <> id))).
Proof.
  induction calls as [|ids calls IH]; intros c; cbn [cluster_run].
  { cbn. split; [constructor|]. split; [set_solver|]. intros id. split; [intros H; by apply elem_of_nil in H|].
    intros (_ & ids & H & _). by apply elem_of_nil in H. }
  pose proof (newly_clustered_spec c ids) as Hn. destruct (newly_clustered c ids) as [fresh c1].
  destruct Hn as (Nf & -> & Mf). specialize (IH (c ∪ list_to_set fresh)).
  destruct (cluster_run _ calls) as [outs c2]. destruct IH as (No & -> & Mo). cbn [concat].
  split; [|split; [set_solver|]].
  - apply NoDup_app. split; [done|]. split; [|done]. intros x Hx [Hc _]%Mo. set_solver.
  - intros id. rewrite elem_of_app, Mf, Mo, not_elem_of_union, elem_of_list_to_set, Mf.
    setoid_rewrite elem_of_cons. split.
    + intros [(Hi & Hc & Ho)|((Hc & _) & k & Hk & Hid & Ho)]; (split; [done|]); eauto.
    + intros (Hc & k & [->|Hk] & Hid & Ho); [by left|].
      destruct (decide (id ∈ fresh)) as [Hf|Hf]; [left; by apply Mf|right].
      split; [split; [done|by rewrite <- Mf]|eauto].
Qed.

(** *** Emission *)
Section emission.
Context {S F : Type} (collect : Recorder S TelemetryEvent) (store : Recorder F UserFeedback).
Context (uuids : nat -> string) (wall : nat -> float).

(** The record [emit] would build. *)
Definition built (t : TelemetryRuntime S F) (name : TelemetryName) (created : option float) (fields : Fields) :=
  fields (uuids (rt_uuid t)) name (kind_for name) (default (wall (rt_clock t)) created) (rt_run_id t).

Definition is_valid (e : TelemetryEvent) : bool := is_ok (post_init e).

Lemma emit_collector t name created fields :
  rt_collector (emit collect uuids wall t name created fields) =
    (if is_valid (built t name created fields) then fail_open collect (rt_collector t) (built t name created fields)
     else rt_collector t).
Proof. unfold emit, is_valid, built. cbn. by destruct (post_init _). Qed.
End emission.

(** A run of requests to an in-memory collector. *)
Abbreviation Emission := (TelemetryName * option float * Fields)%type.
Definition emit_one {F} uuids wall (t : TelemetryRuntime (list TelemetryEvent) F) (r : Emission) :=
  emit inmemory_record uuids wall t r.1.1 r.1.2 r.2.

(** Requests that keep what [emit] supplies. *)
Definition keeps_identity (fields : Fields) : Prop := forall id name kind created run_id,
  te_id (fields id name kind created run_id) = id /\ te_name (fields id name kind created run_id) = name /\
  te_kind (fields id name kind created run_id) = kind /\ te_created (fields id name kind created run_id) = created /\
  te_run_id (fields id name kind created run_id) = run_id.

Lemma emit_run_spec {F} uuids wall (rs : list Emission) : Inj (=) (=) uuids ->
  Forall (fun r => keeps_identity r.2) rs ->
  forall t : TelemetryRuntime (list TelemetryEvent) F,
  NoDup (te_id <$> rt_collector t) ->
  (forall e, e ∈ rt_collector t -> exists i, (i < rt_uuid t)%nat /\ te_id e = uuids i) ->
  let t' := foldl (emit_one uuids wall) t rs in
  rt_run_id t' = rt_run_id t /\ rt_cluster t' = rt_cluster t /\ rt_feedback t' = rt_feedback t /\
  NoDup (te_id <$> rt_collector t') /\
  exists new, rt_collector t' = rt_collector t ++ new /\ (te_name <$> new) `sublist_of` (fst ∘ fst <$> rs) /\
    Forall (fun e => is_valid e = true /\ te_run_id e = rt_run_id t /\ te_kind e = kind_for (te_name e)) new.
Proof.
  intros Hinj. induction 1 as [|[[name created] fields] rs Hr _ IH]; intros t Hn Hids; cbn [foldl].
  { split_and!; [done..|]. exists []. rewrite app_nil_r. split_and!; [done| |constructor]. apply sublist_nil_l. }
  set (t1 := emit_one uuids wall t (name, created, fields)).
  set (e := built uuids wall t name created fields).
  destruct (Hr (uuids (rt_uuid t)) name (kind_for name) (default (wall (rt_clock t)) created) (rt_run_id t))
    as (Ei & En & Ek & _ & Er).
  cbn [snd] in Ei, En, Ek, Er. fold (built uuids wall t name created fields) in Ei, En, Ek, Er. fold e in Ei, En, Ek, Er.
  assert (Ec : rt_collector t1 = if is_valid e then rt_collector t ++ [e] else rt_collector t)
    by (unfold t1, emit_one; rewrite emit_collector; done).
  assert (Hfresh : te_id e ∉ te_id <$> rt_collector t).
  { intros (e' & He & Hin)%list_elem_of_fmap. destruct (Hids e' Hin) as (i & Hi & Hx).
    assert (rt_uuid t = i) by (apply Hinj; congruence). lia. }
  destruct (IH t1) as (R & C & Fb & N & new & El & Hs & Hf).
  - rewrite Ec. destruct (is_valid e); [|done]. rewrite fmap_app. cbn. apply NoDup_app.
    split; [done|]. split; [|apply NoDup_singleton]. intros x Hx ->%list_elem_of_singleton. done.
  - intros x Hx. change (rt_uuid t1) with (1 + rt_uuid t)%nat.
    assert (Hc : x ∈ rt_collector t \/ x = e).
    { rewrite Ec in Hx. destruct (is_valid e); [apply elem_of_app in Hx as [?| ->%list_elem_of_singleton]|]; auto. }
    destruct Hc as [Hc| ->]; [destruct (Hids x Hc) as (i & ? & ?); exists i|exists (rt_uuid t)]; split; (lia || done).
  - change (rt_run_id t1) with (rt_run_id t) in *. change (rt_cluster t1) with (rt_cluster t) in *.
    change (rt_feedback t1) with (rt_feedback t) in *. split; [done|]. split; [done|]. split; [done|]. split; [done|].
    destruct (is_valid e) eqn:Ev.
    + exists (e :: new). rewrite El, Ec, <- app_assoc. split; [done|]. cbn [fmap list_fmap]. cbn [fst compose].
      split; [rewrite En; by apply sublist_skip|]. constructor; [|done]. split; [done|]. split; [done|]. congruence.
    + exists new. rewrite El, Ec. split; [done|]. split; [by apply sublist_cons|done].
Qed.

(** *** The host commands *)
(** Only an integer beyond the float range escapes the number check. *)
Lemma finite_number_spec v m :
  match finite_number v m with
  | Ok (inl x) => isfinite x = true /\ py_float v = Ok x
  | Ok (inr m') => m' = m
  | Err ex => ex = OverflowError /\ exists n, v = PyInt n /\ of_Z n = None
  end.
Proof.
  destruct v as [|b|n|x|s|]; cbn; try done.
  - destruct (of_Z n) as [x|] eqn:E; cbn.
    + by destruct (isfinite x) eqn:F.
    + split; [done|]. by exists n.
  - by destruct (isfinite x) eqn:F.
Qed.

Lemma optional_created_spec v :
  match optional_created v with
  | Ok (inl o) => forall x, o = Some x -> isfinite x = true
  | Ok (inr m) => True
  | Err ex => ex = OverflowError /\ exists n, v = PyInt n /\ of_Z n = None
  end.
Proof.
  pose proof (finite_number_spec v "created_timestamp must be a finite number") as H.
  destruct v as [|b|n|x|s|]; [done|..]; unfold optional_created; cbn [mbind result_bind];
    destruct (finite_number _ _) as [[y|m]|ex]; cbn; try done; intros y' [= <-]; by destruct H.
Qed.

Lemma action_names action name : HOST_INTERACTION_ACTIONS action = Some name ->
  kind_for name = HOST /\ exists a, HOST_ACTION name = Some a /\ (is_in name SIGNAL_REQUIRED = false <-> name = ALERT_BADGE_RESET).
Proof.
  unfold HOST_INTERACTION_ACTIONS. intros H. repeat (destruct (decide _); [simplify_eq; by (split; [done|]; eexists)|]). done.
Qed.

Lemma blank_missing s : blank s = false -> missing (Some s) = false.
Proof. unfold blank, missing. rewrite !bool_decide_eq_false. intros H ->. by apply H. Qed.

(** What the host's facts carry. *)
Definition fact_ok (fact : HostInteractionFact) : Prop :=
  (exists action, HOST_INTERACTION_ACTIONS action = Some (hf_name fact)) /\
  HOST_ACTION (hf_name fact) = Some (hf_action fact) /\
  (forall x, hf_created fact = Some x -> isfinite x = true) /\
  match hf_signal_id fact with
  | Some s => blank s = false /\ hf_name fact <> ALERT_BADGE_RESET
  | None => hf_name fact = ALERT_BADGE_RESET
  end.

Lemma parse_host_interaction_facts command :
  match parse_host_interaction command with
  | Ok (inl fact) => fact_ok fact /\ extra_keys command INTERACTION_KEYS = []
  | Ok (inr _) => True
  | Err ex => ex = OverflowError /\ exists n, get command "created_timestamp" = PyInt n /\ of_Z n = None
  end.
Proof.
  unfold parse_host_interaction. cbn zeta. destruct (existsb _ _); [done|].
  destruct (bool_decide (extra_keys _ _ = [])) eqn:Ee; cbn [negb]; [|done]. apply bool_decide_eq_true in Ee.
  destruct (get command "action") as [| | | |action|]; try done.
  destruct (HOST_INTERACTION_ACTIONS action) as [name|] eqn:En; [|done].
  pose proof (action_names _ _ En) as (_ & a & Ha & Hs).
  pose proof (optional_created_spec (get command "created_timestamp")) as Hc.
  destruct (optional_created _) as [[created|m]|ex]; cbn [mbind result_bind]; [|done|done].
  destruct (bool_decide (get command "signal_id" <> PyNone)) eqn:Ep; cbn [andb].
  - destruct (symbol_of (get command "signal_id")) as [s|]; [|done]. destruct (blank s) eqn:Eb; [done|].
    cbn [is_none]. rewrite andb_false_r, Ha. cbn [of_option mbind result_bind]. split; [|done]. split; [by exists action|].
    split; [done|]. split; [done|]. cbn. destruct (decide (name = ALERT_BADGE_RESET)); [done|]. by split.
  - apply bool_decide_eq_false, dec_stable in Ep. rewrite Ep. cbn [symbol_of is_none]. rewrite andb_true_r.
    destruct (is_in name SIGNAL_REQUIRED) eqn:Er; [done|]. rewrite Ha. cbn [of_option mbind result_bind].
    split; [|done]. split; [by exists action|]. split; [done|]. split; [done|]. cbn.
    destruct (decide (name = ALERT_BADGE_RESET)) as [E|E]; [done|]. exfalso. apply E. by apply Hs.
Qed.

Lemma host_fact_valid fact id now run_id : fact_ok fact -> blank id = false -> blank run_id = false -> isfinite now = true ->
  is_valid (interaction_fields fact id (hf_name fact) (kind_for (hf_name fact)) (default now (hf_created fact)) run_id) = true.
Proof.
  intros ((action & En) & _ & Hc & Hs) Hid Hr Hn. destruct fact as [name created sid a]. cbn [hf_name hf_created hf_signal_id] in *.
  assert (Hf : isfinite (default now created) = true) by (destruct created; cbn; auto).
  unfold is_valid, post_init, validate_correlations, require_text, require_finite, interaction_fields.
  cbn [te_kind te_name te_id te_run_id te_created te_market te_latency te_token_in te_token_out te_fallback te_event_id
    te_symbol te_signal_id te_suppression te_decision te_stage hf_signal_id].
  rewrite (bool_decide_true (kind_for name = kind_for name)) by done. rewrite Hid, Hr, Hf. cbn [negb require mbind result_bind when].
  destruct sid as [s|]; [destruct Hs as [Hb Hne]; rewrite (blank_missing s Hb)|subst name; vm_compute; reflexivity].
  unfold HOST_INTERACTION_ACTIONS in En.
  repeat (destruct (decide _); [simplify_eq; vm_compute; reflexivity|]). done.
Qed.

Lemma parse_user_feedback_facts command :
  match parse_user_feedback command with
  | Ok (inl fact) => blank (ff_signal_id fact) = false /\ isfinite (ff_created fact) = true /\
      get command "signal_id" = PyStr (ff_signal_id fact) /\
      get command "feedback_type" = PyStr (label_value (ff_label fact)) /\ extra_keys command FEEDBACK_KEYS = []
  | Ok (inr _) => True
  | Err ex => ex = OverflowError /\ exists n, get command "created_timestamp" = PyInt n /\ of_Z n = None
  end.
Proof.
  unfold parse_user_feedback. cbn zeta. destruct (existsb _ _); [done|].
  destruct (bool_decide (extra_keys _ _ = [])) eqn:Ee; cbn [negb]; [|done]. apply bool_decide_eq_true in Ee.
  destruct (get command "feedback_type") as [| | | |raw|]; try done.
  destruct (label_of raw) as [l|] eqn:El; [|done].
  assert (Hl : raw = label_value l).
  { unfold label_of in El. repeat (destruct (decide _); [by simplify_eq|]). done. }
  destruct (get command "signal_id") as [| | | |s|]; try done. destruct (blank s) eqn:Eb; [done|].
  pose proof (finite_number_spec (get command "created_timestamp") "created_timestamp must be a finite number") as Hf.
  destruct (get command "created_timestamp") as [|b|n|x|t|]; [done|..]; cbn [mbind result_bind];
    destruct (finite_number _ _) as [[y|m]|ex]; cbn; try done; destruct Hf; rewrite Hl; done.
Qed.

(** ** Properties *)

(** [records_project] nothing but the allow-listed, never deny-listed keys can reach storage: projecting a
    telemetry, feedback or tuning record never raises and keeps exactly the allow list's
    keys, and a telemetry record loses nothing on the way (the stored row determines it). *)
Theorem records_project :
  (forall e, exists r, to_record e = Ok r /\ r.*1 = TELEMETRY_ALLOWLIST) /\
  (forall f, exists r, feedback_record f = Ok r /\ r.*1 = FEEDBACK_ALLOWLIST) /\
  (forall t, exists r, tuning_record t = Ok r /\ r.*1 = TUNING_ALLOWLIST) /\
  (forall k, k ∈ TELEMETRY_ALLOWLIST ++ FEEDBACK_ALLOWLIST ++ TUNING_ALLOWLIST -> k ∉ TELEMETRY_DENYLIST) /\
  (forall e e', to_record e = to_record e' -> e = e').
Proof.
  split; [apply to_record_keys|]. split; [apply feedback_record_keys|]. split; [apply tuning_record_keys|].
  split; [|apply to_record_inj]. pose proof allowed_keys as H. by rewrite Forall_forall in H.
Qed.

(** [clustered_once] [event_clustered] is reported at most once per run: over any sequence of episodes no
    event id is reported twice, and an id is reported exactly when some episode held it
    together with a different id; [seen_count] counts the reports. *)
Theorem clustered_once calls :
  let '(outs, c) := cluster_run ∅ calls in
  NoDup (concat outs) /\ seen_count c = length (concat outs) /\
  (forall id, id ∈ concat outs <->
     exists ids, ids ∈ calls /\ id ∈ ids /\ (exists other, other ∈ ids /\ other <> id)).
Proof.
  pose proof (cluster_run_spec calls ∅) as H. destruct (cluster_run ∅ calls) as [outs c].
  destruct H as (N & -> & M). split; [done|]. split.
  - unfold seen_count. rewrite (left_id_L ∅ (∪)). by apply size_list_to_set.
  - intros id. rewrite M. set_solver.
Qed.

(** [emit_log] telemetry is fail-open and its log is clean: whatever records producers ask for,
    however wrong, emitting them never raises and leaves the rest of the runtime alone;
    an in-memory log grows by the valid ones, in order, each with its own id, the run's id
    and the kind of its name. *)
Theorem emit_log {F} uuids wall (rs : list Emission) run_id (fb : F) :
  Inj (=) (=) uuids -> Forall (fun r => keeps_identity r.2) rs ->
  let t := foldl (emit_one uuids wall) (runtime_init uuids [] fb run_id) rs in
  rt_cluster t = ∅ /\ rt_feedback t = fb /\
  NoDup (te_id <$> rt_collector t) /\ (te_name <$> rt_collector t) `sublist_of` (fst ∘ fst <$> rs) /\
  Forall (fun e => is_valid e = true /\ te_run_id e = rt_run_id t /\ te_kind e = kind_for (te_name e)) (rt_collector t).
Proof.
  intros Hinj Hr. cbn zeta. set (t0 := runtime_init _ _ _ _).
  assert (H0 : rt_collector t0 = [] /\ rt_cluster t0 = ∅ /\ rt_feedback t0 = fb)
    by (unfold t0, runtime_init; destruct run_id as [r|]; [destruct (blank r)|]; done).
  destruct H0 as (Hc & Hcl & Hf).
  destruct (emit_run_spec uuids wall rs Hinj Hr t0) as (R & C & Fb & N & new & El & Hs & Hv).
  - rewrite Hc. constructor.
  - rewrite Hc. intros e He. by apply elem_of_nil in He.
  - rewrite Hc in El. cbn [app] in El. rewrite C, Fb, R. split; [done|]. split; [done|]. split; [done|].
    rewrite El. by split.
Qed.

(** [host_interaction_stored] a host interaction the parser accepts is never lost: the record the daemon builds
    from it is valid for every run id and clock, so [emit] stores it.  The only exception
    that escapes the parser is [OverflowError], from an integer timestamp beyond the float
    range. *)
Theorem host_interaction_stored command :
  match parse_host_interaction command with
  | Ok (inl fact) =>
      forall id now run_id, blank id = false -> blank run_id = false -> isfinite now = true ->
      is_valid (interaction_fields fact id (hf_name fact) (kind_for (hf_name fact)) (default now (hf_created fact)) run_id) = true
  | Ok (inr _) => True
  | Err ex => ex = OverflowError /\ exists n, get command "created_timestamp" = PyInt n /\ of_Z n = None
  end.
Proof.
  pose proof (parse_host_interaction_facts command) as H. destruct (parse_host_interaction command) as [[fact|m]|ex]; [|done|done].
  intros. apply host_fact_valid; tauto.
Qed.

(** [feedback_stored] feedback the parser accepts is always a valid record: [record_feedback] on it can
    only fail in the store, and what it hands to the store is the host's signal and label. *)
Theorem feedback_stored command {S F} (store : Recorder F UserFeedback) uuids (t : TelemetryRuntime S F) :
  (forall n, blank (uuids n) = false) -> blank (rt_run_id t) = false ->
  match parse_user_feedback command with
  | Ok (inl fact) =>
      exists item, uf_signal_id item = Some (ff_signal_id fact) /\ uf_label item = ff_label fact /\
        get command "signal_id" = PyStr (ff_signal_id fact) /\
        get command "feedback_type" = PyStr (label_value (ff_label fact)) /\
        let '(r, t') := record_feedback store uuids t (ff_signal_id fact) (ff_label fact) (ff_created fact) in
        rt_feedback t' = (store (rt_feedback t) item).1 /\ rt_collector t' = rt_collector t /\
        r = match (store (rt_feedback t) item).2 with None => Ok item | Some ex => Err ex end
  | Ok (inr _) => True
  | Err ex => ex = OverflowError
  end.
Proof.
  intros Hu Hr. pose proof (parse_user_feedback_facts command) as H.
  destruct (parse_user_feedback command) as [[fact|m]|ex]; [|done|by destruct H].
  destruct H as (Hb & Hf & Hs & Hl & _).
  set (item := mkFeedback (uuids (rt_uuid t)) (ff_created fact) (rt_run_id t) (ff_label fact) None None (Some (ff_signal_id fact)) None).
  exists item. split; [done|]. split; [done|]. split; [done|]. split; [done|]. unfold record_feedback. fold item.
  replace (feedback_post_init item) with (Ok tt).
  - destruct (store (rt_feedback t) item) as [f [ex|]]; done.
  - unfold feedback_post_init, require_text, require_finite. cbn. by rewrite Hu, Hr, Hf, Hb.
Qed.

(** ** Witnesses *)
Definition demo_fields (name : string) : Fields := fun id n kind created run_id =>
  mkTelemetry id n kind created run_id None (Some "600519.SH") (Some name) None None None None None None None None None None
    None None None None.

Definition demo_emissions : list Emission :=
  [(EVENT_GENERATED, None, demo_fields "e1"); (EVENT_GENERATED, None, demo_fields ""); (EVENT_DEDUPED, Some (flit 7 0), demo_fields "e2")].

Lemma demo_emissions_keep : Forall (fun r => keeps_identity r.2) demo_emissions.
Proof. unfold demo_emissions. repeat (apply Forall_cons; split); [intros ?????; by split..|constructor]. Qed.

Example demo_emitted :
  te_name <$> rt_collector (foldl (emit_one pretty (fun _ => f0)) (runtime_init pretty [] tt (Some "run")) demo_emissions)
  = [EVENT_GENERATED; EVENT_DEDUPED].
Proof. vm_compute. reflexivity. Qed.

Lemma emit_log_witness :
  rt_cluster (foldl (emit_one pretty (fun _ => f0)) (runtime_init pretty [] tt (Some "run")) demo_emissions) = ∅.
Proof. exact (proj1 (emit_log pretty (fun _ => f0) demo_emissions (Some "run") tt _ demo_emissions_keep)). Defined.

Definition feedback_command : record :=
  [("protocol_version", PyInt 1); ("type", PyStr "user_feedback"); ("request_id", PyStr "r"); ("signal_id", PyStr "s1");
   ("feedback_type", PyStr "too_noisy"); ("created_timestamp", PyInt 12)].

Definition accepted {A} (r : result (A + string)) : bool := match r with Ok (inl _) => true | _ => false end.
Definition escaped {A} (r : result (A + string)) : option exn := match r with Err ex => Some ex | _ => None end.

Lemma feedback_stored_witness :
  accepted (parse_user_feedback feedback_command) = true /\
  (forall ex, escaped (parse_user_feedback feedback_command) = Some ex -> ex = OverflowError).
Proof.
  split; [vm_compute; reflexivity|].
  pose proof (feedback_stored feedback_command (@inmemory_record UserFeedback) (fun _ => "id")
    (runtime_init (fun _ => "id") tt [] (Some "run")) ltac:(intros n; vm_compute; reflexivity) ltac:(vm_compute; reflexivity)) as H.
  destruct (parse_user_feedback feedback_command) as [[fact|m]|ex]; cbn; [done|done|]. intros x [= <-]. exact H.
Defined.

(** A timestamp of 10^400 is accepted by the JSON parser and escapes the command parser. *)
Example overflow_escapes :
  parse_user_feedback (od_set "created_timestamp" (PyInt (10 ^ 400)) feedback_command) = Err OverflowError /\
  parse_host_interaction [("action", PyStr "alert_badge_reset"); ("created_timestamp", PyInt (10 ^ 400))] = Err OverflowError.
Proof. split; vm_compute; reflexivity. Qed.
