(* ===== verification/Jsonl.v ===== *)
(** * The telemetry journal (src/market_sentinel/telemetry/jsonl.py, factory.py, paths.py;
      evaluation/reader.py)

    Append-only JSON lines with rotation, repair of a torn last line and the reader.  The
    directory is a map from file names to their bytes; file operations succeed, and a crash
    in the middle of a write leaves a prefix of the line.  Every record is one [json.dumps]
    text of Json.v; [limit] is the interpreter's recursion limit. *)
From Stdlib Require Import ZArith Lia Ascii String.
From stdpp Require Import prelude strings gmap.
From S2P Require Import Prelude PyFloat Domain Normalizer NumberText Json Telemetry.
Local Open Scope Z_scope.

Definition DEFAULT_MAX_BYTES : Z := 1048576.
Definition DEFAULT_BACKUP_COUNT : nat := 5.

Abbreviation files := (gmap string string).

(** ** Bytes *)
Definition NL : ascii := ascii_of_N 10.
Definition NLs : string := String NL "".
Fixpoint endswith_nl (s : string) : bool :=
  match s with "" => false | String c "" => bool_decide (c = NL) | String _ s => endswith_nl s end.
(** [raw[: last_nl + 1]] and the tail after the last newline. *)
Fixpoint split_last (s : string) : string * string :=
  match s with
  | "" => ("", "")
  | String c s =>
      let '(p, t) := split_last s in
      if bool_decide (p = "") then if bool_decide (c = NL) then (NLs, t) else ("", String c t)
      else (String c p, t)
  end.
(** [blob.split(b"\n")] *)
Fixpoint split_nl (s : string) : list string :=
  match s with
  | "" => [""]
  | String c s =>
      if bool_decide (c = NL) then "" :: split_nl s
      else match split_nl s with [] => [] | l :: ls => String c l :: ls end
  end.
Definition newline_terminated_lines (blob : string) : list string :=
  if bool_decide (blob = "") then []
  else let parts := split_nl blob in if endswith_nl blob then removelast parts else parts.

(** [line.strip() == b""] on bytes. *)
Fixpoint blank_bytes (s : string) : bool :=
  match s with "" => true | String c s => (in_range 9 13 c || bool_decide (code c = 32)) && blank_bytes s end.

(** ** Paths *)
Definition backup_path (path : string) (index : nat) : string := path +:+ ("." +:+ int_repr (Z.of_nat index)).
(** [backup_count .. 1] *)
Fixpoint down (n : nat) : list nat := match n with O => [] | S k => n :: down k end.
Definition exists_in (fs : files) (p : string) : bool := bool_decide (is_Some (fs !! p)).
Definition rotated_paths (fs : files) (path : string) (backup_count : nat) : list string :=
  filter (fun p => exists_in fs p = true) (backup_path path <$> down backup_count)
  ++ (if exists_in fs path then [path] else []).

(** ** Reading *)
Abbreviation row := (list (string * json)).
Record JsonlReadResult := mkRead { jr_records : list row; jr_skipped_trailing_partial : bool; jr_malformed : nat }.
Definition healthy (r : JsonlReadResult) : bool := (jr_malformed r =? 0)%nat.

Section journal.
Context (limit : nat).

(** [json.loads(tail.decode("utf-8"))] inside its [try]: is the tail a JSON text? *)
Definition tail_parses (tail : string) : result bool :=
  if utf8_valid tail then
    match loads limit tail with Parsed _ => Ok true | JSONDecodeError => Ok false | LoadsRaises e => Err e end
  else Ok false.

(** One complete line: a record, a malformed line, or nothing. *)
Inductive line_kind := Row (r : row) | Malformed | Blank.
Definition read_line (line : string) : result line_kind :=
  if blank_bytes line then Ok Blank
  else if negb (utf8_valid line) then Ok Malformed
  else match loads limit line with
       | Parsed (JObj r) => Ok (Row r)
       | Parsed _ | JSONDecodeError => Ok Malformed
       | LoadsRaises e => Err e
       end.
Fixpoint read_lines (lines : list string) : result (list row * nat) :=
  match lines with
  | [] => Ok ([], 0%nat)
  | l :: ls =>
      k ← read_line l;
      '(rows, bad) ← read_lines ls;
      Ok match k with Row r => (r :: rows, bad) | Malformed => (rows, S bad) | Blank => (rows, bad) end
  end.

Definition read_jsonl (fs : files) (path : string) : result JsonlReadResult :=
  match fs !! path with
  | None => Ok (mkRead [] false 0)
  | Some raw =>
      if bool_decide (raw = "") || endswith_nl raw then
        '(rows, bad) ← read_lines (newline_terminated_lines raw);
        Ok (mkRead rows false bad)
      else
        let '(prefix, tail) := split_last raw in
        ok ← tail_parses tail;
        '(rows, bad) ← read_lines (newline_terminated_lines prefix ++ if (ok : bool) then [tail] else []);
        Ok (mkRead rows (negb ok) bad)
  end.

(** reader.py *)
Record LoadedTelemetry := mkLoaded {
  lt_records : list row;
  lt_input_files : list string;
  lt_records_read : nat;
  lt_malformed : nat;
  lt_skipped_trailing_partial : bool;
  lt_healthy : bool
}.
Definition load (fs : files) (path : string) (backup_count : nat) : result LoadedTelemetry :=
  let names := rotated_paths fs path backup_count in
  results ← traverse (read_jsonl fs) names;
  let records := results ≫= jr_records in
  let malformed := foldl (fun n r => n + jr_malformed r)%nat 0%nat results in
  Ok (mkLoaded records names (length records) malformed (existsb jr_skipped_trailing_partial results) (malformed =? 0)%nat).

(** ** The sink *)
Record Sink := mkSink { sk_path : string; sk_max_bytes : Z; sk_backups : nat; sk_allow : list string; sk_open : bool }.

Definition truncate_trailing_partial (fs : files) (path : string) : result files :=
  match fs !! path with
  | None => Ok fs
  | Some raw =>
      if bool_decide (raw = "") || endswith_nl raw then Ok fs
      else
        let '(prefix, tail) := split_last raw in
        ok ← tail_parses tail;
        Ok (<[path := if (ok : bool) then raw +:+ NLs else prefix]> fs)
  end.

(** [open("a")] creates the file. *)
Definition open_append (fs : files) (path : string) : files := <[path := default "" (fs !! path)]> fs.

Definition sink_init (fs : files) (path : string) (max_bytes backup_count : Z) (allow : option (list string)) : result (files * Sink) :=
  if max_bytes <? 1 then Err (ValueError "max_bytes must be >= 1")
  else if backup_count <? 1 then Err (ValueError "backup_count must be >= 1")
  else
    fs ← truncate_trailing_partial fs path;
    Ok (open_append fs path, mkSink path max_bytes (Z.to_nat backup_count) (default TELEMETRY_ALLOWLIST allow) true).

Definition replace (src dst : string) (fs : files) : files :=
  match fs !! src with Some c => <[dst := c]> (delete src fs) | None => fs end.

Definition rotate (fs : files) (s : Sink) : files :=
  let path := sk_path s in
  let fs := delete (backup_path path (sk_backups s)) fs in
  let fs := foldl (fun fs i => replace (backup_path path i) (backup_path path (S i)) fs) fs (down (sk_backups s - 1)) in
  let fs := replace path (backup_path path 1) fs in
  open_append fs path.

(** A record's value as JSON; [json.dumps] refuses anything else. *)
Definition to_json (v : pyval) : result json :=
  match v with
  | PyNone => Ok JNull | PyBool b => Ok (JBool b) | PyInt n => Ok (JInt n) | PyFloat x => Ok (JFloat x) | PyStr s => Ok (JStr s)
  | PyOther => Err TypeError
  end.
Definition to_row (r : record) : result row := traverse (fun p => v ← to_json p.2; Ok (p.1, v)) r.

Definition set_open (b : bool) (s : Sink) : Sink := mkSink (sk_path s) (sk_max_bytes s) (sk_backups s) (sk_allow s) b.

Definition row_of (allow : list string) (r : record) : result row :=
  payload ← project_allowlist r allow; to_row payload.
Definition sink_line (s : Sink) (r : record) : result string :=
  ms ← row_of (sk_allow s) r; dumps compact (JObj ms).

(** The handle's file once it is open. *)
Definition handle_file (fs : files) (s : Sink) : files := if sk_open s then fs else open_append fs (sk_path s).
Definition append_line (fs : files) (path line : string) : files :=
  <[path := default "" (fs !! path) +:+ line]> fs.
Definition file_size (fs : files) (path : string) : Z := Z.of_nat (String.length (default "" (fs !! path))).

Definition sink_write : Recorder (files * Sink) record := fun st r =>
  let '(fs, s) := st in
  match sink_line s r with
  | Err e => (st, Some e)
  | Ok line =>
      let fs := handle_file fs s in
      let s := set_open true s in
      if negb (utf8_valid (line +:+ NLs)) then ((fs, s), Some (ValueError "UnicodeEncodeError"))
      else
        let fs := append_line fs (sk_path s) (line +:+ NLs) in
        let fs := if sk_max_bytes s <=? file_size fs (sk_path s) then rotate fs s else fs in
        ((fs, s), None)
  end.

Definition sink_close (s : Sink) : Sink := set_open false s.

(** ** factory.py: the feedback file is opened by the first record *)
Definition feedback_sink (path : string) (max_bytes backup_count : Z) (fs : files) (inner : option Sink) : result (files * Sink) :=
  match inner with
  | Some s => Ok (fs, s)
  | None => sink_init fs path max_bytes backup_count (Some FEEDBACK_ALLOWLIST)
  end.
Definition lazy_record (path : string) (max_bytes backup_count : Z) : Recorder (files * option Sink) UserFeedback := fun st f =>
  match feedback_sink path max_bytes backup_count st.1 st.2 with
  | Err e => (st, Some e)
  | Ok st => let '((fs, s), e) := sink_record feedback_record sink_write st f in ((fs, Some s), e)
  end.
Definition lazy_close (inner : option Sink) : option Sink := None.

(** [jsonl_telemetry_runtime]: a sink that cannot be opened is replaced by the no-op
    collector ([None]). *)
Definition open_telemetry (fs : files) (path : string) (max_bytes backup_count : option Z) : files * option Sink :=
  match sink_init fs path (default DEFAULT_MAX_BYTES max_bytes) (default (Z.of_nat DEFAULT_BACKUP_COUNT) backup_count) None with
  | Ok (fs, s) => (fs, Some s)
  | Err _ => (fs, None)
  end.
Definition collect_jsonl : Recorder (files * option Sink) TelemetryEvent := fun st e =>
  match st.2 with
  | None => (st, None)
  | Some s => let '((fs, s), ex) := sink_record to_record sink_write (st.1, s) e in ((fs, Some s), ex)
  end.
Definition jsonl_telemetry_runtime (uuids : nat -> string) (fs : files) (path : string) (max_bytes backup_count : option Z)
    : TelemetryRuntime (files * option Sink) (files * option Sink) :=
  runtime_init uuids (open_telemetry fs path max_bytes backup_count) (fs, None) None.
End journal.

(** ** paths.py *)
Definition DATA_DIR_ENV : string := "MARKET_SENTINEL_DATA_DIR".
(** A path is its parts; [environ], [os.name == "nt"] and the home directory are given. *)
Definition resolve_data_dir (environ : string -> option string) (nt : bool) (home : list string) (override : option (list string)) : list string :=
  let var k := strip (default "" (environ k)) in
  match override with
  | Some d => d
  | None =>
      if negb (bool_decide (var DATA_DIR_ENV = "")) then [var DATA_DIR_ENV]
      else if nt then
        if negb (bool_decide (var "LOCALAPPDATA" = "")) then [var "LOCALAPPDATA"; "MarketSentinel"]
        else home ++ ["AppData"; "Local"; "MarketSentinel"]
      else if negb (bool_decide (var "XDG_DATA_HOME" = "")) then [var "XDG_DATA_HOME"; "market-sentinel"]
      else home ++ [".local"; "share"; "market-sentinel"]
  end.
Definition telemetry_jsonl_path (data_dir : list string) : list string := data_dir ++ ["telemetry.jsonl"].
Definition feedback_jsonl_path (data_dir : list string) : list string := data_dir ++ ["feedback.jsonl"].

(** ** Lines *)
Lemma code_nl c : negb (code c =? 10) = true -> c <> NL.
Proof. intros H ->. by vm_compute in H. Qed.

(** [line ++ "\n"] of every line. *)
Fixpoint blob (ls : list string) : string := match ls with [] => "" | l :: ls => l +:+ String NL (blob ls) end.

Lemma blob_app a b : blob (a ++ b) = blob a +:+ blob b.
Proof. induction a as [|l a IH]; [done|]. cbn [blob app]. by rewrite IH, app_assoc_str, append_cons. Qed.

Lemma split_nl_line l s : no_nl l = true -> split_nl (l +:+ String NL s) = l :: split_nl s.
Proof.
  induction l as [|c l IH]; [done|]. rewrite append_cons. cbn [no_nl split_nl]. intros [H1 H2]%andb_prop.
  rewrite bool_decide_eq_false_2 by (by apply code_nl). by rewrite IH.
Qed.
Lemma split_nl_blob ls t : Forall (fun l => no_nl l = true) ls -> split_nl (blob ls +:+ t) = ls ++ split_nl t.
Proof.
  induction 1 as [|l ls Hl Hls IH]; [done|]. cbn [blob]. by rewrite app_assoc_str, append_cons, split_nl_line, IH.
Qed.
Lemma endswith_snoc s : endswith_nl (s +:+ NLs) = true.
Proof.
  induction s as [|c s IH]; [done|]. rewrite append_cons. cbn [endswith_nl]. by destruct (s +:+ NLs) eqn:E; [destruct s|].
Qed.
Lemma blob_ends ls : ls <> [] -> endswith_nl (blob ls) = true.
Proof.
  intros H. destruct (exists_last H) as (a & l & ->). rewrite blob_app. cbn [blob].
  change (l +:+ String NL "") with (l +:+ NLs). rewrite <- app_assoc_str. apply endswith_snoc.
Qed.
Lemma lines_blob ls : Forall (fun l => no_nl l = true) ls -> newline_terminated_lines (blob ls) = ls.
Proof.
  intros H. unfold newline_terminated_lines. destruct ls as [|l ls]; [done|].
  rewrite bool_decide_eq_false_2 by (by destruct l). rewrite blob_ends by done.
  pose proof (split_nl_blob (l :: ls) "" H) as E. rewrite app_nil_str in E. rewrite E. cbn [split_nl].
  by rewrite removelast_last.
Qed.
Lemma endswith_app s t : t <> "" -> endswith_nl (s +:+ t) = endswith_nl t.
Proof.
  intros Ht. induction s as [|c s IH]; [done|]. rewrite append_cons. cbn [endswith_nl].
  destruct (s +:+ t) eqn:E; [|done]. destruct s; [|done]. change ("" +:+ t) with t in E. congruence.
Qed.
Lemma no_nl_ends t : no_nl t = true -> endswith_nl t = false.
Proof.
  induction t as [|c t IH]; [done|]. cbn [no_nl endswith_nl]. intros [H1 H2]%andb_prop. destruct t; [|auto].
  apply bool_decide_eq_false_2. by apply code_nl.
Qed.
Lemma split_last_tail t : no_nl t = true -> split_last t = ("", t).
Proof.
  induction t as [|c t IH]; [done|]. cbn [no_nl split_last]. intros [H1 H2]%andb_prop. rewrite IH by done. cbn.
  by rewrite (bool_decide_eq_false_2 (c = NL)) by (by apply code_nl).
Qed.
Lemma split_last_line l s : split_last (l +:+ String NL s) = let '(p, u) := split_last s in (l +:+ String NL p, u).
Proof.
  destruct (split_last s) as [p u] eqn:E. induction l as [|c l IH].
  - change ("" +:+ ?x) with x. cbn [split_last]. rewrite E. case_bool_decide; [subst|]; done.
  - rewrite !append_cons. cbn [split_last]. rewrite IH. by rewrite bool_decide_eq_false_2 by (by destruct l).
Qed.
Lemma split_last_blob ls t : no_nl t = true -> split_last (blob ls +:+ t) = (blob ls, t).
Proof.
  intros Ht. induction ls as [|l ls IH]; [by apply split_last_tail|]. cbn [blob].
  rewrite app_assoc_str, append_cons, split_last_line, IH. done.
Qed.

(** ** The lines of records *)
Definition line_of (r : row) : string := text compact 0 (JObj r).
(** What [json.dumps] can write and [json.loads] read back, in UTF-8, below the limits. *)
Definition storable (limit : nat) (r : row) : bool :=
  fits limit (JObj r) && utf8_valid (line_of r) && runs_ok (line_of r).

Section lines.
Context (limit : nat).

Lemma storable_inv r : storable limit r = true ->
  fits limit (JObj r) = true /\ utf8_valid (line_of r) = true /\ runs_ok (line_of r) = true /\ no_nl (line_of r) = true.
Proof.
  unfold storable. intros [[F U]%andb_prop R]%andb_prop. split; [done|]. split; [done|]. split; [done|]. by eapply text_no_nl.
Qed.

Lemma loads_line r : storable limit r = true -> loads limit (line_of r) = Parsed (JObj r).
Proof.
  intros (F & _)%storable_inv. destruct (loads_dumps compact limit (JObj r) compact_ok F) as (s & D & L).
  unfold dumps in D. rewrite (fits_ints _ _ F) in D. by injection D as <-.
Qed.

Lemma line_head r : exists s, line_of r = String "{" s.
Proof. unfold line_of. cbn [text]. destruct (map _ r); by eexists. Qed.

Lemma read_line_row r : storable limit r = true -> read_line limit (line_of r) = Ok (Row r).
Proof.
  intros H. pose proof (loads_line r H) as L. apply storable_inv in H as (_ & U & _ & _). unfold read_line.
  rewrite U, L. by destruct (line_head r) as [s ->].
Qed.
Lemma read_lines_rows rs : Forall (fun r => storable limit r = true) rs -> read_lines limit (line_of <$> rs) = Ok (rs, 0%nat).
Proof. induction 1 as [|r rs Hr Hrs IH]; [done|]. cbn [fmap list_fmap read_lines]. rewrite read_line_row by done. cbn. by rewrite IH. Qed.

(** A torn line: the record is whole, or nothing of it is. *)
Lemma tail_whole r : storable limit r = true -> tail_parses limit (line_of r) = Ok true.
Proof.
  intros H. pose proof (loads_line r H) as L. apply storable_inv in H as (_ & U & _). unfold tail_parses. by rewrite U, L.
Qed.
Lemma tail_torn r p q : storable limit r = true -> p +:+ q = line_of r -> q <> "" -> tail_parses limit p = Ok false.
Proof.
  intros H E Hq. apply storable_inv in H as (F & _ & R & _). unfold tail_parses. destruct (utf8_valid p); [|done].
  destruct (line_head r) as [s Es]. pose proof (scan_text compact compact_ok limit limit (JObj r) 0 "" F ltac:(done) I) as S.
  rewrite app_nil_str in S. fold (line_of r) in S.
  rewrite (loads_prefix limit p q (JObj r)); [done| | | |done]; rewrite E; [done| |done]. rewrite Es. by rewrite eat_same.
Qed.

Lemma lines_no_nl rs : Forall (fun r => storable limit r = true) rs -> Forall (fun l => no_nl l = true) (line_of <$> rs).
Proof. intros H. apply Forall_fmap. eapply Forall_impl; [apply H|]. intros r (_ & _ & _ & N)%storable_inv. done. Qed.
End lines.

(** ** The files of a journal, newest first *)
Definition slot (path : string) (i : nat) : string := match i with O => path | S _ => backup_path path i end.

Lemma int_repr_inj a b : int_repr a = int_repr b -> a = b.
Proof.
  intros E. pose proof (scan_number_int a "" I) as A. pose proof (scan_number_int b "" I) as B.
  rewrite app_nil_str in A, B. rewrite E in A. congruence.
Qed.
Lemma backup_inj path i j : backup_path path i = backup_path path j -> i = j.
Proof. unfold backup_path. intros E%(inj _)%(inj _)%int_repr_inj. lia. Qed.
Lemma backup_ne path i : backup_path path i <> path.
Proof.
  intros E. apply (f_equal String.length) in E. unfold backup_path in E. rewrite !length_app_str in E. cbn in E. lia.
Qed.
Lemma slot_inj path i j : slot path i = slot path j -> i = j.
Proof.
  destruct i as [|i], j as [|j]; cbn [slot]; intros E; [done| | |by apply backup_inj in E].
  - by apply eq_sym, backup_ne in E.
  - by apply backup_ne in E.
Qed.

Lemma replace_lookup src dst fs k : src <> dst ->
  replace src dst fs !! k = if decide (k = src) then None
                            else if decide (k = dst) then match fs !! src with Some c => Some c | None => fs !! dst end
                            else fs !! k.
Proof.
  intros Hn. unfold replace. destruct (fs !! src) as [c|] eqn:E.
  - destruct (decide (k = src)) as [->|H1].
    + rewrite lookup_insert_ne by done. apply lookup_delete_eq.
    + destruct (decide (k = dst)) as [->|H2]; [apply lookup_insert_eq|].
      rewrite lookup_insert_ne, lookup_delete_ne by done. done.
  - repeat case_decide; by subst.
Qed.

Definition shift (path : string) (fs : files) (i : nat) : files := replace (backup_path path i) (backup_path path (S i)) fs.

(** Shifting the backups [k .. 1] up by one. *)
Lemma shift_spec path k : forall fs, fs !! slot path (S k) = None ->
  let fs' := foldl (shift path) fs (down k) in
  (forall i, (1 <= i <= k)%nat -> fs' !! slot path (S i) = fs !! slot path i) /\
  fs' !! slot path 1 = None /\
  (forall p, (forall i, (1 <= i <= S k)%nat -> p <> slot path i) -> fs' !! p = fs !! p).
Proof.
  induction k as [|k IH]; intros fs H; cbn [down foldl].
  { split; [intros; lia|]. split; [done|]. done. }
  assert (Hne : forall i, slot path i <> slot path (S i)) by (intros i E%slot_inj; lia).
  pose proof (replace_lookup (slot path (S k)) (slot path (S (S k))) fs) as R. specialize (fun p => R p (Hne _)).
  change (shift path fs (S k)) with (replace (slot path (S k)) (slot path (S (S k))) fs).
  set (fs1 := replace _ _ fs) in *. cbv zeta.
  destruct (IH fs1) as (H1 & H2 & H3); [rewrite R; by rewrite decide_True|]. split; [|split; [done|]].
  - intros i Hi. destruct (decide (i = S k)) as [->|].
    + rewrite H3 by (intros j Hj E%slot_inj; lia). rewrite R. rewrite decide_False by (intros E%slot_inj; lia).
      rewrite decide_True by done. rewrite H. by destruct (fs !! slot path (S k)).
    + rewrite H1 by lia. rewrite R. rewrite decide_False by (intros E%slot_inj; lia).
      by rewrite decide_False by (intros E%slot_inj; lia).
  - intros p Hp. rewrite H3 by (intros i Hi; apply Hp; lia). rewrite R.
    rewrite decide_False by (apply Hp; lia). by rewrite decide_False by (apply Hp; lia).
Qed.

Lemma rotate_spec fs s : (1 <= sk_backups s)%nat ->
  rotate fs s !! slot (sk_path s) 0 = Some "" /\
  forall i, (S i <= sk_backups s)%nat -> rotate fs s !! slot (sk_path s) (S i) = fs !! slot (sk_path s) i.
Proof.
  intros HN. unfold rotate, open_append. set (path := sk_path s). set (N := sk_backups s) in *.
  set (fs1 := delete (backup_path path N) fs).
  assert (H0 : fs1 !! slot path (S (N - 1)) = None).
  { replace (S (N - 1)) with N by lia. destruct N; [lia|]. apply lookup_delete_eq. }
  destruct (shift_spec path (N - 1) fs1 H0) as (H1 & H2 & H3).
  change (fun fs i => replace (backup_path path i) (backup_path path (S i)) fs) with (shift path).
  set (fs2 := foldl (shift path) fs1 (down (N - 1))) in *. cbn [slot] in *.
  pose proof (replace_lookup path (backup_path path 1) fs2) as R. specialize (fun p => R p (not_eq_sym (backup_ne _ _))).
  split; [by rewrite lookup_insert_eq, R, decide_True|].
  intros i Hi. rewrite lookup_insert_ne by (apply not_eq_sym, backup_ne). rewrite R.
  rewrite decide_False by apply backup_ne.
  assert (Hkeep : forall j, (j < N)%nat -> fs1 !! slot path j = fs !! slot path j).
  { intros j Hj. unfold fs1. apply lookup_delete_ne. destruct N as [|n]; [lia|].
    change (backup_path path (S n)) with (slot path (S n)). intros E%slot_inj. lia. }
  destruct i as [|i].
  - rewrite decide_True by done. rewrite H2. change (fs2 !! path) with (fs2 !! slot path 0). rewrite H3 by (intros j Hj E%slot_inj; lia).
    rewrite Hkeep by lia. cbn [slot]. by destruct (fs !! path).
  - rewrite decide_False by (intros E%backup_inj; lia). rewrite (H1 (S i)) by lia. by apply Hkeep.
Qed.

(** ** The abstract journal

    A list of chunks of records, newest first: a record goes to the newest chunk; when the
    chunk's text has reached [max_bytes] a new one is started and only the newest
    [backup_count + 1] are kept.  A write torn by a crash leaves the record whole or not at
    all. *)
Definition content (rs : list row) : string := blob (line_of <$> rs).

Inductive event :=
  | Append (r : record)              (* one [write] *)
  | Crash (r : record) (n : nat).    (* a [write] of which [n] bytes reach the file, then a restart *)

Fixpoint str_take (n : nat) (s : string) : string :=
  match n, s with S n, String c s => String c (str_take n s) | _, _ => "" end.

Section refinement.
Context (limit : nat) (path : string) (max_bytes : Z) (N : nat) (allow : list string).

Definition log_append (w : row) (log : list (list row)) : list (list row) :=
  match log with
  | [] => []
  | cur :: older =>
      let cur := cur ++ [w] in
      if max_bytes <=? Z.of_nat (String.length (content cur)) then take (S N) ([] :: cur :: older) else cur :: older
  end.
Definition log_event (log : list (list row)) (ev : event) : list (list row) :=
  match ev, log with
  | Append r, _ => match row_of allow r with Ok w => log_append w log | Err _ => log end
  | Crash r n, cur :: older =>
      match row_of allow r with
      | Ok w => if (n <? String.length (line_of w))%nat then log else (cur ++ [w]) :: older
      | Err _ => log
      end
  | Crash _ _, [] => []
  end.
Definition log_run (evs : list event) : list (list row) := foldl log_event [[]] evs.

(** The records whose line reached the disk in full. *)
Definition written (evs : list event) : list row :=
  evs ≫= fun ev => match ev with
                   | Append r => match row_of allow r with Ok w => [w] | Err _ => [] end
                   | Crash r n => match row_of allow r with
                                  | Ok w => if (n <? String.length (line_of w))%nat then [] else [w]
                                  | Err _ => []
                                  end
                   end.

(** The code on the same events. *)
Definition torn_write (fs : files) (s : Sink) (r : record) (n : nat) : result files :=
  line ← sink_line s r;
  Ok (append_line (handle_file fs s) (sk_path s) (str_take n (line +:+ NLs))).
Definition journal_event (st : files * Sink) (ev : event) : result (files * Sink) :=
  match ev with
  | Append r => match sink_write st r with (st, None) => Ok st | (_, Some e) => Err e end
  | Crash r n =>
      fs ← torn_write st.1 st.2 r n;
      sink_init limit fs (sk_path st.2) (sk_max_bytes st.2) (Z.of_nat (sk_backups st.2)) (Some (sk_allow st.2))
  end.
Fixpoint journal_run (st : files * Sink) (evs : list event) : result (files * Sink) :=
  match evs with [] => Ok st | ev :: evs => st ← journal_event st ev; journal_run st evs end.

Definition event_record (ev : event) : record := match ev with Append r | Crash r _ => r end.
(** A record the journal can carry: its row is within the limits of the JSON text. *)
Definition carried (ev : event) : bool := match row_of allow (event_record ev) with Ok w => storable limit w | Err _ => false end.

Definition holds (fs : files) (log : list (list row)) : Prop :=
  log <> [] /\ (length log <= S N)%nat /\ Forall (Forall (fun w => storable limit w = true)) log /\
  forall i, (i <= N)%nat -> fs !! slot path i = content <$> log !! i.

Definition the_sink : Sink := mkSink path max_bytes N allow true.

Hypothesis (Hmax : 1 <= max_bytes) (HN : (1 <= N)%nat).

Lemma content_snoc rs w : content (rs ++ [w]) = content rs +:+ (line_of w +:+ NLs).
Proof. unfold content. by rewrite fmap_app, blob_app. Qed.

Lemma holds_current fs cur older : holds fs (cur :: older) -> fs !! path = Some (content cur).
Proof. intros (_ & _ & _ & H). apply (H 0%nat). lia. Qed.

(** Changing the newest file only. *)
Lemma holds_replace fs cur cur' older : holds fs (cur :: older) -> Forall (fun w => storable limit w = true) cur' ->
  holds (<[path := content cur']> fs) (cur' :: older).
Proof.
  intros (_ & HL & HF & H) Hc. split; [done|]. split; [done|]. split; [apply Forall_cons in HF as [_ HF]; by constructor|].
  intros i Hi. destruct i as [|i]; [apply lookup_insert_eq|].
  rewrite lookup_insert_ne by (change path with (slot path 0) at 1; by intros E%slot_inj). apply (H _ Hi).
Qed.

Lemma holds_rotate fs log : holds fs log -> holds (rotate fs the_sink) (take (S N) ([] :: log)).
Proof.
  intros (_ & HL & HF & H). destruct (rotate_spec fs the_sink HN) as [R0 RS]. cbn [the_sink sk_path sk_backups] in *.
  split; [done|]. split; [rewrite length_take; lia|]. split; [apply Forall_take; by constructor|].
  intros i Hi. rewrite lookup_take_lt by lia. destruct i as [|i]; [done|]. rewrite RS by done. apply H. lia.
Qed.

Lemma sink_line_row r w : row_of allow r = Ok w -> storable limit w = true -> sink_line the_sink r = Ok (line_of w).
Proof.
  intros E (F & _)%storable_inv. unfold sink_line. cbn [the_sink sk_allow]. rewrite E. cbn [mbind result_bind].
  unfold dumps. by rewrite (fits_ints _ _ F).
Qed.

Lemma utf8_line l : utf8_valid l = true -> utf8_valid (l +:+ NLs) = true.
Proof. intros H. by rewrite utf8_app. Qed.

Lemma append_refines fs log r w : holds fs log -> row_of allow r = Ok w -> storable limit w = true ->
  exists fs', sink_write (fs, the_sink) r = ((fs', the_sink), None) /\ holds fs' (log_append w log).
Proof.
  intros H E S. unfold sink_write. rewrite (sink_line_row _ _ E S). cbn zeta.
  pose proof (storable_inv _ _ S) as (_ & U & _ & _). rewrite utf8_line by done. cbn [negb].
  change (handle_file fs the_sink) with fs. change (set_open true the_sink) with the_sink.
  cbn [the_sink sk_path sk_max_bytes]. destruct log as [|cur older]; [by destruct H|].
  unfold append_line, file_size. rewrite (holds_current _ _ _ H). cbn [default from_option id].
  rewrite <- content_snoc, lookup_insert_eq. cbn [default from_option id log_append].
  assert (H' : holds (<[path:=content (cur ++ [w])]> fs) ((cur ++ [w]) :: older)).
  { eapply holds_replace; [done|]. destruct H as (_ & _ & HF & _). apply Forall_cons in HF as [HF _].
    apply Forall_app. split; [done|]. by constructor. }
  destruct (max_bytes <=? _); eexists; (split; [done|]); [by apply holds_rotate|done].
Qed.

Lemma str_take_split n s : exists q, str_take n s +:+ q = s /\ (q = "" <-> (String.length s <= n)%nat).
Proof.
  revert s. induction n as [|n IH]; intros s.
  - exists s. split; [by destruct s|]. destruct s; cbn; split; intros; (done || lia).
  - destruct s as [|c s]; [exists ""; cbn; split; [done|]; split; intros; (done || lia)|].
    destruct (IH s) as (q & E & Hq). exists q. cbn [str_take String.length]. rewrite append_cons, E. split; [done|].
    rewrite Hq. lia.
Qed.
Lemma str_take_app n a b : (n <= String.length a)%nat -> str_take n (a +:+ b) = str_take n a.
Proof.
  revert a. induction n as [|n IH]; intros a Hn; [by destruct a, b|]. destruct a as [|c a]; [cbn in Hn; lia|].
  rewrite append_cons. cbn [str_take]. rewrite IH; [done|]. cbn in Hn. lia.
Qed.

(** What is in the newest file after a torn write and the repair. *)
Definition repaired (cur : list row) (w : row) (n : nat) : list row :=
  if (n <? String.length (line_of w))%nat then cur else cur ++ [w].

Lemma line_not_empty w : line_of w <> "".
Proof. by destruct (line_head w) as [s ->]. Qed.

Lemma repair_content fs cur w n : Forall (fun w => storable limit w = true) cur -> storable limit w = true ->
  fs !! path = Some (content cur +:+ str_take n (line_of w +:+ NLs)) ->
  exists fs', truncate_trailing_partial limit fs path = Ok fs' /\
    open_append fs' path = <[path := content (repaired cur w n)]> fs.
Proof.
  intros Hc Hw Hfs. pose proof (lines_no_nl limit cur Hc) as Nc. pose proof (storable_inv _ _ Hw) as (_ & _ & _ & Nw).
  unfold truncate_trailing_partial. rewrite Hfs. unfold repaired.
  assert (Hends : bool_decide (content cur = "") || endswith_nl (content cur) = true).
  { destruct cur as [|x cur]; [done|]. apply orb_true_intro. right. by apply blob_ends. }
  assert (Hkeep : forall c, fs !! path = Some c -> open_append fs path = <[path := c]> fs).
  { intros c Ec. unfold open_append. by rewrite Ec. }
  assert (Hput : forall c, open_append (<[path := c]> fs) path = <[path := c]> fs).
  { intros c. unfold open_append. rewrite lookup_insert_eq. cbn. by rewrite insert_insert_eq. }
  destruct (Nat.ltb_spec n (String.length (line_of w))) as [L|L].
  - rewrite (str_take_app n (line_of w)) in * by lia. destruct (str_take_split n (line_of w)) as (q & E & Hq).
    destruct (decide (str_take n (line_of w) = "")) as [Ep|Ep].
    { rewrite Ep, app_nil_str in *. rewrite Hends. eexists. split; [done|]. by apply Hkeep. }
    assert (Np : no_nl (str_take n (line_of w)) = true) by (apply (no_nl_prefix _ q); by rewrite E).
    rewrite endswith_app, (no_nl_ends _ Np), orb_false_r by done. rewrite bool_decide_eq_false_2 by (intros H; destruct (content cur); [by apply Ep|done]).
    unfold content. rewrite split_last_blob by done. rewrite (tail_torn limit w _ q Hw E) by (intros Eq; apply Hq in Eq; lia).
    eexists. split; [done|]. apply Hput.
  - destruct (Nat.eq_dec n (String.length (line_of w))) as [->|L'].
    + rewrite (str_take_app (String.length (line_of w)) (line_of w)) in * by lia.
      assert (str_take (String.length (line_of w)) (line_of w) = line_of w) as Et.
      { destruct (str_take_split (String.length (line_of w)) (line_of w)) as (q & E & Hq).
        rewrite (proj2 Hq) in E by lia. by rewrite app_nil_str in E. }
      rewrite Et in *. rewrite endswith_app, (no_nl_ends _ Nw), orb_false_r by apply line_not_empty.
      rewrite bool_decide_eq_false_2 by (intros H; destruct (content cur); [by apply (line_not_empty w)|done]).
      unfold content at 1. rewrite split_last_blob by done. rewrite (tail_whole limit w Hw).
      eexists. split; [done|]. rewrite Hput. by rewrite content_snoc, app_assoc_str.
    + assert (str_take n (line_of w +:+ NLs) = line_of w +:+ NLs) as Et.
      { destruct (str_take_split n (line_of w +:+ NLs)) as (q & E & Hq). rewrite (proj2 Hq) in E; [by rewrite app_nil_str in E|].
        rewrite length_app_str. change (String.length NLs) with 1%nat. lia. }
      rewrite Et, <- content_snoc in *. assert (endswith_nl (content (cur ++ [w])) = true) as ->.
      { unfold content. rewrite fmap_app. apply blob_ends. by destruct (line_of <$> cur). }
      rewrite orb_true_r. eexists. split; [done|]. by apply Hkeep.
Qed.

Lemma crash_refines fs log r w n : holds fs log -> row_of allow r = Ok w -> storable limit w = true ->
  exists fs', journal_event (fs, the_sink) (Crash r n) = Ok (fs', the_sink) /\ holds fs' (log_event log (Crash r n)).
Proof.
  intros H E S. destruct log as [|cur older]; [by destruct H|].
  assert (Hcur : Forall (fun w => storable limit w = true) cur).
  { destruct H as (_ & _ & HF & _). by apply Forall_cons in HF as [HF _]. }
  cbn [journal_event fst snd]. unfold torn_write. rewrite (sink_line_row _ _ E S). cbn [mbind result_bind].
  change (handle_file fs the_sink) with fs. unfold append_line. cbn [the_sink sk_path sk_max_bytes sk_backups sk_allow].
  rewrite (holds_current _ _ _ H). cbn [default from_option id].
  set (fs1 := <[path := _]> fs). unfold sink_init.
  destruct (Z.ltb_spec max_bytes 1); [lia|]. destruct (Z.ltb_spec (Z.of_nat N) 1); [lia|].
  destruct (repair_content fs1 cur w n Hcur S) as (fs2 & E2 & O2); [by apply lookup_insert_eq|].
  rewrite E2. cbn [mbind result_bind]. rewrite O2. eexists. split; [cbn; by rewrite Nat2Z.id|].
  unfold fs1. rewrite insert_insert_eq. cbn [log_event]. rewrite E. unfold repaired.
  destruct (_ <? _)%nat; (eapply holds_replace; [done|]); [done|].
  apply Forall_app. split; [done|]. by constructor.
Qed.

Lemma event_refines fs log ev : holds fs log -> carried ev = true ->
  exists fs', journal_event (fs, the_sink) ev = Ok (fs', the_sink) /\ holds fs' (log_event log ev).
Proof.
  intros H C. unfold carried in C. destruct (row_of allow (event_record ev)) as [w|] eqn:E; [|done].
  destruct ev as [r|r n]; cbn in E.
  - destruct (append_refines fs log r w H E C) as (fs' & W & H'). exists fs'. cbn [journal_event log_event].
    rewrite W, E. by destruct log.
  - by apply (crash_refines fs log r w n).
Qed.

Lemma run_refines evs : forall fs log, holds fs log -> Forall (fun ev => carried ev = true) evs ->
  exists fs', journal_run (fs, the_sink) evs = Ok (fs', the_sink) /\ holds fs' (foldl log_event log evs).
Proof.
  induction evs as [|ev evs IH]; intros fs log H HF; [by exists fs|]. apply Forall_cons in HF as [Hev HF].
  destruct (event_refines fs log ev H Hev) as (fs1 & E & H1). cbn [journal_run foldl]. rewrite E. by apply IH.
Qed.
End refinement.

(** ** Reading a journal back *)
Section reading.
Context (limit : nat) (path : string) (N : nat).

Lemma read_slot fs log i rs : holds limit path N fs log -> (i <= N)%nat -> log !! i = Some rs ->
  read_jsonl limit fs (slot path i) = Ok (mkRead rs false 0).
Proof.
  intros (_ & _ & HF & H) Hi E. unfold read_jsonl. rewrite H, E by done. cbn [fmap option_fmap option_map].
  assert (Hrs : Forall (fun w => storable limit w = true) rs) by (by eapply Forall_lookup_1 in HF).
  assert (bool_decide (content rs = "") || endswith_nl (content rs) = true) as ->.
  { destruct rs as [|w rs]; [done|]. apply orb_true_intro. right. by apply blob_ends. }
  unfold content. rewrite lines_blob by (by apply (lines_no_nl limit)). by rewrite read_lines_rows.
Qed.

Lemma down_reverse n : down n ++ [0%nat] = reverse (seq 0 (S n)).
Proof.
  induction n as [|n IH]; [done|]. rewrite seq_S, reverse_snoc, <- IH. done.
Qed.

Lemma rotated_slots fs log : holds limit path N fs log ->
  rotated_paths fs path N = slot path <$> reverse (seq 0 (length log)).
Proof.
  intros (Hne & HL & _ & H). unfold rotated_paths.
  assert (Hex : forall i, (i <= N)%nat -> exists_in fs (slot path i) = bool_decide (i < length log)%nat).
  { intros i Hi. unfold exists_in. rewrite H by done. apply bool_decide_ext.
    rewrite fmap_is_Some. apply lookup_lt_is_Some. }
  assert (Hd : forall k, (k <= N)%nat ->
    filter (fun p => exists_in fs p = true) (backup_path path <$> down k) = backup_path path <$> down (k `min` (length log - 1))).
  { induction k as [|k IH]; intros Hk; [done|]. cbn [down fmap list_fmap]. rewrite filter_cons.
    change (backup_path path (S k)) with (slot path (S k)). rewrite Hex by done. rewrite IH by lia.
    destruct (Nat.lt_ge_cases (S k) (length log)) as [L|L].
    - rewrite bool_decide_eq_true_2 by done. rewrite decide_True by done.
      replace (S k `min` (length log - 1))%nat with (S k) by lia. replace (k `min` (length log - 1))%nat with k by lia. done.
    - rewrite bool_decide_eq_false_2 by lia. rewrite decide_False by done. do 2 f_equal. lia. }
  pose proof (Hex 0%nat ltac:(lia)) as H0. cbn [slot] in H0. rewrite Hd, H0 by done. destruct log as [|x log]; [done|]. cbn [length] in *.
  rewrite bool_decide_eq_true_2 by lia. replace (N `min` (S (length log) - 1))%nat with (length log) by lia.
  rewrite <- down_reverse, fmap_app. f_equal. clear. induction (length log) as [|n IH]; [done|]. cbn [down fmap list_fmap]. by rewrite IH.
Qed.

Lemma traverse_Forall2 {A B C} (f : A -> result C) (h : B -> C) l k :
  Forall2 (fun x y => f x = Ok (h y)) l k -> traverse f l = Ok (h <$> k).
Proof. induction 1 as [|x y l k E _ IH]; [done|]. cbn. rewrite E. cbn. by rewrite IH. Qed.

Lemma load_spec fs log : holds limit path N fs log ->
  load limit fs path N = Ok (mkLoaded (concat (reverse log)) (slot path <$> reverse (seq 0 (length log)))
    (length (concat (reverse log))) 0 false true).
Proof.
  intros H. unfold load. rewrite (rotated_slots fs log H).
  assert (T : traverse (read_jsonl limit fs) (slot path <$> reverse (seq 0 (length log))) = Ok ((fun rs => mkRead rs false 0) <$> reverse log)).
  { apply traverse_Forall2, Forall2_fmap_l, Forall2_reverse, Forall2_same_length_lookup_2; [by rewrite length_seq|].
    intros i j rs Ei Ej. apply lookup_seq in Ei as [-> Hi]. apply read_slot with log; [done| |done].
    destruct H as (_ & HL & _). lia. }
  rewrite T. cbn [mbind result_bind].
  assert (E1 : forall k, ((fun rs => mkRead rs false 0) <$> k) ≫= jr_records = concat k).
  { induction k as [|x k IH]; [done|]. cbn. by rewrite IH. }
  assert (E2 : forall k n, foldl (fun n r => n + jr_malformed r)%nat n ((fun rs => mkRead rs false 0) <$> k) = n).
  { induction k as [|x k IH]; intros n; [done|]. cbn. rewrite IH. lia. }
  assert (E3 : forall k, existsb jr_skipped_trailing_partial ((fun rs => mkRead rs false 0) <$> k) = false).
  { induction k as [|x k IH]; [done|]. cbn. by rewrite IH. }
  by rewrite E1, E2, E3.
Qed.
End reading.

(** The abstract journal forgets only from the oldest end. *)
Lemma concat_take_suffix {A} k (l : list (list A)) : concat (reverse (take k l)) `suffix_of` concat (reverse l).
Proof.
  rewrite <- (take_drop k l) at 2. rewrite reverse_app, concat_app. by apply suffix_app_r.
Qed.

Lemma log_event_suffix max_bytes N allow log ev all : log <> [] -> concat (reverse log) `suffix_of` all ->
  log_event max_bytes N allow log ev <> [] /\
  concat (reverse (log_event max_bytes N allow log ev)) `suffix_of` all ++ written allow [ev].
Proof.
  intros Hne Hs. destruct log as [|cur older]; [done|].
  assert (Hadd : forall w, concat (reverse ((cur ++ [w]) :: older)) `suffix_of` all ++ [w]).
  { intros w. rewrite reverse_cons, concat_app in *. cbn [concat] in *. rewrite app_nil_r in *. rewrite app_assoc.
    destruct Hs as [p ->]. exists p. by rewrite !app_assoc. }
  destruct ev as [r|r n]; cbn [log_event written mbind list_bind]; destruct (row_of allow r) as [w|]; rewrite ?app_nil_r; try done.
  - unfold log_append. destruct (max_bytes <=? _); [|done]. split; [done|].
    etransitivity; [apply concat_take_suffix|]. rewrite reverse_cons, concat_app. cbn [concat]. rewrite !app_nil_r. apply Hadd.
  - destruct (_ <? _)%nat; rewrite ?app_nil_r; done.
Qed.

Lemma log_run_suffix max_bytes N allow evs : forall log all, log <> [] -> concat (reverse log) `suffix_of` all ->
  concat (reverse (foldl (log_event max_bytes N allow) log evs)) `suffix_of` all ++ written allow evs.
Proof.
  induction evs as [|ev evs IH]; intros log all Hne Hs; [by rewrite app_nil_r|]. cbn [foldl].
  destruct (log_event_suffix max_bytes N allow log ev all Hne Hs) as [H1 H2].
  assert (written allow (ev :: evs) = written allow [ev] ++ written allow evs) as -> by (unfold written; cbn; by rewrite app_nil_r).
  rewrite app_assoc. by apply IH.
Qed.

(** Below the first rotation nothing is forgotten. *)
Lemma log_run_all max_bytes N allow evs : forall cur,
  Z.of_nat (String.length (content (cur ++ written allow evs))) < max_bytes ->
  foldl (log_event max_bytes N allow) [cur] evs = [cur ++ written allow evs].
Proof.
  induction evs as [|ev evs IH]; intros cur Hs; [by rewrite app_nil_r|]. cbn [foldl].
  assert (W : written allow (ev :: evs) = written allow [ev] ++ written allow evs) by (unfold written; cbn; by rewrite app_nil_r).
  assert (E : log_event max_bytes N allow [cur] ev = [cur ++ written allow [ev]]).
  { rewrite W, app_assoc in Hs. unfold content in Hs. rewrite fmap_app, blob_app, length_app_str in Hs.
    fold (content (cur ++ written allow [ev])) in Hs.
    destruct ev as [r|r n]; cbn [log_event written mbind list_bind] in *; destruct (row_of allow r) as [w|]; rewrite ?app_nil_r in *; try done.
    - cbn [log_append]. destruct (Z.leb_spec max_bytes (Z.of_nat (String.length (content (cur ++ [w]))))); [lia|done].
    - destruct (_ <? _)%nat; by rewrite ?app_nil_r in *. }
  rewrite E, W, app_assoc. apply IH. by rewrite <- app_assoc, <- W.
Qed.

(** The journal of a directory without earlier files. *)
Definition start_journal (limit : nat) (path : string) (max_bytes : Z) (N : nat) (allow : list string) : result (files * Sink) :=
  sink_init limit ∅ path max_bytes (Z.of_nat N) (Some allow).

(** ** Property *)

(** C12: the telemetry journal survives crashes and rotation.  From an empty directory, after any
    sequence of writes and of writes torn at any byte by a crash and followed by a restart,
    no call raises, the reader finds no malformed line and no partial one, the files are at
    most [backup_count + 1], and the records read are those of the abstract journal: a
    suffix of the records whose line reached the disk, oldest first; all of them while their
    text is shorter than [max_bytes]. *)
Theorem journal_spec limit path max_bytes N allow evs :
  1 <= max_bytes -> (1 <= N)%nat -> Forall (fun ev => carried limit allow ev = true) evs ->
  exists st fs s names,
    start_journal limit path max_bytes N allow = Ok st /\
    journal_run limit st evs = Ok (fs, s) /\
    let log := log_run max_bytes N allow evs in
    load limit fs path N = Ok (mkLoaded (concat (reverse log)) names (length (concat (reverse log))) 0 false true) /\
    length names = length log /\ (length log <= S N)%nat /\
    concat (reverse log) `suffix_of` written allow evs /\
    (Z.of_nat (String.length (content (written allow evs))) < max_bytes -> concat (reverse log) = written allow evs).
Proof.
  intros Hm HN HF. unfold start_journal, sink_init. destruct (Z.ltb_spec max_bytes 1); [lia|].
  destruct (Z.ltb_spec (Z.of_nat N) 1); [lia|]. cbn [truncate_trailing_partial]. rewrite Nat2Z.id.
  unfold truncate_trailing_partial. rewrite lookup_empty. cbn [mbind result_bind default].
  set (fs0 := open_append ∅ path). change (mkSink path max_bytes N allow true) with (the_sink path max_bytes N allow).
  assert (Hi0 : holds limit path N fs0 [[]]).
  { split; [done|]. split; [cbn; lia|]. split; [by repeat constructor|]. intros i Hi. unfold fs0, open_append. rewrite lookup_empty.
    destruct i as [|i]; [apply lookup_insert_eq|]. rewrite lookup_insert_ne; [done|].
    change path with (slot path 0) at 1. by intros E%slot_inj. }
  destruct (run_refines limit path max_bytes N allow Hm HN evs fs0 [[]] Hi0 HF) as (fs & E & Hr).
  exists (fs0, the_sink path max_bytes N allow), fs, (the_sink path max_bytes N allow),
    (slot path <$> reverse (seq 0 (length (log_run max_bytes N allow evs)))).
  split; [done|]. split; [done|]. cbn zeta. split; [by apply load_spec|].
  split; [by rewrite length_fmap, length_reverse, length_seq|]. split; [apply Hr|].
  split; [apply (log_run_suffix max_bytes N allow evs [[]] []); [done|]; by exists []|].
  intros Hs. unfold log_run. rewrite (log_run_all max_bytes N allow evs []) by done. cbn. by rewrite app_nil_r.
Qed.

Definition demo_record (sym : string) (x : float) : record := [("symbol", PyStr sym); ("latency_s", PyFloat x); ("token_in", PyInt 7); ("event_id", PyNone)].
Definition demo_events : list event :=
  [Append (demo_record "A" (flit 1 1)); Crash (demo_record "B" (flit 2 1)) 20; Append (demo_record "C" (flit 3 1));
   Crash (demo_record "D" (flit 25 2)) 1000; Append (demo_record "E" f0)].

Lemma demo_carried : Forall (fun ev => carried 1000 TELEMETRY_ALLOWLIST ev = true) demo_events.
Proof. repeat constructor. Qed.

Lemma journal_spec_witness : exists fs s names,
  journal_run 1000 (open_append ∅ "t.jsonl", mkSink "t.jsonl" 100 1 TELEMETRY_ALLOWLIST true) demo_events = Ok (fs, s) /\
  load 1000 fs "t.jsonl" 1 = Ok (mkLoaded
    ((fun p => [("symbol", JStr p.1); ("latency_s", JFloat p.2); ("token_in", JInt 7); ("event_id", JNull)])
       <$> [("D", flit 25 2); ("E", f0)]) names 2 0 false true).
Proof.
  destruct (journal_spec 1000 "t.jsonl" 100 1 TELEMETRY_ALLOWLIST demo_events ltac:(lia) ltac:(lia) demo_carried)
    as (st & fs & s & names & E0 & E & L & _).
  injection E0 as <-. exists fs, s, names. split; [exact E|]. refine (eq_trans L _). vm_compute. reflexivity.
Defined.
