(* ===== verification/Pipeline.v ===== *)
(** * The signal pipeline (src/market_sentinel/signals/pipeline.py)

    Detect, deduplicate, compose, then let each composed signal ask the cooldown once.  The
    telemetry runtime is the engine's: it is threaded beside the pipeline's own state, and
    may be absent.  Each part reads the clock and draws ids through its own sequence. *)
From Stdlib Require Import ZArith Lia Ascii String.
From stdpp Require Import prelude strings gmap pretty.
From S2P Require Import Prelude PyFloat FloatSum Domain Features Events Gate Dedupe Cooldown Cluster Composer Telemetry.
Local Open Scope Z_scope.

Record Pipeline := mkPipeline {
  pl_deduper : Deduper;
  pl_composer : Composer;
  pl_cooldown : CooldownState;
  pl_uuid : nat;
  pl_wall : nat;
  pl_mono : nat
}.

Definition pipeline_init : Pipeline := mkPipeline ∅ composer_init ∅ 0 0 0.

Definition event_fields (e : MarketEvent) : Fields := fun id name kind created run_id =>
  mkTelemetry id name kind created run_id (Some (ev_market_ts e)) (Some (ev_symbol e)) (Some (ev_id e)) None
    (Some (type_value (ev_type e))) None (Some (direction_value (ev_direction e))) None None None None None None None None None None.

Definition signal_fields (s : Signal) (reason : option SuppressionReason) : Fields := fun id name kind created run_id =>
  mkTelemetry id name kind created run_id (Some (sig_market_ts s)) (Some (sig_symbol s)) None (Some (sig_id s))
    None (Some (sig_family s)) (Some (direction_value (sig_direction s))) (Some (priority_value (sig_priority s)))
    None None None None reason None None None None.

Definition clustered_fields (s : Signal) (event_id : string) : Fields := fun id name kind created run_id =>
  mkTelemetry id name kind created run_id (Some (sig_market_ts s)) (Some (sig_symbol s)) (Some event_id) (Some (sig_id s))
    None (Some (sig_family s)) (Some (direction_value (sig_direction s))) None None None None None None None None None None.

Definition empty_result : SignalPipelineResult := mkPipelineResult [] [] [] [].

Section pipeline.
Context {S F : Type} (collect : Recorder S TelemetryEvent).
Context (tel_ids : nat -> string) (tel_wall : nat -> float).
Context (event_ids signal_ids : nat -> string) (wall : nat -> float) (sig_wall mono : nat -> float).
Context (lookback_s cooldown_s : float).
Abbreviation Runtime := (option (TelemetryRuntime S F)).

Definition tell (t : Runtime) (name : TelemetryName) (fields : Fields) : Runtime :=
  match t with None => None | Some t => Some (emit collect tel_ids tel_wall t name None fields) end.

Definition emit_event (t : Runtime) (name : TelemetryName) (e : MarketEvent) : Runtime := tell t name (event_fields e).
Definition emit_signal (t : Runtime) (name : TelemetryName) (s : Signal) : Runtime := tell t name (signal_fields s None).
Definition emit_suppressed (t : Runtime) (s : Signal) (reason : SuppressionReason) : Runtime :=
  tell t ALERT_SUPPRESSED (signal_fields s (Some reason)).

(** The deduplication loop. *)
Fixpoint accept_loop (d : Deduper) (t : Runtime) (es : list MarketEvent) : list MarketEvent * Deduper * Runtime :=
  match es with
  | [] => ([], d, t)
  | e :: es =>
      let t := emit_event t EVENT_GENERATED e in
      let '(kept, d) := accept d e in
      let t := match kept with Some _ => t | None => emit_event t EVENT_DEDUPED e end in
      let '(rest, d, t) := accept_loop d t es in
      (match kept with Some e => e :: rest | None => rest end, d, t)
  end.

(** [_observe_episodes] *)
Definition emit_clustered (t : TelemetryRuntime S F) (s : Signal) : TelemetryRuntime S F :=
  let '(fresh, t) := cluster_update t (sig_event_ids s) in
  foldl (fun t id => emit collect tel_ids tel_wall t EVENT_CLUSTERED None (clustered_fields s id)) t fresh.

Fixpoint observe_episodes (prior : list (string * SignalPriority)) (seen : list string) (t : Runtime)
    (produced : list (Signal * SignalTrace)) : Runtime :=
  match produced with
  | [] => t
  | (signal, _) :: produced =>
      if decide (sig_id signal ∈ seen) then observe_episodes prior seen t produced
      else
        let t := match od_get (sig_id signal) prior with
                 | None => emit_signal t SIGNAL_EPISODE_CREATED signal
                 | Some previous =>
                     if priority_rank previous <? priority_rank (sig_priority signal)
                     then emit_signal t SIGNAL_ESCALATED signal else t
                 end in
        let t := match t with None => None | Some t => Some (emit_clustered t signal) end in
        observe_episodes prior (sig_id signal :: seen) t produced
  end.

(** The alert loop: one cooldown request per signal id. *)
Fixpoint alert_loop (seen : list string) (st : CooldownState) (n : nat) (t : Runtime)
    (produced : list (Signal * SignalTrace)) : list Signal * CooldownState * nat * Runtime :=
  match produced with
  | [] => ([], st, n, t)
  | (signal, _) :: produced =>
      if decide (sig_id signal ∈ seen) then
        alert_loop seen st n (emit_suppressed t signal SAME_TICK_DUPLICATE) produced
      else
        let '(ok, st) := allow cooldown_s st (mono n) (sig_id signal) (sig_priority signal) in
        let t := if ok : bool then emit_signal t ALERT_CANDIDATE signal else emit_suppressed t signal COOLDOWN in
        let '(alerts, st, n, t) := alert_loop (sig_id signal :: seen) st (1 + n) t produced in
        (if ok : bool then signal :: alerts else alerts, st, n, t)
  end.

Definition prior_priority (signals : list Signal) : list (string * SignalPriority) :=
  foldl (fun d s => od_set (sig_id s) (sig_priority s) d) [] signals.

(** Compose the accepted events, or prune when there is none. *)
Definition compose_accepted (c : Composer) (accepted : list MarketEvent) (current : MarketFeatures)
    : result (list (Signal * SignalTrace) * Composer) :=
  match accepted with
  | [] => Ok ([], prune lookback_s c (ft_symbol current) (ft_market_ts current))
  | _ => consume_batch lookback_s signal_ids sig_wall c accepted current
  end.

(** [SignalPipeline.process] *)
Definition process (p : Pipeline) (t : Runtime) (previous : option MarketFeatures) (current : MarketFeatures)
    : result (SignalPipelineResult * Pipeline * Runtime) :=
  '(events, n) ← detect previous current (wall (pl_wall p)) event_ids (pl_uuid p);
  let '(accepted, d, t) := accept_loop (pl_deduper p) t events in
  let prior := prior_priority (active_signals (pl_composer p) (ft_symbol current)) in
  '(produced, c) ← compose_accepted (pl_composer p) accepted current;
  let t := observe_episodes prior [] t produced in
  let signal_updates := active_signals c (ft_symbol current) in
  traces ← traverse (fun s => trace_for c (sig_id s)) signal_updates;
  let '(alerts, st, m, t) := alert_loop [] (pl_cooldown p) (pl_mono p) t produced in
  Ok (mkPipelineResult accepted signal_updates traces alerts, mkPipeline d c st n (1 + pl_wall p) m, t).

(** ** The same, without telemetry *)
Fixpoint alerts_of (seen : list string) (st : CooldownState) (n : nat) (produced : list (Signal * SignalTrace))
    : list Signal * CooldownState * nat :=
  match produced with
  | [] => ([], st, n)
  | (signal, _) :: produced =>
      if decide (sig_id signal ∈ seen) then alerts_of seen st n produced
      else
        let '(ok, st) := allow cooldown_s st (mono n) (sig_id signal) (sig_priority signal) in
        let '(alerts, st, n) := alerts_of (sig_id signal :: seen) st (1 + n) produced in
        (if ok : bool then signal :: alerts else alerts, st, n)
  end.

Definition process_silent (p : Pipeline) (previous : option MarketFeatures) (current : MarketFeatures)
    : result (SignalPipelineResult * Pipeline) :=
  '(events, n) ← detect previous current (wall (pl_wall p)) event_ids (pl_uuid p);
  let '(accepted, d) := accept_all (pl_deduper p) events in
  '(produced, c) ← compose_accepted (pl_composer p) accepted current;
  let signal_updates := active_signals c (ft_symbol current) in
  traces ← traverse (fun s => trace_for c (sig_id s)) signal_updates;
  let '(alerts, st, m) := alerts_of [] (pl_cooldown p) (pl_mono p) produced in
  Ok (mkPipelineResult accepted signal_updates traces alerts, mkPipeline d c st n (1 + pl_wall p) m).

Lemma accept_loop_silent es : forall d t, (accept_loop d t es).1 = accept_all d es.
Proof.
  induction es as [|e es IH]; intros d t; cbn [accept_loop accept_all]; [done|].
  destruct (accept d e) as [kept d']. set (t' := match kept with Some _ => _ | None => _ end).
  specialize (IH d' t'). destruct (accept_loop d' t' es) as [[rest d2] t2]. cbn in IH. by rewrite <- IH.
Qed.

Lemma alert_loop_silent produced : forall seen st n t, (alert_loop seen st n t produced).1 = alerts_of seen st n produced.
Proof.
  induction produced as [|[s tr] l IH]; intros seen st n t; cbn [alert_loop alerts_of]; [done|].
  destruct (decide _); [apply IH|]. destruct (allow _ _ _ _ _) as [ok st']. cbn zeta. change (1 + n)%nat with (Datatypes.S n).
  set (t' := if ok then _ else _). specialize (IH (sig_id s :: seen) st' (Datatypes.S n) t').
  destruct (alert_loop _ st' _ t' l) as [[[a st2] n2] t2]. cbn in IH. by rewrite <- IH.
Qed.

Lemma process_silent_eq p t previous current :
  process_silent p previous current = (r ← process p t previous current; Ok r.1).
Proof.
  unfold process, process_silent. destruct (detect _ _ _ _ _) as [[events n]|ex]; cbn [mbind result_bind]; [|done].
  pose proof (accept_loop_silent events (pl_deduper p) t) as Ha.
  destruct (accept_loop _ t events) as [[accepted d] t1]. cbn in Ha. rewrite <- Ha.
  destruct (compose_accepted _ accepted current) as [[produced c]|ex]; cbn [mbind result_bind]; [|done].
  destruct (traverse _ _) as [traces|ex]; cbn [mbind result_bind]; [|done].
  match goal with |- context [alert_loop [] _ _ ?t2 produced] => set (t2' := t2) end.
  pose proof (alert_loop_silent produced [] (pl_cooldown p) (pl_mono p) t2') as Hl.
  destruct (alert_loop _ _ _ _ produced) as [[[a st] m] t3]. cbn in Hl. by rewrite <- Hl.
Qed.
End pipeline.

(** ** Alerts *)
Section alerts.
Context (mono : nat -> float) (cooldown_s : float).

(** The cooldown requests of a tick: one per produced signal, at successive readings. *)
Fixpoint requests (n : nat) (produced : list (Signal * SignalTrace)) : list Request :=
  match produced with
  | [] => []
  | p :: produced => mkRequest (mono n) (sig_id p.1) (sig_priority p.1) :: requests (Datatypes.S n) produced
  end.

Lemma alerts_of_spec produced : forall seen st n,
  NoDup (sig_id <$> produced.*1) -> (forall p, p ∈ produced -> sig_id p.1 ∉ seen) ->
  let '(alerts, st', n') := alerts_of mono cooldown_s seen st n produced in
  alerts `sublist_of` produced.*1 /\ n' = (n + length produced)%nat /\
  sig_id <$> alerts = rq_id <$> (allow_all cooldown_s st (requests n produced)).1 /\
  st' = (allow_all cooldown_s st (requests n produced)).2.
Proof.
  induction produced as [|[s t] l IH]; intros seen st n Hn Hs; cbn [alerts_of requests allow_all].
  { cbn. by rewrite Nat.add_0_r. }
  cbn in Hn. apply NoDup_cons in Hn as [Hf Hn].
  rewrite decide_False by (apply (Hs (s, t)); by left). cbn [rq_now rq_id rq_priority fst].
  destruct (allow _ _ _ _ _) as [ok st1]. specialize (IH (sig_id s :: seen) st1 (Datatypes.S n) Hn). change (1 + n)%nat with (Datatypes.S n).
  destruct (alerts_of _ _ _ st1 _ l) as [[alerts st2] n2]. destruct IH as (H1 & H2 & H3 & H4).
  { intros p Hp. rewrite not_elem_of_cons. split; [|apply Hs; by right]. intros E. apply Hf. rewrite <- E.
    apply list_elem_of_fmap_2. by apply list_elem_of_fmap_2. }
  destruct (allow_all cooldown_s st1 (requests _ l)) as [rest st3]. cbn in H3, H4 |- *.
  split; [destruct ok; [by apply sublist_skip|by apply sublist_cons]|]. split; [lia|]. split; [|done].
  destruct ok; cbn; by rewrite H3.
Qed.
End alerts.

(** ** One tick *)
Lemma group_by_symbol_single symbol batch : batch <> [] -> Forall (fun e => ev_symbol e = symbol) batch ->
  group_by_symbol batch = [(symbol, batch)].
Proof.
  destruct batch as [|e l]; [done|]. intros _ [He Hl]%Forall_cons. unfold group_by_symbol. cbn [foldl od_get default].
  rewrite He. cbn [od_set app]. change (default [] None ++ [e]) with [e].
  assert (G : forall acc, foldl (fun d e0 => od_set (ev_symbol e0) (default [] (od_get (ev_symbol e0) d) ++ [e0]) d) [(symbol, acc)] l
    = [(symbol, acc ++ l)]).
  { clear He. induction Hl as [|x l Hx Hl IH]; intros acc; cbn [foldl]; [by rewrite app_nil_r|].
    rewrite Hx. cbn [od_get od_set]. rewrite !decide_True by done. cbn [default from_option]. rewrite IH. by rewrite <- app_assoc. }
  apply (G [e]).
Qed.

Lemma prune_rows_accepted rows : forall c, cp_accepted (foldl prune_one c rows) = cp_accepted c.
Proof. induction rows as [|[k s] rows IH]; intros c; cbn [foldl]; [done|]. by rewrite IH. Qed.

Section tick.
Context {S F : Type} (collect : Recorder S TelemetryEvent).
Context (tel_ids : nat -> string) (tel_wall : nat -> float).
Context (event_ids signal_ids : nat -> string) (wall : nat -> float) (sig_wall mono : nat -> float).
Context (lookback_s cooldown_s : float).
Context (Hev : Inj (=) (=) event_ids) (Hsig : Inj (=) (=) signal_ids).
Context (Fl : fin lookback_s) (Hl : 0 <= fval lookback_s).

Definition drawn (n : nat) : string -> string -> Prop := fun _ id => exists i, (i < n)%nat /\ id = event_ids i.

(** Remembered events have finite times. *)
Definition times_fin (c : Composer) : Prop :=
  forall sym l e, cp_accepted c !! sym = Some l -> e ∈ l -> fin (ev_market_ts e).

Definition pipeline_wf (p : Pipeline) : Prop :=
  composer_wf signal_ids (drawn (pl_uuid p)) (pl_composer p) /\ times_fin (pl_composer p).

Lemma pipeline_init_wf : pipeline_wf pipeline_init.
Proof. split; [apply composer_init_wf|]. intros sym l e. cbn. by rewrite lookup_empty. Qed.

Lemma times_fin_update c c' symbol cutoff batch : times_fin c -> Forall (fun e => fin (ev_market_ts e)) batch ->
  cp_accepted c' = <[symbol := fresh_events cutoff (default [] (cp_accepted c !! symbol) ++ batch)]> (cp_accepted c) ->
  times_fin c'.
Proof.
  intros T Hb E sym l e. rewrite E. destruct (decide (symbol = sym)) as [<-|Hd].
  - rewrite lookup_insert_eq. intros [= <-] [_ He]%list_elem_of_filter. apply elem_of_app in He as [He|He].
    + destruct (cp_accepted c !! symbol) as [l|] eqn:El; [by eapply T|by apply elem_of_nil in He].
    + rewrite Forall_forall in Hb. by apply Hb.
  - rewrite lookup_insert_ne by done. apply T.
Qed.

Lemma traverse_traces seen c symbol : composer_wf signal_ids seen c ->
  forall l, (forall s, s ∈ l -> s ∈ active_signals c symbol) ->
  exists ts, traverse (fun s => trace_for c (sig_id s)) l = Ok ts /\ Forall2 trace_matches l ts.
Proof.
  intros W. induction l as [|s l IH]; intros Hs; cbn [traverse]; [by exists []|].
  destruct (active_trace _ seen c symbol s W (Hs s ltac:(by left))) as (t & -> & Hm & _).
  destruct IH as (ts & -> & Hf); [intros; apply Hs; by right|]. cbn. exists (t :: ts). by split; [|constructor].
Qed.

(** What a tick's result says. *)
Record tick_ok (p : Pipeline) (current : MarketFeatures) (events : list MarketEvent) (r : SignalPipelineResult)
    (produced : list (Signal * SignalTrace)) : Prop := {
  tk_accepted : pr_accepted_events r = (accept_all (pl_deduper p) events).1;
  tk_composed : forall e, e ∈ pr_accepted_events r -> exists q, q ∈ produced /\ ev_id e ∈ sig_event_ids q.1;
  tk_updates : Forall (fun s => sig_symbol s = ft_symbol current) (pr_signal_updates r) /\ NoDup (sig_id <$> pr_signal_updates r);
  tk_traces : Forall2 trace_matches (pr_signal_updates r) (pr_traces r);
  tk_produced : produced.*1 ⊆ pr_signal_updates r /\ NoDup (sig_id <$> produced.*1) /\ (pr_accepted_events r = [] -> produced = []);
  tk_times : Forall (fun q => fin (sig_market_ts q.1) /\ exists i, sig_id q.1 = signal_ids i) produced;
  tk_alerts : pr_alert_candidates r `sublist_of` produced.*1 /\
    sig_id <$> pr_alert_candidates r = rq_id <$> (allow_all cooldown_s (pl_cooldown p) (requests mono (pl_mono p) produced)).1
}.

Lemma requests_lookup produced : forall n i q, produced !! i = Some q ->
  requests mono n produced !! i = Some (mkRequest (mono (n + i)%nat) (sig_id q.1) (sig_priority q.1)).
Proof.
  induction produced as [|q0 l IH]; intros n i q; [done|]. destruct i as [|i]; cbn; [intros [= ->]; by rewrite Nat.add_0_r|]. intros H.
  rewrite (IH _ _ _ H). by rewrite Nat.add_succ_r.
Qed.
Lemma requests_ids produced : forall n, rq_id <$> requests mono n produced = sig_id <$> produced.*1.
Proof. induction produced as [|q l IH]; intros n; [done|]. cbn. by rewrite IH. Qed.

(** Whether a composed signal alerts is between it and the cooldown the tick found. *)
Lemma alerts_exact p current events r produced i q : tick_ok p current events r produced -> produced !! i = Some q ->
  q.1 ∈ pr_alert_candidates r <->
  (allow cooldown_s (pl_cooldown p) (mono (pl_mono p + i)%nat) (sig_id q.1) (sig_priority q.1)).1 = true.
Proof.
  intros T Hi. destruct (tk_alerts _ _ _ _ _ T) as [Hs Ha], (tk_produced _ _ _ _ _ T) as (_ & N & _).
  pose proof (allow_all_alone cooldown_s (requests mono (pl_mono p) produced) (pl_cooldown p) i _ ltac:(by rewrite requests_ids) (requests_lookup _ _ _ _ Hi)) as A.
  cbn [rq_id rq_now rq_priority] in A. rewrite <- A, <- Ha. split; [apply list_elem_of_fmap_2|].
  intros (s & E & Hin)%list_elem_of_fmap. enough (q.1 = s) by by subst.
  assert (Hq : q.1 ∈ produced.*1) by (apply list_elem_of_fmap_2; by eapply list_elem_of_lookup_2).
  assert (Hp : s ∈ produced.*1) by (by eapply elem_of_sublist).
  apply list_elem_of_lookup in Hq as [j Hj], Hp as [k Hk]. assert (j = k) as ->; [|congruence].
  apply (NoDup_lookup (sig_id <$> produced.*1) j k (sig_id q.1) N); rewrite list_lookup_fmap; [by rewrite Hj|by rewrite Hk, E].
Qed.

Lemma process_silent_spec p previous current : pipeline_wf p -> fin (ft_market_ts current) ->
  exists events n r p' produced,
    detect previous current (wall (pl_wall p)) event_ids (pl_uuid p) = Ok (events, n) /\
    process_silent event_ids signal_ids wall sig_wall mono lookback_s cooldown_s p previous current = Ok (r, p') /\
    pipeline_wf p' /\ pl_uuid p' = n /\ tick_ok p current events r produced /\
    compose_accepted signal_ids sig_wall lookback_s (pl_composer p) (pr_accepted_events r) current = Ok (produced, pl_composer p') /\
    pr_signal_updates r = active_signals (pl_composer p') (ft_symbol current) /\
    pl_cooldown p' = (allow_all cooldown_s (pl_cooldown p) (requests mono (pl_mono p) produced)).2 /\
    pl_deduper p' = (accept_all (pl_deduper p) events).2.
Proof.
  intros [W T] Ft.
  destruct (run_rules_ok rule_types default_rules previous current (wall (pl_wall p)) event_ids default_rules_ok (pl_uuid p))
    as (events & Ed & _ & Hf & Hi). fold (detect previous current (wall (pl_wall p)) event_ids (pl_uuid p)) in Ed.
  unfold process_silent. rewrite Ed. cbn [mbind result_bind].
  destruct (accept_all (pl_deduper p) events) as [acc d] eqn:Ea.
  assert (Hsub : acc `sublist_of` events).
  { change acc with (acc, d).1. rewrite <- Ea, accept_all_gate. apply gate_run_sublist. }
  set (sym := ft_symbol current). set (n := (pl_uuid p + length events)%nat).
  assert (Hdrawn : forall e, e ∈ acc -> exists i, (pl_uuid p <= i < n)%nat /\ ev_id e = event_ids i).
  { intros e He. eapply elem_of_sublist in He; [|exact Hsub].
    assert (Hm : ev_id e ∈ ev_id <$> events) by by apply list_elem_of_fmap_2.
    rewrite Hi in Hm. apply list_elem_of_fmap in Hm as (i & -> & [? ?]%elem_of_seq). exists i. unfold n. split; [lia|done]. }
  assert (Hev' : forall e, e ∈ acc -> event_of previous current (wall (pl_wall p)) e).
  { rewrite Forall_forall in Hf. intros e He. apply Hf. by eapply elem_of_sublist. }
  assert (C : exists produced c,
    compose_accepted signal_ids sig_wall lookback_s (pl_composer p) acc current = Ok (produced, c) /\ (composer_wf signal_ids (drawn n) c /\ times_fin c) /\ NoDup (sig_id <$> produced.*1) /\
    (forall q, q ∈ produced -> q.1 ∈ active_signals c sym) /\
    (forall e, e ∈ acc -> exists q, q ∈ produced /\ ev_id e ∈ sig_event_ids q.1) /\ (acc = [] -> produced = []) /\
    Forall (fun q => fin (sig_market_ts q.1)) produced).
  { assert (Hmono : forall (l x : string), drawn (pl_uuid p) l x -> drawn n l x).
    { intros l x (i & ? & ?). exists i. unfold n. split; [lia|done]. }
    destruct acc as [|e0 acc0].
    - exists [], (prune lookback_s (pl_composer p) sym (ft_market_ts current)). split; [done|].
      split; [split; [eapply composer_wf_seen; [exact Hmono|by apply prune_wf]|]|].
      { apply (times_fin_update (pl_composer p) _ sym (fsub (ft_market_ts current) lookback_s) []); [done|constructor|].
        rewrite app_nil_r. unfold prune, prune_active. cbn zeta. rewrite prune_rows_accepted. done. }
      split; [constructor|].
      split; [intros q Hq; by apply elem_of_nil in Hq|]. split; [intros e He; by apply elem_of_nil in He|]. split; [done|constructor].
    - set (acc := e0 :: acc0) in *.
      assert (Hb : batch_ok (drawn (pl_uuid p)) sym (ft_market_ts current) acc).
      { split.
        - rewrite Forall_forall. intros e He. by destruct (Hev' e He).
        - rewrite Forall_forall. intros e He. by destruct (Hev' e He).
        - eapply sublist_NoDup; [|apply fmap_sublist, Hsub]. rewrite Hi. apply NoDup_fmap_2; [done|]. apply NoDup_seq.
        - intros e l He (j & Hj & Ej). destruct (Hdrawn e He) as (i & ? & Ei).
          assert (i = j) by (apply Hev; congruence). lia. }
      unfold compose_accepted, consume_batch. change (match acc with [] => _ | _ => ?x end) with x. rewrite (group_by_symbol_single sym) by (done || apply Hb). cbn [consume_symbols].
      destruct (consume_symbol_spec lookback_s signal_ids sig_wall Hsig (drawn (pl_uuid p)) (pl_composer p) sym _ acc current W ltac:(done) Fl Hl Ft Hb)
        as (ps & c & -> & W' & Hacc & Hn & Hp & Hall). cbn [mbind result_bind].
      exists ps, c. rewrite app_nil_r. split; [done|].
      assert (T' : times_fin c).
      { eapply times_fin_update; [exact T| |exact Hacc]. destruct Hb as [_ Ht _ _]. eapply Forall_impl; [exact Ht|]. by intros ? ->. }
      split; [split; [|done]|split; [done|split; [|split; [done|split; [done|]]]]].
      + eapply composer_wf_seen; [|exact W']. intros l x [Hx|(e & He & _ & <-)]; [by apply (Hmono l)|].
        destruct (Hdrawn e He) as (i & ? & ->). exists i. split; [lia|done].
      + intros q Hq. destruct (Hp q Hq) as (lin & [G _] & Hs & _). apply active_signals_elem.
        exists (sig_symbol q.1, lin, sig_direction q.1). split; [by apply od_get_elem|done].
      + rewrite Forall_forall. intros q Hq. destruct (Hp q Hq) as (lin & _ & _ & m & He & Hm).
        destruct (eq_times _ _ _ _ _ _ _ He) as (x & Hx & -> & _). apply last_Some_elem_of in Hx.
        destruct (Hm x Hx) as [Hr _]. destruct (cp_accepted c !! sym) as [l|] eqn:El; [by eapply T'|by apply elem_of_nil in Hr]. }
  destruct C as (produced & c & Ec & [Wc Tc] & Hn & Hp & Hall & Hnil & Hfin). rewrite Ec. cbn [mbind result_bind].
  destruct (traverse_traces (drawn n) c sym Wc (active_signals c sym) ltac:(done)) as (ts & -> & Hts). cbn [mbind result_bind].
  pose proof (alerts_of_spec mono cooldown_s produced [] (pl_cooldown p) (pl_mono p) Hn ltac:(intros q _; apply not_elem_of_nil)) as Hal.
  destruct (alerts_of _ _ _ _ _ produced) as [[alerts st] m]. destruct Hal as (A1 & A2 & A3 & A4).
  eexists events, n, _, _, produced. split; [done|]. split; [done|]. split; [by split|]. split; [done|].
  split; [|split; [exact Ec|split; [done|split; [exact A4|by rewrite Ea]]]]. split; cbn.
  - by rewrite Ea.
  - done.
  - split; [|by eapply active_ids_nodup]. rewrite Forall_forall. intros s Hs.
    by destruct (active_trace _ _ c sym s Wc Hs) as (t & _ & _ & ?).
  - done.
  - split; [|done]. intros s (q & -> & Hq)%list_elem_of_fmap. by apply Hp.
  - rewrite Forall_forall in Hfin |- *. intros q Hq. split; [by apply Hfin|].
    pose proof (Hp q Hq) as (k & Hk & _)%active_signals_elem. destruct (cw_rows _ _ _ Wc _ _ Hk) as [_ _ _ (i & _ & Ei) _].
    by exists i.
  - done.
Qed.
End tick.

(** ** The telemetry of a tick *)
Definition tally (name : TelemetryName) (names : list TelemetryName) : nat :=
  length (filter (fun n => n = name) names).

Lemma tally_app name l k : tally name (l ++ k) = (tally name l + tally name k)%nat.
Proof. unfold tally. by rewrite filter_app, length_app. Qed.

Lemma tally_none name l (allowed : list TelemetryName) : Forall (fun n => n ∈ allowed) l -> name ∉ allowed -> tally name l = 0%nat.
Proof.
  intros Hf Hn. unfold tally. replace (filter (fun n => n = name) l) with (@nil TelemetryName); [done|].
  induction Hf as [|n l Hin Hf IH]; [done|]. rewrite filter_cons. destruct (decide (n = name)) as [->|]; done.
Qed.

Lemma tally_two a b l : Forall (fun n => n ∈ [a; b]) l -> a <> b -> (tally a l + tally b l)%nat = length l.
Proof.
  intros Hf Hab. unfold tally. induction Hf as [|n l Hin Hf IH]; [done|]. rewrite !filter_cons.
  apply elem_of_cons in Hin as [-> | ->%list_elem_of_singleton].
  - rewrite decide_True, decide_False by done. cbn. lia.
  - rewrite decide_False, decide_True by congruence. cbn. lia.
Qed.

Section log.
Context {F : Type} (tel_ids : nat -> string) (tel_wall : nat -> float) (cooldown_s : float) (mono : nat -> float).
Context (Hids : forall n, blank (tel_ids n) = false) (Hwall : forall n, isfinite (tel_wall n) = true).
Abbreviation Runtime := (TelemetryRuntime (list TelemetryEvent) F).

Definition names (t : Runtime) : list TelemetryName := te_name <$> rt_collector t.
Definition ready (t : Runtime) : Prop := blank (rt_run_id t) = false.
Definition speak (t : Runtime) (name : TelemetryName) (fields : Fields) : Runtime :=
  emit inmemory_record tel_ids tel_wall t name None fields.

(** [t] grew by [new]. *)
Definition grows (t t' : Runtime) (new : list TelemetryName) : Prop := names t' = names t ++ new /\ rt_run_id t' = rt_run_id t.

Lemma grows_refl t : grows t t [].
Proof. split; [by rewrite app_nil_r|done]. Qed.
Lemma grows_trans t1 t2 t3 l k : grows t1 t2 l -> grows t2 t3 k -> grows t1 t3 (l ++ k).
Proof. intros [H1 R1] [H2 R2]. split; [by rewrite H2, H1, <- app_assoc|congruence]. Qed.
Lemma grows_ready t t' l : grows t t' l -> ready t -> ready t'.
Proof. unfold ready. by intros [_ ->]. Qed.

Lemma speak_grows t name fields :
  is_valid (built tel_ids tel_wall t name None fields) = true ->
  te_name (built tel_ids tel_wall t name None fields) = name -> grows t (speak t name fields) [name].
Proof.
  intros Hv Hn. split; [|done]. unfold names, speak. rewrite emit_collector, Hv. unfold fail_open, inmemory_record. cbn [fst].
  rewrite fmap_app. cbn. by rewrite Hn.
Qed.

Definition nonempty (s : string) : Prop := missing (Some s) = false.

Lemma event_grows t name e : ready t -> name = EVENT_GENERATED \/ name = EVENT_DEDUPED ->
  isfinite (ev_market_ts e) = true -> nonempty (ev_symbol e) -> nonempty (ev_id e) -> grows t (speak t name (event_fields e)) [name].
Proof.
  intros Hr Hn Hf Hs Hi. apply speak_grows; [|done]. unfold ready, nonempty in *.
  unfold is_valid, built, event_fields, post_init, validate_correlations, require_text, require_finite. cbn -[missing blank isfinite].
  rewrite Hids, Hr, Hwall, Hf. cbn -[missing]. rewrite Hs, Hi. destruct Hn as [-> | ->]; done.
Qed.

Lemma signal_grows t name s reason : ready t ->
  (name ∈ [SIGNAL_EPISODE_CREATED; SIGNAL_ESCALATED; ALERT_CANDIDATE]) \/ (name = ALERT_SUPPRESSED /\ reason <> None) ->
  isfinite (sig_market_ts s) = true -> nonempty (sig_symbol s) -> nonempty (sig_id s) ->
  grows t (speak t name (signal_fields s reason)) [name].
Proof.
  intros Hr Hn Hf Hs Hi. apply speak_grows; [|done]. unfold ready, nonempty in *.
  unfold is_valid, built, signal_fields, post_init, validate_correlations, require_text, require_finite. cbn -[missing blank isfinite is_none].
  rewrite Hids, Hr, Hwall, Hf. cbn -[missing is_none]. rewrite Hs, Hi.
  destruct Hn as [Hn|[-> Hn]]; [|by destruct reason].
  repeat (apply elem_of_cons in Hn as [->|Hn]; [done|]). by apply elem_of_nil in Hn.
Qed.

Lemma clustered_grows s ids : forall t, exists new,
  grows t (foldl (fun t id => speak t EVENT_CLUSTERED (clustered_fields s id)) t ids) new /\ Forall (fun n => n ∈ [EVENT_CLUSTERED]) new.
Proof.
  induction ids as [|id ids IH]; intros t; cbn [foldl]; [exists []; split; [apply grows_refl|constructor]|].
  assert (H1 : exists l, grows t (speak t EVENT_CLUSTERED (clustered_fields s id)) l /\ Forall (fun n => n ∈ [EVENT_CLUSTERED]) l).
  { destruct (is_valid (built tel_ids tel_wall t EVENT_CLUSTERED None (clustered_fields s id))) eqn:E.
    - exists [EVENT_CLUSTERED]. split; [by apply speak_grows|]. constructor; [by left|constructor].
    - exists []. split; [|constructor]. split; [|done]. unfold names, speak. by rewrite emit_collector, E, app_nil_r. }
  destruct H1 as (l & G1 & F1). destruct (IH (speak t EVENT_CLUSTERED (clustered_fields s id))) as (k & G2 & F2).
  exists (l ++ k). split; [by eapply grows_trans|by apply Forall_app].
Qed.

Lemma accept_loop_grows es : forall d t, ready t ->
  Forall (fun e => isfinite (ev_market_ts e) = true /\ nonempty (ev_symbol e) /\ nonempty (ev_id e)) es ->
  exists t' new, accept_loop inmemory_record tel_ids tel_wall d (Some t) es = ((accept_all d es).1, (accept_all d es).2, Some t') /\
    grows t t' new /\ Forall (fun n => n ∈ [EVENT_GENERATED; EVENT_DEDUPED]) new /\ tally EVENT_GENERATED new = length es /\
    (tally EVENT_DEDUPED new + length (accept_all d es).1)%nat = length es.
Proof.
  induction es as [|e es IH]; intros d t Hr He; cbn [accept_loop accept_all].
  { exists t, []. split; [done|]. split; [apply grows_refl|]. by split. }
  apply Forall_cons in He as [(Hf & Hs & Hi) He].
  pose proof (event_grows t EVENT_GENERATED e Hr ltac:(by left) Hf Hs Hi) as G1.
  unfold emit_event, tell. fold (speak t EVENT_GENERATED (event_fields e)). set (t1 := speak t EVENT_GENERATED (event_fields e)) in *.
  pose proof (grows_ready _ _ _ G1 Hr) as Hr1.
  destruct (accept d e) as [[e'|] d'].
  - destruct (IH d' t1 Hr1 He) as (t' & new & -> & G & Fn & T1 & T2). destruct (accept_all d' es) as [rest d2]. cbn in T1, T2 |- *.
    exists t', ([EVENT_GENERATED] ++ new). split; [done|]. split; [by eapply grows_trans|]. split; [constructor; [by left|done]|].
    rewrite !tally_app, T1. split; [done|]. change (tally EVENT_DEDUPED [EVENT_GENERATED]) with 0%nat. lia.
  - pose proof (event_grows t1 EVENT_DEDUPED e Hr1 ltac:(by right) Hf Hs Hi) as G2.
    fold (speak t1 EVENT_DEDUPED (event_fields e)). set (t2 := speak t1 EVENT_DEDUPED (event_fields e)) in *.
    destruct (IH d' t2 (grows_ready _ _ _ G2 Hr1) He) as (t' & new & -> & G & Fn & T1 & T2).
    destruct (accept_all d' es) as [rest d2]. cbn in T1, T2 |- *.
    exists t', (([EVENT_GENERATED] ++ [EVENT_DEDUPED]) ++ new). split; [done|]. split; [eapply grows_trans; [by eapply grows_trans|done]|].
    split; [constructor; [by left|constructor; [right; by left|done]]|]. rewrite !tally_app, T1.
    change (tally EVENT_DEDUPED [EVENT_GENERATED]) with 0%nat. change (tally EVENT_DEDUPED [EVENT_DEDUPED]) with 1%nat.
    change (tally EVENT_GENERATED [EVENT_GENERATED]) with 1%nat. change (tally EVENT_GENERATED [EVENT_DEDUPED]) with 0%nat. lia.
Qed.

Definition signal_loggable (q : Signal * SignalTrace) : Prop :=
  isfinite (sig_market_ts q.1) = true /\ nonempty (sig_symbol q.1) /\ nonempty (sig_id q.1).

Lemma observe_grows prior produced : forall seen t, ready t -> Forall signal_loggable produced ->
  exists t' new, observe_episodes inmemory_record tel_ids tel_wall prior seen (Some t) produced = Some t' /\ grows t t' new /\
    Forall (fun n => n ∈ [SIGNAL_EPISODE_CREATED; SIGNAL_ESCALATED; EVENT_CLUSTERED]) new.
Proof.
  induction produced as [|[s tr] l IH]; intros seen t Hr He; cbn [observe_episodes].
  { exists t, []. split; [done|]. split; [apply grows_refl|constructor]. }
  apply Forall_cons in He as [(Hf & Hs & Hi) He]. cbn in Hf, Hs, Hi. destruct (decide _); [by apply IH|].
  set (told := match od_get _ _ with None => _ | Some _ => _ end).
  assert (H1 : exists t1 k, told = Some t1 /\ grows t t1 k /\ Forall (fun n => n ∈ [SIGNAL_EPISODE_CREATED; SIGNAL_ESCALATED; EVENT_CLUSTERED]) k).
  { unfold told. destruct (od_get _ _) as [p|]; [destruct (_ <? _)|].
    - eexists _, [SIGNAL_ESCALATED]. split; [done|]. split; [apply signal_grows; [done|left; set_solver|done..]|]. repeat constructor.
    - exists t, []. split; [done|]. split; [apply grows_refl|constructor].
    - eexists _, [SIGNAL_EPISODE_CREATED]. split; [done|]. split; [apply signal_grows; [done|left; set_solver|done..]|]. repeat constructor. }
  destruct H1 as (t1 & k & -> & G1 & F1). unfold emit_clustered, cluster_update.
  destruct (newly_clustered (rt_cluster t1) (sig_event_ids s)) as [fresh c].
  set (t2 := mkRuntime (rt_run_id t1) c (rt_collector t1) (rt_feedback t1) (rt_uuid t1) (rt_clock t1)).
  assert (G2 : grows t1 t2 []) by (split; [by rewrite app_nil_r|done]).
  destruct (clustered_grows s fresh t2) as (k3 & G3 & F3). set (t3 := foldl _ t2 fresh) in *.
  pose proof (grows_trans _ _ _ _ _ (grows_trans _ _ _ _ _ G1 G2) G3) as G. rewrite app_nil_r in G.
  destruct (IH (sig_id s :: seen) t3 (grows_ready _ _ _ G Hr) He) as (t' & new & Eo & G4 & F4).
  exists t', ((k ++ k3) ++ new). split; [exact Eo|]. split; [by eapply grows_trans|]. rewrite !Forall_app. split; [split; [done|]|done].
  eapply Forall_impl; [exact F3|]. intros nm ->%list_elem_of_singleton. set_solver.
Qed.

Lemma alert_loop_grows produced : forall seen st n t, ready t -> Forall signal_loggable produced ->
  exists t' new, alert_loop inmemory_record tel_ids tel_wall mono cooldown_s seen st n (Some t) produced =
      (alerts_of mono cooldown_s seen st n produced, Some t') /\ grows t t' new /\
    Forall (fun n => n ∈ [ALERT_CANDIDATE; ALERT_SUPPRESSED]) new /\
    tally ALERT_CANDIDATE new = length (alerts_of mono cooldown_s seen st n produced).1.1 /\ length new = length produced.
Proof.
  induction produced as [|[s tr] l IH]; intros seen st n t Hr He; cbn [alert_loop alerts_of].
  { exists t, []. split; [done|]. split; [apply grows_refl|]. by split. }
  apply Forall_cons in He as [(Hf & Hs & Hi) He]. cbn in Hf, Hs, Hi.
  assert (Hsup : forall r, grows t (speak t ALERT_SUPPRESSED (signal_fields s (Some r))) [ALERT_SUPPRESSED])
    by (intros r; apply signal_grows; [done|by right|done..]).
  destruct (decide _).
  - unfold emit_suppressed, tell. fold (speak t ALERT_SUPPRESSED (signal_fields s (Some SAME_TICK_DUPLICATE))).
    destruct (IH seen st n _ (grows_ready _ _ _ (Hsup SAME_TICK_DUPLICATE) Hr) He) as (t' & new & -> & G & Fn & T & L).
    exists t', ([ALERT_SUPPRESSED] ++ new). split; [done|]. split; [by eapply grows_trans|].
    split; [constructor; [right; by left|done]|]. rewrite tally_app, T. cbn. by rewrite L.
  - destruct (allow _ _ _ _ _) as [ok st1]. cbn zeta. change (1 + n)%nat with (Datatypes.S n). unfold emit_signal, emit_suppressed, tell.
    set (name := if ok then ALERT_CANDIDATE else ALERT_SUPPRESSED).
    assert (H1 : exists t1, (if ok then Some (speak t ALERT_CANDIDATE (signal_fields s None))
      else Some (speak t ALERT_SUPPRESSED (signal_fields s (Some COOLDOWN)))) = Some t1 /\ grows t t1 [name]).
    { destruct ok; eexists; (split; [done|]); [|by apply Hsup]. apply signal_grows; [done|left; set_solver|done..]. }
    destruct H1 as (t1 & E1 & G1). unfold speak in E1. rewrite E1.
    destruct (IH (sig_id s :: seen) st1 (Datatypes.S n) t1 (grows_ready _ _ _ G1 Hr) He) as (t' & new & -> & G & Fn & T & L).
    destruct (alerts_of _ _ _ st1 _ l) as [[alerts st2] n2]. cbn in T |- *.
    exists t', ([name] ++ new). split; [done|]. split; [by eapply grows_trans|].
    split; [constructor; [unfold name; destruct ok; set_solver|done]|]. rewrite tally_app, T. cbn [length app]. rewrite L.
    split; [|done]. by destruct ok.
Qed.
End log.

Lemma process_of_silent {S F} collect tel_ids tel_wall event_ids signal_ids wall sig_wall mono lookback_s cooldown_s
    p (t : option (TelemetryRuntime S F)) previous current r p' :
  process_silent event_ids signal_ids wall sig_wall mono lookback_s cooldown_s p previous current = Ok (r, p') ->
  exists t', process collect tel_ids tel_wall event_ids signal_ids wall sig_wall mono lookback_s cooldown_s p t previous current = Ok (r, p', t').
Proof.
  rewrite (process_silent_eq collect tel_ids tel_wall _ _ _ _ _ _ _ p t). intros H%bind_ok. destruct H as ([[r0 p0] t0] & E & [= <- <-]).
  by exists t0.
Qed.

(** ** Properties *)

(** C5: a tick of the pipeline never raises and keeps its invariant.  Its accepted events
    are the deduper's; the signals it composes are the composer's answer to those events, from
    the state the tick found, and each accepted event is in one of them; they are live, and the
    live signals listed are the composer's of the symbol, with distinct ids, the symbol's name
    and their traces beside them.  The alert candidates are composed signals, in order: the
    i-th composed signal alerts exactly when the cooldown, as the tick found it, lets it pass
    at the i-th clock reading, so the first signal of an id always does.  The deduper, the
    composer and the cooldown are left as those answers say. *)
Theorem process_spec {S F} (collect : Recorder S TelemetryEvent) tel_ids tel_wall event_ids signal_ids wall sig_wall mono
    lookback_s cooldown_s p (t : option (TelemetryRuntime S F)) previous current :
  Inj (=) (=) event_ids -> Inj (=) (=) signal_ids -> fin lookback_s -> 0 <= fval lookback_s ->
  pipeline_wf event_ids signal_ids p -> fin (ft_market_ts current) ->
  exists events n produced r p' t',
    detect previous current (wall (pl_wall p)) event_ids (pl_uuid p) = Ok (events, n) /\
    process collect tel_ids tel_wall event_ids signal_ids wall sig_wall mono lookback_s cooldown_s p t previous current = Ok (r, p', t') /\
    pipeline_wf event_ids signal_ids p' /\ tick_ok signal_ids mono cooldown_s p current events r produced /\
    compose_accepted signal_ids sig_wall lookback_s (pl_composer p) (pr_accepted_events r) current = Ok (produced, pl_composer p') /\
    pr_signal_updates r = active_signals (pl_composer p') (ft_symbol current) /\
    pl_deduper p' = (accept_all (pl_deduper p) events).2 /\
    pl_cooldown p' = (allow_all cooldown_s (pl_cooldown p) (requests mono (pl_mono p) produced)).2 /\
    (forall i q, produced !! i = Some q ->
       (q.1 ∈ pr_alert_candidates r <->
        (allow cooldown_s (pl_cooldown p) (mono (pl_mono p + i)%nat) (sig_id q.1) (sig_priority q.1)).1 = true) /\
       (pl_cooldown p !! sig_id q.1 = None -> q.1 ∈ pr_alert_candidates r)).
Proof.
  intros Hev Hsig Fl Hl W Ft.
  destruct (process_silent_spec event_ids signal_ids wall sig_wall mono lookback_s cooldown_s Hev Hsig Fl Hl p previous current W Ft)
    as (events & n & r & p' & produced & Ed & Ep & W' & _ & T & Ec & Eu & Ek & Eq).
  destruct (process_of_silent collect tel_ids tel_wall _ _ _ _ _ _ _ p t _ _ _ _ Ep) as (t' & E).
  exists events, n, produced, r, p', t'. do 8 (split; [done|]). intros i q Hi.
  pose proof (alerts_exact _ _ _ _ _ _ _ _ _ _ T Hi) as A. split; [exact A|]. intros Hn. apply A. unfold allow. by rewrite Hn.
Qed.

(** [process_observed] telemetry only observes: the result and the pipeline's state after a tick are the
    same with any runtime and any collector - failing ones included - as with none. *)
Theorem process_observed {S F S' F'} (collect : Recorder S TelemetryEvent) (collect' : Recorder S' TelemetryEvent)
    tel_ids tel_wall tel_ids' tel_wall' event_ids signal_ids wall sig_wall mono lookback_s cooldown_s p
    (t : option (TelemetryRuntime S F)) (t' : option (TelemetryRuntime S' F')) previous current :
  (r ← process collect tel_ids tel_wall event_ids signal_ids wall sig_wall mono lookback_s cooldown_s p t previous current; Ok r.1) =
  (r ← process collect' tel_ids' tel_wall' event_ids signal_ids wall sig_wall mono lookback_s cooldown_s p t' previous current; Ok r.1).
Proof. by rewrite <- !process_silent_eq. Qed.

(** [process_funnel] the funnel of a tick is fully recorded: with a working in-memory collector, the tick
    logs one [event_generated] per detected event, one [event_deduped] per event the deduper
    drops, one [alert_candidate] per alert and one [alert_suppressed] per other composed
    signal, and no other record of those names. *)
Theorem process_funnel {F} tel_ids tel_wall event_ids signal_ids wall sig_wall mono lookback_s cooldown_s
    p (t : TelemetryRuntime (list TelemetryEvent) F) previous current :
  Inj (=) (=) event_ids -> Inj (=) (=) signal_ids -> fin lookback_s -> 0 <= fval lookback_s ->
  pipeline_wf event_ids signal_ids p -> fin (ft_market_ts current) ->
  (forall n, blank (tel_ids n) = false) -> (forall n, isfinite (tel_wall n) = true) -> blank (rt_run_id t) = false ->
  (forall n, event_ids n <> "" /\ signal_ids n <> "") -> ft_symbol current <> "" ->
  exists events n produced r p' t' new,
    detect previous current (wall (pl_wall p)) event_ids (pl_uuid p) = Ok (events, n) /\
    process inmemory_record tel_ids tel_wall event_ids signal_ids wall sig_wall mono lookback_s cooldown_s p (Some t) previous current
      = Ok (r, p', Some t') /\
    tick_ok signal_ids mono cooldown_s p current events r produced /\
    te_name <$> rt_collector t' = (te_name <$> rt_collector t) ++ new /\
    tally EVENT_GENERATED new = length events /\
    (tally EVENT_DEDUPED new + length (pr_accepted_events r))%nat = length events /\
    tally ALERT_CANDIDATE new = length (pr_alert_candidates r) /\
    (tally ALERT_SUPPRESSED new + length (pr_alert_candidates r))%nat = length produced.
Proof.
  intros Hev Hsig Fl Hl W Ft Hti Htw Hrun Hne Hsym.
  assert (Hm : forall s, s <> "" -> nonempty s) by (intros s Hs; by apply bool_decide_eq_false).
  destruct (run_rules_ok rule_types default_rules previous current (wall (pl_wall p)) event_ids default_rules_ok (pl_uuid p))
    as (es & Ed & _ & Hf & Hi). fold (detect previous current (wall (pl_wall p)) event_ids (pl_uuid p)) in Ed.
  destruct (process_silent_spec event_ids signal_ids wall sig_wall mono lookback_s cooldown_s Hev Hsig Fl Hl p previous current W Ft)
    as (events & n & r & p' & produced & Ed' & Ep & W' & _ & T & Ec & _). rewrite Ed in Ed'. injection Ed' as <- <-.
  assert (Hes : Forall (fun e => isfinite (ev_market_ts e) = true /\ nonempty (ev_symbol e) /\ nonempty (ev_id e)) es).
  { rewrite Forall_forall in Hf |- *. intros e He. destruct (Hf e He) as [-> -> _ _ _ _ _ _]. split; [by destruct Ft|].
    split; [by apply Hm|]. assert (Hx : ev_id e ∈ ev_id <$> es) by by apply list_elem_of_fmap_2.
    rewrite Hi in Hx. apply list_elem_of_fmap in Hx as (i & -> & _). apply Hm, Hne. }
  assert (Hpr : Forall signal_loggable produced).
  { pose proof (tk_times _ _ _ _ _ _ _ _ T) as Ht. destruct (tk_updates _ _ _ _ _ _ _ _ T) as [Hu _].
    destruct (tk_produced _ _ _ _ _ _ _ _ T) as [Hp _].
    rewrite Forall_forall in Ht. rewrite Forall_forall in Hu. rewrite Forall_forall. intros q Hq.
    destruct (Ht q Hq) as [[_ Hfin] (i & Ei)]. split; [done|]. rewrite Ei. rewrite (Hu q.1) by (apply Hp; by apply list_elem_of_fmap_2).
    split; apply Hm; [done|apply Hne]. }
  destruct (accept_loop_grows tel_ids tel_wall Hti Htw es (pl_deduper p) t Hrun Hes) as (t1 & l1 & El & G1 & F1 & T1 & T1').
  pose proof (tk_accepted _ _ _ _ _ _ _ _ T) as Ha. unfold process_silent in Ep. unfold process. rewrite Ed in Ep |- *.
  cbn [mbind result_bind] in Ep |- *. rewrite El. destruct (accept_all (pl_deduper p) es) as [acc d]. cbn [fst snd] in *.
  rewrite Ha in Ec. rewrite Ec in Ep |- *. cbn [mbind result_bind] in Ep |- *.
  destruct (observe_grows tel_ids tel_wall Hti Htw (prior_priority (active_signals (pl_composer p) (ft_symbol current))) produced [] t1
    (grows_ready _ _ _ G1 Hrun) Hpr) as (t2 & l2 & -> & G2 & F2).
  destruct (traverse _ _) as [traces|ex]; [|discriminate Ep]. cbn [mbind result_bind] in Ep |- *.
  destruct (alert_loop_grows tel_ids tel_wall cooldown_s mono Hti Htw produced [] (pl_cooldown p) (pl_mono p) t2
    (grows_ready _ _ _ G2 (grows_ready _ _ _ G1 Hrun)) Hpr) as (t3 & l3 & -> & G3 & F3 & T3 & L3).
  destruct (alerts_of _ _ _ _ _ produced) as [[alerts st] m]. injection Ep as <- <-. cbn [fst] in T3.
  exists es, (pl_uuid p + length es)%nat, produced. eexists _, _, t3, ((l1 ++ l2) ++ l3).
  split; [done|]. split; [done|]. split; [exact T|].
  split; [exact (proj1 (grows_trans _ _ _ _ _ (grows_trans _ _ _ _ _ G1 G2) G3))|].
  cbn. rewrite !tally_app.
  rewrite (tally_none EVENT_GENERATED l2 _ F2), (tally_none EVENT_GENERATED l3 _ F3) by (apply (bool_decide_unpack _); done).
  rewrite (tally_none EVENT_DEDUPED l2 _ F2), (tally_none EVENT_DEDUPED l3 _ F3) by (apply (bool_decide_unpack _); done).
  rewrite (tally_none ALERT_CANDIDATE l1 _ F1), (tally_none ALERT_CANDIDATE l2 _ F2) by (apply (bool_decide_unpack _); done).
  rewrite (tally_none ALERT_SUPPRESSED l1 _ F1), (tally_none ALERT_SUPPRESSED l2 _ F2) by (apply (bool_decide_unpack _); done).
  pose proof (tally_two _ _ l3 F3 ltac:(done)) as H2. lia.
Qed.

(** ** Witnesses *)
Definition demo_ids (n : nat) : string := String "e"%char (pretty n).
Lemma demo_ids_inj : Inj (=) (=) demo_ids.
Proof. intros a b [= H]. by apply (inj pretty) in H. Qed.

Definition moving_features : MarketFeatures :=
  mkFeatures "600519.SH" (flit 100 0) (flit 100 0) (Some (flit 15 3)) None None None None None None (Some (flit 4 0)) None
    None None None None None None None (flit 10 0) (flit 9 0).

Lemma moving_time : fin (ft_market_ts moving_features).
Proof. by split. Qed.

Example demo_tick :
  match process_silent demo_ids demo_ids (fun _ => f0) (fun _ => f0) (fun _ => f0) CLUSTER_LOOKBACK_S DEFAULT_COOLDOWN_S
          pipeline_init None moving_features with
  | Ok (r, _) => (ev_rule_name <$> pr_accepted_events r, sig_family <$> pr_alert_candidates r) =
      (["rapid_move"; "volume_spike"; "price_volume_expansion"], ["price_volume"])
  | Err _ => False
  end.
Proof. vm_compute. reflexivity. Qed.

Lemma demo_batch_composed : match compose_accepted demo_ids (fun _ => f0) CLUSTER_LOOKBACK_S composer_init
    (match detect None moving_features f0 demo_ids 0 with Ok (events, _) => (accept_all ∅ events).1 | Err _ => [] end) moving_features with
  | Ok (produced, _) => length produced = 1%nat | Err _ => False end.
Proof. vm_compute. reflexivity. Qed.

(** A first tick that alerts. *)
Lemma process_spec_witness : exists r p' t' s,
  process noop_record demo_ids (fun _ => f0) demo_ids demo_ids (fun _ => f0) (fun _ => f0) (fun _ => f0) CLUSTER_LOOKBACK_S
    DEFAULT_COOLDOWN_S pipeline_init (@None (TelemetryRuntime unit unit)) None moving_features = Ok (r, p', t') /\
  s ∈ pr_alert_candidates r.
Proof.
  destruct (process_spec noop_record demo_ids (fun _ => f0) demo_ids demo_ids (fun _ => f0) (fun _ => f0) (fun _ => f0) CLUSTER_LOOKBACK_S
    DEFAULT_COOLDOWN_S pipeline_init (@None (TelemetryRuntime unit unit)) None moving_features demo_ids_inj demo_ids_inj
    (proj1 lookback_fin) (proj2 lookback_fin) (pipeline_init_wf demo_ids demo_ids) moving_time)
    as (events & n & produced & r & p' & t' & Ed & E & _ & T & Ec & _ & _ & _ & A).
  pose proof demo_batch_composed as D. cbn [pipeline_init pl_wall pl_uuid pl_composer pl_deduper] in Ed, Ec. rewrite Ed in D.
  pose proof (tk_accepted _ _ _ _ _ _ _ _ T) as Ha. cbn [pipeline_init pl_deduper] in Ha. rewrite Ha in Ec. rewrite Ec in D.
  destruct produced as [|q l]; [discriminate D|]. exists r, p', t', q.1. split; [exact E|]. apply (proj2 (A 0%nat q eq_refl)). apply lookup_empty.
Defined.

Lemma demo_wall_finite : forall n : nat, isfinite f0 = true.
Proof. done. Qed.
Lemma demo_ids_nonempty : forall n, demo_ids n <> "" /\ demo_ids n <> "".
Proof. done. Qed.
Lemma demo_tel_ids : forall n : nat, blank "id" = false.
Proof. intros n. vm_compute. reflexivity. Qed.

Definition demo_runtime : TelemetryRuntime (list TelemetryEvent) unit := mkRuntime "run" ∅ [] tt 0 0.

Lemma process_funnel_witness : exists r p' t' new,
  process inmemory_record (fun _ => "id") (fun _ => f0) demo_ids demo_ids (fun _ => f0) (fun _ => f0) (fun _ => f0) CLUSTER_LOOKBACK_S
    DEFAULT_COOLDOWN_S pipeline_init (Some demo_runtime) None moving_features = Ok (r, p', Some t') /\
  te_name <$> rt_collector t' = new /\ tally ALERT_CANDIDATE new = length (pr_alert_candidates r).
Proof.
  destruct (process_funnel (fun _ => "id") (fun _ => f0) demo_ids demo_ids (fun _ => f0) (fun _ => f0) (fun _ => f0) CLUSTER_LOOKBACK_S
    DEFAULT_COOLDOWN_S pipeline_init demo_runtime None moving_features demo_ids_inj demo_ids_inj
    (proj1 lookback_fin) (proj2 lookback_fin) (pipeline_init_wf demo_ids demo_ids) moving_time demo_tel_ids demo_wall_finite
    (demo_tel_ids 0) demo_ids_nonempty ltac:(discriminate))
    as (events & n & produced & r & p' & t' & new & _ & E & _ & L & _ & _ & H & _).
  exists r, p', t', new. split; [exact E|]. split; [exact L|exact H].
Defined.
