(* ===== verification/Scheduler.v ===== *)
(** * Attention levels (src/market_sentinel/orchestration/warming.py and scheduler/)

    [WarmingPolicy.request] asks for a level from the features and accepted events;
    [AdaptiveScheduler] grants level changes after a dwell time and says which symbols are
    due.  Each reading of the monotonic clock is an argument. *)
From Stdlib Require Import ZArith Lia Ascii String.
From stdpp Require Import prelude strings gmap.
From S2P Require Import Prelude PyFloat Domain Events Gate.
Local Open Scope Z_scope.

(** ** Warming *)
Record WarmingConfig := mkWarming {
  hot_event_severity : Z;
  hot_volume_ratio_5m : float;
  hot_change_5m : float;
  warm_change_1m : float;
  warm_change_5m : float;
  warm_volume_ratio : float
}.
Definition default_warming : WarmingConfig :=
  mkWarming 3 (flit 2 0) (flit 12 3) (flit 4 3) (flit 8 3) (flit 15 1).

Record LevelRequest := mkLevelRequest { lr_symbol : string; lr_level : SchedulerLevel; lr_reason : string }.

(** An optional value at or above a threshold. *)
Definition reaches (o : option float) (bound : float) : bool := match o with Some x => fge x bound | None => false end.
Definition abs_reaches (o : option float) (bound : float) : bool := match o with Some x => fge (fabs x) bound | None => false end.

Definition is_breakout (t : EventType) : bool := bool_decide (t = DAY_HIGH_BREAKOUT) || bool_decide (t = DAY_LOW_BREAKDOWN).

Definition is_hot (cfg : WarmingConfig) (features : option MarketFeatures) (events : list MarketEvent) : bool :=
  if existsb (fun e => hot_event_severity cfg <=? ev_severity e) events then true
  else if existsb (fun e => is_breakout (ev_type e)) events then true
  else match features with
       | None => false
       | Some f =>
           reaches (volume_ratio_5m f) (hot_volume_ratio_5m cfg) || abs_reaches (change_5m f) (hot_change_5m cfg) ||
           match session_high_ref f with Some r => flt r (session_high_obs f) | None => false end ||
           match session_low_ref f with Some r => flt (session_low_obs f) r | None => false end
       end.

Definition is_warm (cfg : WarmingConfig) (features : option MarketFeatures) : bool :=
  match features with
  | None => false
  | Some f =>
      abs_reaches (change_1m f) (warm_change_1m cfg) || abs_reaches (change_5m f) (warm_change_5m cfg) ||
      reaches (volume_ratio_1m f) (warm_volume_ratio cfg) || reaches (volume_ratio_5m f) (warm_volume_ratio cfg)
  end.

Definition request (cfg : WarmingConfig) (symbol : string) (features : option MarketFeatures) (events : list MarketEvent)
    : LevelRequest :=
  if is_hot cfg features events then mkLevelRequest symbol HOT "strong"
  else if is_warm cfg features then mkLevelRequest symbol WARM "precursor"
  else mkLevelRequest symbol COLD "quiet".

(** ** Scheduler *)
Record SchedulerPolicy := mkSchedulerPolicy {
  cold_interval_s : float;
  warm_interval_s : float;
  hot_interval_s : float;
  upgrade_dwell_s : float;
  hot_downgrade_dwell_s : float;
  warm_downgrade_dwell_s : float
}.
Definition default_scheduler_policy : SchedulerPolicy :=
  mkSchedulerPolicy (flit 10 0) (flit 3 0) (flit 1 0) f0 (flit 30 0) (flit 60 0).

Definition level_rank (l : SchedulerLevel) : Z := match l with COLD => 0 | WARM => 1 | HOT => 2 end.

Record Scheduler := mkScheduler {
  sc_levels : gmap string SchedulerLevel;
  sc_last_change : gmap string float;
  sc_last_fetch : gmap string float
}.
Definition scheduler_init : Scheduler := mkScheduler ∅ ∅ ∅.

Section scheduler.
Context (policy : SchedulerPolicy).

Definition get_level (s : Scheduler) (symbol : string) : SchedulerLevel := default COLD (sc_levels s !! symbol).

Definition interval (l : SchedulerLevel) : float :=
  match l with HOT => hot_interval_s policy | WARM => warm_interval_s policy | COLD => cold_interval_s policy end.

Definition required_dwell (current target : SchedulerLevel) : float :=
  if level_rank current <? level_rank target then upgrade_dwell_s policy
  else match current with HOT => hot_downgrade_dwell_s policy | _ => warm_downgrade_dwell_s policy end.

Definition dwell_elapsed (s : Scheduler) (symbol : string) (current target : SchedulerLevel) (now : float) : bool :=
  match sc_last_change s !! symbol with
  | None => true
  | Some last_change => fge (fsub now last_change) (required_dwell current target)
  end.

(** [set_level]: [check] and [stamp] are its two clock readings. *)
Definition set_level (s : Scheduler) (symbol : string) (level : SchedulerLevel) (force : bool) (check stamp : float)
    : bool * Scheduler :=
  let current := get_level s symbol in
  if decide (level = current) then
    (true, mkScheduler (match sc_levels s !! symbol with Some _ => sc_levels s | None => <[symbol := current]> (sc_levels s) end)
             (sc_last_change s) (sc_last_fetch s))
  else if negb force && negb (dwell_elapsed s symbol current level check) then (false, s)
  else (true, mkScheduler (<[symbol := level]> (sc_levels s)) (<[symbol := stamp]> (sc_last_change s)) (sc_last_fetch s)).

Definition is_due (s : Scheduler) (now : float) (symbol : string) : bool :=
  match sc_last_fetch s !! symbol with
  | None => true
  | Some last_fetch => fge (fsub now last_fetch) (interval (get_level s symbol))
  end.
Definition due_symbols (s : Scheduler) (symbols : list string) (now : float) : list string :=
  filter (fun x => is_due s now x = true) symbols.

Definition mark_fetched (s : Scheduler) (symbol : string) (now : float) : Scheduler :=
  mkScheduler (sc_levels s) (sc_last_change s) (<[symbol := now]> (sc_last_fetch s)).

Definition remaining (s : Scheduler) (now : float) (symbol : string) : float :=
  match sc_last_fetch s !! symbol with
  | None => f0
  | Some last_fetch => fmax f0 (fsub (interval (get_level s symbol)) (fsub now last_fetch))
  end.
Definition next_wait_s (s : Scheduler) (symbols : list string) (now : float) : float :=
  match symbols with
  | [] => flit 1 0
  | x :: rest => foldl fmin (remaining s now x) (remaining s now <$> rest)
  end.

(** ** Moves of a scheduler

    What a client does to it between two points in time: fetch marks and unforced level
    requests, each at a reading of the monotonic clock. *)
Section moves.
Context (mono : nat -> float).
Inductive sched_step (s : Scheduler) : Scheduler -> Prop :=
  | moved_mark symbol n : sched_step s (mark_fetched s symbol (mono n))
  | moved_level symbol level i j : sched_step s (set_level s symbol level false (mono i) (mono j)).2.
Definition sched_steps : relation Scheduler := rtc sched_step.
#[export] Instance sched_steps_preorder : PreOrder sched_steps := _.

(** Every recorded fetch time is a reading of the clock. *)
Definition stamped (s : Scheduler) : Prop := forall symbol t, sc_last_fetch s !! symbol = Some t -> exists n, t = mono n.
End moves.

(** ** Requests over time *)
Record LevelCall := mkCall { lc_symbol : string; lc_level : SchedulerLevel; lc_check : float; lc_stamp : float }.
(** A granted change. *)
Record Change := mkChange { ch_symbol : string; ch_from : SchedulerLevel; ch_to : SchedulerLevel; ch_check : float; ch_stamp : float }.

Definition step_level (s : Scheduler) (c : LevelCall) : list Change * Scheduler :=
  let from := get_level s (lc_symbol c) in
  let s' := (set_level s (lc_symbol c) (lc_level c) false (lc_check c) (lc_stamp c)).2 in
  let to := get_level s' (lc_symbol c) in
  (if decide (from = to) then [] else [mkChange (lc_symbol c) from to (lc_check c) (lc_stamp c)], s').

Fixpoint run_levels (s : Scheduler) (cs : list LevelCall) : list Change * Scheduler :=
  match cs with
  | [] => ([], s)
  | c :: cs => let '(l, s) := step_level s c in let '(k, s) := run_levels s cs in (l ++ k, s)
  end.

Definition of_symbol (symbol : string) (l : list Change) : list Change := filter (fun c => ch_symbol c = symbol) l.

(** Consecutive changes of a symbol: the chain of levels, and the dwell of the later one. *)
Definition dwelt (a b : Change) : Prop :=
  ch_from b = ch_to a /\ fge (fsub (ch_check b) (ch_stamp a)) (required_dwell (ch_from b) (ch_to b)) = true.

(** ** Lemmas *)
Lemma set_level_spec s symbol level force check stamp :
  let '(ok, s') := set_level s symbol level force check stamp in
  sc_last_fetch s' = sc_last_fetch s /\
  get_level s' symbol = (if ok then level else get_level s symbol) /\
  (forall other, other <> symbol -> get_level s' other = get_level s other /\ sc_last_change s' !! other = sc_last_change s !! other) /\
  (ok = false <-> level <> get_level s symbol /\ force = false /\
     dwell_elapsed s symbol (get_level s symbol) level check = false) /\
  sc_last_change s' !! symbol = (if decide (get_level s' symbol = get_level s symbol) then sc_last_change s !! symbol else Some stamp).
Proof.
  unfold set_level. cbn zeta. set (cur := get_level s symbol). destruct (decide (level = cur)) as [->|Hne].
  - assert (Hg : forall x, get_level (mkScheduler (match sc_levels s !! symbol with Some _ => sc_levels s | None => <[symbol:=cur]> (sc_levels s) end)
      (sc_last_change s) (sc_last_fetch s)) x = get_level s x).
    { intros x. unfold get_level, cur, get_level. cbn. destruct (sc_levels s !! symbol) as [l|] eqn:E; [done|].
      destruct (decide (symbol = x)) as [<-|]; [by rewrite lookup_insert_eq, E|by rewrite lookup_insert_ne]. }
    rewrite !Hg. split; [done|]. split; [done|]. split; [intros; by rewrite Hg|]. rewrite decide_True by done.
    split; [|done]. split; [done|naive_solver].
  - destruct (negb force && _) eqn:E.
    + apply andb_prop in E as [Hf%negb_true_iff Hd%negb_true_iff]. rewrite decide_True by done.
      split_and!; try done.
    + assert (Hg : get_level (mkScheduler (<[symbol:=level]> (sc_levels s)) (<[symbol:=stamp]> (sc_last_change s)) (sc_last_fetch s)) symbol = level)
        by (unfold get_level; cbn; by rewrite lookup_insert_eq).
      rewrite Hg. split; [done|]. split; [done|]. split.
      { intros x Hx. unfold get_level. cbn. by rewrite !lookup_insert_ne. }
      rewrite decide_False by done. cbn. rewrite lookup_insert_eq. split; [|done]. split; [done|].
      intros (_ & -> & Hd). rewrite Hd in E. done.
Qed.

(** Levels and stamps are those of the last change. *)
Definition tracks_levels (s : Scheduler) (done_ : list Change) : Prop := forall symbol,
  match last (of_symbol symbol done_) with
  | None => get_level s symbol = COLD /\ sc_last_change s !! symbol = None
  | Some c => get_level s symbol = ch_to c /\ sc_last_change s !! symbol = Some (ch_stamp c)
  end.

Lemma of_symbol_snoc symbol l c : of_symbol symbol (l ++ [c]) = if decide (ch_symbol c = symbol) then of_symbol symbol l ++ [c] else of_symbol symbol l.
Proof.
  unfold of_symbol. rewrite filter_app, filter_cons, filter_nil. destruct (decide _); by rewrite ?app_nil_r.
Qed.

Lemma step_level_tracks s done_ c : tracks_levels s done_ -> (forall sym, linked dwelt (of_symbol sym done_)) ->
  let '(l, s') := step_level s c in
  tracks_levels s' (done_ ++ l) /\ (forall sym, linked dwelt (of_symbol sym (done_ ++ l))).
Proof.
  intros T L. unfold step_level. cbn zeta.
  pose proof (set_level_spec s (lc_symbol c) (lc_level c) false (lc_check c) (lc_stamp c)) as H.
  destruct (set_level _ _ _ _ _ _) as [ok s'] eqn:E. cbn [snd]. destruct H as (_ & Hg & Ho & Hok & Hs).
  destruct (decide (get_level s (lc_symbol c) = get_level s' (lc_symbol c))) as [Heq|Hneq].
  - rewrite app_nil_r. split; [|done]. intros sym. specialize (T sym).
    destruct (decide (sym = lc_symbol c)) as [->|Hd]; [|by destruct (Ho sym Hd) as [-> ->]].
    rewrite decide_True in Hs by done. rewrite Hs, <- Heq. exact T.
  - rewrite decide_False in Hs by congruence. split.
    + intros sym. rewrite of_symbol_snoc. cbn [ch_symbol]. specialize (T sym).
      destruct (decide (lc_symbol c = sym)) as [<-|Hd]; [by rewrite last_snoc|].
      by destruct (Ho sym (not_eq_sym Hd)) as [-> ->].
    + intros sym. rewrite of_symbol_snoc. cbn [ch_symbol]. destruct (decide (lc_symbol c = sym)) as [<-|]; [|done].
      apply linked_snoc; [done|]. intros y Hy. specialize (T (lc_symbol c)). rewrite Hy in T. destruct T as [T1 T2].
      split; [done|]. cbn. destruct ok; [|congruence]. rewrite Hg.
      destruct (dwell_elapsed s (lc_symbol c) (get_level s (lc_symbol c)) (lc_level c) (lc_check c)) eqn:Ed.
      * unfold dwell_elapsed in Ed. by rewrite T2 in Ed.
      * assert (true = false) by (apply Hok; split; [congruence|done]). done.
Qed.

Lemma run_levels_tracks cs : forall s done_, tracks_levels s done_ -> (forall sym, linked dwelt (of_symbol sym done_)) ->
  let '(l, s') := run_levels s cs in
  tracks_levels s' (done_ ++ l) /\ (forall sym, linked dwelt (of_symbol sym (done_ ++ l))).
Proof.
  induction cs as [|c cs IH]; intros s d T L; cbn [run_levels]; [by rewrite app_nil_r|].
  pose proof (step_level_tracks s d c T L) as H. destruct (step_level s c) as [l s1]. destruct H as [T1 L1].
  specialize (IH s1 _ T1 L1). destruct (run_levels s1 cs) as [k s2]. by rewrite app_assoc.
Qed.

(** ** Due symbols and the wait *)
Definition policy_ok : Prop := forall l, fin (interval l).
Definition fetched_before (s : Scheduler) (now : float) : Prop := forall symbol t,
  sc_last_fetch s !! symbol = Some t -> fin t /\ 0 <= fval t <= fval now.

Lemma remaining_due s now symbol : policy_ok -> fin now -> fetched_before s now ->
  num (remaining s now symbol) /\ 0 <= fval (remaining s now symbol) /\
  (fval (remaining s now symbol) = 0 <-> is_due s now symbol = true).
Proof.
  intros P Fn Hf. unfold remaining, is_due. destruct (sc_last_fetch s !! symbol) as [t|] eqn:E; [|by vm_compute].
  destruct (Hf _ _ E) as [Ft Ht]. pose proof (P (get_level s symbol)) as Fi. set (iv := interval _) in *.
  assert (Fe : fin (fsub now t)) by (apply fin_fsub_nonneg; [done|done|lia|lia]).
  pose proof (fsub_sgn iv (fsub now t) Fi Fe) as Hs. unfold fge.
  rewrite fle_val by auto with fl. rewrite fval_fmax by auto with fl. rewrite fval_f0, Z.leb_le.
  split; [auto with fl|]. split; [lia|]. set (d := fval (fsub iv (fsub now t))) in *. clearbody d. lia.
Qed.

Lemma min_wait (l : list float) : forall x, num x -> Forall num l -> 0 <= fval x -> Forall (fun y => 0 <= fval y) l ->
  let m := foldl fmin x l in num m /\ 0 <= fval m /\ (fval m = 0 <-> fval x = 0 \/ Exists (fun y => fval y = 0) l).
Proof.
  induction l as [|y l IH]; intros x Nx Nl Hx Hl; cbn [foldl].
  - split; [done|]. split; [done|]. rewrite Exists_nil. tauto.
  - apply Forall_cons in Nl as [Ny Nl]. apply Forall_cons in Hl as [Hy Hl].
    pose proof (fval_fmin x y Nx Ny) as Ef.
    destruct (IH (fmin x y)) as (N & H0 & Hiff); [auto with fl|done|lia|done|].
    split; [done|]. split; [done|]. rewrite Hiff, Exists_cons, Ef. clear -Hx Hy. split; intros [?|?]; [|auto|left; lia|]; try tauto.
    + destruct (Z.min_spec (fval x) (fval y)) as [[_ Hm]|[_ Hm]]; rewrite Hm in *; auto.
    + destruct H as [?|?]; [left; lia|auto].
Qed.

(** ** Lemmas on moves *)
Section moved.
Context (mono : nat -> float).

Lemma step_stamped s s' : sched_step mono s s' -> stamped mono s -> stamped mono s'.
Proof.
  intros [symbol n|symbol level i j] St x t.
  - cbn. destruct (decide (symbol = x)) as [<-|Ne]; [rewrite lookup_insert_eq; intros [= <-]; by eexists|rewrite lookup_insert_ne by done; apply St].
  - pose proof (set_level_spec s symbol level false (mono i) (mono j)) as L. destruct (set_level _ _ _ _ _ _) as [ok s1].
    destruct L as (E & _). cbn. rewrite E. apply St.
Qed.
Lemma steps_stamped s s' : sched_steps mono s s' -> stamped mono s -> stamped mono s'.
Proof. induction 1 as [|a b c H _ IH]; [done|]. intros St. by apply IH, (step_stamped a). Qed.

(** A clock that stands still: no downgrade dwell elapses, so no level ever falls. *)
Section frozen.
Context (t0 : float) (Hclock : forall n, mono n = t0).
Context (Hhot : fge (fsub t0 t0) (hot_downgrade_dwell_s policy) = false).
Context (Hwarm : fge (fsub t0 t0) (warm_downgrade_dwell_s policy) = false).

Definition rank (s : Scheduler) (symbol : string) : Z := level_rank (get_level s symbol).
(** A symbol above the lowest level has its change recorded. *)
Definition recorded (s : Scheduler) : Prop := forall symbol, 0 < rank s symbol -> sc_last_change s !! symbol = Some t0.

Lemma init_recorded : recorded scheduler_init.
Proof. intros symbol. unfold rank, get_level. cbn. rewrite lookup_empty. cbn. lia. Qed.

Lemma step_frozen s s' : sched_step mono s s' -> recorded s -> recorded s' /\ forall symbol, rank s symbol <= rank s' symbol.
Proof.
  intros [symbol n|symbol level i j] R; [done|]. rewrite !Hclock.
  pose proof (set_level_spec s symbol level false t0 t0) as L. destruct (set_level _ _ _ _ _ _) as [ok s1]. cbn [snd].
  destruct L as (_ & G & O & D & C).
  assert (Hup : rank s symbol <= rank s1 symbol).
  { unfold rank. rewrite G. destruct ok; [|done]. destruct (Z.le_gt_cases (level_rank (get_level s symbol)) (level_rank level)) as [|Hlt]; [done|].
    exfalso. destruct D as [_ D]. discriminate D. split; [intros ->; lia|]. split; [done|]. unfold dwell_elapsed.
    rewrite R by (unfold rank; destruct level; cbn in *; lia). unfold required_dwell.
    destruct (Z.ltb_spec (level_rank (get_level s symbol)) (level_rank level)); [lia|]. by destruct (get_level s symbol). }
  split.
  - intros x Hx. destruct (decide (x = symbol)) as [->|Ne]; [|destruct (O x Ne) as [Gx ->]; apply R; unfold rank in *; by rewrite <- Gx].
    rewrite C. case_decide as Heq; [|done]. apply R. unfold rank in *. by rewrite <- Heq.
  - intros x. destruct (decide (x = symbol)) as [->|Ne]; [done|]. unfold rank. by destruct (O x Ne) as [-> _].
Qed.
Lemma steps_frozen s s' : sched_steps mono s s' -> recorded s -> recorded s' /\ forall symbol, rank s symbol <= rank s' symbol.
Proof.
  induction 1 as [s|a b c H _ IH]; intros R; [by split|]. destruct (step_frozen _ _ H R) as [Rb Hb]. destruct (IH Rb) as [Rc Hc].
  split; [done|]. intros x. specialize (Hb x). specialize (Hc x). lia.
Qed.
End frozen.
End moved.
End scheduler.

(** ** Warming and the rules *)
Lemma fge_weaken x a b : valid x = true -> num a -> num b -> fval b <= fval a -> fge x a = true -> fge x b = true.
Proof.
  intros V Na Nb Hab H. assert (Nx : num x) by (split; [done|]; destruct x; [done..| |done]; by destruct a).
  unfold fge in *. rewrite fle_val in * by done. rewrite Z.leb_le in *. lia.
Qed.

Definition opt_valid (o : option float) : Prop := match o with Some x => valid x = true | None => True end.

Lemma rapid_move_warm c1 c5 s : opt_valid c1 -> opt_valid c5 -> rapid_move_severity c1 c5 = Some s ->
  abs_reaches c1 (warm_change_1m default_warming) || abs_reaches c5 (warm_change_5m default_warming) = true.
Proof.
  intros V1 V5 H. destruct (abs_reaches c1 _) eqn:E1; [done|]. destruct (abs_reaches c5 _) eqn:E5; [done|]. exfalso.
  assert (W1 : forall b, num b -> fval (warm_change_1m default_warming) <= fval b -> forall c, c1 = Some c -> fge (fabs c) b = false).
  { intros b Nb Hb c ->. apply not_true_is_false. intros G. cbn in E1. rewrite (fge_weaken (fabs c) b) in E1; [discriminate|by destruct c|exact Nb|by split|exact Hb|exact G]. }
  assert (W5 : forall b, num b -> fval (warm_change_5m default_warming) <= fval b -> forall c, c5 = Some c -> fge (fabs c) b = false).
  { intros b Nb Hb c ->. apply not_true_is_false. intros G. cbn in E5. rewrite (fge_weaken (fabs c) b) in E5; [discriminate|by destruct c|exact Nb|by split|exact Hb|exact G]. }
  unfold rapid_move_severity in H. cbn zeta in H.
  assert (Hc1 : forall c, c1 = Some c -> fge (fabs c) RAPID_1M_SEV4 = false /\ fge (fabs c) RAPID_1M_SEV3 = false /\ fge (fabs c) RAPID_1M_SEV2 = false).
  { intros c Hc. split_and!; (apply W1; [by split|apply Z.leb_le; vm_compute; reflexivity|exact Hc]). }
  assert (Hc5 : forall c, c5 = Some c -> fge (fabs c) RAPID_5M_SEV5 = false /\ fge (fabs c) RAPID_5M_SEV4 = false /\ fge (fabs c) RAPID_5M_SEV3 = false).
  { intros c Hc. split_and!; (apply W5; [by split|apply Z.leb_le; vm_compute; reflexivity|exact Hc]). }
  destruct c1 as [c1|], c5 as [c5|]; try destruct (Hc1 _ eq_refl) as (A1 & A2 & A3); try destruct (Hc5 _ eq_refl) as (B1 & B2 & B3);
    rewrite ?A1, ?A2, ?A3, ?B1, ?B2, ?B3 in H; discriminate H.
Qed.

Lemma volume_spike_warm r1 r5 s : opt_valid r1 -> opt_valid r5 -> volume_spike_severity r1 r5 = Some s ->
  reaches r1 (warm_volume_ratio default_warming) || reaches r5 (warm_volume_ratio default_warming) = true.
Proof.
  intros V1 V5 H. destruct (reaches r1 _) eqn:E1; [done|]. destruct (reaches r5 _) eqn:E5; [done|]. exfalso.
  assert (W : forall r b, valid r = true -> num b -> fval (warm_volume_ratio default_warming) <= fval b ->
    fge r (warm_volume_ratio default_warming) = false -> fge r b = false).
  { intros r b V Nb Hb E. apply not_true_is_false. intros G. rewrite (fge_weaken r b) in E; [discriminate|exact V|exact Nb|by split|exact Hb|exact G]. }
  unfold volume_spike_severity in H. cbn zeta in H.
  assert (H1 : forall r, r1 = Some r -> fge r VOL_1M_SEV3 = false).
  { intros r ->. apply W; [exact V1|by split|apply Z.leb_le; vm_compute; reflexivity|exact E1]. }
  assert (H5 : forall r, r5 = Some r -> fge r VOL_5M_SEV5 = false /\ fge r VOL_5M_SEV4 = false /\ fge r VOL_5M_SEV3 = false /\ fge r VOL_5M_SEV2 = false).
  { intros r ->. split_and!; (apply W; [exact V5|by split|apply Z.leb_le; vm_compute; reflexivity|exact E5]). }
  destruct r1 as [r1|], r5 as [r5|]; try rewrite (H1 _ eq_refl) in H; try destruct (H5 _ eq_refl) as (B1 & B2 & B3 & B4);
    rewrite ?B1, ?B2, ?B3, ?B4 in H; discriminate H.
Qed.

(** Every detected event comes from one of the rules. *)
Lemma run_rules_elem types rules previous current t uuids : Forall2 rule_ok types rules -> forall n es n' e,
  run_rules rules previous current t uuids n = Ok (es, n') -> e ∈ es ->
  exists r id, r ∈ rules /\ r previous current t id = Ok [e].
Proof.
  induction 1 as [|ty r types rules Hr _ IH]; intros n es n' e; cbn [run_rules].
  { intros [= <- _] H. by apply elem_of_nil in H. }
  destruct (Hr previous current t (uuids n)) as [->|(e0 & Er & _)]; [|rewrite Er]; cbn [mbind result_bind length].
  - destruct (run_rules rules _ _ _ _ _) as [[rest m]|ex] eqn:E; [|done]. cbn. intros [= <- <-] He.
    destruct (IH _ _ _ _ E He) as (r' & id & ? & ?). exists r', id. split; [by right|done].
  - destruct (run_rules rules _ _ _ _ _) as [[rest m]|ex] eqn:E; [|done]. cbn. intros [= <- <-] [->|He]%elem_of_cons.
    + exists r, (uuids n). split; [by left|done].
    + destruct (IH _ _ _ _ E He) as (r' & id & ? & ?). exists r', id. split; [by right|done].
Qed.

Definition opt_num (o : option float) : Prop := match o with Some x => num x | None => True end.
Record features_num (f : MarketFeatures) : Prop := {
  fn_changes : opt_valid (change_1m f) /\ opt_valid (change_5m f);
  fn_ratios : opt_valid (volume_ratio_1m f) /\ opt_valid (volume_ratio_5m f);
  fn_refs : opt_num (session_high_ref f) /\ opt_num (session_low_ref f);
  fn_obs : num (session_high_obs f) /\ num (session_low_obs f)
}.

Lemma request_level cfg symbol f events :
  lr_level (request cfg symbol (Some f) events) = COLD <-> is_hot cfg (Some f) events = false /\ is_warm cfg (Some f) = false.
Proof. unfold request. destruct (is_hot _ _ _); [naive_solver|]. by destruct (is_warm _ _); naive_solver. Qed.

Lemma rule_warm r previous current t id e symbol accepted :
  features_num current -> r ∈ default_rules -> r previous current t id = Ok [e] -> ev_type e <> VWAP_CROSS ->
  lr_level (request default_warming symbol (Some current) accepted) <> COLD.
Proof.
  intros [[V1 V5] [R1 R5] [Hh Hlo] [Oh Ol]] Hr E Ht [Hot Warm]%request_level.
  assert (Hmove : rapid_move_severity (change_1m current) (change_5m current) = None).
  { destruct (rapid_move_severity _ _) eqn:Em; [|done]. apply rapid_move_warm in Em; [|done|done].
    unfold is_warm in Warm. rewrite Em in Warm. by rewrite !orb_true_l in Warm. }
  assert (Hvol : volume_spike_severity (volume_ratio_1m current) (volume_ratio_5m current) = None).
  { destruct (volume_spike_severity _ _) eqn:Em; [|done]. apply volume_spike_warm in Em; [|done|done].
    unfold is_warm in Warm. by rewrite <- orb_assoc, Em, orb_true_r in Warm. }
  unfold is_hot in Hot. destruct (existsb _ accepted); [done|]. destruct (existsb _ accepted); [done|].
  apply orb_false_elim in Hot as [Hot H4]. apply orb_false_elim in Hot as [_ H3].
  unfold default_rules in Hr. repeat (apply elem_of_cons in Hr as [->|Hr]); [..|by apply elem_of_nil in Hr].
  - unfold RapidMoveRule in E. by rewrite Hmove in E.
  - unfold VolumeSpikeRule in E. by rewrite Hvol in E.
  - unfold PriceVolumeExpansionRule in E. by rewrite Hmove in E.
  - unfold DayHighBreakoutRule in E. destruct (session_high_ref current) as [ref|]; [|done].
    destruct (fle ref f0); [done|]. cbn zeta in E. rewrite flt_val in H3 by done. rewrite fle_val in E by done.
    apply Z.ltb_ge, Z.leb_le in H3. by rewrite H3 in E.
  - unfold DayLowBreakdownRule in E. destruct (session_low_ref current) as [ref|]; [|done].
    destruct (fle ref f0); [done|]. cbn zeta in E. unfold fge in E. rewrite flt_val in H4 by done. rewrite fle_val in E by done.
    apply Z.ltb_ge, Z.leb_le in H4. by rewrite H4 in E.
  - unfold VwapCrossRule in E. destruct previous as [p|]; [|done].
    destruct (above_vwap p), (above_vwap current), (vwap current); try done. destruct (eqb _ _); [done|].
    injection E as <-. by apply Ht.
Qed.

(** ** Properties *)

(** [levels_dwell] levels cannot flap: over any sequence of level requests (any symbols, any clock
    readings), each symbol's changes form a chain starting at [COLD], a later change is
    granted only after the policy's dwell since the previous one - 30 s to leave [HOT], 60 s
    to leave [WARM] downwards with the default policy - and the level is always the last
    change's target. *)
Theorem levels_dwell policy cs :
  let '(changes, s) := run_levels policy scheduler_init cs in
  forall symbol, linked (dwelt policy) (of_symbol symbol changes) /\
    get_level s symbol = from_option ch_to COLD (last (of_symbol symbol changes)).
Proof.
  pose proof (run_levels_tracks policy cs scheduler_init []) as H.
  destruct (run_levels policy scheduler_init cs) as [l s]. destruct H as [T L].
  - intros symbol. cbn. unfold get_level. cbn. by rewrite !lookup_empty.
  - intros sym i a b Ha. done.
  - intros symbol. split; [apply L|]. specialize (T symbol). cbn [app] in T.
    destruct (last (of_symbol symbol l)); cbn; tauto.
Qed.

(** C38: the wait and the due list agree: [next_wait_s] is never negative, and it is zero
    exactly when some enabled symbol is due at that instant - the loop neither spins with
    nothing to fetch nor sleeps past a due symbol. *)
Theorem next_wait_due policy s symbols now :
  symbols <> [] -> policy_ok policy -> fin now -> fetched_before s now ->
  num (next_wait_s policy s symbols now) /\ 0 <= fval (next_wait_s policy s symbols now) /\
  (fval (next_wait_s policy s symbols now) = 0 <-> due_symbols policy s symbols now <> []).
Proof.
  intros Hne P Fn Hf. destruct symbols as [|x rest]; [done|]. cbn [next_wait_s].
  pose proof (fun y => remaining_due policy s now y P Fn Hf) as R.
  destruct (min_wait (remaining policy s now <$> rest) (remaining policy s now x)) as (N & H0 & Hz).
  - apply R.
  - apply Forall_fmap, Forall_forall. intros y _. apply R.
  - apply R.
  - apply Forall_fmap, Forall_forall. intros y _. apply R.
  - split; [done|]. split; [done|]. rewrite Hz, Exists_fmap, Exists_exists. setoid_rewrite (proj2 (proj2 (R _))). split.
    + intros H E. assert (Hin : forall y, y ∈ x :: rest -> is_due policy s now y = true -> False).
      { intros y Hy Hd. assert (Hy' : y ∈ due_symbols policy s (x :: rest) now) by by apply list_elem_of_filter.
        rewrite E in Hy'. by apply elem_of_nil in Hy'. }
      destruct H as [H|(y & Hy & H)]; eapply Hin; [by left|done|by right|exact H].
    + intros Hd. destruct (due_symbols policy s (x :: rest) now) as [|y l] eqn:E; [done|].
      assert (Hy : y ∈ due_symbols policy s (x :: rest) now) by (rewrite E; by left).
      apply list_elem_of_filter in Hy as [Hd' [->|Hy]%elem_of_cons]; [by left|right; by exists y].
Qed.

(** [events_raise_level] whatever produces a tape event also raises attention: when the detector reports any
    event but a VWAP cross from some features, the level requested from those features is
    at least [WARM], whichever of the events survive deduplication - a symbol that is
    moving is never left on the cold interval by a suppressed event. *)
Theorem events_raise_level previous current t uuids n events n' e symbol accepted :
  features_num current -> detect previous current t uuids n = Ok (events, n') -> e ∈ events -> ev_type e <> VWAP_CROSS ->
  lr_level (request default_warming symbol (Some current) accepted) <> COLD.
Proof.
  intros V D He Ht. destruct (run_rules_elem rule_types default_rules previous current t uuids default_rules_ok n events n' e D He)
    as (r & id & Hr & E). by eapply rule_warm.
Qed.

(** ** Witnesses *)
Lemma default_policy_ok : policy_ok default_scheduler_policy.
Proof. intros []; by split. Qed.

Definition demo_scheduler : Scheduler := mark_fetched scheduler_init "600519.SH" (flit 5 0).

Lemma demo_fetched : fetched_before demo_scheduler (flit 15 0).
Proof.
  intros symbol t. unfold demo_scheduler, mark_fetched, scheduler_init. cbn [sc_last_fetch].
  intros [[_ <-]|[_ H]]%lookup_insert_Some; [|by rewrite lookup_empty in H].
  split; [by split|]. split; apply Z.leb_le; vm_compute; reflexivity.
Qed.

Lemma next_wait_witness :
  due_symbols default_scheduler_policy demo_scheduler ["600519.SH"] (flit 15 0) <> [] /\
  fval (next_wait_s default_scheduler_policy demo_scheduler ["600519.SH"] (flit 15 0)) = 0.
Proof.
  assert (D : due_symbols default_scheduler_policy demo_scheduler ["600519.SH"] (flit 15 0) <> []) by (vm_compute; discriminate).
  split; [exact D|].
  exact (proj2 (proj2 (proj2 (next_wait_due default_scheduler_policy demo_scheduler ["600519.SH"] (flit 15 0) ltac:(discriminate)
    default_policy_ok ltac:(by split) demo_fetched))) D).
Defined.

Definition warm_features : MarketFeatures :=
  mkFeatures "600519.SH" (flit 100 0) (flit 100 0) (Some (flit 6 3)) None None None None None None None None
    None None None None None None None (flit 10 0) (flit 9 0).

Lemma warm_features_num : features_num warm_features.
Proof. repeat split. Qed.

Lemma events_raise_level_witness :
  (exists es n, detect None warm_features f0 (fun _ => "id") 0 = Ok (es, n) /\ (ev_type <$> es) = [RAPID_MOVE]) /\
  lr_level (request default_warming "600519.SH" (Some warm_features) []) <> COLD.
Proof.
  destruct (detect None warm_features f0 (fun _ => "id") 0) as [[es n]|ex] eqn:E; [|vm_compute in E; discriminate E].
  assert (Hes : exists e, es = [e] /\ ev_type e = RAPID_MOVE) by (vm_compute in E; injection E as <- _; eexists; split; reflexivity).
  destruct Hes as (e & -> & Ht). split; [exists [e], n; split; [reflexivity|cbn; by rewrite Ht]|].
  apply (events_raise_level None warm_features f0 (fun _ => "id") 0 [e] n e "600519.SH" [] warm_features_num E); [by left|by rewrite Ht].
Defined.
