(* ===== verification/Health.v ===== *)
(** * Feed health (src/market_sentinel/health/)

    [FeedHealthTracker] keeps one record per symbol; the status is computed from it and the
    monotonic clock.  Each reading of the clock is an argument; [last_status] only serves the
    log of transitions, and is kept because [status] writes it. *)
From Stdlib Require Import ZArith Lia Ascii String.
From stdpp Require Import prelude strings gmap.
From S2P Require Import Prelude PyFloat Domain.
Local Open Scope Z_scope.

Record HealthPolicy := mkHealthPolicy { delayed_s : float; stale_s : float; disconnect_s : float; disconnect_failures : Z }.
Definition default_health_policy : HealthPolicy := mkHealthPolicy (flit 3 0) (flit 30 0) (flit 60 0) 3.

Definition worst_rank (s : FeedStatus) : Z := match s with LIVE => 0 | DELAYED => 1 | STALE => 2 | DISCONNECTED => 3 end.

Record SymbolHealth := mkHealth {
  hl_last_success : option float;
  hl_failures : Z;
  hl_market : option float;
  hl_received : option float;
  hl_last_status : option FeedStatus
}.
Definition health_record : SymbolHealth := mkHealth None 0 None None None.

Abbreviation Health := (gmap string SymbolHealth).

Section health.
Context (policy : HealthPolicy).

Definition latency_of (r : SymbolHealth) : float :=
  match hl_received r, hl_market r with
  | Some received, Some market => fmax f0 (fsub received market)
  | _, _ => f0
  end.

(** [_compute], at monotonic time [now]. *)
Definition compute_status (record : option SymbolHealth) (now : float) : FeedStatus :=
  match record with
  | None => DISCONNECTED
  | Some r =>
      match hl_last_success r with
      | None =>
          if disconnect_failures policy <=? hl_failures r then DISCONNECTED
          else if 0 <? hl_failures r then STALE
          else DISCONNECTED
      | Some last =>
          let age := fsub now last in
          if (disconnect_failures policy <=? hl_failures r) || fle (disconnect_s policy) age then DISCONNECTED
          else if fle (stale_s policy) age then STALE
          else if fle (delayed_s policy) (latency_of r) then DELAYED
          else LIVE
      end
  end.

Definition peek_status (h : Health) (symbol : string) (now : float) : FeedStatus := compute_status (h !! symbol) now.

Definition status (h : Health) (symbol : string) (now : float) : FeedStatus * Health :=
  let s := compute_status (h !! symbol) now in
  (s, match h !! symbol with
      | Some r => if decide (hl_last_status r = Some s) then h
                  else <[symbol := mkHealth (hl_last_success r) (hl_failures r) (hl_market r) (hl_received r) (Some s)]> h
      | None => h
      end).

(** An observation: a snapshot, an error, or neither. *)
Definition observed (r : SymbolHealth) (snapshot : option MarketSnapshot) (error : bool) (mono : float) : SymbolHealth :=
  match snapshot with
  | Some s => mkHealth (Some mono) 0 (Some (sn_market_ts s)) (Some (sn_received_ts s)) (hl_last_status r)
  | None => if error then mkHealth (hl_last_success r) (hl_failures r + 1) (hl_market r) (hl_received r) (hl_last_status r) else r
  end.

Definition observe (h : Health) (symbol : string) (snapshot : option MarketSnapshot) (error : bool) (mono now : float)
    : FeedStatus * Health :=
  let r := default health_record (h !! symbol) in
  status (<[symbol := observed r snapshot error mono]> h) symbol now.

Definition keep_alive (h : Health) (symbol : string) (mono : float) : Health :=
  match h !! symbol with
  | Some r =>
      match hl_last_success r with
      | None => h
      | Some _ =>
          if 0 <? hl_failures r then h
          else <[symbol := mkHealth (Some mono) (hl_failures r) (hl_market r) (hl_received r) (hl_last_status r)]> h
      end
  | None => h
  end.

Definition consecutive_failures (h : Health) (symbol : string) : Z :=
  match h !! symbol with Some r => hl_failures r | None => 0 end.

Definition feed_latency (h : Health) (symbol : string) : option float :=
  match h !! symbol with
  | Some r => match hl_received r, hl_market r with
              | Some received, Some market => Some (fmax f0 (fsub received market))
              | _, _ => None
              end
  | None => None
  end.

Definition last_update_age (h : Health) (symbol : string) (now : float) : option float :=
  match h !! symbol with
  | Some r => match hl_last_success r with Some last => Some (fsub now last) | None => None end
  | None => None
  end.

(** [max] by rank: the first of the worst. *)
Fixpoint worst (best : FeedStatus) (l : list FeedStatus) : FeedStatus :=
  match l with [] => best | s :: l => worst (if worst_rank best <? worst_rank s then s else best) l end.

Fixpoint statuses (h : Health) (symbols : list string) (clock : nat -> float) (n : nat) : list FeedStatus * Health :=
  match symbols with
  | [] => ([], h)
  | x :: symbols =>
      let '(s, h) := status h x (clock n) in
      let '(rest, h) := statuses h symbols clock (S n) in
      (s :: rest, h)
  end.

Definition aggregate_status (h : Health) (symbols : list string) (clock : nat -> float) (n : nat) : FeedStatus * Health :=
  match statuses h symbols clock n with
  | ([], h) => (DISCONNECTED, h)
  | (s :: l, h) => (worst s l, h)
  end.

(** ** Lemmas *)
(** The status does not depend on the logged one. *)
Lemma compute_last_status r ls now :
  compute_status (Some (mkHealth (hl_last_success r) (hl_failures r) (hl_market r) (hl_received r) ls)) now = compute_status (Some r) now.
Proof. done. Qed.

Lemma status_peek h symbol now other later : peek_status (status h symbol now).2 other later = peek_status h other later.
Proof.
  unfold peek_status, status. cbn [snd]. destruct (h !! symbol) as [r|] eqn:E; [|done]. destruct (decide _); [done|].
  destruct (decide (symbol = other)) as [<-|]; [by rewrite lookup_insert_eq, E|by rewrite lookup_insert_ne].
Qed.

Lemma status_failures h symbol now other : consecutive_failures (status h symbol now).2 other = consecutive_failures h other.
Proof.
  unfold consecutive_failures, status. cbn [snd]. destruct (h !! symbol) as [r|] eqn:E; [|done]. destruct (decide _); [done|].
  destruct (decide (symbol = other)) as [<-|]; [by rewrite lookup_insert_eq, E|by rewrite lookup_insert_ne].
Qed.

Definition times_ok (r : SymbolHealth) (now : float) : Prop :=
  fin now /\ forall t, hl_last_success r = Some t -> fin t.

Lemma compute_mono r now later : fin (stale_s policy) -> fin (disconnect_s policy) -> times_ok r now -> fin later -> fval now <= fval later ->
  worst_rank (compute_status (Some r) now) <= worst_rank (compute_status (Some r) later).
Proof.
  intros Fs Fd [Fn Ft] Fl Hle. unfold compute_status. destruct (hl_last_success r) as [t|] eqn:E; [|lia].
  specialize (Ft t eq_refl). pose proof (fsub_mono now later t t Fn Fl Ft Ft Hle (Z.le_refl _)) as Hm.
  assert (Nd : num (disconnect_s policy)) by auto with fl. assert (Ns : num (stale_s policy)) by auto with fl.
  rewrite (fle_val (disconnect_s policy) (fsub now t)), (fle_val (disconnect_s policy) (fsub later t)),
    (fle_val (stale_s policy) (fsub now t)), (fle_val (stale_s policy) (fsub later t)) by auto with fl.
  set (a := fval (fsub now t)) in *. set (b := fval (fsub later t)) in *. clearbody a b.
  destruct (_ <=? hl_failures r); cbn [orb]; [lia|].
  destruct (Z.leb_spec (fval (disconnect_s policy)) a), (Z.leb_spec (fval (disconnect_s policy)) b); cbn; try lia.
  - destruct (fval (stale_s policy) <=? a); [cbn; lia|]. destruct (fle (delayed_s policy) (latency_of r)); cbn; lia.
  - destruct (Z.leb_spec (fval (stale_s policy)) a), (Z.leb_spec (fval (stale_s policy)) b); cbn; try lia; destruct (fle (delayed_s policy) (latency_of r)); cbn; lia.
Qed.

Lemma worst_spec l : forall best, (worst best l = best \/ worst best l ∈ l) /\
  worst_rank best <= worst_rank (worst best l) /\ forall s, s ∈ l -> worst_rank s <= worst_rank (worst best l).
Proof.
  induction l as [|s l IH]; intros best; cbn [worst].
  - split; [by left|]. split; [lia|]. intros s H. by apply elem_of_nil in H.
  - destruct (IH (if worst_rank best <? worst_rank s then s else best)) as (H1 & H2 & H3).
    destruct (Z.ltb_spec (worst_rank best) (worst_rank s)).
    + split; [right; destruct H1 as [->|?]; [by left|by right]|]. split; [lia|].
      intros x [->|Hx]%elem_of_cons; [lia|auto].
    + split; [destruct H1 as [->|?]; [by left|right; by right]|]. split; [lia|].
      intros x [->|Hx]%elem_of_cons; [lia|auto].
Qed.

Lemma statuses_spec clock symbols : forall h n,
  length (statuses h symbols clock n).1 = length symbols /\
  forall i x, symbols !! i = Some x -> (statuses h symbols clock n).1 !! i = Some (peek_status h x (clock (n + i)%nat)).
Proof.
  induction symbols as [|y symbols IH]; intros h n; cbn [statuses]; [done|].
  pose proof (fun x t => status_peek h y (clock n) x t) as Hp.
  assert (E : (status h y (clock n)).1 = peek_status h y (clock n)) by done.
  destruct (status h y (clock n)) as [s h1]. cbn [snd fst] in Hp, E. specialize (IH h1 (S n)).
  destruct (statuses h1 symbols clock (S n)) as [rest h2]. cbn [fst] in IH |- *. destruct IH as [Hl IH].
  split; [cbn; lia|]. intros [|i] x Hx.
  - injection Hx as <-. by rewrite Nat.add_0_r, <- E.
  - change ((s :: rest) !! S i) with (rest !! i). rewrite (IH i x Hx), Hp. by rewrite Nat.add_succ_r.
Qed.

(** ** Observations over time *)
(** A successful quote, a failure, or an end-of-replay refresh; with its clock reading. *)
Inductive Observation := Success (s : MarketSnapshot) (mono : float) | Failure (mono : float) | KeepAlive (mono : float).

Definition apply_observation (symbol : string) (h : Health) (o : Observation) : Health :=
  match o with
  | Success s mono => (observe h symbol (Some s) false mono mono).2
  | Failure mono => (observe h symbol None true mono mono).2
  | KeepAlive mono => keep_alive h symbol mono
  end.

(** Failures since the last success. *)
Fixpoint trailing_failures (os : list Observation) (acc : Z) : Z :=
  match os with
  | [] => acc
  | Success _ _ :: os => trailing_failures os 0
  | Failure _ :: os => trailing_failures os (acc + 1)
  | KeepAlive _ :: os => trailing_failures os acc
  end.

Lemma apply_failures symbol h o :
  consecutive_failures (apply_observation symbol h o) symbol =
    match o with Success _ _ => 0 | Failure _ => consecutive_failures h symbol + 1 | KeepAlive _ => consecutive_failures h symbol end.
Proof.
  destruct o as [s m|m|m]; cbn [apply_observation]; unfold observe; cbn zeta; rewrite ?status_failures.
  - unfold consecutive_failures. by rewrite lookup_insert_eq.
  - unfold consecutive_failures. rewrite lookup_insert_eq. by destruct (h !! symbol).
  - unfold keep_alive. destruct (h !! symbol) as [r|] eqn:E; [|done]. destruct (hl_last_success r); [|done].
    destruct (0 <? hl_failures r); [done|]. unfold consecutive_failures. by rewrite lookup_insert_eq, E.
Qed.

Lemma run_failures symbol os : forall h,
  consecutive_failures (foldl (apply_observation symbol) h os) symbol = trailing_failures os (consecutive_failures h symbol).
Proof.
  induction os as [|o os IH]; intros h; cbn [foldl trailing_failures]; [done|]. rewrite IH, apply_failures. by destruct o.
Qed.

Lemma failures_disconnect h symbol now : 0 < disconnect_failures policy ->
  disconnect_failures policy <= consecutive_failures h symbol -> peek_status h symbol now = DISCONNECTED.
Proof.
  unfold consecutive_failures, peek_status, compute_status. intros Hp. destruct (h !! symbol) as [r|]; [|done].
  intros H%Z.leb_le. rewrite H. by destruct (hl_last_success r).
Qed.

Lemma success_status h symbol s mono : fin mono -> fin (stale_s policy) -> fin (disconnect_s policy) ->
  0 < fval (stale_s policy) -> 0 < fval (disconnect_s policy) -> 0 < disconnect_failures policy ->
  (observe h symbol (Some s) false mono mono).1 =
    if fle (delayed_s policy) (fmax f0 (fsub (sn_received_ts s) (sn_market_ts s))) then DELAYED else LIVE.
Proof.
  intros Fm Fs Fd Hs Hd Hf. unfold observe, status. cbn [fst]. rewrite lookup_insert_eq. unfold compute_status, observed. cbn [hl_last_success hl_failures].
  cbn zeta. rewrite (fle_val (disconnect_s policy)), (fle_val (stale_s policy)) by auto with fl. rewrite fsub_diag by done.
  destruct (Z.leb_spec (disconnect_failures policy) 0); [lia|]. destruct (Z.leb_spec (fval (disconnect_s policy)) 0); [lia|].
  destruct (Z.leb_spec (fval (stale_s policy)) 0); [lia|]. done.
Qed.
End health.

(** ** Properties *)

(** [status_degrades] a feed only recovers by a quote: with nothing observed in between, a later status is
    never better than an earlier one (asking for the status, which writes the log's
    [last_status], does not count). *)
Theorem status_degrades policy h symbol now later :
  fin (stale_s policy) -> fin (disconnect_s policy) -> fin now -> fin later -> fval now <= fval later ->
  (forall r t, h !! symbol = Some r -> hl_last_success r = Some t -> fin t) ->
  let '(s, h') := status policy h symbol now in
  worst_rank s <= worst_rank (status policy h' symbol later).1.
Proof.
  intros Fs Fd Fn Fl Hle Ht. pose proof (status_peek policy h symbol now symbol later) as Hp.
  destruct (status policy h symbol now) as [s h'] eqn:E. cbn [snd] in Hp.
  change (status policy h' symbol later).1 with (peek_status policy h' symbol later). rewrite Hp.
  assert (s = peek_status policy h symbol now) as -> by (unfold status in E; by simplify_eq).
  unfold peek_status. destruct (h !! symbol) as [r|] eqn:Er; [|done]. apply compute_mono; [done|done| |done|done].
  split; [done|]. intros t. by apply Ht.
Qed.

(** [feed_lifecycle] the life cycle of a feed.  After any sequence of quotes, failures and end-of-replay
    refreshes, the failure count is the number of failures since the last quote - a refresh
    neither counts nor hides one; once it reaches the policy's bound the feed is
    [DISCONNECTED] whatever its age; and a quote at once makes it [DELAYED] or [LIVE],
    by its latency alone. *)
Theorem feed_lifecycle policy symbol os h now :
  fin (stale_s policy) -> fin (disconnect_s policy) -> 0 < fval (stale_s policy) -> 0 < fval (disconnect_s policy) ->
  0 < disconnect_failures policy -> fin now ->
  let h' := foldl (apply_observation policy symbol) h os in
  consecutive_failures h' symbol = trailing_failures os (consecutive_failures h symbol) /\
  (disconnect_failures policy <= trailing_failures os (consecutive_failures h symbol) -> peek_status policy h' symbol now = DISCONNECTED) /\
  (forall s, (observe policy h' symbol (Some s) false now now).1 =
     if fle (delayed_s policy) (fmax f0 (fsub (sn_received_ts s) (sn_market_ts s))) then DELAYED else LIVE).
Proof.
  intros Fs Fd Hs Hd Hf Fn. cbn zeta. rewrite run_failures. split; [done|]. split.
  - intros H. apply failures_disconnect; [done|]. by rewrite run_failures.
  - intros s. by apply success_status.
Qed.

(** [aggregate_worst] the aggregate is the worst feed: it is the status of one of the symbols and at least
    as bad as every symbol's, and [DISCONNECTED] when there is none. *)
Theorem aggregate_worst policy h symbols clock n :
  let '(a, _) := aggregate_status policy h symbols clock n in
  (symbols = [] -> a = DISCONNECTED) /\
  (symbols <> [] -> exists i x, symbols !! i = Some x /\ a = peek_status policy h x (clock (n + i)%nat)) /\
  (forall i x, symbols !! i = Some x -> worst_rank (peek_status policy h x (clock (n + i)%nat)) <= worst_rank a).
Proof.
  unfold aggregate_status. destruct (statuses_spec policy clock symbols h n) as [Hl Hs].
  destruct (statuses policy h symbols clock n) as [[|s l] h']; cbn [fst] in Hl, Hs.
  - destruct symbols; [|done]. by split_and!.
  - destruct (worst_spec l s) as (H1 & H2 & H3). split; [by intros ->|]. split.
    + intros _. assert (Hin : worst s l ∈ s :: l) by (destruct H1 as [->|?]; [by left|by right]).
      apply list_elem_of_lookup in Hin as (i & Hi). destruct (lookup_lt_is_Some_2 symbols i) as [x Hx].
      { apply lookup_lt_Some in Hi. lia. }
      exists i, x. split; [done|]. specialize (Hs i x Hx). congruence.
    + intros i x Hx. specialize (Hs i x Hx). apply list_elem_of_lookup_2 in Hs. apply elem_of_cons in Hs as [->|Hs]; [done|auto].
Qed.

(** ** Witnesses *)
Definition demo_quote : MarketSnapshot :=
  let p := flit 100 0 in mkSnapshot "600519.SH" p p p p p f0 None (flit 10 0) (flit 11 0).
Definition demo_health : Health := foldl (apply_observation default_health_policy "600519.SH") ∅ [Success demo_quote (flit 10 0)].

Lemma demo_health_times r t : demo_health !! "600519.SH" = Some r -> hl_last_success r = Some t -> fin t.
Proof.
  assert (E : demo_health !! "600519.SH" = Some (mkHealth (Some (flit 10 0)) 0 (Some (flit 10 0)) (Some (flit 11 0)) (Some LIVE))) by (vm_compute; reflexivity).
  rewrite E. intros [= <-] [= <-]. by split.
Qed.

Lemma status_degrades_witness :
  (status default_health_policy demo_health "600519.SH" (flit 12 0)).1 = LIVE /\
  (status default_health_policy demo_health "600519.SH" (flit 100 0)).1 = DISCONNECTED /\
  let '(s, h') := status default_health_policy demo_health "600519.SH" (flit 12 0) in
  worst_rank s <= worst_rank (status default_health_policy h' "600519.SH" (flit 100 0)).1.
Proof.
  split; [vm_compute; reflexivity|]. split; [vm_compute; reflexivity|].
  apply (status_degrades default_health_policy demo_health "600519.SH" (flit 12 0) (flit 100 0)).
  - by split.
  - by split.
  - by split.
  - by split.
  - apply Z.leb_le. vm_compute. reflexivity.
  - exact demo_health_times.
Defined.

Definition demo_failures : list Observation :=
  [Failure (flit 11 0); Failure (flit 12 0); KeepAlive (flit 13 0); Failure (flit 14 0)].

Lemma default_health_ok : fin (stale_s default_health_policy) /\ fin (disconnect_s default_health_policy) /\
  0 < fval (stale_s default_health_policy) /\ 0 < fval (disconnect_s default_health_policy) /\ 0 < disconnect_failures default_health_policy.
Proof. split_and!; [by split|by split|apply Z.ltb_lt; vm_compute; reflexivity..]. Qed.

Lemma feed_lifecycle_witness :
  peek_status default_health_policy (foldl (apply_observation default_health_policy "600519.SH") demo_health demo_failures)
    "600519.SH" (flit 14 0) = DISCONNECTED.
Proof.
  destruct default_health_ok as (H1 & H2 & H3 & H4 & H5).
  assert (H6 : fin (flit 14 0)) by by split.
  assert (H7 : disconnect_failures default_health_policy <= trailing_failures demo_failures (consecutive_failures demo_health "600519.SH"))
    by (apply Z.leb_le; vm_compute; reflexivity).
  exact (proj1 (proj2 (feed_lifecycle default_health_policy "600519.SH" demo_failures demo_health (flit 14 0) H1 H2 H3 H4 H5 H6)) H7).
Defined.
