(* ===== verification/Watchlist.v ===== *)
(** * The watchlist (src/market_sentinel/watchlist/watchlist.py)

    An insertion-ordered dictionary of items, with a limit, saved after every change.  The
    file is the JSON payload: its [items] rows as insertion-ordered mappings; the JSON text
    itself and I/O errors are not modelled.  An operation that raises changes nothing, as in
    the code, where every check precedes the first assignment. *)
From Stdlib Require Import ZArith Lia Ascii String.
From stdpp Require Import prelude strings gmap.
From S2P Require Import Prelude PyFloat Domain Normalizer.
Local Open Scope Z_scope.

Abbreviation Payload := (list (list (string * pyval))).

Record Watchlist := mkWatchlist {
  wl_path : bool;                          (* a path was given *)
  wl_limit : Z;
  wl_persist : bool;
  wl_items : list (string * WatchItem);
  wl_file : option Payload                 (* what the path holds *)
}.

Section watchlist.
(** [str(v)] and [bool(v)] of values the program does not itself write. *)
Context (str_other : pyval -> string) (bool_other : pyval -> bool).

Definition py_str (v : pyval) : string := match v with PyStr s => s | v => str_other v end.
Definition py_bool (v : pyval) : bool := match v with PyBool b => b | v => bool_other v end.

Definition load_row (items : list (string * WatchItem)) (raw : list (string * pyval)) : result (list (string * WatchItem)) :=
  v ← of_option KeyError (od_get "symbol" raw);
  let symbol := py_str v in
  Ok (od_set symbol (mkWatchItem symbol (py_bool (default (PyBool true) (od_get "enabled" raw)))) items).

Fixpoint load_rows (items : list (string * WatchItem)) (rows : Payload) : result (list (string * WatchItem)) :=
  match rows with
  | [] => Ok items
  | raw :: rows => items ← load_row items raw; load_rows items rows
  end.

Definition load (w : Watchlist) : result Watchlist :=
  match wl_path w, wl_file w with
  | true, Some rows =>
      items ← load_rows (wl_items w) rows;
      Ok (mkWatchlist (wl_path w) (wl_limit w) (wl_persist w) items (wl_file w))
  | _, _ => Ok w
  end.

(** [Watchlist(path, limit, persist)], over what the path holds. *)
Definition watchlist_init (path : bool) (limit : Z) (persist : bool) (file : option Payload) : result Watchlist :=
  if persist && negb path then Err (ValueError "persistent watchlist requires a path")
  else
    let w := mkWatchlist path limit persist [] file in
    if persist then load w else Ok w.
End watchlist.

Definition payload (items : list (string * WatchItem)) : Payload :=
  (fun row => [("symbol", PyStr (wi_symbol row.2)); ("enabled", PyBool (wi_enabled row.2))]) <$> items.

Definition save (w : Watchlist) : Watchlist :=
  if negb (wl_persist w) || negb (wl_path w) then w
  else mkWatchlist (wl_path w) (wl_limit w) (wl_persist w) (wl_items w) (Some (payload (wl_items w))).

Definition with_items (w : Watchlist) items : Watchlist := mkWatchlist (wl_path w) (wl_limit w) (wl_persist w) items (wl_file w).

Definition full {A} : result A := Err (WatchlistFullError "watchlist limit").

Definition add (w : Watchlist) (symbol : string) : result (WatchItem * Watchlist) :=
  match od_get symbol (wl_items w) with
  | Some existing => Ok (existing, w)
  | None =>
      if wl_limit w <=? Z.of_nat (length (wl_items w)) then full
      else
        let item := mkWatchItem symbol true in
        Ok (item, save (with_items w (od_set symbol item (wl_items w))))
  end.

Definition require_item (w : Watchlist) (symbol : string) : result WatchItem :=
  of_option (WatchlistSymbolError ("unknown symbol: " +:+ symbol)) (od_get symbol (wl_items w)).

Definition remove (w : Watchlist) (symbol : string) : result Watchlist :=
  _ ← require_item w symbol;
  Ok (save (with_items w (od_del symbol (wl_items w)))).

Fixpoint collect_unique (seen : list (string * WatchItem)) (items : list WatchItem) : result (list (string * WatchItem)) :=
  match items with
  | [] => Ok seen
  | item :: items =>
      match od_get (wi_symbol item) seen with
      | Some _ => Err (WatchlistSymbolError ("duplicate symbol: " +:+ wi_symbol item))
      | None => collect_unique (od_set (wi_symbol item) item seen) items
      end
  end.

Definition replace (w : Watchlist) (items : list WatchItem) : result Watchlist :=
  seen ← collect_unique [] items;
  if wl_limit w <? Z.of_nat (length seen) then full
  else Ok (save (with_items w seen)).

Definition list_items (w : Watchlist) : list WatchItem := snd <$> wl_items w.

Definition set_enabled (w : Watchlist) (symbol : string) (enabled : bool) : result (WatchItem * Watchlist) :=
  item ← require_item w symbol;
  let updated := mkWatchItem (wi_symbol item) enabled in
  Ok (updated, save (with_items w (od_set symbol updated (wl_items w)))).
Definition enable (w : Watchlist) (symbol : string) := set_enabled w symbol true.
Definition disable (w : Watchlist) (symbol : string) := set_enabled w symbol false.

Definition enabled_symbols (w : Watchlist) : list string :=
  wi_symbol <$> filter (fun item => wi_enabled item = true) (list_items w).

(** ** Operations over time; one that raises leaves the watchlist as it was *)
Inductive Op := Add (symbol : string) | Remove (symbol : string) | Replace (items : list WatchItem)
  | Enable (symbol : string) | Disable (symbol : string).

Definition apply_op (w : Watchlist) (o : Op) : Watchlist :=
  let keep {A} (f : A -> Watchlist) (r : result A) := match r with Ok a => f a | Err _ => w end in
  match o with
  | Add s => keep snd (add w s)
  | Remove s => keep id (remove w s)
  | Replace items => keep id (replace w items)
  | Enable s => keep snd (enable w s)
  | Disable s => keep snd (disable w s)
  end.

(** ** Lemmas *)
Definition keyed (items : list (string * WatchItem)) : Prop :=
  NoDup items.*1 /\ Forall (fun row => wi_symbol row.2 = row.1) items.

Lemma keyed_set symbol enabled items : keyed items -> keyed (od_set symbol (mkWatchItem symbol enabled) items).
Proof.
  intros [N F]. split; [by apply od_set_nodup|]. rewrite Forall_forall in F |- *. intros [k it] Hin.
  apply elem_of_od_set in Hin as [[-> ->]|[_ Hin]]; [done|by apply (F (k, it))|done].
Qed.

Lemma keyed_del symbol items : keyed items -> keyed (od_del symbol items).
Proof.
  intros [N F]. split; [by apply od_del_nodup|]. rewrite Forall_forall in F |- *. intros [k it] Hin.
  apply elem_of_od_del in Hin as [_ Hin]; [by apply (F (k, it))|done].
Qed.

Lemma od_set_absent {V} (k : string) (v : V) d : k ∉ d.*1 -> od_set k v d = d ++ [(k, v)].
Proof.
  induction d as [|[a b] d IH]; cbn; [done|]. rewrite not_elem_of_cons. intros [Hk Hd].
  rewrite decide_False by done. by rewrite IH.
Qed.

Lemma length_od_set {V} (k : string) (v : V) d : length (od_set k v d) = if decide (k ∈ d.*1) then length d else S (length d).
Proof.
  rewrite <- (length_fmap fst), od_set_keys. destruct (decide (k ∈ d.*1)); rewrite ?length_app, length_fmap; cbn; lia.
Qed.

Lemma length_od_del {V} (k : string) (d : list (string * V)) : (length (od_del k d) <= length d)%nat.
Proof. induction d as [|[a b] d IH]; cbn; [lia|]. destruct (decide _); cbn; lia. Qed.

Lemma collect_unique_spec items : forall seen r, keyed seen -> collect_unique seen items = Ok r ->
  keyed r /\ r.*2 = seen.*2 ++ items.
Proof.
  induction items as [|it items IH]; intros seen r K; cbn [collect_unique].
  - intros [= <-]. by rewrite app_nil_r.
  - destruct (od_get (wi_symbol it) seen) eqn:E; [done|]. intros H.
    assert (K' : keyed (od_set (wi_symbol it) it seen)).
    { destruct it as [s b]. by apply keyed_set. }
    destruct (IH _ _ K' H) as [K2 E2]. split; [done|]. rewrite E2. apply od_get_None in E.
    rewrite od_set_absent by done. rewrite fmap_app, <- app_assoc. done.
Qed.

(** A replacement is refused exactly for a repeated symbol. *)
Lemma collect_unique_ok items : forall seen,
  (exists r, collect_unique seen items = Ok r) <-> NoDup (wi_symbol <$> items) /\ (forall it, it ∈ items -> wi_symbol it ∉ seen.*1).
Proof.
  induction items as [|it items IH]; intros seen; cbn [collect_unique].
  - split; [|by exists seen]. intros _. split; [constructor|]. intros it H. by apply elem_of_nil in H.
  - cbn [fmap list_fmap]. rewrite NoDup_cons. destruct (od_get (wi_symbol it) seen) as [x|] eqn:E.
    + split; [by intros [? ?]|]. intros [_ H]. exfalso. apply (H it ltac:(by left)).
      apply od_get_elem in E. by apply (list_elem_of_fmap_2 fst) in E.
    + apply od_get_None in E. rewrite IH, od_set_keys, decide_False by done.
      setoid_rewrite not_elem_of_app. setoid_rewrite list_elem_of_singleton. split.
      * intros [N H]. split; [split; [|done]|].
        -- intros (y & Hy & Hin)%list_elem_of_fmap. by apply (H y Hin).
        -- intros y [->|Hy]%elem_of_cons; [done|by apply H].
      * intros [[H1 N] H]. split; [done|]. intros y Hy. split; [apply H; by right|].
        intros E'. apply H1. rewrite <- E'. by apply list_elem_of_fmap_2.
Qed.

Record watchlist_wf (w : Watchlist) : Prop := {
  ww_keyed : keyed (wl_items w);
  ww_limit : Z.of_nat (length (wl_items w)) <= wl_limit w;
  ww_saved : wl_persist w = true -> wl_path w = true /\ (wl_file w = Some (payload (wl_items w)) \/ (wl_items w = [] /\ wl_file w = None))
}.

(** A replacement fails in two ways only. *)
Lemma collect_unique_error items : forall seen ex, collect_unique seen items = Err ex -> exists m, ex = WatchlistSymbolError m.
Proof.
  induction items as [|it items IH]; intros seen ex; cbn [collect_unique]; [done|].
  destruct (od_get (wi_symbol it) seen); [intros [= <-]; by eexists|apply IH].
Qed.

Lemma replace_errors w items : (exists w', replace w items = Ok w') \/ (exists m, replace w items = Err (WatchlistFullError m)) \/
  (exists m, replace w items = Err (WatchlistSymbolError m)).
Proof.
  unfold replace. destruct (collect_unique [] items) as [seen|ex] eqn:E; cbn [mbind result_bind].
  - destruct (_ <? _); [right; left; by eexists|left; by eexists].
  - apply collect_unique_error in E as [m ->]. right; right. by eexists.
Qed.

Lemma replace_outcome w items w' : replace w items = Ok w' -> list_items w' = items /\ Z.of_nat (length items) <= wl_limit w /\ NoDup (wi_symbol <$> items).
Proof.
  unfold replace. destruct (collect_unique [] items) as [seen|] eqn:E; [|done]. cbn [mbind result_bind].
  destruct (collect_unique_spec items [] seen) as [_ Hv]; [by split; constructor|done|].
  destruct (collect_unique_ok items []) as [H _]. destruct H as [Hnd _]; [by eexists|].
  destruct (Z.ltb_spec (wl_limit w) (Z.of_nat (length seen))); [done|]. intros [= <-].
  unfold list_items, save. cbn. assert (Hl : length items = length seen) by (rewrite <- (length_fmap snd seen), Hv; done).
  split; [|split; [lia|done]]. by destruct (_ || _).
Qed.

Lemma replace_succeeds w items : NoDup (wi_symbol <$> items) -> Z.of_nat (length items) <= wl_limit w -> exists w', replace w items = Ok w'.
Proof.
  intros Hnd Hl. unfold replace. destruct (collect_unique_ok items []) as [_ H].
  destruct H as [seen E]; [split; [done|]; intros it _ Hin; by apply not_elem_of_nil in Hin|].
  destruct (collect_unique_spec items [] seen) as [_ Hv]; [by split; constructor|done|]. rewrite E. cbn [mbind result_bind].
  assert (length items = length seen) as <- by (rewrite <- (length_fmap snd seen), Hv; done).
  destruct (Z.ltb_spec (wl_limit w) (Z.of_nat (length items))); [lia|by eexists].
Qed.

Lemma save_wf w items : watchlist_wf w -> keyed items -> Z.of_nat (length items) <= wl_limit w ->
  watchlist_wf (save (with_items w items)) /\ wl_items (save (with_items w items)) = items /\
  wl_limit (save (with_items w items)) = wl_limit w /\ wl_persist (save (with_items w items)) = wl_persist w.
Proof.
  intros [_ _ S] K L. unfold save, with_items. cbn. destruct (wl_persist w) eqn:Ep; cbn.
  - destruct (S eq_refl) as [-> _]. cbn. split; [|done]. split; [done|done|]. intros _. split; [done|by left].
  - split; [|done]. split; [done|done|]. intros H. cbn in H. congruence.
Qed.

Lemma set_enabled_wf w s enabled : watchlist_wf w ->
  match set_enabled w s enabled with
  | Ok (_, w') => watchlist_wf w' /\ wl_limit w' = wl_limit w /\ wl_persist w' = wl_persist w
  | Err _ => True
  end.
Proof.
  intros W. pose proof W as [K L _]. unfold set_enabled, require_item. destruct (od_get s (wl_items w)) as [it|] eqn:E; [|done]. cbn.
  apply od_get_elem in E. pose proof (proj2 K) as F. rewrite Forall_forall in F. pose proof (F _ E) as Hs. cbn in Hs. rewrite Hs.
  destruct (save_wf w (od_set s (mkWatchItem s enabled) (wl_items w)) W) as (H1 & _ & H2 & H3); [by apply keyed_set| |by split_and!].
  rewrite length_od_set, decide_True by (by apply (list_elem_of_fmap_2 fst) in E). done.
Qed.

Lemma apply_op_wf w o : watchlist_wf w ->
  watchlist_wf (apply_op w o) /\ wl_limit (apply_op w o) = wl_limit w /\ wl_persist (apply_op w o) = wl_persist w.
Proof.
  intros W. pose proof W as [K L _]. destruct o as [s|s|items|s|s]; cbn [apply_op].
  - unfold add. destruct (od_get s (wl_items w)) as [it|] eqn:E; [done|].
    destruct (Z.leb_spec (wl_limit w) (Z.of_nat (length (wl_items w)))); [done|]. cbn [snd].
    destruct (save_wf w (od_set s (mkWatchItem s true) (wl_items w)) W) as (H1 & _ & H2 & H3); [by apply keyed_set| |by split_and!].
    rewrite length_od_set. destruct (decide _); lia.
  - unfold remove, require_item. destruct (od_get s (wl_items w)); [|done]. cbn.
    destruct (save_wf w (od_del s (wl_items w)) W) as (H1 & _ & H2 & H3); [by apply keyed_del| |by split_and!].
    pose proof (length_od_del s (wl_items w)). lia.
  - unfold replace. destruct (collect_unique [] items) as [seen|] eqn:E; cbn [mbind result_bind]; [|done].
    destruct (Z.ltb_spec (wl_limit w) (Z.of_nat (length seen))); [done|]. cbn [id].
    destruct (collect_unique_spec items [] seen) as [K' _]; [by split; constructor|done|].
    destruct (save_wf w seen W) as (H1 & _ & H2 & H3); [done|lia|by split_and!].
  - pose proof (set_enabled_wf w s true W) as H. unfold enable. by destruct (set_enabled w s true) as [[it w']|].
  - pose proof (set_enabled_wf w s false W) as H. unfold disable. by destruct (set_enabled w s false) as [[it w']|].
Qed.

Lemma row_symbol s b : od_get "symbol" [("symbol", PyStr s); ("enabled", PyBool b)] = Some (PyStr s).
Proof. vm_compute. reflexivity. Qed.
Lemma row_enabled s b : od_get "enabled" [("symbol", PyStr s); ("enabled", PyBool b)] = Some (PyBool b).
Proof. vm_compute. reflexivity. Qed.

Lemma load_rows_payload so bo items : forall acc, NoDup (acc.*1 ++ items.*1) -> Forall (fun row => wi_symbol row.2 = row.1) items ->
  load_rows so bo acc (payload items) = Ok (acc ++ items).
Proof.
  induction items as [|[k it] items IH]; intros acc N F; cbn [payload fmap list_fmap load_rows]; [by rewrite app_nil_r|].
  apply Forall_cons in F as [Hk F]. cbn in Hk. unfold load_row. cbn [snd].
  rewrite (row_symbol (wi_symbol it) (wi_enabled it)).
  cbn [of_option mbind result_bind py_str].
  rewrite (row_enabled (wi_symbol it) (wi_enabled it)).
  cbn [default from_option py_bool]. cbn [fmap list_fmap] in N. rewrite Hk.
  assert (Ha : k ∉ acc.*1).
  { intros Hin. apply NoDup_app in N as (_ & Hd & _). by apply (Hd k Hin); left. }
  rewrite od_set_absent by done. change ((fun row : string * WatchItem => [("symbol", PyStr (wi_symbol row.2)); ("enabled", PyBool (wi_enabled row.2))]) <$> items) with (payload items).
  rewrite IH; [|by rewrite fmap_app, <- app_assoc|done].
  rewrite <- app_assoc. cbn. do 4 f_equal. destruct it as [s b]. cbn in *. by subst.
Qed.

Lemma reload_items so bo w : watchlist_wf w -> wl_persist w = true ->
  exists w', watchlist_init so bo (wl_path w) (wl_limit w) true (wl_file w) = Ok w' /\ wl_items w' = wl_items w.
Proof.
  intros [[N F] _ S] Hp. destruct (S Hp) as [Hpath Hf]. unfold watchlist_init, load. rewrite Hpath. cbn [negb andb].
  destruct Hf as [->|[Hi ->]]; cbn.
  - rewrite (load_rows_payload so bo (wl_items w) []) by done. cbn. by eexists.
  - eexists. split; [done|]. by rewrite Hi.
Qed.

Lemma run_ops_wf os : forall w, watchlist_wf w ->
  watchlist_wf (foldl apply_op w os) /\ wl_limit (foldl apply_op w os) = wl_limit w /\ wl_persist (foldl apply_op w os) = wl_persist w.
Proof.
  induction os as [|o os IH]; intros w W; cbn [foldl]; [done|].
  destruct (apply_op_wf w o W) as (W1 & L1 & P1). destruct (IH _ W1) as (W2 & L2 & P2). split_and!; congruence.
Qed.

(** ** Properties *)

(** [watchlist_history] after any sequence of operations, refused ones included, on a new persistent
    watchlist: symbols are unique, the limit holds, the enabled symbols are a subset of the
    listed ones, and a restart from the file gives back exactly the items, in order. *)
Theorem watchlist_history so bo limit os :
  0 <= limit ->
  let w := foldl apply_op (mkWatchlist true limit true [] None) os in
  NoDup (wi_symbol <$> list_items w) /\ Z.of_nat (length (list_items w)) <= limit /\
  enabled_symbols w `sublist_of` (wi_symbol <$> list_items w) /\
  exists w', watchlist_init so bo true limit true (wl_file w) = Ok w' /\ list_items w' = list_items w.
Proof.
  intros Hl. cbn zeta. set (w0 := mkWatchlist true limit true [] None).
  assert (W0 : watchlist_wf w0).
  { split; [by split; constructor|cbn; lia|]. intros _. split; [done|by right]. }
  destruct (run_ops_wf os w0 W0) as (W & L & P). set (w := foldl apply_op w0 os) in *.
  pose proof W as [[N F] Hlim S].
  assert (E : wi_symbol <$> list_items w = (wl_items w).*1).
  { unfold list_items. rewrite <- list_fmap_compose. apply list_fmap_ext. intros i [k it] Hi.
    rewrite Forall_forall in F. apply (F (k, it)). by apply list_elem_of_lookup_2 in Hi. }
  rewrite E. split; [done|]. split; [unfold list_items; rewrite length_fmap, L in *; done|]. split.
  - rewrite <- E. unfold enabled_symbols. apply fmap_sublist, sublist_filter.
  - destruct (reload_items so bo w W P) as (w' & Hw & Hi). rewrite L in Hw.
    destruct (S P) as [Hpath _]. rewrite Hpath in Hw. exists w'. split; [exact Hw|]. unfold list_items. by rewrite Hi.
Qed.

(** [replace_spec] [replace] is all or nothing: it succeeds exactly when the symbols are distinct and
    within the limit, and then lists exactly the given items; otherwise it raises the
    error of the first check that fails (duplicates before the limit) and, like every
    refused operation, changes nothing. *)
Theorem replace_spec w items :
  match replace w items with
  | Ok w' => NoDup (wi_symbol <$> items) /\ Z.of_nat (length items) <= wl_limit w /\ list_items w' = items /\
      enabled_symbols w' = wi_symbol <$> filter (fun it => wi_enabled it = true) items
  | Err (WatchlistSymbolError _) => ~ NoDup (wi_symbol <$> items) /\ apply_op w (Replace items) = w
  | Err (WatchlistFullError _) => NoDup (wi_symbol <$> items) /\ wl_limit w < Z.of_nat (length items) /\ apply_op w (Replace items) = w
  | Err _ => False
  end.
Proof.
  pose proof (collect_unique_ok items []) as Hok. cbn [apply_op].
  destruct (replace w items) as [w'|ex] eqn:E; unfold replace in E.
  - destruct (collect_unique [] items) as [seen|] eqn:Ec; cbn [mbind result_bind] in E; [|done].
    destruct (collect_unique_spec items [] seen) as [_ E2]; [by split; constructor|done|]. cbn in E2.
    assert (Hl : length seen = length items) by (by rewrite <- E2, length_fmap). rewrite Hl in E.
    destruct (Z.ltb_spec (wl_limit w) (Z.of_nat (length items))); [done|]. injection E as <-.
    split; [by apply Hok; eexists|]. split; [lia|].
    assert (Hi : list_items (save (with_items w seen)) = items).
    { unfold list_items. rewrite <- E2. unfold save. by destruct (negb _ || negb _). }
    split; [done|]. unfold enabled_symbols. by rewrite Hi.
  - destruct (collect_unique [] items) as [seen|ex'] eqn:Ec; cbn [mbind result_bind] in E.
    + destruct (collect_unique_spec items [] seen) as [_ E2]; [by split; constructor|done|]. cbn in E2.
      assert (Hl : length seen = length items) by (by rewrite <- E2, length_fmap). rewrite Hl in E.
      destruct (Z.ltb_spec (wl_limit w) (Z.of_nat (length items))); [|done]. injection E as <-.
      split; [by apply Hok; eexists|done].
    + injection E as <-. assert (Hd : forall its seen, match collect_unique seen its with Err (WatchlistSymbolError _) => True | Err _ => False | Ok _ => True end).
      { induction its as [|it its IH]; intros s; cbn; [done|]. destruct (od_get _ s); [done|apply IH]. }
      specialize (Hd items []). rewrite Ec in Hd. destruct ex'; try done. split; [|done].
      intros N. destruct (proj2 Hok) as [r Hr]; [|done]. split; [done|]. intros it _. apply not_elem_of_nil.
Qed.

(** ** Witness *)
Lemma watchlist_history_witness :
  NoDup (wi_symbol <$> list_items (foldl apply_op (mkWatchlist true 2 true [] None)
    [Add "600519.SH"; Add "000001.SZ"; Add "00700.HK"; Disable "600519.SH"; Remove "x"])).
Proof.
  exact (proj1 (watchlist_history (fun _ => "") (fun _ => true) 2
    [Add "600519.SH"; Add "000001.SZ"; Add "00700.HK"; Disable "600519.SH"; Remove "x"] ltac:(lia))).
Defined.

Example history_items :
  let w := foldl apply_op (mkWatchlist true 2 true [] None)
    [Add "600519.SH"; Add "000001.SZ"; Add "00700.HK"; Disable "600519.SH"; Remove "x"] in
  ((fun it => (wi_symbol it, wi_enabled it)) <$> list_items w, enabled_symbols w)
  = ([("600519.SH", false); ("000001.SZ", true)], ["000001.SZ"]).
Proof. vm_compute. reflexivity. Qed.
