(* ===== verification/Engine.v ===== *)
(** * The runtime engine (src/market_sentinel/runtime/ and market_data/state.py)

    One tick: fetch the due symbols, ingest each quote, process each due symbol, refresh the
    others.  An engine step is a state-passing function that keeps the state it has reached
    when an exception escapes, as Python does; [try_except] is the code's handler.  The
    provider, the collector and the intelligence observer are arguments.  A raising
    [pipeline.process] is given the pipeline's old state: [process_spec] shows it never
    raises.  Clock readings come from one sequence with a cursor in the state; the two
    readings of [set_level] are both taken. *)
From Stdlib Require Import ZArith Lia Ascii String.
From stdpp Require Import prelude strings gmap.
From S2P Require Import Prelude PyFloat Domain RingBuffer Normalizer Features Cooldown Cluster Composer Telemetry Pipeline Scheduler Health Watchlist.
Local Open Scope Z_scope.

(** ** [MarketStateStore] *)
Abbreviation MarketStateStore := (gmap string MarketState).

Definition update_latest (st : MarketStateStore) (s : MarketSnapshot) : MarketStateStore :=
  let current := st !! sn_symbol s in
  <[sn_symbol s := mkMarketState (sn_symbol s) (Some s)
      (from_option ms_level COLD current) (from_option ms_feed_status LIVE current)
      (current ≫= ms_feed_latency) (current ≫= ms_last_update_age) (current ≫= ms_features)
      (from_option ms_active_signals [] current)]> st.

(** [None] for [features] or [active_signals] is [_UNSET]. *)
Definition apply_runtime (st : MarketStateStore) (symbol : string) (level : SchedulerLevel) (feed_status : FeedStatus)
    (feed_latency last_update_age : option float) (features : option (option MarketFeatures))
    (active_signals : option (list Signal)) : MarketStateStore :=
  let current := st !! symbol in
  <[symbol := mkMarketState symbol (current ≫= ms_latest) level feed_status feed_latency last_update_age
      (match features with None => current ≫= ms_features | Some f => f end)
      (match active_signals with None => from_option ms_active_signals [] current | Some l => l end)]> st.

Definition snapshot_for (st : MarketStateStore) (symbols : list string) : list MarketState :=
  omap (fun symbol => st !! symbol) symbols.

(** ** Results and diagnostics *)
Record SymbolTickResult := mkTickResult {
  tr_symbol : string;
  tr_features : option MarketFeatures;
  tr_accepted : list MarketEvent;
  tr_updates : list Signal;
  tr_traces : list SignalTrace;
  tr_alerts : list Signal;
  tr_level_before : SchedulerLevel;
  tr_level_after : SchedulerLevel
}.
Abbreviation EngineTickResult := (list SymbolTickResult).
Definition for_symbol (r : EngineTickResult) (symbol : string) : option SymbolTickResult :=
  head (filter (fun x => tr_symbol x = symbol) r).

Record EngineDiagnostics := mkDiagnostics {
  dg_out_of_order : Z;
  dg_duplicate : Z;
  dg_recovery : Z;
  dg_fetch_error : option string
}.

(** [type(exc).__name__] *)
Definition exn_name (e : exn) : string :=
  match e with
  | ValueError _ => "ValueError" | OverflowError => "OverflowError" | ZeroDivisionError => "ZeroDivisionError"
  | KeyError => "KeyError" | IndexError => "IndexError" | TypeError => "TypeError" | RuntimeError _ => "RuntimeError"
  | TimeoutError _ => "TimeoutError" | SnapshotValidationError _ => "SnapshotValidationError"
  | WatchlistFullError _ => "WatchlistFullError" | WatchlistSymbolError _ => "WatchlistSymbolError"
  | TuningConfigError _ => "TuningConfigError" | TuningSnapshotError _ => "TuningSnapshotError"
  | AttributeError => "AttributeError" | ProviderError kind => kind | IntelligenceError kind _ => kind
  | CapabilityError _ _ => "CapabilityError" | McpConfigError _ => "McpConfigError"
  end.

Record Engine (P S F I : Type) := mkEngine {
  en_watchlist : Watchlist;
  en_provider : P;
  en_scheduler : Scheduler;
  en_buffers : SymbolBuffers;
  en_states : MarketStateStore;
  en_health : Health;
  en_pipeline : Pipeline;
  en_telemetry : TelemetryRuntime S F;
  en_intelligence : option I;
  en_fetched : gset string;
  en_diagnostics : EngineDiagnostics;
  en_mono : nat
}.
Arguments mkEngine {P S F I}.
Arguments en_watchlist {P S F I}.
Arguments en_provider {P S F I}.
Arguments en_scheduler {P S F I}.
Arguments en_buffers {P S F I}.
Arguments en_states {P S F I}.
Arguments en_health {P S F I}.
Arguments en_pipeline {P S F I}.
Arguments en_telemetry {P S F I}.
Arguments en_intelligence {P S F I}.
Arguments en_fetched {P S F I}.
Arguments en_diagnostics {P S F I}.
Arguments en_mono {P S F I}.

(** [MarketEngine(...)] over fresh parts. *)
Definition engine_init {P S F I} (watchlist : Watchlist) (provider : P) (telemetry : TelemetryRuntime S F) (intelligence : option I) : Engine P S F I :=
  mkEngine watchlist provider scheduler_init (mkSB (flit 3600 0) 4096 ∅) ∅ ∅ pipeline_init telemetry intelligence ∅ (mkDiagnostics 0 0 0 None) 0.

(** ** Steps *)
Definition Step (E A : Type) : Type := E -> result A * E.
#[export] Instance step_ret {E} : MRet (Step E) := fun A a e => (Ok a, e).
#[export] Instance step_bind {E} : MBind (Step E) := fun A B k m e =>
  match m e with (Ok a, e) => k a e | (Err x, e) => (Err x, e) end.

Definition state {E A} (f : E -> result A * E) : Step E A := f.
Definition gets {E A} (f : E -> A) : Step E A := fun e => (Ok (f e), e).
Definition modify {E} (f : E -> E) : Step E unit := fun e => (Ok tt, f e).
Definition lift {E A} (r : result A) : Step E A := fun e => (r, e).
Definition try_except {E A} (m : Step E A) (handler : Step E A) : Step E A := fun e =>
  match m e with (Ok a, e) => (Ok a, e) | (Err _, e) => handler e end.
Fixpoint each {E A B} (f : A -> Step E B) (l : list A) : Step E (list B) :=
  match l with
  | [] => mret []
  | x :: l => y ← f x; ys ← each f l; mret (y :: ys)
  end.

(** Stepping through a bind. *)
Lemma step_ok {E A B} (m : Step E A) (k : A -> Step E B) e a e1 : m e = (Ok a, e1) -> (m ≫= k) e = k a e1.
Proof. intros H. unfold mbind, step_bind. by rewrite H. Qed.
Lemma step_err {E A B} (m : Step E A) (k : A -> Step E B) e x e1 : m e = (Err x, e1) -> (m ≫= k) e = (Err x, e1).
Proof. intros H. unfold mbind, step_bind. by rewrite H. Qed.
Lemma step_inv {E A B} (m : Step E A) (k : A -> Step E B) e b e' : (m ≫= k) e = (Ok b, e') ->
  exists a e1, m e = (Ok a, e1) /\ k a e1 = (Ok b, e').
Proof. unfold mbind, step_bind. destruct (m e) as [[a|x] e1]; [|done]. intros H. by exists a, e1. Qed.

Section engine.
Context {P S F I : Type}.
Context (fetch_quotes : P -> list string -> result (list MarketSnapshot) * P) (source_exhausted : P -> bool).
Context (observe_tick : I -> TelemetryRuntime S F -> EngineTickResult -> gset string -> list FeedStatus -> I * TelemetryRuntime S F).
Context (feature_policy : FeaturePolicy) (warming : WarmingConfig) (scheduler_policy : SchedulerPolicy) (health_policy : HealthPolicy).
Context (run_pipeline : Pipeline -> TelemetryRuntime S F -> option MarketFeatures -> MarketFeatures ->
  result (SignalPipelineResult * Pipeline * TelemetryRuntime S F)).
Context (mono : nat -> float).
Abbreviation Eng := (Engine P S F I).
Abbreviation M := (Step Eng).

Definition set_provider (p : P) (e : Eng) : Eng :=
  mkEngine (en_watchlist e) p (en_scheduler e) (en_buffers e) (en_states e) (en_health e) (en_pipeline e) (en_telemetry e) (en_intelligence e) (en_fetched e) (en_diagnostics e) (en_mono e).
Definition set_scheduler (s : Scheduler) (e : Eng) : Eng :=
  mkEngine (en_watchlist e) (en_provider e) s (en_buffers e) (en_states e) (en_health e) (en_pipeline e) (en_telemetry e) (en_intelligence e) (en_fetched e) (en_diagnostics e) (en_mono e).
Definition set_buffers (b : SymbolBuffers) (e : Eng) : Eng :=
  mkEngine (en_watchlist e) (en_provider e) (en_scheduler e) b (en_states e) (en_health e) (en_pipeline e) (en_telemetry e) (en_intelligence e) (en_fetched e) (en_diagnostics e) (en_mono e).
Definition set_states (st : MarketStateStore) (e : Eng) : Eng :=
  mkEngine (en_watchlist e) (en_provider e) (en_scheduler e) (en_buffers e) st (en_health e) (en_pipeline e) (en_telemetry e) (en_intelligence e) (en_fetched e) (en_diagnostics e) (en_mono e).
Definition set_health (h : Health) (e : Eng) : Eng :=
  mkEngine (en_watchlist e) (en_provider e) (en_scheduler e) (en_buffers e) (en_states e) h (en_pipeline e) (en_telemetry e) (en_intelligence e) (en_fetched e) (en_diagnostics e) (en_mono e).
Definition set_pipeline (p : Pipeline) (t : TelemetryRuntime S F) (e : Eng) : Eng :=
  mkEngine (en_watchlist e) (en_provider e) (en_scheduler e) (en_buffers e) (en_states e) (en_health e) p t (en_intelligence e) (en_fetched e) (en_diagnostics e) (en_mono e).
Definition set_intelligence (i : option I) (e : Eng) : Eng :=
  mkEngine (en_watchlist e) (en_provider e) (en_scheduler e) (en_buffers e) (en_states e) (en_health e) (en_pipeline e) (en_telemetry e) i (en_fetched e) (en_diagnostics e) (en_mono e).
Definition set_fetched (f : gset string) (e : Eng) : Eng :=
  mkEngine (en_watchlist e) (en_provider e) (en_scheduler e) (en_buffers e) (en_states e) (en_health e) (en_pipeline e) (en_telemetry e) (en_intelligence e) f (en_diagnostics e) (en_mono e).
Definition set_diagnostics (d : EngineDiagnostics) (e : Eng) : Eng :=
  mkEngine (en_watchlist e) (en_provider e) (en_scheduler e) (en_buffers e) (en_states e) (en_health e) (en_pipeline e) (en_telemetry e) (en_intelligence e) (en_fetched e) d (en_mono e).

Definition read_clock : M float := fun e =>
  (Ok (mono (en_mono e)),
   mkEngine (en_watchlist e) (en_provider e) (en_scheduler e) (en_buffers e) (en_states e) (en_health e) (en_pipeline e) (en_telemetry e) (en_intelligence e) (en_fetched e) (en_diagnostics e) (1 + en_mono e)).

(** Calls into the parts. *)
Definition health_observe (symbol : string) (s : option MarketSnapshot) (error : bool) : M unit :=
  stamp ← read_clock; now ← read_clock;
  modify (fun e => set_health (observe health_policy (en_health e) symbol s error stamp now).2 e).
Definition health_keep_alive (symbol : string) : M unit :=
  stamp ← read_clock; modify (fun e => set_health (keep_alive (en_health e) symbol stamp) e).
Definition health_status (symbol : string) : M FeedStatus :=
  now ← read_clock;
  state (fun e => let '(s, h) := status health_policy (en_health e) symbol now in (Ok s, set_health h e)).
Definition health_peek (symbol : string) : M FeedStatus :=
  now ← read_clock; gets (fun e => peek_status health_policy (en_health e) symbol now).
Definition scheduler_mark (symbol : string) : M unit :=
  now ← read_clock; modify (fun e => set_scheduler (mark_fetched (en_scheduler e) symbol now) e).
Definition level_of (symbol : string) : M SchedulerLevel := gets (fun e => get_level (en_scheduler e) symbol).
Definition scheduler_set (symbol : string) (level : SchedulerLevel) : M unit :=
  check ← read_clock; stamp ← read_clock;
  modify (fun e => set_scheduler (set_level scheduler_policy (en_scheduler e) symbol level false check stamp).2 e).

Definition bump (f : EngineDiagnostics -> EngineDiagnostics) : M unit := modify (fun e => set_diagnostics (f (en_diagnostics e)) e).
Definition bump_if (b : bool) (f : EngineDiagnostics -> EngineDiagnostics) : M unit := if b then bump f else mret tt.
Definition count_out_of_order (d : EngineDiagnostics) := mkDiagnostics (dg_out_of_order d + 1) (dg_duplicate d) (dg_recovery d) (dg_fetch_error d).
Definition count_duplicate (d : EngineDiagnostics) := mkDiagnostics (dg_out_of_order d) (dg_duplicate d + 1) (dg_recovery d) (dg_fetch_error d).
Definition count_recovery (d : EngineDiagnostics) := mkDiagnostics (dg_out_of_order d) (dg_duplicate d) (dg_recovery d + 1) (dg_fetch_error d).
Definition note_error (x : option string) (d : EngineDiagnostics) := mkDiagnostics (dg_out_of_order d) (dg_duplicate d) (dg_recovery d) x.

Definition runtime_update (symbol : string) (level : M SchedulerLevel) (features : option (option MarketFeatures)) (signals : option (list Signal)) : M unit :=
  level ← level;
  feed_status ← health_status symbol;
  feed_latency ← gets (fun e => feed_latency (en_health e) symbol);
  now ← read_clock;
  modify (fun e => set_states (apply_runtime (en_states e) symbol level feed_status feed_latency
    (last_update_age (en_health e) symbol now) features signals) e).

(** [_project_health] *)
Definition project_health (symbol : string) : M unit := runtime_update symbol (level_of symbol) None None.

(** [_tick_result] *)
Definition tick_result (symbol : string) (level_before : SchedulerLevel) (features : option MarketFeatures) (p : SignalPipelineResult) : M SymbolTickResult :=
  level_after ← level_of symbol;
  mret (mkTickResult symbol features (pr_accepted_events p) (pr_signal_updates p) (pr_traces p) (pr_alert_candidates p) level_before level_after).

Definition recovered (before after : FeedStatus) : bool :=
  match before, after with
  | STALE, (LIVE | DELAYED) | DISCONNECTED, (LIVE | DELAYED) => true
  | _, _ => false
  end.

(** [_ingest_snapshot] *)
Definition ingest_snapshot (symbol : string) (s : MarketSnapshot) : M unit :=
  previous_status ← health_peek symbol;
  latest ← gets (fun e => sb_latest (en_buffers e) symbol);
  if from_option (fun l => flt (sn_market_ts s) (sn_market_ts l)) false latest then
    _ ← bump count_out_of_order;
    health_observe symbol None true
  else
    _ ← bump_if (from_option (fun l => feq (sn_market_ts s) (sn_market_ts l)) false latest) count_duplicate;
    b ← gets (fun e => sb_append (en_buffers e) s);
    b ← lift b;
    _ ← modify (set_buffers b);
    _ ← modify (fun e => set_states (update_latest (en_states e) s) e);
    _ ← health_observe symbol (Some s) false;
    after ← health_peek symbol;
    _ ← bump_if (recovered previous_status after) count_recovery;
    modify (fun e => set_fetched ({[symbol]} ∪ en_fetched e) e).

(** [found]: the last quote of each symbol wins. *)
Definition found_quotes (snapshots : list MarketSnapshot) : gmap string MarketSnapshot :=
  foldl (fun d s => <[sn_symbol s := s]> d) ∅ snapshots.

(** [_fetch_due] *)
Definition fetch_due (due : list string) : M unit :=
  exhausted ← gets (fun e => source_exhausted (en_provider e));
  if exhausted : bool then
    _ ← each (fun symbol => _ ← health_keep_alive symbol; scheduler_mark symbol) due; mret tt
  else
    fetched ← state (fun e => let '(r, p) := fetch_quotes (en_provider e) due in (Ok r, set_provider p e));
    match fetched with
    | Err ex =>
        _ ← bump (note_error (Some (exn_name ex)));
        _ ← each (fun symbol => _ ← health_observe symbol None true; scheduler_mark symbol) due; mret tt
    | Ok snapshots =>
        _ ← bump (note_error None);
        let found := found_quotes snapshots in
        _ ← each (fun symbol =>
               _ ← match found !! symbol with
                   | None => health_observe symbol None true
                   | Some s => ingest_snapshot symbol s
                   end;
               scheduler_mark symbol) due;
        mret tt
    end.

Definition state_features (symbol : string) : M (option MarketFeatures) :=
  gets (fun e => en_states e !! symbol ≫= ms_features).

(** The recovery path, also taken when the symbol was not fetched. *)
Definition stale_result (symbol : string) (level_before : SchedulerLevel) : M SymbolTickResult :=
  _ ← project_health symbol;
  features ← state_features symbol;
  tick_result symbol level_before features empty_result.

Definition process_pipeline (previous : option MarketFeatures) (current : MarketFeatures) : M SignalPipelineResult := fun e =>
  match run_pipeline (en_pipeline e) (en_telemetry e) previous current with
  | Ok (r, p, t) => (Ok r, set_pipeline p t e)
  | Err ex => (Err ex, e)
  end.

(** The body of [_process_symbol]'s [try]. *)
Definition process_body (symbol : string) (level_before : SchedulerLevel) : M SymbolTickResult :=
  fetched ← gets (fun e => bool_decide (symbol ∈ en_fetched e));
  if negb fetched then stale_result symbol level_before
  else
    buffer ← gets (fun e => sb_buffer (en_buffers e) symbol);
    match buffer with
    | None => _ ← project_health symbol; tick_result symbol level_before None empty_result
    | Some buffer =>
        features ← lift (compute feature_policy buffer);
        previous ← state_features symbol;
        r ← match features with
            | None => mret empty_result
            | Some current => process_pipeline previous current
            end;
        let req := request warming symbol features (pr_accepted_events r) in
        _ ← scheduler_set symbol (lr_level req);
        level_after ← level_of symbol;
        _ ← runtime_update symbol (mret level_after) (Some features) (Some (pr_signal_updates r));
        mret (mkTickResult symbol features (pr_accepted_events r) (pr_signal_updates r) (pr_traces r) (pr_alert_candidates r)
          level_before level_after)
    end.

(** [_process_symbol] *)
Definition process_symbol (symbol : string) : M SymbolTickResult :=
  level_before ← level_of symbol;
  try_except (process_body symbol level_before) (stale_result symbol level_before).

Definition live_ids (e : Eng) : gset string :=
  ⋃ ((fun item => match en_states e !! wi_symbol item with
                  | Some st => list_to_set (sig_id <$> ms_active_signals st)
                  | None => ∅ end) <$> list_items (en_watchlist e)).

(** The observer is called once, at the end of the tick; it reads the status of each row's
    symbol through [self.health.status], in order. *)
Definition notify (results : EngineTickResult) : M unit :=
  observer ← gets en_intelligence;
  match observer with
  | None => mret tt
  | Some i =>
      active_ids ← gets live_ids;
      statuses ← each health_status (tr_symbol <$> results);
      modify (fun e => let '(i, t) := observe_tick i (en_telemetry e) results active_ids statuses in
                       set_intelligence (Some i) (set_pipeline (en_pipeline e) t e))
  end.

(** [tick] *)
Definition tick : M EngineTickResult :=
  enabled ← gets (fun e => enabled_symbols (en_watchlist e));
  now ← read_clock;
  due ← gets (fun e => due_symbols scheduler_policy (en_scheduler e) enabled now);
  _ ← modify (set_fetched ∅);
  _ ← (if bool_decide (due = []) then mret tt else fetch_due due);
  results ← each process_symbol due;
  _ ← each project_health (filter (fun x => x ∉ due) enabled);
  _ ← notify results;
  mret results.
End engine.

(** ** Invariant

    The pipeline enters by an interface: an invariant of its state under which a tick on
    finite market time succeeds and keeps it. *)
Class PipelineContract {S F} (run : Pipeline -> TelemetryRuntime S F -> option MarketFeatures -> MarketFeatures ->
    result (SignalPipelineResult * Pipeline * TelemetryRuntime S F)) := {
  pipe_wf : Pipeline -> Prop;
  pipe_runs : forall p t previous current, pipe_wf p -> fin (ft_market_ts current) ->
    exists r p' t', run p t previous current = Ok (r, p', t') /\ pipe_wf p' /\
      Forall (fun s => sig_symbol s = ft_symbol current) (pr_signal_updates r) /\ pr_alert_candidates r ⊆ pr_signal_updates r
}.

(** A provider enters by an interface as well: an invariant of its state, kept by every fetch,
    under which what it returns has passed the normalizer. *)
Class ProviderContract {P} (fetch : P -> list string -> result (list MarketSnapshot) * P) := {
  prov_wf : P -> Prop;
  prov_fetch : forall p due r p', prov_wf p -> fetch p due = (r, p') ->
    prov_wf p' /\ forall snaps, r = Ok snaps -> Forall snapshot_ok snaps
}.

Section invariant.
Context {P S F I : Type}.
Context (fetch_quotes : P -> list string -> result (list MarketSnapshot) * P) (source_exhausted : P -> bool).
Context (observe_tick : I -> TelemetryRuntime S F -> EngineTickResult -> gset string -> list FeedStatus -> I * TelemetryRuntime S F).
Context (feature_policy : FeaturePolicy) (warming : WarmingConfig) (scheduler_policy : SchedulerPolicy) (health_policy : HealthPolicy).
Context (run_pipeline : Pipeline -> TelemetryRuntime S F -> option MarketFeatures -> MarketFeatures ->
  result (SignalPipelineResult * Pipeline * TelemetryRuntime S F)).
Context `{!PipelineContract run_pipeline} `{!ProviderContract fetch_quotes}.
Context (mono : nat -> float).
Abbreviation Eng := (Engine P S F I).

Definition latest_state (e : Eng) (symbol : string) : option MarketSnapshot := en_states e !! symbol ≫= ms_latest.

Record buffers_wf (sb : SymbolBuffers) : Prop := {
  bw_retention : fin (sb_retention sb) /\ 0 < fval (sb_retention sb);
  bw_size : 0 < sb_max_size sb;
  bw_buffers : forall symbol b, sb_buffers sb !! symbol = Some b ->
    rb_wf b /\ buffer_ok b /\ Forall (fun s => sn_symbol s = symbol) (rb_items b)
}.

Record engine_wf (e : Eng) : Prop := {
  ew_buffers : buffers_wf (en_buffers e);
  ew_pipeline : pipe_wf (en_pipeline e);
  ew_provider : prov_wf (en_provider e);
  ew_latest : forall symbol, latest_state e symbol = sb_latest (en_buffers e) symbol
}.

Lemma engine_init_wf w p t i : pipe_wf pipeline_init -> prov_wf p -> engine_wf (engine_init w p t i).
Proof.
  intros Wp Wv. split; [|exact Wp|exact Wv|].
  - split; [split; [by split|apply Z.ltb_lt; vm_compute; reflexivity]|reflexivity|]. intros symbol b. cbn. by rewrite lookup_empty.
  - intros symbol. unfold latest_state, sb_latest. cbn. by rewrite !lookup_empty.
Qed.

(** The scheduler moved by fetch marks and level requests at readings of the clock. *)
Definition moved (e e' : Eng) : Prop := sched_steps scheduler_policy mono (en_scheduler e) (en_scheduler e').
#[local] Hint Extern 0 (moved _ _) => apply rtc_refl : core.
Lemma moved_trans a b c : moved a b -> moved b c -> moved a c.
Proof. unfold moved. intros H1 H2. by etrans. Qed.

(** A step that touches neither buffers, pipeline nor the latest quotes. *)
Definition quiet (e e' : Eng) : Prop :=
  en_watchlist e' = en_watchlist e /\ en_buffers e' = en_buffers e /\ en_pipeline e' = en_pipeline e /\
  en_fetched e' = en_fetched e /\ en_diagnostics e' = en_diagnostics e /\ en_provider e' = en_provider e /\ moved e e' /\
  (forall symbol, latest_state e' symbol = latest_state e symbol).

(** The same, but the pipeline may have run. *)
Definition calm (e e' : Eng) : Prop :=
  en_watchlist e' = en_watchlist e /\ en_buffers e' = en_buffers e /\ en_fetched e' = en_fetched e /\
  en_diagnostics e' = en_diagnostics e /\ en_provider e' = en_provider e /\ moved e e' /\
  (forall symbol, latest_state e' symbol = latest_state e symbol) /\ pipe_wf (en_pipeline e').

Lemma quiet_refl e : quiet e e.
Proof. done. Qed.
Lemma quiet_trans a b c : quiet a b -> quiet b c -> quiet a c.
Proof. intros (?&?&?&?&?&?&S1&H) (?&?&?&?&?&?&S2&H'). split_and!; [congruence..|by eapply moved_trans|]; intros x; by rewrite H', H. Qed.
Lemma calm_trans a b c : calm a b -> calm b c -> calm a c.
Proof. intros (?&?&?&?&?&S1&H&?) (?&?&?&?&?&S2&H'&?). split_and!; [congruence..|by eapply moved_trans| |done]; intros x; by rewrite H', H. Qed.
Lemma quiet_calm a b : pipe_wf (en_pipeline a) -> quiet a b -> calm a b.
Proof. intros W (?&?&Hp&?&?&?&?&H). split_and!; try done; congruence. Qed.
Lemma calm_wf a b : engine_wf a -> calm a b -> engine_wf b.
Proof. intros [B W V L] (?&Hb&?&?&Hv&_&H&Hp). split; [by rewrite Hb|done|by rewrite Hv|]. intros x. by rewrite H, Hb. Qed.
Lemma quiet_wf a b : engine_wf a -> quiet a b -> engine_wf b.
Proof. intros W Q. eapply calm_wf; [exact W|]. apply quiet_calm; [apply W|done]. Qed.

(** ** Quiet steps *)
Definition runs_quietly {A} (m : Step Eng A) : Prop := forall e, exists a e', m e = (Ok a, e') /\ quiet e e'.

Lemma quiet_bind {A B} (m : Step Eng A) (k : A -> Step Eng B) :
  runs_quietly m -> (forall a, runs_quietly (k a)) -> runs_quietly (m ≫= k).
Proof.
  intros Hm Hk e. destruct (Hm e) as (a & e1 & E1 & Q1). destruct (Hk a e1) as (b & e2 & E2 & Q2).
  exists b, e2. split; [|by eapply quiet_trans]. unfold mbind, step_bind. by rewrite E1.
Qed.
Lemma quiet_ret {A} (a : A) : runs_quietly (mret a).
Proof. intros e. by exists a, e. Qed.
Lemma quiet_gets {A} (f : Eng -> A) : runs_quietly (gets f).
Proof. intros e. by exists (f e), e. Qed.
Lemma quiet_each {A B} (f : A -> Step Eng B) l : (forall x, runs_quietly (f x)) -> runs_quietly (each f l).
Proof.
  intros Hf. induction l as [|x l IH]; cbn [each]; [apply quiet_ret|]. apply quiet_bind; [done|]. intros y.
  apply quiet_bind; [done|]. intros ys. apply quiet_ret.
Qed.
Lemma quiet_clock : runs_quietly (read_clock mono).
Proof. intros e. by eexists _, _. Qed.
Lemma quiet_modify (f : Eng -> Eng) : (forall e, quiet e (f e)) -> runs_quietly (modify f).
Proof. intros Hf e. exists tt, (f e). by split. Qed.

Lemma quiet_health_observe symbol s error : runs_quietly (health_observe health_policy mono symbol s error).
Proof. do 2 (apply quiet_bind; [apply quiet_clock|intros ?]). by apply quiet_modify. Qed.
Lemma quiet_keep_alive symbol : runs_quietly (health_keep_alive mono symbol).
Proof. apply quiet_bind; [apply quiet_clock|intros ?]. by apply quiet_modify. Qed.
Lemma quiet_health_status symbol : runs_quietly (health_status health_policy mono symbol).
Proof. apply quiet_bind; [apply quiet_clock|intros now e]. by eexists _, _. Qed.
Lemma quiet_health_peek symbol : runs_quietly (health_peek health_policy mono symbol).
Proof. apply quiet_bind; [apply quiet_clock|intros now]. apply quiet_gets. Qed.
Lemma quiet_mark symbol : runs_quietly (scheduler_mark mono symbol).
Proof.
  intros e. eexists _, _. split; [reflexivity|]. split_and!; try done. apply rtc_once, moved_mark.
Qed.
Lemma quiet_scheduler_set symbol level : runs_quietly (scheduler_set scheduler_policy mono symbol level).
Proof.
  intros e. eexists _, _. split; [reflexivity|]. split_and!; try done. apply rtc_once, moved_level.
Qed.

Lemma apply_runtime_latest st symbol level fs fl ua f l other :
  (apply_runtime st symbol level fs fl ua f l !! other ≫= ms_latest) = (st !! other ≫= ms_latest).
Proof.
  unfold apply_runtime. destruct (decide (symbol = other)) as [<-|]; [by rewrite lookup_insert_eq|by rewrite lookup_insert_ne].
Qed.

Lemma quiet_runtime_update symbol level f l : runs_quietly level -> runs_quietly (runtime_update health_policy mono symbol level f l).
Proof.
  intros Hl. apply quiet_bind; [done|intros ?]. apply quiet_bind; [apply quiet_health_status|intros ?].
  apply quiet_bind; [apply quiet_gets|intros ?]. apply quiet_bind; [apply quiet_clock|intros ?].
  apply quiet_modify. intros e. split_and!; try done. intros x. apply apply_runtime_latest.
Qed.
Lemma quiet_project symbol : runs_quietly (project_health health_policy mono symbol).
Proof. apply quiet_runtime_update, quiet_gets. Qed.

(** ** One symbol *)
Definition no_output (symbol : string) (a : SymbolTickResult) : Prop :=
  tr_symbol a = symbol /\ tr_accepted a = [] /\ tr_alerts a = [] /\ tr_updates a = [].

Lemma tick_result_runs symbol lb f (e : Eng) : exists a, tick_result symbol lb f empty_result e = (Ok a, e) /\ no_output symbol a /\
  tr_level_after a = get_level (en_scheduler e) symbol.
Proof. by eexists. Qed.

Lemma stale_runs symbol lb (e : Eng) : exists a e', stale_result health_policy mono symbol lb e = (Ok a, e') /\ quiet e e' /\ no_output symbol a /\
  tr_level_after a = get_level (en_scheduler e') symbol.
Proof.
  unfold stale_result. destruct (quiet_project symbol e) as (u & e1 & E1 & Q1). unfold mbind, step_bind at 1. rewrite E1.
  unfold state_features, gets. by eexists _, e1.
Qed.

Lemma compute_head b f : compute feature_policy b = Ok (Some f) ->
  exists latest, rb_latest b = Some latest /\ ft_symbol f = sn_symbol latest /\ ft_market_ts f = sn_market_ts latest.
Proof.
  unfold compute. destruct (rb_latest b) as [latest|]; [|done]. intros H. exists latest. split; [done|].
  apply bind_ok in H as ([href lref] & _ & H). repeat (apply bind_ok in H as (? & _ & H)).
  repeat match goal with x : _ * _ |- _ => destruct x end. repeat (apply bind_ok in H as (? & _ & H)). by simplify_eq.
Qed.

(** What a processed symbol's result says. *)
Definition result_ok (fetched : gset string) (symbol : string) (a : SymbolTickResult) : Prop :=
  tr_symbol a = symbol /\ tr_alerts a ⊆ tr_updates a /\ Forall (fun s => sig_symbol s = symbol) (tr_updates a) /\
  (symbol ∉ fetched -> no_output symbol a).

(** The level a row reports was the symbol's at some point between the two engines. *)
Definition leveled (e e' : Eng) (a : SymbolTickResult) : Prop :=
  exists s, sched_steps scheduler_policy mono (en_scheduler e) s /\ sched_steps scheduler_policy mono s (en_scheduler e') /\
    tr_level_after a = get_level s (tr_symbol a).

Lemma leveled_mono e0 e e' e1 a : moved e0 e -> moved e' e1 -> leveled e e' a -> leveled e0 e1 a.
Proof. intros H0 H1 (s & A & B & E). exists s. split; [by etrans|]. split; [by etrans|done]. Qed.
Lemma quiet_moved e e' : quiet e e' -> moved e e'.
Proof. by intros (_&_&_&_&_&_&H&_). Qed.
Lemma calm_moved e e' : calm e e' -> moved e e'.
Proof. by intros (_&_&_&_&_&H&_). Qed.

Lemma no_output_ok fetched symbol a : no_output symbol a -> result_ok fetched symbol a.
Proof. intros (Hs & Ha & Hal & Hu). split; [done|]. rewrite Hal, Hu. split; [done|]. split; [constructor|by split]. Qed.

Lemma leveled_now e e' symbol a : quiet e e' -> no_output symbol a -> tr_level_after a = get_level (en_scheduler e') symbol -> leveled e e' a.
Proof. intros Q (Hs & _) Lv. exists (en_scheduler e'). split; [by apply quiet_moved|]. split; [done|]. by rewrite Hs. Qed.

Lemma process_symbol_runs symbol e : engine_wf e ->
  exists a e', process_symbol feature_policy warming scheduler_policy health_policy run_pipeline mono symbol e = (Ok a, e') /\
    calm e e' /\ result_ok (en_fetched e) symbol a /\ leveled e e' a /\ (symbol ∉ en_fetched e -> quiet e e').
Proof.
  intros W. unfold process_symbol. unfold mbind at 1, step_bind at 1, level_of at 1, gets at 1. cbn beta iota.
  set (lb := get_level (en_scheduler e) symbol). unfold try_except, process_body.
  unfold mbind at 1, step_bind at 1, gets at 1. cbn beta iota.
  destruct (bool_decide (symbol ∈ en_fetched e)) eqn:Ef; cbn [negb].
  2:{ destruct (stale_runs symbol lb e) as (a & e' & -> & Q & N & Lv). exists a, e'. split; [done|].
      split; [by apply quiet_calm; [apply W|]|]. split; [by apply no_output_ok|]. split; [by eapply leveled_now|done]. }
  apply bool_decide_eq_true in Ef. unfold mbind at 1, step_bind at 1, gets at 1. cbn beta iota.
  destruct (sb_buffer (en_buffers e) symbol) as [b|] eqn:Eb.
  2:{ destruct (quiet_project symbol e) as (u & e1 & E1 & Q1). unfold mbind at 1, step_bind at 1. rewrite E1.
      destruct (tick_result_runs symbol lb None e1) as (a & -> & N & Lv). exists a, e1. split; [done|].
      split; [by apply quiet_calm; [apply W|]|]. split; [by apply no_output_ok|]. split; [by eapply leveled_now|done]. }
  unfold mbind at 1, step_bind at 1, lift at 1. cbn beta iota.
  destruct (compute feature_policy b) as [features|ex] eqn:Ec.
  2:{ destruct (stale_runs symbol lb e) as (a & e' & -> & Q & N & Lv). exists a, e'. split; [done|].
      split; [by apply quiet_calm; [apply W|]|]. split; [by apply no_output_ok|]. split; [by eapply leveled_now|done]. }
  cbn beta iota. unfold mbind at 1, step_bind at 1, state_features, gets at 1. cbn beta iota.
  set (previous := en_states e !! symbol ≫= ms_features).
  assert (R : exists r e1, (match features with None => mret empty_result | Some current => process_pipeline run_pipeline previous current end) e = (Ok r, e1) /\
    calm e e1 /\ Forall (fun s => sig_symbol s = symbol) (pr_signal_updates r) /\ pr_alert_candidates r ⊆ pr_signal_updates r).
  { destruct features as [current|].
    - destruct (compute_head b current Ec) as (latest & El & Es & Et).
      destruct (bw_buffers _ (ew_buffers _ W) symbol b Eb) as (_ & Hok & Hsym). unfold buffer_ok in Hok. rewrite Forall_forall in Hok, Hsym.
      pose proof (latest_in _ _ El) as Hin. unfold process_pipeline.
      destruct (pipe_runs (en_pipeline e) (en_telemetry e) previous current (ew_pipeline _ W)) as (r & p' & t' & -> & Wp & Hu & Ha).
      { rewrite Et. apply (so_finite _ (Hok _ Hin)). }
      exists r, (set_pipeline p' t' e). split; [done|]. split; [by split_and!|]. rewrite Es, (Hsym _ Hin) in Hu. done.
    - exists empty_result, e. split; [done|]. split; [apply quiet_calm; [apply W|done]|]. split; [constructor|done]. }
  destruct R as (r & e1 & E1 & C1 & Hu & Ha). unfold mbind at 1, step_bind at 1. rewrite E1. cbn zeta.
  set (level := lr_level _). destruct (quiet_scheduler_set symbol level e1) as (u2 & e2 & E2 & Q2).
  unfold mbind at 1, step_bind at 1. rewrite E2. unfold mbind at 1, step_bind at 1, level_of at 1, gets at 1. cbn beta iota.
  destruct (quiet_runtime_update symbol (mret (get_level (en_scheduler e2) symbol)) (Some features) (Some (pr_signal_updates r)) (quiet_ret _) e2)
    as (u3 & e3 & E3 & Q3).
  unfold mbind at 1, step_bind at 1. rewrite E3. eexists _, e3. split; [done|]. split.
  { eapply calm_trans; [exact C1|]. apply quiet_calm; [apply C1|]. by eapply quiet_trans. }
  split; [by split_and!|]. split; [|done]. exists (en_scheduler e2). split; [|by split; [apply quiet_moved|]].
  eapply moved_trans; [by apply calm_moved|by apply quiet_moved].
Qed.

Lemma process_all_runs l : forall e, engine_wf e ->
  exists rs e', each (process_symbol feature_policy warming scheduler_policy health_policy run_pipeline mono) l e = (Ok rs, e') /\
    calm e e' /\ Forall2 (result_ok (en_fetched e)) l rs /\ Forall (leveled e e') rs /\ ((forall x, x ∈ l -> x ∉ en_fetched e) -> quiet e e').
Proof.
  induction l as [|x l IH]; intros e W; cbn [each].
  { exists [], e. split; [done|]. split; [apply quiet_calm; [apply W|done]|]. split; [done|]. by split. }
  destruct (process_symbol_runs x e W) as (a & e1 & E1 & C1 & R1 & L1 & Q1). pose proof (calm_wf _ _ W C1) as W1.
  destruct (IH e1 W1) as (rs & e2 & E2 & C2 & R2 & L2 & Q2). pose proof C1 as (_ & _ & Hf & _).
  exists (a :: rs), e2. unfold mbind at 1, step_bind at 1. rewrite E1. unfold mbind at 1, step_bind at 1. rewrite E2.
  split; [done|]. split; [by eapply calm_trans|]. rewrite Hf in R2, Q2. split; [by constructor|]. split.
  { constructor; [eapply leveled_mono; [| |exact L1]; [done|by apply calm_moved]|]. eapply Forall_impl; [exact L2|].
    intros b. apply leveled_mono; [by apply calm_moved|done]. }
  intros Hx. eapply quiet_trans; [apply Q1, Hx; by left|]. apply Q2. intros y Hy. apply Hx. by right.
Qed.

(** ** Ingestion *)
(** How a fetch may change the engine: only the symbols of [due] get quotes, and no
    symbol's newest quote goes back in time. *)
Record evolves (due : list string) (e e' : Eng) : Prop := {
  ev_wf : engine_wf e';
  ev_watchlist : en_watchlist e' = en_watchlist e;
  ev_others : forall x, x ∉ due -> sb_buffers (en_buffers e') !! x = sb_buffers (en_buffers e) !! x;
  ev_forward : forall x old, sb_latest (en_buffers e) x = Some old ->
    exists new, sb_latest (en_buffers e') x = Some new /\ ts old <= ts new;
  ev_pipeline : en_pipeline e' = en_pipeline e;
  ev_moved : moved e e';
  ev_fetched : forall x, x ∈ en_fetched e' -> x ∈ en_fetched e \/ x ∈ due
}.

Lemma evolves_quiet due e e' : engine_wf e -> quiet e e' -> evolves due e e'.
Proof.
  intros W Q. pose proof Q as (Hw & Hb & Hp & Hf & _ & _ & St & _). split; [by eapply quiet_wf|done|by rewrite Hb| |done|done|rewrite Hf; auto].
  intros x old. rewrite Hb. intros H. exists old. split; [done|lia].
Qed.
Lemma evolves_trans due a b c : evolves due a b -> evolves due b c -> evolves due a c.
Proof.
  intros [W1 A1 B1 C1 D1 S1 F1] [W2 A2 B2 C2 D2 S2 F2]. split; [done|congruence| | |congruence|by eapply moved_trans|].
  - intros x Hx. by rewrite B2, B1.
  - intros x old H. destruct (C1 x old H) as (m & Hm & ?). destruct (C2 x m Hm) as (n & ? & ?). exists n. split; [done|lia].
  - intros x Hx. destruct (F2 x Hx) as [H|H]; [apply F1 in H; tauto|by right].
Qed.
Lemma evolves_weaken due due' a b : (forall x, x ∈ due -> x ∈ due') -> evolves due a b -> evolves due' a b.
Proof. intros H [W A B C D T G]. split; try done; [intros x Hx; apply B; naive_solver|intros x Hx; destruct (G x Hx); auto]. Qed.

Lemma sb_append_runs sb s : buffers_wf sb -> snapshot_ok s ->
  (forall l, sb_latest sb (sn_symbol s) = Some l -> ts l <= ts s) ->
  exists sb', sb_append sb s = Ok sb' /\ buffers_wf sb' /\ sb_latest sb' (sn_symbol s) = Some s /\
    (forall x, x <> sn_symbol s -> sb_buffers sb' !! x = sb_buffers sb !! x).
Proof.
  intros [[Fr Hr] Hm Hb] Hok Hle. pose proof (sf_market_ts _ (so_finite _ Hok)) as Ft.
  assert (B : exists b sb1, sb_buffer_for sb (sn_symbol s) = Ok (b, sb1) /\ sb_retention sb1 = sb_retention sb /\ sb_max_size sb1 = sb_max_size sb /\
    rb_wf b /\ buffer_ok b /\ Forall (fun x => sn_symbol x = sn_symbol s) (rb_items b) /\
    (forall l, rb_latest b = Some l -> sb_latest sb (sn_symbol s) = Some l) /\
    (forall x, x <> sn_symbol s -> sb_buffers sb1 !! x = sb_buffers sb !! x)).
  { unfold sb_buffer_for, sb_latest. destruct (sb_buffers sb !! sn_symbol s) as [b|] eqn:Eb.
    - destruct (Hb _ _ Eb) as (H1 & H2 & H3). exists b, sb. by split_and!.
    - destruct (rb_init (sb_retention sb) (sb_max_size sb)) as [b|ex] eqn:Ei.
      + cbn. eexists b, _. split; [done|]. pose proof (rb_wf_init _ _ _ Fr Ei) as Wb.
        assert (En : rb_items b = []) by (unfold rb_init in Ei; destruct (fle _ _); [done|]; destruct (_ <=? _); [done|]; by simplify_eq).
        cbn. split; [done|]. split; [done|]. split; [done|]. unfold buffer_ok, rb_latest. rewrite En. split; [constructor|]. split; [constructor|].
        split; [done|]. intros x Hx. by rewrite lookup_insert_ne.
      + unfold rb_init in Ei. rewrite fle_val in Ei by auto with fl. rewrite fval_f0 in Ei.
        destruct (Z.leb_spec (fval (sb_retention sb)) 0); [lia|]. destruct (Z.leb_spec (sb_max_size sb) 0); [lia|done]. }
  destruct B as (b & sb1 & E & R1 & R2 & Wb & Ob & Sb & Lb & Hoth). unfold sb_append. rewrite E. cbn [mbind result_bind].
  assert (Hall : forall x, x ∈ rb_items b -> ts x <= ts s).
  { intros x Hx. destruct (rb_latest b) as [l|] eqn:El.
    - pose proof (rb_latest_max b l x Wb El Hx). pose proof (Hle l (Lb l eq_refl)). lia.
    - unfold rb_latest in El. apply last_None in El. rewrite El in Hx. by apply elem_of_nil in Hx. }
  eexists. split; [done|]. split; [|split].
  - split; cbn; [by rewrite R1|by rewrite R2|]. intros sym b'. destruct (decide (sn_symbol s = sym)) as [<-|Hd].
    + rewrite lookup_insert_eq. intros [= <-]. split; [by apply rb_wf_append|]. unfold buffer_ok in *. rewrite Forall_forall in Ob, Sb |- *.
      rewrite Forall_forall. split; intros x Hx; apply rb_append_sub in Hx as [->|[Hx _]]; auto.
    + rewrite lookup_insert_ne by done. rewrite Hoth by done. apply Hb.
  - unfold sb_latest. cbn. rewrite lookup_insert_eq. cbn. by apply rb_latest_append.
  - intros x Hx. cbn. rewrite lookup_insert_ne by done. by apply Hoth.
Qed.

Lemma flt_ts_false (s l : MarketSnapshot) : snapshot_ok s -> ts_fin l -> flt (sn_market_ts s) (sn_market_ts l) = false -> ts l <= ts s.
Proof.
  intros Hs Hl. pose proof (sf_market_ts _ (so_finite _ Hs)). rewrite flt_val by auto with fl. intros ?%Z.ltb_ge. done.
Qed.

Lemma latest_fin sb symbol l : buffers_wf sb -> sb_latest sb symbol = Some l -> ts_fin l.
Proof.
  intros W. unfold sb_latest. destruct (sb_buffers sb !! symbol) as [b|] eqn:Eb; [|done]. cbn. intros El.
  destruct (bw_buffers _ W _ _ Eb) as ([_ _ Hf _ _ _] & _). rewrite Forall_forall in Hf. by apply Hf, latest_in.
Qed.

Lemma update_latest_state st s x :
  (update_latest st s !! x ≫= ms_latest) = if decide (sn_symbol s = x) then Some s else st !! x ≫= ms_latest.
Proof.
  unfold update_latest. destruct (decide (sn_symbol s = x)) as [<-|]; [by rewrite lookup_insert_eq|by rewrite lookup_insert_ne].
Qed.

Lemma bump_runs f (e : Eng) : bump f e = (Ok tt, set_diagnostics (f (en_diagnostics e)) e).
Proof. done. Qed.

Lemma bump_if_runs b f (e : Eng) : exists d, bump_if b f e = (Ok tt, set_diagnostics d e).
Proof. destruct b; [by eexists|]. exists (en_diagnostics e). by destruct e. Qed.

Lemma ingest_runs symbol s e : engine_wf e -> snapshot_ok s -> sn_symbol s = symbol ->
  exists e', ingest_snapshot health_policy mono symbol s e = (Ok tt, e') /\ evolves [symbol] e e'.
Proof.
  intros W Hok Hs. unfold ingest_snapshot.
  destruct (quiet_health_peek symbol e) as (prev & e1 & E1 & Q1). pose proof (quiet_wf _ _ W Q1) as W1.
  unfold mbind at 1, step_bind at 1. rewrite E1. unfold mbind at 1, step_bind at 1, gets at 1. cbn beta iota.
  assert (Ev1 : evolves [symbol] e e1) by by apply evolves_quiet.
  destruct (from_option _ false _) eqn:Eo.
  - unfold mbind at 1, step_bind at 1. rewrite bump_runs. set (e2 := set_diagnostics (count_out_of_order (en_diagnostics e1)) e1).
    destruct (quiet_health_observe symbol None true e2) as ([] & e3 & E3 & Q3). exists e3. split; [done|].
    eapply evolves_trans; [exact Ev1|]. assert (W2 : engine_wf e2) by (destruct W1 as [B Pw Vw L]; by split).
    eapply evolves_trans; [|by apply evolves_quiet].
    split; [done|done|done| |done|done|by left]. intros x old H. exists old. split; [done|lia].
  - destruct (bump_if_runs (from_option (fun l => feq (sn_market_ts s) (sn_market_ts l)) false (sb_latest (en_buffers e1) symbol)) count_duplicate e1)
      as (d2 & Ed). unfold mbind at 1, step_bind at 1. rewrite Ed. set (e2 := set_diagnostics d2 e1).
    unfold mbind at 1, step_bind at 1, gets at 1. cbn beta iota. change (en_buffers e2) with (en_buffers e1).
    destruct (sb_append_runs (en_buffers e1) s (ew_buffers _ W1) Hok) as (sb' & Ea & Wsb & Hl & Hoth).
    { rewrite Hs. intros l El. rewrite El in Eo. cbn in Eo. apply flt_ts_false; [done| |done]. eapply latest_fin; [apply W1|exact El]. }
    unfold mbind at 1, step_bind at 1, lift at 1. rewrite Ea. do 2 (unfold mbind at 1, step_bind at 1, modify at 1). cbn beta iota zeta.
    set (e4 := set_states (update_latest (en_states (set_buffers sb' e2)) s) (set_buffers sb' e2)).
    assert (W4 : engine_wf e4).
    { split; [done|apply W1|apply W1|]. intros x. unfold latest_state, e4. cbn [en_states set_states en_buffers set_buffers].
      rewrite update_latest_state. destruct (decide (sn_symbol s = x)) as [<-|Hd]; [by rewrite Hl|].
      unfold sb_latest. rewrite Hoth by done. apply (ew_latest _ W1). }
    assert (Ev4 : evolves [symbol] e1 e4).
    { split; [done|done| | |done|done|].
      - intros x Hx. cbn. apply Hoth. rewrite Hs. intros ->. apply Hx. by left.
      - intros x old Ho. cbn. destruct (decide (x = sn_symbol s)) as [->|Hd].
        + exists s. split; [done|]. rewrite Hs in Ho. rewrite Ho in Eo. cbn in Eo. apply flt_ts_false; [done| |done].
          eapply latest_fin; [apply W1|exact Ho].
        + exists old. split; [|lia]. unfold sb_latest. by rewrite Hoth.
      - intros x. by left. }
    destruct (quiet_health_observe symbol (Some s) false e4) as ([] & e5 & E5 & Q5). pose proof (quiet_wf _ _ W4 Q5) as W5.
    unfold mbind at 1, step_bind at 1. rewrite E5.
    destruct (quiet_health_peek symbol e5) as (after & e6 & E6 & Q6). pose proof (quiet_wf _ _ W5 Q6) as W6.
    unfold mbind at 1, step_bind at 1. rewrite E6. destruct (bump_if_runs (recovered prev after) count_recovery e6) as (d & Er).
    unfold mbind at 1, step_bind at 1. rewrite Er. eexists. split; [done|].
    eapply evolves_trans; [exact Ev1|]. eapply evolves_trans; [exact Ev4|]. eapply evolves_trans; [by apply evolves_quiet|].
    eapply evolves_trans; [by apply evolves_quiet|]. destruct W6 as [B6 P6 V6 L6].
    split; [by split|done|done| |done|done|].
    + intros x old H. exists old. split; [done|lia].
    + intros x Hx. cbn in Hx. apply elem_of_union in Hx as [Hx|Hx]; [right; set_solver|by left].
Qed.

(** ** Fetching *)
Lemma found_quotes_spec snaps symbol s : found_quotes snaps !! symbol = Some s -> sn_symbol s = symbol /\ s ∈ snaps.
Proof.
  unfold found_quotes. assert (G : forall d : gmap string MarketSnapshot,
    foldl (fun d s => <[sn_symbol s := s]> d) d snaps !! symbol = Some s -> (sn_symbol s = symbol /\ s ∈ snaps) \/ d !! symbol = Some s).
  { induction snaps as [|x snaps IH]; intros d; cbn [foldl]; [by right|]. intros [[? ?]|H]%IH; [left; split; [done|by right]|].
    apply lookup_insert_Some in H as [[<- <-]|[_ H]]; [left; split; [done|by left]|by right]. }
  intros H%G. destruct H as [?|H]; [done|]. by rewrite lookup_empty in H.
Qed.

Lemma each_evolves {B} (D : list string) (f : string -> Step Eng B) l :
  (forall x e, x ∈ l -> engine_wf e -> exists a e', f x e = (Ok a, e') /\ evolves D e e') ->
  forall e, engine_wf e -> exists rs e', each f l e = (Ok rs, e') /\ evolves D e e'.
Proof.
  intros Hf. induction l as [|x l IH]; intros e W; cbn [each]; [by exists [], e; split; [|apply evolves_quiet]|].
  destruct (Hf x e ltac:(by left) W) as (a & e1 & E1 & V1).
  destruct (IH ltac:(intros; apply Hf; [by right|done]) e1 (ev_wf _ _ _ V1)) as (rs & e2 & E2 & V2).
  exists (a :: rs), e2. unfold mbind at 1, step_bind at 1. rewrite E1. unfold mbind at 1, step_bind at 1. rewrite E2.
  split; [done|by eapply evolves_trans].
Qed.

Lemma fetch_runs due e : engine_wf e ->
  exists e', fetch_due fetch_quotes source_exhausted health_policy mono due e = (Ok tt, e') /\ evolves due e e'.
Proof.
  intros W. unfold fetch_due. unfold mbind at 1, step_bind at 1, gets at 1. cbn beta iota.
  destruct (source_exhausted (en_provider e)).
  - match goal with |- context [each ?f due] => assert (Q : runs_quietly (each f due)) end.
    { apply quiet_each. intros x. apply quiet_bind; [apply quiet_keep_alive|intros _; apply quiet_mark]. }
    destruct (Q e) as (rs & e1 & E1 & Q1). unfold mbind at 1, step_bind at 1. rewrite E1. exists e1. split; [done|by apply evolves_quiet].
  - unfold mbind at 1, step_bind at 1, state at 1. destruct (fetch_quotes (en_provider e) due) as [r p'] eqn:Ef. cbn beta iota.
    destruct (prov_fetch _ _ _ _ (ew_provider _ W) Ef) as [Wp Hp].
    set (e1 := set_provider p' e). assert (W1 : engine_wf e1) by (destruct W as [B Pw Vw L]; by split).
    assert (V1 : evolves due e e1) by (split; try done; [intros x old H; exists old; split; [done|lia]|by left]).
    assert (Hb : forall f, evolves due e1 (set_diagnostics (f (en_diagnostics e1)) e1)).
    { intros f. destruct W1 as [B Pw Vw L]. split; [by split|done|done| |done|done|by left]. intros x old H. exists old. split; [done|lia]. }
    destruct r as [snaps|ex]; unfold mbind at 1, step_bind at 1; rewrite bump_runs.
    + set (e2 := set_diagnostics (note_error None (en_diagnostics e1)) e1). specialize (Hb (note_error None)). fold e2 in Hb.
      pose proof (Hp _ eq_refl) as Hok. rewrite Forall_forall in Hok.
      match goal with |- context [each ?f due] => destruct (each_evolves due f due) with (e := e2) as (rs & e3 & E3 & V3) end.
      * intros x e0 Hx W0. destruct (found_quotes snaps !! x) as [s|] eqn:Es.
        -- destruct (found_quotes_spec _ _ _ Es) as [Hs Hin]. destruct (ingest_runs x s e0 W0 (Hok s Hin) Hs) as (e4 & E4 & V4).
           destruct (quiet_mark x e4) as (u & e5 & E5 & Q5). exists u, e5. unfold mbind, step_bind. rewrite E4, E5. split; [done|].
           eapply evolves_trans; [eapply evolves_weaken; [|exact V4]; by intros y ->%list_elem_of_singleton|]. apply evolves_quiet; [apply V4|done].
        -- assert (Q : runs_quietly (_ ← health_observe health_policy mono x None true; scheduler_mark mono x)).
           { apply quiet_bind; [apply quiet_health_observe|intros _; apply quiet_mark]. }
           destruct (Q e0) as (u & e5 & E5 & Q5). exists u, e5. split; [exact E5|by apply evolves_quiet].
      * apply Hb.
      * unfold mbind at 1, step_bind at 1. rewrite E3. exists e3. split; [done|]. eapply evolves_trans; [exact V1|]. by eapply evolves_trans.
    + set (e2 := set_diagnostics (note_error (Some (exn_name ex)) (en_diagnostics e1)) e1). specialize (Hb (note_error (Some (exn_name ex)))). fold e2 in Hb.
      match goal with |- context [each ?f due] => assert (Q : runs_quietly (each f due)) end.
      { apply quiet_each. intros x. apply quiet_bind; [apply quiet_health_observe|intros _; apply quiet_mark]. }
      destruct (Q e2) as (rs & e3 & E3 & Q3). unfold mbind at 1, step_bind at 1. rewrite E3. exists e3. split; [done|].
      eapply evolves_trans; [exact V1|]. eapply evolves_trans; [exact Hb|]. apply evolves_quiet; [apply Hb|done].
Qed.

(** A failed fetch reaches neither buffers nor pipeline. *)
Lemma fetch_failure due e ex p' : source_exhausted (en_provider e) = false -> fetch_quotes (en_provider e) due = (Err ex, p') ->
  exists e', fetch_due fetch_quotes source_exhausted health_policy mono due e = (Ok tt, e') /\
    quiet (set_diagnostics (note_error (Some (exn_name ex)) (en_diagnostics e)) (set_provider p' e)) e'.
Proof.
  intros Hx Ef. unfold fetch_due. unfold mbind at 1, step_bind at 1, gets at 1. cbn beta iota. rewrite Hx.
  unfold mbind at 1, step_bind at 1, state at 1. rewrite Ef. cbn beta iota. unfold mbind at 1, step_bind at 1. rewrite bump_runs.
  set (e2 := set_diagnostics _ (set_provider p' e)).
  match goal with |- context [each ?f due] => assert (Q : runs_quietly (each f due)) end.
  { apply quiet_each. intros x. apply quiet_bind; [apply quiet_health_observe|intros _; apply quiet_mark]. }
  destruct (Q e2) as (rs & e3 & E3 & Q3). unfold mbind at 1, step_bind at 1. rewrite E3. exists e3. by split.
Qed.

(** ** A tick *)
Definition tick_of := tick fetch_quotes source_exhausted observe_tick feature_policy warming scheduler_policy health_policy run_pipeline mono.

Definition due_now (e : Eng) : list string :=
  due_symbols scheduler_policy (en_scheduler e) (enabled_symbols (en_watchlist e)) (mono (en_mono e)).

Lemma quiet_notify rs : runs_quietly (notify observe_tick health_policy mono rs).
Proof.
  apply quiet_bind; [apply quiet_gets|]. intros [i|]; [|apply quiet_ret].
  apply quiet_bind; [apply quiet_gets|]. intros active.
  apply quiet_bind; [apply quiet_each; intros x; apply quiet_health_status|]. intros statuses.
  apply quiet_modify. intros e. by destruct (observe_tick i (en_telemetry e) rs active statuses).
Qed.

(** The engine at the start of the fetch. *)
Definition started (e : Eng) : Eng := set_fetched ∅ (read_clock mono e).2.

Lemma started_quiet e : engine_wf e -> engine_wf (started e) /\ en_buffers (started e) = en_buffers e /\ en_pipeline (started e) = en_pipeline e /\
  en_watchlist (started e) = en_watchlist e /\ en_fetched (started e) = ∅ /\ en_provider (started e) = en_provider e.
Proof. intros [B Pw Vw L]. split; [by split|done]. Qed.

(** From the fetched engine to the end of the tick. *)
Lemma tick_after_fetch e e1 : engine_wf e1 ->
  (if bool_decide (due_now e = []) then mret tt else fetch_due fetch_quotes source_exhausted health_policy mono (due_now e)) (started e) = (Ok tt, e1) ->
  exists rs e', tick_of e = (Ok rs, e') /\ calm e1 e' /\ Forall2 (result_ok (en_fetched e1)) (due_now e) rs /\ Forall (leveled e1 e') rs /\
    ((forall x, x ∈ due_now e -> x ∉ en_fetched e1) -> quiet e1 e').
Proof.
  intros W1 Ef. unfold tick_of, tick. unfold mbind at 1, step_bind at 1, gets at 1. cbn beta iota.
  unfold mbind at 1, step_bind at 1, read_clock at 1. cbn beta iota. unfold mbind at 1, step_bind at 1, gets at 1. cbn beta iota.
  unfold mbind at 1, step_bind at 1, modify at 1. cbn beta iota.
  change (set_fetched ∅ _) with (started e). change (due_symbols _ _ _ _) with (due_now e).
  unfold mbind at 1, step_bind at 1. rewrite Ef.
  destruct (process_all_runs (due_now e) e1 W1) as (rs & e2 & E2 & C2 & R2 & L2 & Q2). unfold mbind at 1, step_bind at 1. rewrite E2.
  set (others := filter _ _).
  assert (Q : runs_quietly (each (project_health health_policy mono) others)) by (apply quiet_each; intros x; apply quiet_project).
  destruct (Q e2) as (us & e3 & E3 & Q3). unfold mbind at 1, step_bind at 1. rewrite E3. destruct (quiet_notify rs e3) as ([] & e4 & E4 & Qf). unfold mbind at 1, step_bind at 1. rewrite E4.
  exists rs, e4. split; [done|]. split; [|split; [done|]; split].
  - eapply calm_trans; [exact C2|]. apply quiet_calm; [apply C2|]. by eapply quiet_trans.
  - eapply Forall_impl; [exact L2|]. intros a. apply leveled_mono; [done|]. apply (moved_trans _ e3); by apply quiet_moved.
  - intros Hx. eapply quiet_trans; [by apply Q2|]. by eapply quiet_trans.
Qed.

Lemma tick_fetches e : engine_wf e ->
  exists e1, (if bool_decide (due_now e = []) then mret tt else fetch_due fetch_quotes source_exhausted health_policy mono (due_now e)) (started e)
      = (Ok tt, e1) /\ evolves (due_now e) (started e) e1.
Proof.
  intros W. destruct (started_quiet e W) as (W0 & _).
  destruct (bool_decide (due_now e = [])); [exists (started e); split; [done|by apply evolves_quiet]|]. by apply fetch_runs.
Qed.

Lemma tick_runs e : engine_wf e ->
  exists rs e', tick_of e = (Ok rs, e') /\ engine_wf e' /\ en_watchlist e' = en_watchlist e /\ moved e e' /\
    tr_symbol <$> rs = due_now e /\ Forall (leveled e e') rs.
Proof.
  intros W. destruct (started_quiet e W) as (_ & _ & _ & Hw & _). destruct (tick_fetches e W) as (e1 & Ef & V).
  destruct (tick_after_fetch e e1 (ev_wf _ _ _ V) Ef) as (rs & e' & Et & C & R & L & _). exists rs, e'. split; [exact Et|].
  split; [by eapply calm_wf; [apply V|]|]. destruct C as (Cw & _ & _ & _ & _ & Cs & _). split; [by rewrite Cw, (ev_watchlist _ _ _ V)|].
  assert (M : moved e e1) by exact (ev_moved _ _ _ V). split; [by eapply moved_trans|]. split.
  2:{ eapply Forall_impl; [exact L|]. intros a. by apply leveled_mono. }
  clear -R. induction R as [|x a l rs Ha R IH]; [done|]. cbn. destruct Ha as [-> _]. by f_equal.
Qed.
End invariant.

(** ** The pipeline meets its contract *)
Section contract.
Context {S F : Type} (collect : Recorder S TelemetryEvent) (tel_ids : nat -> string) (tel_wall : nat -> float).
Context (event_ids signal_ids : nat -> string) (wall sig_wall alert_mono : nat -> float) (lookback_s cooldown_s : float).

(** [self.pipeline.process], with the engine's telemetry runtime. *)
Definition engine_pipeline (p : Pipeline) (t : TelemetryRuntime S F) (previous : option MarketFeatures) (current : MarketFeatures)
    : result (SignalPipelineResult * Pipeline * TelemetryRuntime S F) :=
  '(r, p, t') ← process collect tel_ids tel_wall event_ids signal_ids wall sig_wall alert_mono lookback_s cooldown_s p (Some t) previous current;
  Ok (r, p, default t t').

Lemma engine_pipeline_contract : Inj (=) (=) event_ids -> Inj (=) (=) signal_ids -> fin lookback_s -> 0 <= fval lookback_s ->
  PipelineContract engine_pipeline.
Proof.
  intros Hev Hsig Fl Hl. exists (pipeline_wf event_ids signal_ids). intros p t previous current W Ft.
  destruct (process_silent_spec event_ids signal_ids wall sig_wall alert_mono lookback_s cooldown_s Hev Hsig Fl Hl p previous current W Ft)
    as (events & n & r & p' & produced & _ & Ep & W' & _ & [_ _ [Hu _] _ [Hp _] _ [Ha _]] & _).
  destruct (process_of_silent collect tel_ids tel_wall _ _ _ _ _ _ _ p (Some t) _ _ _ _ Ep) as (t' & E).
  exists r, p', (default t t'). unfold engine_pipeline. rewrite E. split; [done|]. split; [done|]. split; [done|].
  intros s Hs. apply Hp. by eapply elem_of_sublist.
Defined.
End contract.

(** ** Properties *)

(** C1: a tick always completes and keeps the engine's invariant, for any provider whose
    quotes passed the normalizer: exactly the due symbols get a result, in order; every
    result speaks of its own symbol and alerts only on its live signals; quotes reach only
    the buffers of due symbols, never make a newest quote older, and the state store's
    [latest] is always the buffer's newest. *)
Theorem tick_spec {P S F I} (fetch : P -> list string -> result (list MarketSnapshot) * P) (exhausted : P -> bool)
    (observer : I -> TelemetryRuntime S F -> EngineTickResult -> gset string -> list FeedStatus -> I * TelemetryRuntime S F) feature_policy warming sched health
    run `{!PipelineContract run} `{!ProviderContract fetch} (mono : nat -> float) (e : Engine P S F I) :
  engine_wf fetch run e ->
  exists rs e', tick_of fetch exhausted observer feature_policy warming sched health run mono e = (Ok rs, e') /\
    engine_wf fetch run e' /\ en_watchlist e' = en_watchlist e /\
    tr_symbol <$> rs = due_now sched mono e /\
    Forall (fun a => tr_alerts a ⊆ tr_updates a /\ Forall (fun s => sig_symbol s = tr_symbol a) (tr_updates a)) rs /\
    (forall x, x ∉ due_now sched mono e -> sb_buffers (en_buffers e') !! x = sb_buffers (en_buffers e) !! x) /\
    (forall x old, sb_latest (en_buffers e) x = Some old -> exists new, sb_latest (en_buffers e') x = Some new /\ ts old <= ts new) /\
    (forall x, latest_state e' x = sb_latest (en_buffers e') x).
Proof.
  intros W. destruct (started_quiet fetch run mono e W) as (W0 & Hb & Hpl & Hw & Hf & _). set (due := due_now sched mono e).
  pose proof (tick_fetches fetch exhausted sched health run mono e W) as Fe.
  destruct Fe as (e1 & Ef & V). pose proof (ev_wf _ _ _ _ _ _ _ V) as W1.
  destruct (tick_after_fetch fetch exhausted observer feature_policy warming sched health run mono e e1 W1 Ef) as (rs & e' & Et & C & R & _).
  assert (W' : engine_wf fetch run e') by (by eapply calm_wf). destruct C as (Cw & Cb & _). exists rs, e'. split; [exact Et|]. split; [done|].
  split; [by rewrite Cw, (ev_watchlist _ _ _ _ _ _ _ V), Hw|]. split; [|split; [|split; [|split]]].
  - clear -R. fold due in R. induction R as [|x a l rs Ha R IH]; [done|]. cbn. destruct Ha as [-> _]. by f_equal.
  - clear -R. induction R as [|x a l rs (Hs & Ha & Hu & _) R IH]; constructor; [|done]. split; [done|]. by rewrite Hs.
  - intros x Hx. by rewrite Cb, (ev_others _ _ _ _ _ _ _ V x Hx), Hb.
  - intros x old. rewrite <- Hb, Cb. apply (ev_forward _ _ _ _ _ _ _ V).
  - apply (ew_latest _ _ _ W').
Qed.

(** C7: a provider failure is contained: if the fetch raises, the tick still returns one
    result per due symbol, all empty; no buffer, no pipeline state and no latest quote
    changes, and the exception's class name is kept in the diagnostics. *)
Theorem tick_failure {P S F I} (fetch : P -> list string -> result (list MarketSnapshot) * P) (exhausted : P -> bool)
    (observer : I -> TelemetryRuntime S F -> EngineTickResult -> gset string -> list FeedStatus -> I * TelemetryRuntime S F) feature_policy warming sched health
    run `{!PipelineContract run} `{!ProviderContract fetch} (mono : nat -> float) (e : Engine P S F I) ex p' :
  engine_wf fetch run e -> due_now sched mono e <> [] -> exhausted (en_provider e) = false ->
  fetch (en_provider e) (due_now sched mono e) = (Err ex, p') ->
  exists rs e', tick_of fetch exhausted observer feature_policy warming sched health run mono e = (Ok rs, e') /\
    Forall2 no_output (due_now sched mono e) rs /\
    en_buffers e' = en_buffers e /\ en_pipeline e' = en_pipeline e /\
    (forall x, latest_state e' x = latest_state e x) /\
    dg_fetch_error (en_diagnostics e') = Some (exn_name ex).
Proof.
  intros W Hd Hx Ef. destruct (started_quiet fetch run mono e W) as (W0 & Hb & Hpl & Hw & Hf & Hpr).
  destruct (fetch_failure fetch exhausted sched health mono (due_now sched mono e) (started mono e) ex p') as (e1 & E1 & Q1); [done|done|].
  set (e0 := set_diagnostics _ (set_provider p' (started mono e))) in Q1. destruct (prov_fetch _ _ _ _ (ew_provider _ _ _ W) Ef) as [Wp _].
  assert (We : engine_wf fetch run e0) by (destruct W0 as [B Pw Vw L]; by split).
  assert (W1 : engine_wf fetch run e1) by (by eapply quiet_wf).
  destruct (tick_after_fetch fetch exhausted observer feature_policy warming sched health run mono e e1 W1) as (rs & e' & Et & _ & R & _ & Q2).
  { by rewrite bool_decide_false by done. }
  assert (Hno : forall x, x ∈ due_now sched mono e -> x ∉ en_fetched e1).
  { intros x _. destruct Q1 as (_ & _ & _ & -> & _). apply not_elem_of_empty. }
  pose proof (quiet_trans _ _ _ _ _ Q1 (Q2 Hno)) as (Q_w & Q_b & Q_p & Q_f & Q_d & _ & _ & Q_l). exists rs, e'. split; [exact Et|]. split.
  - clear -R Hno. induction R as [|x a l rs (_ & _ & _ & H) R IH]; constructor; [apply H, Hno; by left|].
    apply IH. intros y Hy. apply Hno. by right.
  - split; [done|]. split; [done|]. split; [|by rewrite Q_d]. intros x. by rewrite Q_l.
Qed.

(** ** Witnesses *)
Definition demo_run := engine_pipeline (F := unit) inmemory_record (fun _ => "id") (fun _ => f0) demo_ids demo_ids (fun _ => f0) (fun _ => f0)
  (fun _ => f0) CLUSTER_LOOKBACK_S DEFAULT_COOLDOWN_S.

#[export] Instance demo_contract : PipelineContract demo_run :=
  engine_pipeline_contract inmemory_record (fun _ => "id") (fun _ => f0) demo_ids demo_ids (fun _ => f0) (fun _ => f0) (fun _ => f0)
    CLUSTER_LOOKBACK_S DEFAULT_COOLDOWN_S demo_ids_inj demo_ids_inj (proj1 lookback_fin) (proj2 lookback_fin).

Definition demo_fetch : unit -> list string -> result (list MarketSnapshot) * unit := fun p _ => (Ok [demo_quote], p).
Definition failing_fetch : unit -> list string -> result (list MarketSnapshot) * unit := fun p _ => (Err (ProviderError "ProviderAuthError"), p).
Definition demo_observer (i : unit) (t : TelemetryRuntime (list TelemetryEvent) unit) (_ : EngineTickResult) (_ : gset string) (_ : list FeedStatus) := (i, t).

Definition demo_engine : Engine unit (list TelemetryEvent) unit unit :=
  engine_init (mkWatchlist false 10 false [("600519.SH", mkWatchItem "600519.SH" true); ("000001.SZ", mkWatchItem "000001.SZ" true)] None) tt
    demo_runtime None.

Lemma demo_quote_ok : snapshot_ok demo_quote.
Proof.
  split; [vm_compute; reflexivity|split; by split|apply Z.ltb_lt; vm_compute; reflexivity|apply Z.leb_le; vm_compute; reflexivity|exact I|
    apply Z.leb_le; vm_compute; reflexivity].
Qed.

#[export] Instance demo_provider_contract : ProviderContract demo_fetch.
Proof. exists (fun _ => True). intros p due r p' _ [= <- _]. split; [done|]. intros snaps [= <-]. repeat constructor; apply demo_quote_ok. Defined.
#[export] Instance failing_provider_contract : ProviderContract failing_fetch.
Proof. exists (fun _ => True). by intros p due r p' _ [= <- _]. Defined.

Lemma demo_wf fetch `{!ProviderContract fetch} : prov_wf tt -> engine_wf fetch demo_run demo_engine.
Proof. intros Wp. apply engine_init_wf; [apply pipeline_init_wf|exact Wp]. Qed.

Definition demo_engine_wf : engine_wf demo_fetch demo_run demo_engine := @demo_wf demo_fetch demo_provider_contract I.

Lemma tick_spec_witness : exists rs e',
  tick_of demo_fetch (fun _ => false) demo_observer default_feature_policy default_warming default_scheduler_policy default_health_policy
    demo_run (fun _ => flit 5 0) demo_engine = (Ok rs, e') /\ tr_symbol <$> rs = ["600519.SH"; "000001.SZ"].
Proof.
  destruct (tick_spec demo_fetch (fun _ => false) demo_observer default_feature_policy default_warming default_scheduler_policy
    default_health_policy demo_run (fun _ => flit 5 0) demo_engine demo_engine_wf) as (rs & e' & E & _ & _ & Hs & _).
  exists rs, e'. split; [exact E|]. rewrite Hs. vm_compute. reflexivity.
Defined.

Lemma demo_due : due_now default_scheduler_policy (fun _ => flit 5 0) demo_engine <> [].
Proof. vm_compute. discriminate. Qed.

Lemma tick_failure_witness : exists rs e',
  tick_of failing_fetch (fun _ => false) demo_observer default_feature_policy default_warming default_scheduler_policy default_health_policy
    demo_run (fun _ => flit 5 0) demo_engine = (Ok rs, e') /\ dg_fetch_error (en_diagnostics e') = Some "ProviderAuthError".
Proof.
  destruct (tick_failure failing_fetch (fun _ => false) demo_observer default_feature_policy default_warming default_scheduler_policy
    default_health_policy demo_run (fun _ => flit 5 0) demo_engine (ProviderError "ProviderAuthError") tt (@demo_wf failing_fetch failing_provider_contract I) demo_due eq_refl eq_refl)
    as (rs & e' & E & _ & _ & _ & _ & Hd).
  exists rs, e'. split; [exact E|exact Hd].
Defined.
