(* ===== verification/Providers.v ===== *)
(** * Quote providers (src/market_sentinel/providers/, clock.py)

    The fake, the replay and the Longbridge provider as [fetch_quotes] steps on their state,
    each an instance of the engine's [ProviderContract].  A clock reading is an argument or
    comes from a sequence with a cursor in the state.  The vendor SDK is a sequence of
    answers: what creating the context and what one [quote] call give. *)
From Stdlib Require Import ZArith Lia Ascii String.
From Corelib Require Import SpecFloat.
From stdpp Require Import prelude strings gmap.
From S2P Require Import Prelude PyFloat Domain Normalizer NumberText Json PyText Engine.
Local Open Scope Z_scope.

(** ** clock.py: [FakeClock] *)
Record FakeClock := mkFakeClock { fc_wall : float; fc_mono : float }.
Definition fake_clock : FakeClock := mkFakeClock (flit 1700000000 0) f0.
Definition wall_time (c : FakeClock) : float := fc_wall c.
Definition monotonic_time (c : FakeClock) : float := fc_mono c.
Definition advance (c : FakeClock) (seconds : float) : FakeClock := mkFakeClock (fadd (fc_wall c) seconds) (fadd (fc_mono c) seconds).
Definition set_wall (c : FakeClock) (timestamp : float) : FakeClock := mkFakeClock timestamp (fc_mono c).
Definition advance_wall (c : FakeClock) (seconds : float) : FakeClock := mkFakeClock (fadd (fc_wall c) seconds) (fc_mono c).
Definition advance_monotonic (c : FakeClock) (seconds : float) : FakeClock := mkFakeClock (fc_wall c) (fadd (fc_mono c) seconds).

(** ** fake.py *)
Record FakeProvider := mkFake {
  fp_quotes : gmap string raw_row;
  fp_failed : gset string;
  fp_timeout : bool;
  fp_last_requested : list string;
  fp_clock : nat                          (* readings of the wall clock so far *)
}.

Section fake.
Context (wall : nat -> float).

Definition default_quote (symbol : string) (market_timestamp : float) : raw_row :=
  [("symbol", PyStr symbol); ("price", PyFloat (flit 100 0)); ("open", PyFloat (flit 100 0)); ("high", PyFloat (flit 100 0));
   ("low", PyFloat (flit 100 0)); ("prev_close", PyFloat (flit 100 0)); ("volume", PyFloat f0); ("turnover", PyNone);
   ("market_timestamp", PyFloat market_timestamp)].
Definition fake_init : FakeProvider := mkFake ∅ ∅ false [] 0.
Definition set_quote (p : FakeProvider) (symbol : string) (fields : raw_row) : FakeProvider :=
  let quote := default_quote symbol (wall (fp_clock p)) in
  let quote := foldl (fun q f => od_set f.1 f.2 q) quote fields in
  let quote := od_set "symbol" (PyStr symbol) quote in
  mkFake (<[symbol := quote]> (fp_quotes p)) (fp_failed p) (fp_timeout p) (fp_last_requested p) (1 + fp_clock p).
Definition fail_symbol (p : FakeProvider) (symbol : string) : FakeProvider :=
  mkFake (fp_quotes p) ({[symbol]} ∪ fp_failed p) (fp_timeout p) (fp_last_requested p) (fp_clock p).
Definition set_timeout (p : FakeProvider) (timeout : bool) : FakeProvider :=
  mkFake (fp_quotes p) (fp_failed p) timeout (fp_last_requested p) (fp_clock p).

(** The loop over the symbols; the clock is read for a default quote and for an accepted row. *)
Fixpoint fake_quotes (p : FakeProvider) (symbols : list string) (n : nat) : result (list MarketSnapshot) * nat :=
  match symbols with
  | [] => (Ok [], n)
  | symbol :: symbols =>
      if decide (symbol ∈ fp_failed p) then fake_quotes p symbols n
      else
        let '(raw, n) := match fp_quotes p !! symbol with
                         | Some raw => (raw, n)
                         | None => (default_quote symbol (wall n), S n)
                         end in
        match normalize_snapshot raw (wall n) with
        | Ok s => match fake_quotes p symbols (S n) with (Ok rest, n) => (Ok (s :: rest), n) | (Err e, n) => (Err e, n) end
        | Err (SnapshotValidationError _) => fake_quotes p symbols n
        | Err e => (Err e, n)
        end
  end.
Definition fake_fetch (p : FakeProvider) (symbols : list string) : result (list MarketSnapshot) * FakeProvider :=
  let asked n := mkFake (fp_quotes p) (fp_failed p) (fp_timeout p) symbols n in
  if fp_timeout p then (Err (TimeoutError "provider timeout"), asked (fp_clock p))
  else let '(r, n) := fake_quotes p symbols (fp_clock p) in (r, asked n).
End fake.

(** ** replay.py *)
Record ReplayProvider := mkReplay { rv_ticks : list json; rv_index : nat }.

(** [json.loads] of a line of the fixture. *)
Definition loads_line (limit : nat) (line : string) : result json :=
  match loads limit line with
  | Parsed v => Ok v
  | JSONDecodeError => Err (ValueError "JSONDecodeError")
  | LoadsRaises e => Err e
  end.
(** The non-blank lines of the text, decoded; [lines] is [text.splitlines()]. *)
Definition loads_lines (limit : nat) (lines : list string) : result (list json) :=
  traverse (loads_line limit) (filter (fun line => strip line <> "") lines).
Definition replay_init (limit : nat) (lines : list string) : result ReplayProvider :=
  ticks ← loads_lines limit lines; Ok (mkReplay ticks 0).

Definition source_exhausted (p : ReplayProvider) : bool := (length (rv_ticks p) <=? rv_index p)%nat.

(** Iterating a decoded value, and a row as a mapping.  On a row that is not an object,
    [normalize_snapshot] refuses the first field it lacks and the handler's [raw.get] raises;
    a number or [None] cannot be searched, and a text or list naming every field cannot be indexed.
    A text is iterated by characters: the first of them already raises, so one stands for all. *)
Definition iterate (v : json) : result (list json) :=
  match v with
  | JList l => Ok l
  | JObj ms => Ok (JStr <$> ms.*1)
  | JStr "" => Ok []
  | JStr _ => Ok [JStr "?"]
  | _ => Err TypeError
  end.
Definition as_row (v : json) : result raw_row :=
  match v with
  | JObj ms => Ok ((fun p => (p.1, scalar p.2)) <$> ms)
  | JStr s => if forallb (fun f => contains f s) REQUIRED_FIELDS then Err TypeError else Err AttributeError
  | JList l => if forallb (fun f => existsb (fun v => bool_decide (as_str v = Some f)) l) REQUIRED_FIELDS then Err TypeError else Err AttributeError
  | _ => Err TypeError
  end.

(** [normalize_many(batch, clock)]: the rows before one that is not a mapping are normalized first. *)
Fixpoint normalize_values (rows : list json) (now : float) : result (list MarketSnapshot) :=
  match rows with
  | [] => Ok []
  | v :: rows =>
      raw ← as_row v;
      match normalize_snapshot raw now with
      | Ok s => rest ← normalize_values rows now; Ok (s :: rest)
      | Err (SnapshotValidationError _) => normalize_values rows now
      | Err e => Err e
      end
  end.
Definition normalize_batch (batch : json) (now : float) : result (list MarketSnapshot) :=
  rows ← iterate batch; normalize_values rows now.

(** [now] is the wall clock, which does not move during the call. *)
Definition replay_fetch (now : float) (p : ReplayProvider) (symbols : list string) : result (list MarketSnapshot) * ReplayProvider :=
  match rv_ticks p !! rv_index p with
  | None => (Ok [], p)
  | Some batch =>
      let p := mkReplay (rv_ticks p) (S (rv_index p)) in
      match normalize_batch batch now with
      | Ok snaps => (Ok (filter (fun s => sn_symbol s ∈ symbols) snaps), p)
      | Err e => (Err e, p)
      end
  end.

(** ** longbridge.py: constants and credentials *)
Definition CREDENTIAL_KEYS : list string := ["LONGBRIDGE_APP_KEY"; "LONGBRIDGE_APP_SECRET"; "LONGBRIDGE_ACCESS_TOKEN"].
Definition ASHARE_SUFFIXES : list string := [".SH"; ".SZ"].
Definition MISSING_SDK_MESSAGE : string := "longbridge SDK is not installed; run uv sync --extra live".
Definition RATE_LIMIT_CODES : list Z := [301606; 429001; 429002].
Definition AUTH_CODES : list Z := [401003; 403201; 403203; 403205; 301604].
Definition NO_DATA_CODES : list Z := [301603].
Definition SERVER_CODES : list Z := [301602; 500000].

Section credentials.
(** [os.environ.get] *)
Context (environ : string -> option string).

Definition missing_credential_names : list string :=
  filter (fun key => match environ key with None => true | Some v => bool_decide (v = "") end = true) CREDENTIAL_KEYS.
Definition credentials_present : bool := bool_decide (missing_credential_names = []).
Definition redact_secrets (message : string) : string :=
  foldl (fun redacted key => match environ key with
                             | Some secret => if decide (secret = "") then redacted else str_replace secret "<redacted>" redacted
                             | None => redacted
                             end) message CREDENTIAL_KEYS.
End credentials.

Definition is_ashare (symbol : string) : bool :=
  existsb (fun suffix => ends_with suffix symbol) ASHARE_SUFFIXES && (count_char "."%char symbol =? 1)%nat.

(** ** longbridge.py: a vendor quote *)
(** The [timestamp] attribute: a value that is not a datetime, an aware datetime with its Unix
    time, or a naive one. *)
Inductive VendorTime := Plain (v : pyval) | Aware (unix : float) | Naive.
(** The attributes of a quote; one it lacks reads as [None]. *)
Record VendorQuote := mkQuote { vq_attrs : raw_row; vq_time : VendorTime }.
Definition attr (q : VendorQuote) (name : string) : pyval := get (vq_attrs q) name.

Definition vendor_timestamp_to_unix (value : VendorTime) : result (option float) :=
  match value with
  | Naive => Ok None
  | Aware unix => Ok (Some unix)
  | Plain PyNone => Ok None
  | Plain v =>
      match py_float v with
      | Ok number => Ok (if negb (isfinite number) || flt number f0 then None else Some number)
      | Err (TypeError | ValueError _) => Ok None
      | Err e => Err e
      end
  end.

(** [float(value)] under [except (TypeError, ValueError)]. *)
Definition caught_float (v : pyval) : result (option float) :=
  match py_float v with
  | Ok x => Ok (Some x)
  | Err (TypeError | ValueError _) => Ok None
  | Err e => Err e
  end.

(** [extract_vendor_fields], less the two members no caller reads; the symbol is the text of a
    truthy attribute, and a value that is not a text has no A-share suffix. *)
Definition extract_vendor_fields (q : VendorQuote) : raw_row :=
  [("symbol", match attr q "symbol" with PyStr s => PyStr s | _ => PyStr "" end);
   ("price", attr q "last_done"); ("open", attr q "open"); ("high", attr q "high"); ("low", attr q "low");
   ("prev_close", attr q "prev_close"); ("volume", attr q "volume")].

Definition vendor_quote_to_raw (q : VendorQuote) : result (option raw_row) :=
  let fields := extract_vendor_fields q in
  let symbol := default "" (symbol_of (get fields "symbol")) in
  if negb (is_ashare symbol) then Ok None
  else
    timestamp ← vendor_timestamp_to_unix (vq_time q);
    match timestamp with
    | None => Ok None
    | Some timestamp =>
        high ← caught_float (get fields "high");
        match high with
        | None => Ok None
        | Some high =>
            low ← caught_float (get fields "low");
            match low with
            | None => Ok None
            | Some low =>
                if fle high f0 || fle low f0 || flt high low then Ok None
                else Ok (Some [("symbol", PyStr symbol); ("price", get fields "price"); ("open", get fields "open");
                               ("high", get fields "high"); ("low", get fields "low"); ("prev_close", get fields "prev_close");
                               ("volume", get fields "volume"); ("market_timestamp", PyFloat timestamp); ("turnover", PyNone)])
            end
        end
    end.

(** ** longbridge.py: errors *)
(** An exception of the transport: the values of [code] and [error_code] (called when they are
    functions), its text, and whether it is an [OSError] or an [ImportError]. *)
Record VendorExn := mkVendorExn { ve_attrs : list pyval; ve_text : string; ve_os : bool; ve_import : bool }.

(** A word character of a regular expression; every byte of a non-ASCII letter is one. *)
Definition is_word (c : ascii) : bool := is_alnum c || bool_decide (c = "_"%char) || (128 <=? code c).
Definition starts_word (s : string) : bool := match s with String c _ => is_word c | "" => false end.
(** The codes of [_CODE_RE], in the order of its alternatives. *)
Definition CODE_TEXTS : list string :=
  ["301600"; "301601"; "301602"; "301603"; "301604"; "301605"; "301606"; "301607"; "301608"; "301609"; "401003"; "403201"; "403203";
   "403205"; "429001"; "429002"; "500000"].
Definition code_here (s : string) : option string :=
  head (filter (fun t => (match eat_str t s with Some rest => negb (starts_word rest) | None => false end) = true) CODE_TEXTS).
(** [_CODE_RE.search]: the leftmost code between word boundaries. *)
Fixpoint code_search (after_word : bool) (s : string) : option string :=
  match (if after_word then None else code_here s) with
  | Some t => Some t
  | None => match s with "" => None | String c rest => code_search (is_word c) rest end
  end.

Definition all_digits (s : string) : bool := negb (bool_decide (s = "")) && bool_decide ((scan_digits s 0 0).2 = "").
Definition digits_value (s : string) : Z := (scan_digits s 0 0).1.1.

Section errors.
Context (environ : string -> option string).

(** Of a boolean code only its integer is kept: [True], which Python would print as [True], is 1 here. *)
Fixpoint attr_code (attrs : list pyval) : option Z :=
  match attrs with
  | [] => None
  | raw :: attrs =>
      match raw with
      | PyInt n => if 0 <? n then Some n else attr_code attrs
      | PyBool true => Some 1
      | PyStr s => if all_digits s then Some (digits_value s) else attr_code attrs
      | _ => attr_code attrs
      end
  end.
Definition extract_vendor_error_code (e : VendorExn) : option Z :=
  match attr_code (ve_attrs e) with
  | Some n => Some n
  | None => digits_value <$> code_search false (redact_secrets environ (ve_text e))
  end.

Inductive ErrorClass := RateLimit | Auth | NoData | Unavailable.
Definition class_name (c : ErrorClass) : string :=
  match c with
  | RateLimit => "ProviderRateLimitError" | Auth => "ProviderAuthError" | NoData => "ProviderNoDataError"
  | Unavailable => "ProviderUnavailableError"
  end.

Definition code_class (c : Z) : option ErrorClass :=
  if decide (c ∈ RATE_LIMIT_CODES) then Some RateLimit
  else if decide (c ∈ AUTH_CODES) then Some Auth
  else if decide (c ∈ NO_DATA_CODES) then Some NoData
  else if decide (c ∈ SERVER_CODES) then Some Unavailable else None.
Definition AUTH_TOKENS : list string := ["token expired"; "signature invalid"; "apikey illegal"; "ip is not allowed"; "no access"].

Definition classify_transport_error (e : VendorExn) : ErrorClass * string :=
  let text := redact_secrets environ (ve_text e) in
  let code := extract_vendor_error_code e in
  let message := match code with
                 | None => text
                 | Some c => if contains (int_repr c) text then text else int_repr c +:+ " " +:+ text
                 end in
  match code ≫= code_class with
  | Some c => (c, message)
  | None =>
      let lowered := lower text in
      if contains "429001" text || contains "429002" text || contains "rate limit" lowered then (RateLimit, message)
      else if contains "no quote" lowered then (NoData, message)
      else if existsb (fun token => contains token lowered) AUTH_TOKENS then (Auth, message)
      else (Unavailable, message)
  end.
End errors.

(** ** longbridge.py: the provider *)
Record ProviderDiagnostics := mkProviderDiagnostics {
  pd_success : Z;
  pd_failure : Z;
  pd_latency : option float;
  pd_timeout : Z;
  pd_rate_limit : Z;
  pd_market_ts : option float;
  pd_received_ts : option float;
  pd_dropped : Z;
  pd_contexts : Z
}.
Definition no_diagnostics : ProviderDiagnostics := mkProviderDiagnostics 0 0 None 0 0 None None 0 0.

(** What the SDK did: raised, or answered. *)
Inductive SdkFailure :=
  | SdkTimeout                              (* a [TimeoutError] without text, as asyncio raises it *)
  | SdkProvider (class : ErrorClass)        (* a [ProviderError] of ours *)
  | SdkOther (e : VendorExn).
Inductive Sdk (A : Type) := Answered (a : A) | Raised (f : SdkFailure).
Arguments Answered {A} a.
Arguments Raised {A} f.

Record LongbridgeProvider := mkLongbridge {
  lb_injected : bool;                      (* a [quote_client] was passed *)
  lb_sdk_client : bool;                    (* [_sdk_client is not None] *)
  lb_diagnostics : ProviderDiagnostics;
  lb_calls : nat;                          (* answers of the SDK so far *)
  lb_mono : nat;                           (* readings of the clocks so far *)
  lb_wall : nat
}.

Section longbridge.
Context (environ : string -> option string) (sdk_installed : bool).
Context (create : nat -> Sdk unit) (quote : nat -> list string -> Sdk (list VendorQuote)).
Context (mono wall : nat -> float).

Definition provider_error (c : ErrorClass) : exn := ProviderError (class_name c).

(** [_require_installed_sdk] *)
Definition require_installed_sdk : result unit := if sdk_installed then Ok tt else Err (provider_error Unavailable).
(** [LongbridgeQuoteProvider(clock, quote_client=..., sdk_factory=...)] *)
Definition longbridge_init (quote_client sdk_factory : bool) : result LongbridgeProvider :=
  _ ← (if negb quote_client && negb sdk_factory then
         if negb (credentials_present environ) then Err (provider_error Auth) else require_installed_sdk
       else Ok tt);
  Ok (mkLongbridge quote_client false no_diagnostics 0 0 0).

Abbreviation LB := LongbridgeProvider.
Definition set_lb_diagnostics (d : ProviderDiagnostics) (p : LB) : LB :=
  mkLongbridge (lb_injected p) (lb_sdk_client p) d (lb_calls p) (lb_mono p) (lb_wall p).
Definition set_sdk_client (b : bool) (p : LB) : LB :=
  mkLongbridge (lb_injected p) b (lb_diagnostics p) (lb_calls p) (lb_mono p) (lb_wall p).
Definition called (p : LB) : LB := mkLongbridge (lb_injected p) (lb_sdk_client p) (lb_diagnostics p) (S (lb_calls p)) (lb_mono p) (lb_wall p).

Definition count_context (d : ProviderDiagnostics) := mkProviderDiagnostics (pd_success d) (pd_failure d) (pd_latency d) (pd_timeout d)
  (pd_rate_limit d) (pd_market_ts d) (pd_received_ts d) (pd_dropped d) (pd_contexts d + 1).
Definition count_dropped (d : ProviderDiagnostics) := mkProviderDiagnostics (pd_success d) (pd_failure d) (pd_latency d) (pd_timeout d)
  (pd_rate_limit d) (pd_market_ts d) (pd_received_ts d) (pd_dropped d + 1) (pd_contexts d).
Definition note_snapshot (s : MarketSnapshot) (d : ProviderDiagnostics) := mkProviderDiagnostics (pd_success d) (pd_failure d) (pd_latency d)
  (pd_timeout d) (pd_rate_limit d) (Some (sn_market_ts s)) (Some (sn_received_ts s)) (pd_dropped d) (pd_contexts d).
(** One more success or failure, of what kind, with the call's latency. *)
Definition count_call (success : bool) (timeout limited : Z) (latency : float) (d : ProviderDiagnostics) :=
  mkProviderDiagnostics (pd_success d + (if success then 1 else 0)) (pd_failure d + (if success then 0 else 1)) (Some latency)
    (pd_timeout d + timeout) (pd_rate_limit d + limited) (pd_market_ts d) (pd_received_ts d) (pd_dropped d) (pd_contexts d).
(** [self._clock.monotonic_time() - started], with the counters of a finished call. *)
Definition finish_call (success : bool) (timeout limited : Z) (started : float) (p : LB) : LB :=
  mkLongbridge (lb_injected p) (lb_sdk_client p) (count_call success timeout limited (fsub (mono (lb_mono p)) started) (lb_diagnostics p))
    (lb_calls p) (S (lb_mono p)) (lb_wall p).

(** [_invalidate_sdk] *)
Definition invalidate_sdk (p : LB) : LB := if lb_injected p then p else set_sdk_client false p.

(** [_ensure_sdk_client]; the failure as the [except] clauses of [fetch_quotes] see it. *)
Definition ensure_sdk_client (p : LB) : option SdkFailure * LB :=
  if lb_sdk_client p then (None, p)
  else
    match create (lb_calls p) with
    | Answered _ => (None, set_lb_diagnostics (count_context (lb_diagnostics p)) (set_sdk_client true (called p)))
    | Raised (SdkProvider c) => (Some (SdkProvider c), called p)
    | Raised SdkTimeout => (Some (SdkProvider Unavailable), called p)
    | Raised (SdkOther e) =>
        (Some (SdkProvider (if ve_import e then Unavailable else (classify_transport_error environ e).1)), called p)
    end.
Definition client_quote (requested : list string) (p : LB) : Sdk (list VendorQuote) * LB :=
  let '(f, p) := if lb_injected p then (None, p) else ensure_sdk_client p in
  match f with
  | Some f => (Raised f, p)
  | None => (quote (lb_calls p) requested, called p)
  end.

(** The loop over the payload. *)
Fixpoint map_quotes (payload : list VendorQuote) (p : LB) : result (list MarketSnapshot) * LB :=
  match payload with
  | [] => (Ok [], p)
  | q :: payload =>
      let dropped := set_lb_diagnostics (count_dropped (lb_diagnostics p)) p in
      match vendor_quote_to_raw q with
      | Err e => (Err e, p)
      | Ok None => map_quotes payload dropped
      | Ok (Some raw) =>
          match normalize_snapshot raw (wall (lb_wall p)) with
          | Ok s =>
              let p := mkLongbridge (lb_injected p) (lb_sdk_client p) (note_snapshot s (lb_diagnostics p)) (lb_calls p) (lb_mono p) (S (lb_wall p)) in
              match map_quotes payload p with (Ok rest, p) => (Ok (s :: rest), p) | (Err e, p) => (Err e, p) end
          | Err (SnapshotValidationError _) => map_quotes payload dropped
          | Err e => (Err e, p)
          end
      end
  end.

Definition longbridge_fetch (p : LB) (symbols : list string) : result (list MarketSnapshot) * LB :=
  match filter (fun symbol => is_ashare symbol = true) symbols with
  | [] => (Ok [], p)
  | requested =>
      let started := mono (lb_mono p) in
      let p := mkLongbridge (lb_injected p) (lb_sdk_client p) (lb_diagnostics p) (lb_calls p) (S (lb_mono p)) (lb_wall p) in
      match client_quote requested p with
      | (Raised SdkTimeout, p) => (Err (TimeoutError "longbridge quote timeout"), finish_call false 1 0 started (invalidate_sdk p))
      | (Raised (SdkProvider RateLimit), p) => (Err (provider_error RateLimit), finish_call false 0 1 started p)
      | (Raised (SdkProvider c), p) => (Err (provider_error c), finish_call false 0 0 started p)
      | (Raised (SdkOther e), p) =>
          let c := (classify_transport_error environ e).1 in
          let p := if ve_os e then invalidate_sdk p else p in
          (Err (provider_error c), finish_call false 0 (match c with RateLimit => 1 | _ => 0 end) started p)
      | (Answered payload, p) =>
          match map_quotes payload p with
          | (Ok snaps, p) => (Ok snaps, finish_call true 0 0 started p)
          | (Err e, p) => (Err e, p)
          end
      end
  end.
End longbridge.

(** ** factory.py *)
Inductive MarketProvider := FakeP (p : FakeProvider) | ReplayP (p : ReplayProvider) | LongbridgeP (p : LongbridgeProvider).
(** [replay] is the content of [replay_path], by lines, when a path is given. *)
Definition create_provider (environ : string -> option string) (sdk_installed : bool) (limit : nat) (name : string)
    (replay : option (list string)) (quote_client : bool) : result MarketProvider :=
  if decide (name = "fake") then Ok (FakeP fake_init)
  else if decide (name = "replay") then
    match replay with
    | None => Err (ValueError "--replay path is required for replay provider")
    | Some lines => p ← replay_init limit lines; Ok (ReplayP p)
    end
  else if decide (name = "http") then Err (ValueError "HttpQuoteProvider is not implemented; use fake, replay, or longbridge.")
  else if decide (name = "longbridge") then p ← longbridge_init environ sdk_installed quote_client false; Ok (LongbridgeP p)
  else Err (ValueError ("unknown provider: " +:+ name)).

Example search_ex : code_search false "error 301606: limit" = Some "301606" /\ code_search false "x301606" = None
  /\ code_search false "3016061" = None. Proof. by vm_compute. Qed.
Example classify_ex : classify_transport_error (fun _ => None) (mkVendorExn [] "code=401003 token expired" false false) = (Auth, "code=401003 token expired").
Proof. by vm_compute. Qed.

(** * Credentials never appear in a redacted message *)

(** A secret that the marker cannot spell: no angle bracket, and no part of the marker's word. *)
Definition token_like (t : string) : Prop :=
  t <> "" /\ has_char "<"%char t = false /\ has_char ">"%char t = false /\ contains t "redacted" = false.
Abbreviation MARK := "<redacted>".

Lemma starts_with_cons c t d s : starts_with (String c t) (String d s) = bool_decide (c = d) && starts_with t s.
Proof. unfold starts_with. cbn [eat_str eat]. destruct (decide (c = d)) as [->|N]; [by rewrite bool_decide_eq_true_2|by rewrite bool_decide_eq_false_2]. Qed.

(** A prefix without brackets ends before the next marker. *)
Lemma prefix_replaced old t : has_char "<"%char t = false -> forall s, starts_with t (str_replace old MARK s) = true -> starts_with t s = true.
Proof.
  unfold str_replace. induction t as [|c t IH]; [done|]. cbn [has_char]. intros [Hc Ht]%orb_false_iff s. destruct s as [|d s]; [done|].
  cbn [replace_from]. destruct (eat_str old (String d s)); [change (MARK +:+ ?x) with (String "<"%char ("redacted>" +:+ x))|].
  - rewrite starts_with_cons. by intros [->%bool_decide_eq_true _]%andb_prop.
  - rewrite !starts_with_cons. intros [-> H]%andb_prop. by apply IH.
Qed.

Lemma starts_before t c : has_char c t = false -> forall u w, starts_with t (u +:+ String c w) = true -> starts_with t u = true.
Proof.
  induction t as [|d t IH]; [done|]. cbn [has_char]. intros [Hd Ht]%orb_false_iff. apply bool_decide_eq_false in Hd. intros [|e u] w.
  - change ("" +:+ String c w) with (String c w). rewrite starts_with_cons, bool_decide_eq_false_2 by done. done.
  - rewrite append_cons, !starts_with_cons. intros [-> H]%andb_prop. by eapply IH.
Qed.

(** An occurrence in text that starts with the marker comes after it. *)
Lemma contains_mark t r : token_like t -> contains t (MARK +:+ r) = true -> contains t r = true.
Proof.
  intros (N & L & G & W). change (MARK +:+ r) with (String "<"%char ("redacted" +:+ String ">"%char r)). cbn [contains].
  destruct t as [|c t]; [done|]. rewrite starts_with_cons. pose proof L as L'. cbn [has_char] in L'. apply orb_false_iff in L' as [Lc _].
  rewrite Lc. cbn [andb orb].
  assert (In : forall u, contains (String c t) u = false -> contains (String c t) (u +:+ String ">"%char r) = true -> contains (String c t) r = true).
  { induction u as [|d u IH]; intros Hu.
    - change ("" +:+ String ">"%char r) with (String ">"%char r). cbn [contains]. rewrite starts_with_cons. pose proof G as G'. cbn [has_char] in G'.
      apply orb_false_iff in G' as [Gc _]. by rewrite Gc.
    - rewrite append_cons. cbn [contains] in Hu |- *. apply orb_false_iff in Hu as [Hs Hu]. intros [H|H]%orb_true_iff; [|by apply IH].
      rewrite <- append_cons in H. apply (starts_before _ _ G) in H. congruence. }
  by apply In.
Qed.

Lemma contains_replaced old t s : token_like t -> contains t (str_replace old MARK s) = true -> contains t s = true.
Proof.
  intros T. unfold str_replace. enough (H : forall n, contains t (replace_from old MARK n s) = true -> contains t s = true) by apply H.
  induction s as [|c s IH]; intros n; [done|]. cbn [replace_from]. destruct n as [|n].
  - destruct (eat_str old (String c s)) eqn:E.
    + intros H%contains_mark; [|done]. cbn [contains]. apply orb_true_iff. right. by eapply IH.
    + cbn [contains]. intros [H|H]%orb_true_iff; apply orb_true_iff; [left|right; by eapply IH].
      apply (prefix_replaced old); [apply T|]. unfold str_replace. cbn [replace_from]. by rewrite E.
  - intros H. cbn [contains]. apply orb_true_iff. right. by eapply IH.
Qed.

Lemma replaced_absent old s : token_like old -> contains old (str_replace old MARK s) = false.
Proof.
  intros T. apply not_true_is_false. unfold str_replace. enough (H : forall n, contains old (replace_from old MARK n s) <> true) by apply H.
  induction s as [|c s IH]; intros n.
  { cbn [replace_from contains]. destruct T as [N _]. destruct old; [done|]. by rewrite orb_false_r. }
  cbn [replace_from]. destruct n as [|n]; [|apply IH]. destruct (eat_str old (String c s)) eqn:E.
  - intros H%contains_mark; [|done]. by apply IH in H.
  - cbn [contains]. intros [H|H]%orb_true_iff; [|by apply IH in H].
    assert (Hp : starts_with old (String c s) = true).
    { apply (prefix_replaced old); [apply T|]. unfold str_replace. cbn [replace_from]. by rewrite E. }
    unfold starts_with in Hp. by rewrite E in Hp.
Qed.

Lemma redact_absent environ key secret message : key ∈ CREDENTIAL_KEYS -> environ key = Some secret -> token_like secret ->
  contains secret (redact_secrets environ message) = false.
Proof.
  intros Hk He T. unfold redact_secrets. set (step := fun _ _ => _).
  assert (K : forall keys m, contains secret m = false -> contains secret (foldl step m keys) = false).
  { induction keys as [|k keys IH]; intros m Hm; [done|]. cbn [foldl]. apply IH. unfold step. destruct (environ k) as [v|]; [|done].
    case_decide; [done|]. apply not_true_is_false. intros R%contains_replaced; [congruence|done]. }
  revert message. induction CREDENTIAL_KEYS as [|k keys IH]; intros message; [by apply elem_of_nil in Hk|]. cbn [foldl].
  apply elem_of_cons in Hk as [<-|Hk]; [|by apply IH]. apply K. unfold step. rewrite He. destruct T as [N T]. rewrite decide_False by done.
  by apply replaced_absent.
Qed.

Lemma nums_app a b : nums (a +:+ b) = nums a && nums b.
Proof. induction a as [|c a IH]; [done|]. rewrite append_cons. cbn. by rewrite IH, andb_assoc. Qed.
Lemma contains_nums t s : nums s = true -> contains t s = true -> nums t = true.
Proof. intros N (a & b & ->)%contains_app. rewrite !nums_app in N. by apply andb_prop in N as [_ [? _]%andb_prop]. Qed.

(** An occurrence without the separator lies on one side of it. *)
Lemma contains_sides t c a b : t <> "" -> has_char c t = false -> contains t (a +:+ String c b) = true -> contains t a = true \/ contains t b = true.
Proof.
  intros N Hc. induction a as [|d a IH].
  - change ("" +:+ String c b) with (String c b). cbn [contains]. destruct t as [|e t]; [done|]. rewrite starts_with_cons. cbn [has_char] in Hc.
    apply orb_false_iff in Hc as [-> _]. by right.
  - rewrite append_cons. cbn [contains]. intros [H|H]%orb_true_iff.
    + left. rewrite <- append_cons in H. by rewrite (starts_before _ _ Hc _ _ H).
    + destruct (IH H) as [->| ->]; [left; by rewrite orb_true_r|by right].
Qed.

(** C37: no credential reaches an error message.  Whatever the transport raised, the message of the
    classified error does not contain the value of any credential variable, if that value has
    no blank, no angle bracket and something other than a number in it, and is not part of the
    word of the redaction marker; redacting text alone needs only the last and the brackets. *)
Theorem credentials_hidden environ key secret :
  key ∈ CREDENTIAL_KEYS -> environ key = Some secret -> token_like secret ->
  (forall text, contains secret (redact_secrets environ text) = false) /\
  (has_char " "%char secret = false -> nums secret = false ->
   forall e, contains secret (classify_transport_error environ e).2 = false).
Proof.
  intros Hk He T. assert (R : forall text, contains secret (redact_secrets environ text) = false) by (intros text; by eapply redact_absent).
  split; [exact R|]. intros Hs Hn e. specialize (R (ve_text e)). unfold classify_transport_error. set (text := redact_secrets environ (ve_text e)) in *.
  assert (M : contains secret (match extract_vendor_error_code environ e with
              | None => text
              | Some c => if contains (int_repr c) text then text else int_repr c +:+ " " +:+ text end) = false).
  { destruct (extract_vendor_error_code environ e) as [c|]; [|done]. destruct (contains (int_repr c) text); [done|].
    apply not_true_is_false. change (" " +:+ text) with (String " "%char text). intros [H|H]%contains_sides; [|congruence|apply T|done].
    apply contains_nums in H; [congruence|apply int_repr_nums]. }
  destruct (_ ≫= code_class); [exact M|]. destruct (_ || _); [exact M|]. destruct (contains "no quote" _); [exact M|]. by destruct (existsb _ _).
Qed.

Definition sample_env (k : string) : option string := if decide (k = "LONGBRIDGE_APP_SECRET") then Some "s3cretToken" else None.
Lemma credentials_hidden_witness :
  contains "s3cretToken" (classify_transport_error sample_env (mkVendorExn [PyInt 429001] "denied for s3cretToken" false false)).2 = false.
Proof.
  refine (proj2 (credentials_hidden sample_env "LONGBRIDGE_APP_SECRET" "s3cretToken" _ _ _) _ _ _);
    [decide_now|reflexivity|split; [done|vm_compute; done]|vm_compute; reflexivity|vm_compute; reflexivity].
Defined.

(** * The Longbridge provider's contract *)
Definition quote_valid (q : VendorQuote) : Prop :=
  row_valid (vq_attrs q) /\ match vq_time q with Plain v => raw_valid v | Aware x => valid x = true | Naive => True end.

Lemma caught_float_error v e : caught_float v = Err e -> e = OverflowError.
Proof. unfold caught_float. destruct (py_float v) as [x|ex] eqn:E; [done|]. apply py_float_error in E as [->|[[m ->]| ->]]; [done|done|]. by intros [= <-]. Qed.
Lemma timestamp_error v e : vendor_timestamp_to_unix v = Err e -> e = OverflowError.
Proof.
  assert (P : forall u, match py_float u with
    | Ok number => Ok (if negb (isfinite number) || flt number f0 then None else Some number)
    | Err (TypeError | ValueError _) => Ok None | Err e => Err e end = Err e -> e = OverflowError).
  { intros u. destruct (py_float u) as [x|ex] eqn:E; [done|]. apply py_float_error in E as [->|[[m ->]| ->]]; [done|done|]. by intros [= <-]. }
  destruct v as [u|x|]; [|done|done]. destruct u; try apply (P _). done.
Qed.
Lemma quote_error q e : vendor_quote_to_raw q = Err e -> e = OverflowError.
Proof.
  unfold vendor_quote_to_raw. cbv zeta. destruct (negb _); [done|]. apply (bind_error _ _ _ (fun e => e = OverflowError)); [intros ?; apply timestamp_error|]. intros [t|] ?; [|done].
  apply (bind_error _ _ _ (fun e => e = OverflowError)); [intros ?; apply caught_float_error|]. intros [h|] ?; [|done]. apply (bind_error _ _ _ (fun e => e = OverflowError)); [intros ?; apply caught_float_error|].
  intros [l|] ?; [|done]. by destruct (_ || _).
Qed.

Lemma attr_valid q name : quote_valid q -> raw_valid (attr q name).
Proof. intros [H _]. by apply get_valid. Qed.
Lemma quote_raw_valid q raw : quote_valid q -> vendor_quote_to_raw q = Ok (Some raw) -> row_valid raw.
Proof.
  intros V. unfold vendor_quote_to_raw. cbv zeta. destruct (negb _); [done|]. intros (t & Et & H)%bind_ok. destruct t as [t|]; [|done].
  apply bind_ok in H as ([h|] & _ & H); [|done]. apply bind_ok in H as ([l|] & _ & H); [|done]. destruct (_ || _); [done|]. injection H as <-.
  assert (Vt : valid t = true).
  { destruct V as [_ V]. destruct (vq_time q) as [u|x|]; [|by injection Et as <-|done]. cbn in Et.
    assert (P : match py_float u with
      | Ok number => Ok (if negb (isfinite number) || flt number f0 then None else Some number)
      | Err (TypeError | ValueError _) => Ok None | Err e => Err e end = Ok (Some t) -> valid t = true).
    { destruct (py_float u) as [x|ex] eqn:E; [|by destruct ex]. intros [= H]. destruct (_ || _); [done|]. injection H as <-. by eapply py_float_valid. }
    destruct u; try (by apply P); done. }
  unfold row_valid. repeat (apply Forall_cons_2; [cbn [snd raw_valid]; first [exact I|exact Vt|by apply (attr_valid q)]|]). apply Forall_nil_2.
Qed.

(** What the loop over the payload leaves: everything but the counts of dropped quotes and the last times. *)
Definition same_calls (p p' : LongbridgeProvider) : Prop :=
  lb_injected p' = lb_injected p /\ lb_sdk_client p' = lb_sdk_client p /\ lb_calls p' = lb_calls p /\ lb_mono p' = lb_mono p /\
  pd_success (lb_diagnostics p') = pd_success (lb_diagnostics p) /\ pd_failure (lb_diagnostics p') = pd_failure (lb_diagnostics p) /\
  pd_latency (lb_diagnostics p') = pd_latency (lb_diagnostics p) /\ pd_timeout (lb_diagnostics p') = pd_timeout (lb_diagnostics p) /\
  pd_rate_limit (lb_diagnostics p') = pd_rate_limit (lb_diagnostics p) /\ pd_contexts (lb_diagnostics p') = pd_contexts (lb_diagnostics p).
Lemma same_calls_trans a b c : same_calls a b -> same_calls b c -> same_calls a c.
Proof. unfold same_calls. intuition congruence. Qed.

Section payload.
Context (wall : nat -> float).
Definition mapped (payload : list VendorQuote) (p : LongbridgeProvider) (o : result (list MarketSnapshot) * LongbridgeProvider) : Prop :=
  same_calls p o.2 /\
  match o.1 with
  | Ok snaps => pd_dropped (lb_diagnostics o.2) = pd_dropped (lb_diagnostics p) + (Z.of_nat (length payload) - Z.of_nat (length snaps)) /\
                (length snaps <= length payload)%nat /\ (Forall quote_valid payload -> Forall snapshot_ok snaps)
  | Err e => e = OverflowError
  end.

Lemma mapped_dropped q payload p p1 : same_calls p p1 -> pd_dropped (lb_diagnostics p1) = pd_dropped (lb_diagnostics p) + 1 ->
  mapped payload p1 (map_quotes wall payload p1) -> mapped (q :: payload) p (map_quotes wall payload p1).
Proof.
  intros S D [S1 H]. split; [by eapply same_calls_trans|]. destruct (map_quotes wall payload p1) as [[snaps|e] p2]; [|done]. cbn [fst snd] in *.
  destruct H as (H1 & H2 & H3). cbn [length]. split; [lia|]. split; [lia|]. intros Vq. apply Forall_cons in Vq as [_ Vq]. by apply H3.
Qed.

Lemma map_quotes_spec payload : forall p, mapped payload p (map_quotes wall payload p).
Proof.
  induction payload as [|q payload IH]; intros p; cbn [map_quotes].
  { split; [done|]. cbn. split; [lia|]. split; [lia|]. constructor. }
  destruct (vendor_quote_to_raw q) as [[raw|]|e] eqn:E; [|by apply (mapped_dropped q payload p); [..|apply IH]|by split; [|eapply quote_error]].
  destruct (normalize_snapshot raw _) as [s|e] eqn:En.
  - set (p1 := mkLongbridge _ _ _ _ _ _). destruct (IH p1) as [S H]. destruct (map_quotes wall payload p1) as [[snaps|e] p2]; cbn [fst snd] in *; [|done].
    split; [done|]. cbn [fst snd length] in *. destruct H as (H1 & H2 & H3). split; [rewrite H1; cbn; lia|]. split; [lia|].
    intros Vq. apply Forall_cons in Vq as [Vq V]. constructor; [|by apply H3]. eapply normalize_snapshot_wf; [|exact En]. by eapply quote_raw_valid.
  - apply normalize_snapshot_error in En as [[m ->]| ->]; [|done]. apply (mapped_dropped q payload p); [done|done|apply IH].
Qed.
End payload.

(** ** One call *)
Definition counts_ok (d : ProviderDiagnostics) : Prop :=
  0 <= pd_timeout d /\ 0 <= pd_rate_limit d /\ pd_timeout d + pd_rate_limit d <= pd_failure d /\ 0 <= pd_success d.

(** The change of one counter. *)
Definition grows (f : ProviderDiagnostics -> Z) (n : Z) (p p' : LongbridgeProvider) : Prop := f (lb_diagnostics p') = f (lb_diagnostics p) + n.
Definition counted (success failure timeout limited : Z) (p p' : LongbridgeProvider) : Prop :=
  grows pd_success success p p' /\ grows pd_failure failure p p' /\ grows pd_timeout timeout p p' /\ grows pd_rate_limit limited p p'.
Definition limited_by (c : ErrorClass) : Z := match c with RateLimit => 1 | _ => 0 end.

Section calls.
Context (environ : string -> option string).
Context (create : nat -> Sdk unit) (quote : nat -> list string -> Sdk (list VendorQuote)).
Context (mono wall : nat -> float).
Definition fetch_of := longbridge_fetch environ create quote mono wall.

Lemma client_quote_counts requested p : let '(r, p') := client_quote environ create quote requested p in
  counted 0 0 0 0 p p' /\ pd_dropped (lb_diagnostics p') = pd_dropped (lb_diagnostics p) /\ lb_injected p' = lb_injected p /\
  (exists n, 0 <= n <= 1 /\ grows pd_contexts n p p' /\ (lb_sdk_client p = true \/ lb_injected p = true -> n = 0)) /\
  (forall qs, r = Answered qs -> exists k, quote k requested = Answered qs).
Proof.
  unfold client_quote, ensure_sdk_client, counted, grows.
  destruct (lb_injected p) eqn:Ei; [|destruct (lb_sdk_client p) eqn:Ec; [|destruct (create (lb_calls p)) as [u|[|c|e]]]]; cbn;
    (split; [lia|]); (split; [done|]); (split; [done|]); (split; [eexists; split; [|split; [reflexivity || by rewrite Z.add_0_r|]]; naive_solver lia|]); try done; intros qs H; by eexists.
Qed.

Lemma fetch_counts p symbols : let '(r, p') := fetch_of p symbols in
  (Forall (fun s => is_ashare s = false) symbols -> r = Ok [] /\ p' = p) /\
  (Exists (fun s => is_ashare s = true) symbols ->
    match r with
    | Ok snaps => counted 1 0 0 0 p p'
    | Err e => (e = OverflowError /\ counted 0 0 0 0 p p') \/ ((exists m, e = TimeoutError m) /\ counted 0 1 1 0 p p') \/
               (exists c, e = provider_error c /\ counted 0 1 0 (limited_by c) p p')
    end) /\
  lb_injected p' = lb_injected p.
Proof.
  unfold fetch_of, longbridge_fetch.
  destruct (filter _ symbols) as [|a requested] eqn:Ef.
  { split; [done|]. split; [|done]. intros (x & Hx & Ha)%Exists_exists. exfalso. assert (Hin : x ∈ filter (fun s => is_ashare s = true) symbols) by by apply list_elem_of_filter.
    rewrite Ef in Hin. by apply elem_of_nil in Hin. }
  set (p0 := mkLongbridge _ _ _ _ _ _). pose proof (client_quote_counts (a :: requested) p0) as C.
  destruct (client_quote environ create quote (a :: requested) p0) as [r p1]. destruct C as (C & _ & I & _ & _).
  assert (Hno : Forall (fun s => is_ashare s = false) symbols -> False).
  { intros H. assert (Hin : a ∈ filter (fun s => is_ashare s = true) symbols) by (rewrite Ef; by left). apply list_elem_of_filter in Hin as [Ha Hin].
    rewrite Forall_forall in H. apply H in Hin. congruence. }
  unfold counted, grows in C. cbn in C, I.
  destruct r as [payload|[|c|e]].
  - pose proof (map_quotes_spec wall payload p1) as [S M]. destruct (map_quotes wall payload p1) as [[snaps|e] p2]; cbn [fst snd] in S, M; unfold same_calls in S;
      (split; [by intros ?%Hno|]); unfold counted, grows; cbn; (split; [|by destruct S as (-> & _)]); intros _; [|left; split; [done|]]; intuition lia.
  - split; [by intros ?%Hno|]. split; [|unfold invalidate_sdk; destruct (lb_injected p1) eqn:Ei; cbn; congruence]. intros _. right. left. split; [by eexists|].
    unfold counted, grows, invalidate_sdk. destruct (lb_injected p1); cbn; lia.
  - destruct c; (split; [by intros ?%Hno|]); (split; [|done]); intros _; right; right; eexists; (split; [reflexivity|]); unfold counted, grows; cbn; lia.
  - split; [by intros ?%Hno|]. split; [|unfold invalidate_sdk; destruct (ve_os e), (lb_injected p1) eqn:Ei; cbn; congruence]. intros _. right. right. eexists. split; [done|].
    unfold counted, grows, invalidate_sdk, limited_by. destruct (ve_os e), (lb_injected p1), (classify_transport_error environ e).1; cbn; lia.
Qed.
End calls.

(** ** The engine's contract *)
#[export] Instance longbridge_contract environ create quote mono wall
    (Hquotes : forall k l qs, quote k l = Answered qs -> Forall quote_valid qs) : ProviderContract (fetch_of environ create quote mono wall).
Proof.
  exists (fun _ => True). intros p symbols r p' _ E. split; [done|]. intros snaps ->. unfold fetch_of, longbridge_fetch in E.
  destruct (filter _ symbols) as [|a requested]; [injection E as <- _; constructor|]. revert E. set (p0 := mkLongbridge _ _ _ _ _ _).
  pose proof (client_quote_counts environ create quote (a :: requested) p0) as C.
  destruct (client_quote environ create quote (a :: requested) p0) as [[payload|f] p1]; [|by destruct f as [|[]|]].
  destruct C as (_ & _ & _ & _ & Hk). destruct (Hk payload eq_refl) as [k Ek]. pose proof (map_quotes_spec wall payload p1) as [_ M].
  destruct (map_quotes wall payload p1) as [[out|e] p2]; [|done]. intros [= <- _]. apply M, (Hquotes _ _ _ Ek).
Defined.

Definition fake_valid (p : FakeProvider) : Prop := forall symbol raw, fp_quotes p !! symbol = Some raw -> row_valid raw.
Lemma default_quote_valid symbol x : valid x = true -> row_valid (default_quote symbol x).
Proof. intros V. unfold row_valid, default_quote. repeat (apply Forall_cons_2; [cbn [snd raw_valid]; first [exact I|reflexivity|exact V]|]). apply Forall_nil_2. Qed.

Lemma fake_quotes_wf wall p : (forall n, valid (wall n) = true) -> fake_valid p -> forall symbols n out n',
  fake_quotes wall p symbols n = (Ok out, n') ->
  Forall snapshot_ok out.
Proof.
  intros W V. induction symbols as [|x symbols IH]; intros n out n'; cbn [fake_quotes]; [by intros [= <- _]|].
  case_decide as Hf; [apply IH|].
  assert (R : exists raw k, match fp_quotes p !! x with Some raw => (raw, n) | None => (default_quote x (wall n), S n) end = (raw, k) /\ row_valid raw).
  { destruct (fp_quotes p !! x) as [raw|] eqn:E; [exists raw, n; split; [done|by eapply V]|]. eexists _, _. split; [reflexivity|]. by apply default_quote_valid. }
  destruct R as (raw & k & -> & Vr). destruct (normalize_snapshot raw (wall k)) as [s|e] eqn:E.
  - destruct (fake_quotes wall p symbols (S k)) as [[rest|e] m] eqn:Er; [|done]. intros [= <- _]. constructor; [by eapply normalize_snapshot_wf|by eapply IH].
  - destruct e; try done. apply IH.
Qed.
#[export] Instance fake_contract wall (W : forall n, valid (wall n) = true) : ProviderContract (fake_fetch wall).
Proof.
  exists fake_valid. intros p symbols r p' V. unfold fake_fetch. destruct (fp_timeout p); [by intros [= <- <-]|].
  destruct (fake_quotes wall p symbols (fp_clock p)) as [r0 n] eqn:E. intros [= <- <-]. split; [exact V|]. intros snaps ->. by eapply fake_quotes_wf.
Defined.

(** Every row of a decoded batch is a mapping of Python values. *)
Definition batch_valid (batch : json) : Prop :=
  forall rows v raw, iterate batch = Ok rows -> v ∈ rows -> as_row v = Ok raw -> row_valid raw.
Definition replay_valid (p : ReplayProvider) : Prop := Forall batch_valid (rv_ticks p).
Lemma iterate_floats v rows : floats_ok v = true -> iterate v = Ok rows -> forallb floats_ok rows = true.
Proof.
  destruct v as [| | | |s|l|ms]; cbn [iterate]; try done; intros F.
  - destruct s; by intros [= <-].
  - by intros [= <-].
  - intros [= <-]. clear. by induction ms as [|[k v] ms IH].
Qed.
Lemma row_floats v raw : floats_ok v = true -> as_row v = Ok raw -> row_valid raw.
Proof.
  destruct v as [| | | |s|l|ms]; cbn [as_row]; try done; try (by case_match). intros F [= <-]. cbn [strings_ok] in F.
  apply Forall_forall. intros p (m & -> & Hm)%list_elem_of_fmap. pose proof (forallb_elem _ _ F _ Hm) as Hv. cbn in Hv |- *. destruct m as [k v]. cbn in *. by destruct v.
Qed.
Lemma batch_floats batch : floats_ok batch = true -> batch_valid batch.
Proof. intros F rows v raw Hi Hv. apply row_floats. exact (forallb_elem _ _ (iterate_floats _ _ F Hi) _ Hv). Qed.
(** What is decoded is made of Python values. *)
Lemma loads_lines_valid limit lines ticks : loads_lines limit lines = Ok ticks -> Forall batch_valid ticks.
Proof.
  unfold loads_lines. generalize (filter (fun line => strip line <> "") lines). intros l. revert ticks. induction l as [|x l IH]; cbn [traverse]; [by intros ticks [= <-]|].
  intros ticks (v & Hv & H)%bind_ok. apply bind_ok in H as (vs & Hs & [= <-]). constructor; [|by apply IH].
  apply batch_floats. unfold loads_line in Hv. destruct (loads limit x) as [u| |e] eqn:E; [|done..]. injection Hv as <-. by eapply loads_floats.
Qed.

Lemma normalize_values_wf now rows : (forall v raw, v ∈ rows -> as_row v = Ok raw -> row_valid raw) -> forall out,
  normalize_values rows now = Ok out -> Forall snapshot_ok out.
Proof.
  induction rows as [|v rows IH]; intros V out; cbn [normalize_values]; [by intros [= <-]|].
  assert (IH' := IH (fun u raw Hu => V u raw (list_elem_of_further _ _ _ Hu))).
  intros (raw & Er & H)%bind_ok. destruct (normalize_snapshot raw now) as [s|e] eqn:E; [|destruct e; try done; exact (IH' _ H)].
  apply bind_ok in H as (rest & Hr & [= <-]). constructor; [|by apply IH'].
  eapply normalize_snapshot_wf; [|exact E]. eapply V; [by left|done].
Qed.
#[export] Instance replay_contract now : ProviderContract (replay_fetch now).
Proof.
  exists replay_valid. intros p symbols r p' V. unfold replay_fetch. destruct (rv_ticks p !! rv_index p) as [batch|] eqn:Eb;
    [|intros [= <- <-]; split; [exact V|]; intros snaps [= <-]; constructor].
  destruct (normalize_batch batch now) as [snaps|e] eqn:E; intros [= <- <-]; (split; [exact V|]); [|done]. intros out [= <-].
  unfold normalize_batch in E. apply bind_ok in E as (rows & Ei & E). apply Forall_forall. intros s [_ Hs]%list_elem_of_filter. revert s Hs. apply Forall_forall.
  unfold replay_valid in V. rewrite Forall_forall in V. apply list_elem_of_lookup_2 in Eb. apply V in Eb.
  eapply normalize_values_wf; [|exact E]. intros v raw Hv Hr. by eapply Eb.
Defined.

(** * The diagnostics of a session *)
Section session.
Context (environ : string -> option string) (sdk_installed : bool).
Context (create : nat -> Sdk unit) (quote : nat -> list string -> Sdk (list VendorQuote)).
Context (mono wall : nat -> float).

Definition outcome : Type := list string * result (list MarketSnapshot).

(** The calls of a session in order, each with what it returned. *)
Fixpoint fetches (p : LongbridgeProvider) (calls : list (list string)) : list outcome * LongbridgeProvider :=
  match calls with
  | [] => ([], p)
  | symbols :: calls =>
      let '(r, p) := fetch_of environ create quote mono wall p symbols in
      let '(log, p) := fetches p calls in ((symbols, r) :: log, p)
  end.

Definition asked (o : outcome) : bool := existsb is_ashare o.1.
Definition succeeded (o : outcome) : bool := match o.2 with Ok _ => asked o | Err _ => false end.
Definition overflowed (o : outcome) : bool := match o.2 with Err OverflowError => true | _ => false end.
Definition failed (o : outcome) : bool := match o.2 with Ok _ => false | Err _ => negb (overflowed o) end.
Definition timed_out (o : outcome) : bool := match o.2 with Err (TimeoutError _) => true | _ => false end.
Definition limited (o : outcome) : bool := match o.2 with Err (ProviderError m) => bool_decide (m = class_name RateLimit) | _ => false end.
Definition tally (f : outcome -> bool) (log : list outcome) : Z := foldr (fun o n => Z.b2z (f o) + n) 0 log.

Lemma tally_cons f o log : tally f (o :: log) = Z.b2z (f o) + tally f log.
Proof. done. Qed.
Lemma tally_nonneg f log : 0 <= tally f log.
Proof. induction log as [|o log IH]; [done|]. rewrite tally_cons. destruct (f o); cbn [Z.b2z]; lia. Qed.

Lemma limited_name c : Z.b2z (bool_decide (class_name c = class_name RateLimit)) = limited_by c.
Proof. by destruct c. Qed.
Lemma existsb_Forall {A} (f : A -> bool) l : existsb f l = false -> Forall (fun x => f x = false) l.
Proof. induction l as [|x l IH]; cbn; [constructor|]. intros [Hx Hl]%orb_false_iff. by constructor; [|apply IH]. Qed.
Lemma existsb_Exists {A} (f : A -> bool) l : existsb f l = true -> Exists (fun x => f x = true) l.
Proof. induction l as [|x l IH]; cbn; [done|]. intros [Hx|Hl]%orb_true_iff; [by left|right; by apply IH]. Qed.

Lemma fetch_tally p symbols r p' : fetch_of environ create quote mono wall p symbols = (r, p') ->
  let o := (symbols, r) in
  counted (Z.b2z (succeeded o)) (Z.b2z (failed o)) (Z.b2z (timed_out o)) (Z.b2z (limited o)) p p' /\
  Z.b2z (asked o) = Z.b2z (succeeded o) + Z.b2z (failed o) + Z.b2z (overflowed o) /\
  (asked o = false -> r = Ok []) /\ (asked o = false -> p' = p).
Proof.
  intros E o. pose proof (fetch_counts environ create quote mono wall p symbols) as F. rewrite E in F. destruct F as (Hno & Hyes & _).
  unfold succeeded, failed, timed_out, limited, overflowed. change (asked o) with (existsb is_ashare symbols). cbn [snd o].
  destruct (existsb is_ashare symbols) eqn:Ea.
  - apply existsb_Exists in Ea. destruct r as [snaps|e]; [by specialize (Hyes Ea)|].
    destruct (Hyes Ea) as [[-> C]|[[[m ->] C]|(c & -> & C)]]; [done..|]. unfold provider_error. by rewrite limited_name.
  - destruct (Hno (existsb_Forall _ _ Ea)) as [-> ->]. cbn. unfold counted, grows. repeat split; lia.
Qed.

Lemma fetches_tally calls : forall p log p', fetches p calls = (log, p') ->
  counted (tally succeeded log) (tally failed log) (tally timed_out log) (tally limited log) p p' /\
  tally asked log = tally succeeded log + tally failed log + tally overflowed log /\
  fst <$> log = calls /\ Forall (fun o => asked o = false -> o.2 = Ok []) log.
Proof.
  induction calls as [|symbols calls IH]; intros p log p'; cbn [fetches].
  { intros [= <- <-]. unfold counted, grows. cbn. repeat split; try lia. constructor. }
  destruct (fetch_of _ _ _ _ _ p symbols) as [r p1] eqn:Ef. destruct (fetches p1 calls) as [rest p2] eqn:Er. intros [= <- <-].
  destruct (fetch_tally _ _ _ _ Ef) as (C1 & A1 & N1 & _). destruct (IH _ _ _ Er) as (C2 & A2 & E2 & N2).
  unfold counted, grows in *. rewrite !tally_cons.
  repeat split; try lia; [cbn; by f_equal|by constructor].
Qed.

Lemma timed_out_failed log : tally timed_out log + tally limited log <= tally failed log.
Proof.
  induction log as [|[s r] log IH]; [done|]. rewrite !tally_cons.
  enough (Z.b2z (timed_out (s, r)) + Z.b2z (limited (s, r)) <= Z.b2z (failed (s, r))) by lia.
  unfold timed_out, limited, failed, overflowed. destruct r as [|[]]; cbn; try lia. case_bool_decide; cbn; lia.
Qed.

Lemma fetches_snapshots (V : forall k l qs, quote k l = Answered qs -> Forall quote_valid qs) calls : forall p log p',
  fetches p calls = (log, p') -> Forall (fun o => forall snaps, o.2 = Ok snaps -> Forall snapshot_ok snaps) log.
Proof.
  induction calls as [|symbols calls IH]; intros p log p'; cbn [fetches]; [by intros [= <- _]|].
  destruct (fetch_of _ _ _ _ _ p symbols) as [r p1] eqn:Ef. destruct (fetches p1 calls) as [rest p2] eqn:Er. intros [= <- _].
  constructor; [|by eapply IH].
  intros snaps Hs. exact (proj2 (@prov_fetch _ _ (longbridge_contract environ create quote mono wall V) _ _ _ _ I Ef) snaps Hs).
Qed.

(** C31: The diagnostics of [providers/longbridge.py] account for a whole session.  From a fresh
    provider, after any sequence of [fetch_quotes] calls whatever the SDK answers: the success
    counter is the number of calls for an A-share that returned, the failure counter the number of
    calls that raised other than by the overflow that escapes the mapping, the timeout and
    rate-limit counters the calls that raised those, so together at most the failures; every call
    that asked for an A-share is a success, a failure or such an overflow; a call without an
    A-share returns the empty list; and every snapshot returned is well formed when the SDK's
    numbers are valid. *)
Theorem longbridge_accounts injected factory calls p log p' :
  longbridge_init environ sdk_installed injected factory = Ok p -> fetches p calls = (log, p') ->
  let d := lb_diagnostics p' in
  pd_success d = tally succeeded log /\ pd_failure d = tally failed log /\
  pd_timeout d = tally timed_out log /\ pd_rate_limit d = tally limited log /\ counts_ok d /\
  tally asked log = pd_success d + pd_failure d + tally overflowed log /\
  fst <$> log = calls /\ Forall (fun o => asked o = false -> o.2 = Ok []) log /\
  ((forall k l qs, quote k l = Answered qs -> Forall quote_valid qs) ->
   Forall (fun o => forall snaps, o.2 = Ok snaps -> Forall snapshot_ok snaps) log).
Proof.
  intros (_ & _ & [= <-])%bind_ok E d. destruct (fetches_tally _ _ _ _ E) as ((S & F & T & L) & A & C & N).
  unfold grows in *. cbn in S, F, T, L. fold d in S, F, T, L. rewrite S, F, T, L.
  pose proof (timed_out_failed log). pose proof (tally_nonneg timed_out log). pose proof (tally_nonneg limited log). pose proof (tally_nonneg succeeded log).
  unfold counts_ok. rewrite S, F, T, L. repeat split; try lia; [done..|]. intros V. by eapply fetches_snapshots.
Qed.
End session.

(** A client that times out, answers one quote, is limited, then answers an integer no float holds. *)
Definition demo_quote (high : pyval) : VendorQuote :=
  mkQuote [("symbol", PyStr "600519.SH"); ("last_done", PyInt 10); ("open", PyInt 10); ("high", high);
           ("low", PyInt 9); ("prev_close", PyInt 10); ("volume", PyInt 100)] (Aware (flit 1700000000 0)).
Definition demo_client (k : nat) (symbols : list string) : Sdk (list VendorQuote) :=
  match k with
  | 0%nat => Raised SdkTimeout
  | 1%nat => Answered [demo_quote (PyInt 11)]
  | 2%nat => Raised (SdkProvider RateLimit)
  | _ => Answered [demo_quote (PyInt (10 ^ 400))]
  end.
Definition demo_session : list outcome * LongbridgeProvider :=
  fetches (fun _ => None) (fun _ => Answered tt) demo_client (fun _ => f0) (fun _ => flit 1700000001 0)
    (mkLongbridge true false no_diagnostics 0 0 0)
    [["600519.SH"]; ["600519.SH"]; []; ["600519.SH"]; ["600519.SH"; "AAPL"]].
Lemma demo_client_valid k l qs : demo_client k l = Answered qs -> Forall quote_valid qs.
Proof.
  destruct k as [|[|[|k]]]; cbn [demo_client]; try done; intros [= <-]; (apply Forall_singleton; split; [|reflexivity]);
    unfold row_valid; repeat (apply Forall_cons_2; [exact I|]); apply Forall_nil_2.
Qed.
Lemma longbridge_accounts_witness :
  let d := lb_diagnostics demo_session.2 in
  (pd_success d, pd_failure d, pd_timeout d, pd_rate_limit d) = (1, 2, 1, 1) /\ tally asked demo_session.1 = 4 /\ counts_ok d /\
  Forall (fun o => forall snaps, o.2 = Ok snaps -> Forall snapshot_ok snaps) demo_session.1.
Proof.
  destruct (longbridge_accounts (fun _ => None) false (fun _ => Answered tt) demo_client (fun _ => f0) (fun _ => flit 1700000001 0) true false
    [["600519.SH"]; ["600519.SH"]; []; ["600519.SH"]; ["600519.SH"; "AAPL"]] (mkLongbridge true false no_diagnostics 0 0 0)
    demo_session.1 demo_session.2 eq_refl) as (_ & _ & _ & _ & C & _ & _ & _ & V); [exact (surjective_pairing demo_session)|].
  split; [by vm_compute|]. split; [by vm_compute|]. split; [exact C|]. apply V, demo_client_valid.
Defined.
