(* ===== verification/Intelligence.v ===== *)
(** * Intelligence decisions (src/market_sentinel/intelligence/)

    The synchronous part of the sidecar: contract.py (statuses, episode budget), view.py,
    registry.py, compress.py (what a model may see), router.py (whether to ask one) and
    parse.py (what is accepted back).  A parsed model output is a mapping to Python values;
    the two advice patterns are matched on ASCII letters and UTF-8 bytes. *)
From Stdlib Require Import ZArith Lia Ascii String.
From stdpp Require Import prelude strings gmap.
From S2P Require Import Prelude PyFloat Domain Normalizer Cluster Telemetry.
Local Open Scope Z_scope.

(** ** contract.py *)
Inductive IntelligenceStatus := NOT_REQUESTED | QUEUED | RUNNING | ENRICHED | FALLBACK.
Module Fallback.
Inductive FallbackReason :=
| NONE | NOT_CANDIDATE | STALE_FEED | INSUFFICIENT_FEATURES | SUPPRESSED_EDGE | EPISODE_BUDGET | EXPIRED_EPISODE
| TIMEOUT | TRANSPORT | MALFORMED | RATE_LIMITED | UNAVAILABLE | CANCELLED | STALE_WORK | POLICY.
End Fallback.
Abbreviation FallbackReason := Fallback.FallbackReason.

#[export] Instance IntelligenceStatus_eq : EqDecision IntelligenceStatus.
Proof. solve_decision. Defined.
#[export] Instance FallbackReason_eq : EqDecision FallbackReason.
Proof. solve_decision. Defined.

Definition intelligence_status_value (s : IntelligenceStatus) : string :=
  match s with
  | NOT_REQUESTED => "not_requested" | QUEUED => "queued" | RUNNING => "running" | ENRICHED => "enriched" | FALLBACK => "fallback"
  end.
Definition fallback_value (r : FallbackReason) : string :=
  match r with
  | Fallback.NONE => "none" | Fallback.NOT_CANDIDATE => "not_candidate" | Fallback.STALE_FEED => "stale_feed"
  | Fallback.INSUFFICIENT_FEATURES => "insufficient_features" | Fallback.SUPPRESSED_EDGE => "suppressed_edge"
  | Fallback.EPISODE_BUDGET => "episode_budget" | Fallback.EXPIRED_EPISODE => "expired_episode"
  | Fallback.TIMEOUT => "timeout" | Fallback.TRANSPORT => "transport" | Fallback.MALFORMED => "malformed"
  | Fallback.RATE_LIMITED => "rate_limited" | Fallback.UNAVAILABLE => "unavailable" | Fallback.CANCELLED => "cancelled"
  | Fallback.STALE_WORK => "stale_work" | Fallback.POLICY => "policy"
  end.

Record IntelligenceInput := mkInput {
  in_signal_id : string;
  in_symbol : string;
  in_family : string;
  in_direction : EventDirection;
  in_priority : SignalPriority;
  in_event_types : list string;
  in_change_1m : option float;
  in_change_5m : option float;
  in_volume_ratio_5m : option float;
  in_above_vwap : option bool;
  in_rsi14 : option float;
  in_day_range : option float;
  in_feed_status : FeedStatus;
  in_alert_edge : bool;
  in_call_count : Z;
  in_last_priority : option SignalPriority;
  in_expired : bool
}.

Record IntelligenceAnnotation := mkAnnotation {
  an_signal_id : string;
  an_worth_highlight : bool;
  an_reason : string;
  an_confidence : float;
  an_summary : string;
  an_created : float
}.

Record IntelligenceResult := mkResult {
  ir_signal_id : string;
  ir_status : IntelligenceStatus;
  ir_requested : bool;
  ir_annotation : option IntelligenceAnnotation;
  ir_fallback : FallbackReason;
  ir_model_calls : Z;
  ir_router_latency : option float;
  ir_model_latency : option float;
  ir_parse_latency : option float
}.

Record EpisodeCallBudget := mkBudget { bd_max_calls : Z; bd_escalation : bool }.
Definition default_budget : EpisodeCallBudget := mkBudget 1 false.

Definition budget_allows_call (budget : EpisodeCallBudget) (calls_made : Z) (current : SignalPriority)
    (last_priority : option SignalPriority) : bool :=
  if calls_made <? bd_max_calls budget then true
  else if negb (bd_escalation budget) then false
  else match last_priority with
       | None => false
       | Some last =>
           if bd_max_calls budget + 1 <=? calls_made then false
           else priority_rank last <? priority_rank current
       end.

(** ** view.py, registry.py *)
Definition intelligence_view (result : option IntelligenceResult) (signal_id : string) : IntelligenceResult :=
  match result with
  | Some r => r
  | None => mkResult signal_id NOT_REQUESTED false None Fallback.NONE 0 None None None
  end.

Abbreviation AnnotationRegistry := (gmap string IntelligenceResult).
Definition registry_put (rows : AnnotationRegistry) (r : IntelligenceResult) : AnnotationRegistry := <[ir_signal_id r := r]> rows.
Definition registry_drop (rows : AnnotationRegistry) (signal_id : string) : AnnotationRegistry := delete signal_id rows.
Definition registry_prune (rows : AnnotationRegistry) (active_ids : gset string) : AnnotationRegistry :=
  filter (fun row => row.1 ∈ active_ids) rows.

(** ** compress.py *)
Definition MODEL_PAYLOAD_KEYS : list string :=
  ["signal_id"; "symbol"; "family"; "direction"; "priority"; "event_types"; "change_1m"; "change_5m"; "volume_ratio_5m";
   "above_vwap"; "rsi14"; "day_range_position"].
Definition FORBIDDEN_PAYLOAD_KEYS : list string :=
  ["event_ids"; "rule_names"; "features"; "priority_reason"; "ticks"; "snapshots"; "ring_buffer"; "source_code"; "workspace";
   "conversation"; "api_key"; "prompt"; "files"].

(** [sorted(set(names))] *)
Definition sorted_set (names : list string) : list string := sort_by String.leb (fromkeys names).

Definition compress_intelligence_input (signal : Signal) (trace : SignalTrace) (feed_status : FeedStatus) (alert_edge : bool)
    (episode_call_count : Z) (last_requested_priority : option SignalPriority) (expired : bool) : IntelligenceInput :=
  let f := tr_features trace in
  mkInput (sig_id signal) (sig_symbol signal) (sig_family signal) (sig_direction signal) (sig_priority signal)
    (sorted_set (tr_rule_names trace)) (change_1m f) (change_5m f) (volume_ratio_5m f) (above_vwap f) (rsi14 f)
    (day_range_position f) feed_status alert_edge episode_call_count last_requested_priority expired.

(** A payload value: a scalar or a list of strings. *)
Inductive payload_value := PScalar (v : pyval) | PStrings (l : list string).
Definition opt_bool (o : option bool) : pyval := match o with Some b => PyBool b | None => PyNone end.

Definition to_model_payload (row : IntelligenceInput) : list (string * payload_value) :=
  [("signal_id", PScalar (PyStr (in_signal_id row)));
   ("symbol", PScalar (PyStr (in_symbol row)));
   ("family", PScalar (PyStr (in_family row)));
   ("direction", PScalar (PyStr (direction_value (in_direction row))));
   ("priority", PScalar (PyStr (priority_value (in_priority row))));
   ("event_types", PStrings (in_event_types row));
   ("change_1m", PScalar (opt_float (in_change_1m row)));
   ("change_5m", PScalar (opt_float (in_change_5m row)));
   ("volume_ratio_5m", PScalar (opt_float (in_volume_ratio_5m row)));
   ("above_vwap", PScalar (opt_bool (in_above_vwap row)));
   ("rsi14", PScalar (opt_float (in_rsi14 row)));
   ("day_range_position", PScalar (opt_float (in_day_range row)))].

(** ** router.py *)
Definition PRICE_TYPES : list string := [type_value RAPID_MOVE; type_value PRICE_VOLUME_EXPANSION].
Definition VOLUME_TYPES : list string := [type_value VOLUME_SPIKE; type_value PRICE_VOLUME_EXPANSION].
Definition BREAKOUT_TYPES : list string := [type_value DAY_HIGH_BREAKOUT; type_value DAY_LOW_BREAKDOWN].
Definition unhealthy (s : FeedStatus) : bool := match s with STALE | DISCONNECTED => true | _ => false end.

Record RouterPolicy := mkRouterPolicy { rp_min_priority : SignalPriority; rp_require_edge : bool; rp_min_types : Z }.
Definition default_router_policy : RouterPolicy := mkRouterPolicy IMPORTANT true 3.
Record RouterDecision := mkDecision { rd_requested : bool; rd_reason : FallbackReason; rd_candidate : bool }.

Definition meets (types wanted : list string) : bool := existsb (fun t => bool_decide (t ∈ wanted)) types.

Definition is_candidate (row : IntelligenceInput) (policy : RouterPolicy) : bool :=
  if priority_rank (rp_min_priority policy) <=? priority_rank (in_priority row) then true
  else
    let types := fromkeys (in_event_types row) in
    if meets types PRICE_TYPES && meets types VOLUME_TYPES && meets types BREAKOUT_TYPES then true
    else (rp_min_types policy <=? Z.of_nat (length types)) && meets types PRICE_TYPES && meets types VOLUME_TYPES.

Definition insufficient_features (row : IntelligenceInput) : bool :=
  is_none (in_change_1m row) && is_none (in_change_5m row) && is_none (in_volume_ratio_5m row).

Definition need_intelligence (row : IntelligenceInput) (policy : RouterPolicy) (budget : EpisodeCallBudget) : RouterDecision :=
  let candidate := is_candidate row policy in
  if in_expired row then mkDecision false Fallback.EXPIRED_EPISODE candidate
  else if rp_require_edge policy && negb (in_alert_edge row) then mkDecision false Fallback.SUPPRESSED_EDGE candidate
  else if unhealthy (in_feed_status row) then mkDecision false Fallback.STALE_FEED candidate
  else if insufficient_features row then mkDecision false Fallback.INSUFFICIENT_FEATURES candidate
  else if negb candidate then mkDecision false Fallback.NOT_CANDIDATE false
  else if negb (budget_allows_call budget (in_call_count row) (in_priority row) (in_last_priority row))
  then mkDecision false Fallback.EPISODE_BUDGET true
  else mkDecision true Fallback.NONE true.

(** ** parse.py *)
Record ModelCompletion := mkCompletion {
  mc_worth_highlight : bool;
  mc_reason : string;
  mc_confidence : float;
  mc_summary : string;
  mc_token_in : option Z;
  mc_token_out : option Z
}.

Definition REQUIRED_KEYS : list string := ["worth_highlight"; "reason"; "confidence"; "summary"].

(** The words of the English pattern; a space stands for [\s+]. *)
Definition EN_ADVICE : list string :=
  ["buy"; "sell"; "bought"; "sold"; "hold"; "entry"; "exit"; "stop loss"; "stop losses"; "take profit"; "target price";
   "position size"; "position sizing"; "go long"; "go short"; "long position"; "short position"].
Definition ZH_ADVICE : list string :=
  ["买入"; "卖出"; "持有"; "增持"; "减持"; "加仓"; "减仓"; "建仓"; "仓位"; "做多"; "做空"; "看多"; "看空"; "抄底"; "追涨"; "逢低";
   "止损"; "止盈"; "目标价"; "布局"].

Definition is_letter (c : ascii) : bool := is_upper c || is_lower c.

(** The rest after a match of a word's letters, case-insensitively. *)
Fixpoint match_word (word s : string) : option string :=
  match word with
  | "" => Some s
  | String w word' =>
      match s with
      | "" => None
      | String c s' =>
          if bool_decide (w = " "%char) then if is_space c then match_word word' (drop_spaces s') else None
          else if bool_decide (lower_ascii c = w) then match_word word' s' else None
      end
  end.

Definition word_here (before_letter : bool) (s : string) : bool :=
  negb before_letter &&
  existsb (fun w => match match_word w s with
                    | Some (String c _) => negb (is_letter c)
                    | Some "" => true
                    | None => false
                    end) EN_ADVICE.

Fixpoint has_prefix (p s : string) : bool :=
  match p, s with
  | "", _ => true
  | String a p, String b s => bool_decide (a = b) && has_prefix p s
  | _, "" => false
  end.

(** [search] of both patterns. *)
Fixpoint advice_from (before_letter : bool) (s : string) : bool :=
  word_here before_letter s || existsb (fun w => has_prefix w s) ZH_ADVICE ||
  match s with "" => false | String c s' => advice_from (is_letter c) s' end.
Definition contains_trading_advice (text : string) : bool := advice_from false text.

Definition malformed {A} (msg : string) : result A := Err (IntelligenceError "IntelligenceMalformedError" msg).

(** [data] is the decoded JSON value: [None] when it is not JSON, [Some None] when it is not
    an object. *)
Definition parse_model_output (decoded : option (option record)) : result ModelCompletion :=
  match decoded with
  | None => malformed "model output is not JSON"
  | Some None => malformed "model output is not an object"
  | Some (Some data) =>
      if existsb (fun k => is_none (od_get k data)) REQUIRED_KEYS then malformed "model output missing fields"
      else
        match get data "worth_highlight" with
        | PyBool worth =>
            match get data "reason" with
            | PyStr reason =>
                if blank reason then malformed "reason must be a non-empty string"
                else
                  match get data "summary" with
                  | PyStr summary =>
                      if blank summary then malformed "summary must be a non-empty string"
                      else
                        match get data "confidence" with
                        | PyInt _ | PyFloat _ =>
                            confidence ← py_float (get data "confidence");
                            if negb (fle f0 confidence && fle confidence (flit 1 0)) then malformed "confidence out of range"
                            else if contains_trading_advice reason || contains_trading_advice summary
                            then malformed "trading advice is not allowed"
                            else Ok (mkCompletion worth (strip reason) confidence (strip summary) None None)
                        | _ => malformed "confidence must be a number"
                        end
                  | _ => malformed "summary must be a non-empty string"
                  end
            | _ => malformed "reason must be a non-empty string"
            end
        | _ => malformed "worth_highlight must be bool"
        end
  end.

Example advice_examples :
  map contains_trading_advice ["Time to BUY now"; "short-term threshold"; "stop  loss near"; "along the trend"; "观察后buy。"; "建议减仓"; "holding"]
  = [true; false; true; false; true; true; false].
Proof. vm_compute. reflexivity. Qed.

(** ** The published text *)
Fixpoint all_spaces (s : string) : bool := match s with "" => true | String c s' => is_space c && all_spaces s' end.

Lemma append_nil_r s : s +:+ "" = s.
Proof. induction s as [|c s IH]; [done|]. by rewrite append_cons, IH. Qed.
Lemma append_assoc s t u : (s +:+ t) +:+ u = s +:+ (t +:+ u).
Proof. induction s as [|c s IH]; [done|]. by rewrite !append_cons, IH. Qed.

Lemma rev_app_append s : forall t, String.rev_app s t = String.rev s +:+ t.
Proof.
  unfold String.rev. induction s as [|c s IH]; intros t; cbn [String.rev_app]; [done|].
  rewrite (IH (String c t)), (IH (String c "")), append_assoc. done.
Qed.
Lemma rev_cons c s : String.rev (String c s) = String.rev s +:+ String c "".
Proof. unfold String.rev at 1. cbn [String.rev_app]. apply rev_app_append. Qed.
Lemma rev_append s t : String.rev (s +:+ t) = String.rev t +:+ String.rev s.
Proof.
  induction s as [|c s IH]; [by rewrite append_nil_r|].
  by rewrite append_cons, !rev_cons, IH, append_assoc.
Qed.
Lemma rev_involutive s : String.rev (String.rev s) = s.
Proof. induction s as [|c s IH]; [done|]. rewrite rev_cons, rev_append, IH. done. Qed.
Lemma all_spaces_append s t : all_spaces (s +:+ t) = all_spaces s && all_spaces t.
Proof. induction s as [|c s IH]; [done|]. rewrite append_cons. cbn. by rewrite IH, andb_assoc. Qed.
Lemma all_spaces_rev s : all_spaces (String.rev s) = all_spaces s.
Proof.
  induction s as [|c s IH]; [done|]. rewrite rev_cons, all_spaces_append, IH. cbn.
  rewrite andb_true_r. apply andb_comm.
Qed.
Lemma drop_spaces_split s : exists u, all_spaces u = true /\ s = u +:+ drop_spaces s.
Proof.
  induction s as [|c s (u & Hu & Hs)]; [by exists ""|]. cbn. destruct (is_space c) eqn:E; [|by exists ""].
  exists (String c u). cbn. rewrite E, Hu. split; [done|]. by rewrite append_cons, <- Hs.
Qed.
Lemma strip_split s : exists u v, all_spaces u = true /\ all_spaces v = true /\ s = u +:+ (strip s +:+ v).
Proof.
  destruct (drop_spaces_split s) as (u & Hu & Hs).
  destruct (drop_spaces_split (String.rev (drop_spaces s))) as (w & Hw & Hr).
  exists u, (String.rev w). rewrite all_spaces_rev. split_and!; [done..|].
  rewrite Hs at 1. f_equal. unfold strip. rewrite <- rev_append, <- Hr. symmetry. apply rev_involutive.
Qed.

Lemma drop_spaces_append s v : drop_spaces s <> "" -> drop_spaces (s +:+ v) = drop_spaces s +:+ v.
Proof. induction s as [|c s IH]; [done|]. rewrite append_cons. cbn. by destruct (is_space c). Qed.

(** No word of the pattern ends in a space. *)
Fixpoint tidy (w : string) : bool :=
  match w with "" => true | String c "" => negb (bool_decide (c = " "%char)) | String _ w' => tidy w' end.

Lemma tidy_tail c w : tidy (String c w) = true -> tidy w = true.
Proof. destruct w; [done|]. done. Qed.

Lemma match_word_append w s r v : tidy w = true -> match_word w s = Some r -> match_word w (s +:+ v) = Some (r +:+ v).
Proof.
  revert s. induction w as [|a w IH]; intros s Hw; cbn; [by intros [= ->]|].
  destruct s as [|c s]; [done|]. rewrite append_cons. case_bool_decide as Ha.
  - destruct (is_space c); [|done]. intros Hm.
    destruct w as [|a' w]; [by subst|].
    rewrite drop_spaces_append.
    + apply IH; [by apply (tidy_tail a)|done].
    + intros He. rewrite He in Hm. done.
  - case_bool_decide; [|done]. apply IH. by apply (tidy_tail a).
Qed.

Lemma has_prefix_append p s v : has_prefix p s = true -> has_prefix p (s +:+ v) = true.
Proof.
  revert s. induction p as [|a p IH]; intros [|c s]; rewrite ?append_cons; cbn; try done. intros [? ?]%andb_prop. apply andb_true_intro. auto.
Qed.

Lemma space_not_letter c : is_space c = true -> is_letter c = false.
Proof.
  unfold is_space, is_letter, is_upper, is_lower, in_range. intros H. apply orb_false_intro; apply andb_false_iff;
    apply orb_prop in H as [H|H]; apply andb_prop in H as [?%Z.leb_le ?%Z.leb_le]; rewrite !Z.leb_gt; lia.
Qed.

Lemma word_here_append b s v : all_spaces v = true -> word_here b s = true -> word_here b (s +:+ v) = true.
Proof.
  unfold word_here. intros Hv [Hb Hw]%andb_prop. apply andb_true_intro. split; [done|].
  apply existsb_exists in Hw as (w & Hin & Hw). apply existsb_exists. exists w. split; [done|].
  assert (Ht : tidy w = true).
  { assert (forallb tidy EN_ADVICE = true) as H by done. rewrite forallb_forall in H. auto. }
  destruct (match_word w s) as [r|] eqn:E; [|done]. rewrite (match_word_append _ _ _ _ Ht E).
  destruct r as [|c r]; [|done]. change ("" +:+ v) with v. destruct v as [|c v]; [done|]. rewrite ?append_cons. cbn in *. apply andb_prop in Hv as [Hc _].
  by rewrite space_not_letter.
Qed.

Lemma advice_append b s v : all_spaces v = true -> advice_from b s = true -> advice_from b (s +:+ v) = true.
Proof.
  intros Hv. revert b. induction s as [|c s IH]; intros b H.
  - cbn in H. rewrite orb_false_r in H. destruct (word_here b "") eqn:E; [|by destruct b].
    pose proof (word_here_append b "" v Hv E) as E'. change ("" +:+ v) with v in *. destruct v; cbn [advice_from]; by rewrite E'.
  - cbn [advice_from] in H. rewrite append_cons. cbn [advice_from].
    apply orb_prop in H as [H|H]; [apply orb_prop in H as [H|H]|].
    + change (String c (s +:+ v)) with (String c s +:+ v). by rewrite word_here_append.
    + rewrite orb_true_iff. left. rewrite orb_true_iff. right.
      apply existsb_exists in H as (w & Hin & Hw). apply existsb_exists. exists w. split; [done|].
      by apply (has_prefix_append w (String c s)).
    + rewrite (IH _ H). apply orb_true_r.
Qed.

Lemma advice_prepend u s : all_spaces u = true -> advice_from false s = true -> advice_from false (u +:+ s) = true.
Proof.
  induction u as [|c u IH]; intros Hu H; [done|]. cbn in Hu. apply andb_prop in Hu as [Hc Hu].
  rewrite append_cons. cbn [advice_from]. rewrite (space_not_letter _ Hc), (IH Hu H). apply orb_true_r.
Qed.

(** Stripping cannot create advice. *)
Lemma strip_advice s : contains_trading_advice s = false -> contains_trading_advice (strip s) = false.
Proof.
  unfold contains_trading_advice. intros H. destruct (advice_from false (strip s)) eqn:E; [|done].
  destruct (strip_split s) as (u & v & Hu & Hv & Hs). rewrite Hs in H.
  rewrite advice_prepend in H; [done..|]. by apply advice_append.
Qed.

Lemma bind_of_option {A B} e (o : option A) (k : A -> result B) :
  (of_option e o ≫= k) = match o with Some a => k a | None => Err e end.
Proof. by destruct o. Qed.

(** The fields an accepted object carries. *)
Definition carries (data : record) (worth : bool) (reason summary : string) (number : pyval) : Prop :=
  od_get "worth_highlight" data = Some (PyBool worth) /\ od_get "reason" data = Some (PyStr reason) /\
  od_get "summary" data = Some (PyStr summary) /\ od_get "confidence" data = Some number /\
  match number with PyInt _ | PyFloat _ => True | _ => False end.

Lemma required_present (data : record) :
  existsb (fun k => is_none (od_get k data)) REQUIRED_KEYS = false <-> forall k, k ∈ REQUIRED_KEYS -> is_Some (od_get k data).
Proof.
  rewrite <- not_true_iff_false, existsb_exists. split.
  - intros H k Hk. destruct (od_get k data) eqn:E; [by eexists|]. exfalso. apply H. exists k.
    split; [by apply list_elem_of_In|]. by rewrite E.
  - intros H (k & Hk & Hn). apply list_elem_of_In in Hk. destruct (H k Hk) as [v Hv]. by rewrite Hv in Hn.
Qed.

Lemma get_some (data : record) k v : od_get k data = Some v -> get data k = v.
Proof. unfold get. by intros ->. Qed.
Lemma get_present (data : record) k : is_Some (od_get k data) -> od_get k data = Some (get data k).
Proof. unfold get. by intros [v ->]. Qed.

(** The parser on an object whose four fields have the right types. *)
Lemma parse_carries data worth reason summary number : carries data worth reason summary number ->
  parse_model_output (Some (Some data)) =
    if blank reason then malformed "reason must be a non-empty string"
    else if blank summary then malformed "summary must be a non-empty string"
    else confidence ← py_float number;
         if negb (fle f0 confidence && fle confidence (flit 1 0)) then malformed "confidence out of range"
         else if contains_trading_advice reason || contains_trading_advice summary then malformed "trading advice is not allowed"
         else Ok (mkCompletion worth (strip reason) confidence (strip summary) None None).
Proof.
  intros (Hw & Hr & Hs & Hc & Hn). unfold parse_model_output.
  rewrite (proj2 (required_present data)).
  - rewrite (get_some _ _ _ Hw), (get_some _ _ _ Hr), (get_some _ _ _ Hs), (get_some _ _ _ Hc).
    by destruct number.
  - intros k Hk. unfold REQUIRED_KEYS in Hk.
    repeat (apply elem_of_cons in Hk as [->|Hk]; [eexists; eassumption|]). by apply not_elem_of_nil in Hk.
Qed.

(** Anything else is malformed. *)
Lemma parse_not_carries decoded :
  (exists data worth reason summary number, decoded = Some (Some data) /\ carries data worth reason summary number) \/
  (exists msg, parse_model_output decoded = malformed msg).
Proof.
  destruct decoded as [[data|]|]; [|right; eexists; reflexivity..]. unfold parse_model_output.
  destruct (existsb _ REQUIRED_KEYS) eqn:E; [right; eexists; reflexivity|].
  rewrite required_present in E.
  assert (forall k, k ∈ REQUIRED_KEYS -> od_get k data = Some (get data k)) as G by (intros k Hk; apply get_present; auto).
  pose proof (G "worth_highlight" ltac:(by repeat constructor)) as Hw.
  pose proof (G "reason" ltac:(by repeat constructor)) as Hr.
  pose proof (G "summary" ltac:(by repeat constructor)) as Hs.
  pose proof (G "confidence" ltac:(by repeat constructor)) as Hc.
  destruct (get data "worth_highlight") eqn:Ew; try (right; eexists; reflexivity).
  destruct (get data "reason") eqn:Er; try (right; eexists; reflexivity).
  destruct (get data "summary") eqn:Es; try (destruct (blank s); right; eexists; reflexivity).
  destruct (get data "confidence") eqn:Ec; try (destruct (blank s), (blank s0); right; eexists; reflexivity);
    left; do 5 eexists; (split; [reflexivity|]); repeat split; done.
Qed.

(** [parse_model_output_spec] the parser accepts exactly the objects whose four fields have the required types, with
    a confidence in [0, 1] and non-blank, advice-free texts; what it publishes (the stripped
    texts) is itself non-blank and advice-free; every refusal is a malformed-output error,
    except that a huge integer confidence raises [OverflowError]. *)
Theorem parse_model_output_spec decoded :
  match parse_model_output decoded with
  | Ok c =>
      (exists data reason summary number, decoded = Some (Some data) /\
        carries data (mc_worth_highlight c) reason summary number /\ py_float number = Ok (mc_confidence c) /\
        mc_reason c = strip reason /\ mc_summary c = strip summary) /\
      fle f0 (mc_confidence c) = true /\ fle (mc_confidence c) (flit 1 0) = true /\
      mc_reason c <> "" /\ mc_summary c <> "" /\
      contains_trading_advice (mc_reason c) = false /\ contains_trading_advice (mc_summary c) = false
  | Err ex =>
      (exists msg, ex = IntelligenceError "IntelligenceMalformedError" msg) \/
      (ex = OverflowError /\ exists data n, decoded = Some (Some data) /\
        od_get "confidence" data = Some (PyInt n) /\ of_Z n = None)
  end /\
  (forall data worth reason summary number x, decoded = Some (Some data) -> carries data worth reason summary number ->
     blank reason = false -> blank summary = false -> py_float number = Ok x ->
     fle f0 x = true -> fle x (flit 1 0) = true ->
     contains_trading_advice reason = false -> contains_trading_advice summary = false ->
     parse_model_output decoded = Ok (mkCompletion worth (strip reason) x (strip summary) None None)).
Proof.
  split.
  - destruct (parse_not_carries decoded) as [(data & worth & reason & summary & number & -> & H)|[msg ->]];
      [|left; by eexists].
    rewrite (parse_carries _ _ _ _ _ H).
    destruct (blank reason) eqn:Br; [left; by eexists|]. destruct (blank summary) eqn:Bs; [left; by eexists|].
    destruct (py_float number) as [x|ex] eqn:Ef; cbn [mbind result_bind].
    + destruct (fle f0 x && fle x (flit 1 0)) eqn:Er; cbn [negb]; [|left; by eexists].
      destruct (contains_trading_advice reason || contains_trading_advice summary) eqn:Ea; [left; by eexists|].
      apply andb_prop in Er as [? ?]. apply orb_false_elim in Ea as [? ?].
      split; [by do 4 eexists|]. cbn. split_and!; [done|done| | |by apply strip_advice..].
      * unfold blank in Br. by case_bool_decide.
      * unfold blank in Bs. by case_bool_decide.
    + right. destruct H as (_ & _ & _ & Hc & Hn). destruct number as [| |n| | |]; try done. cbn in Ef.
      destruct (of_Z n) eqn:En; [done|]. injection Ef as <-. split; [done|]. by exists data, n.
  - intros data worth reason summary number x -> H Hr Hs Hx H0 H1 Ar As.
    rewrite (parse_carries _ _ _ _ _ H), Hr, Hs, Hx. cbn [mbind result_bind]. by rewrite H0, H1, Ar, As.
Qed.

(** ** The router *)
Lemma meets_spec types wanted : meets types wanted = true <-> exists t, t ∈ types /\ t ∈ wanted.
Proof.
  unfold meets. rewrite existsb_exists. split.
  - intros (t & Ht%list_elem_of_In & Hw). exists t. split; [done|]. by apply bool_decide_eq_true in Hw.
  - intros (t & Ht & Hw). exists t. split; [by apply list_elem_of_In|]. by apply bool_decide_eq_true.
Qed.

Lemma meets_fromkeys types wanted : meets (fromkeys types) wanted = true <-> exists t, t ∈ types /\ t ∈ wanted.
Proof. rewrite meets_spec. by setoid_rewrite elem_of_fromkeys. Qed.

(** The distinct names of a list. *)
Lemma fromkeys_size types : Z.of_nat (length (fromkeys types)) = Z.of_nat (size (list_to_set types : gset string)).
Proof.
  rewrite <- (size_list_to_set (C := gset string) (fromkeys types)) by apply fromkeys_nodup.
  do 2 f_equal. apply set_eq. intros x. by rewrite !elem_of_list_to_set, elem_of_fromkeys.
Qed.

(** [need_intelligence_spec] a model is asked only for a live, edge-triggered signal on a healthy feed with at least
    one change or volume feature, that is a candidate and within its episode's budget; every
    refusal names its first failing condition and its candidate flag is that of the
    candidate test, which holds exactly for a priority at the policy's minimum or a mix of
    price and volume event types together with a breakout or enough distinct types. *)
Theorem need_intelligence_spec row policy budget :
  let d := need_intelligence row policy budget in
  (rd_requested d = true <->
     in_expired row = false /\ (rp_require_edge policy = true -> in_alert_edge row = true) /\
     in_feed_status row <> STALE /\ in_feed_status row <> DISCONNECTED /\
     ~ (in_change_1m row = None /\ in_change_5m row = None /\ in_volume_ratio_5m row = None) /\
     is_candidate row policy = true /\
     budget_allows_call budget (in_call_count row) (in_priority row) (in_last_priority row) = true) /\
  (rd_requested d = true <-> rd_reason d = Fallback.NONE) /\
  rd_candidate d = is_candidate row policy /\
  (rd_reason d = Fallback.EPISODE_BUDGET -> is_candidate row policy = true /\
     budget_allows_call budget (in_call_count row) (in_priority row) (in_last_priority row) = false) /\
  (is_candidate row policy = true <->
     priority_rank (rp_min_priority policy) <= priority_rank (in_priority row) \/
     ((exists t, t ∈ in_event_types row /\ t ∈ PRICE_TYPES) /\ (exists t, t ∈ in_event_types row /\ t ∈ VOLUME_TYPES) /\
      ((exists t, t ∈ in_event_types row /\ t ∈ BREAKOUT_TYPES) \/
       rp_min_types policy <= Z.of_nat (size (list_to_set (in_event_types row) : gset string))))).
Proof.
  cbn zeta. rewrite <- fromkeys_size, <- !meets_fromkeys. split_and!.
  - unfold need_intelligence, insufficient_features.
    destruct (in_expired row); [by split; [|intros (? & _)]|].
    destruct (rp_require_edge policy && negb (in_alert_edge row)) eqn:Ee.
    { apply andb_prop in Ee as [-> Ea]. split; [done|]. intros (_ & H & _). by rewrite H in Ea. }
    assert (rp_require_edge policy = true -> in_alert_edge row = true) as He by (intros H; rewrite H in Ee; by destruct (in_alert_edge row)).
    destruct (in_feed_status row); cbn [unhealthy]; try (split; [done|]; intros (_ & _ & ? & ? & _); done).
    all: destruct (is_none (in_change_1m row) && _ && _) eqn:En;
      [apply andb_prop in En as [[? ?]%andb_prop ?]; destruct (in_change_1m row), (in_change_5m row), (in_volume_ratio_5m row); try done;
       split; [done|]; intros (_ & _ & _ & _ & Hx & _); exfalso; by apply Hx|].
    all: assert (~ (in_change_1m row = None /\ in_change_5m row = None /\ in_volume_ratio_5m row = None)) as Hn
        by (intros (H1 & H2 & H3); by rewrite H1, H2, H3 in En).
    all: destruct (is_candidate row policy); cbn [negb]; [|split; [done|]; by intros (_ & _ & _ & _ & _ & ? & _)].
    all: destruct (budget_allows_call _ _ _ _); cbn [negb]; [by split|split; [done|]; by intros (_ & _ & _ & _ & _ & _ & ?)].
  - unfold need_intelligence. repeat case_match; done.
  - unfold need_intelligence. destruct (is_candidate row policy) eqn:E; repeat case_match; done.
  - unfold need_intelligence. destruct (is_candidate row policy), (budget_allows_call _ _ _ _); repeat case_match; done.
  - unfold is_candidate. destruct (Z.leb_spec (priority_rank (rp_min_priority policy)) (priority_rank (in_priority row)));
      [naive_solver|]. cbn zeta. rewrite <- (Z.leb_le (rp_min_types policy)).
    destruct (meets _ PRICE_TYPES), (meets _ VOLUME_TYPES), (meets _ BREAKOUT_TYPES), (rp_min_types policy <=? _); cbn [andb];
      (split; [intros ?; try done; right; auto|intros [Hx|(? & ? & Hx)]; try done; first [lia|by destruct Hx]]).
Qed.

Lemma budget_bound budget calls current last :
  budget_allows_call budget calls current last = true -> calls <= bd_max_calls budget.
Proof. unfold budget_allows_call. repeat case_match; try done; intros; lia. Qed.

(** ** The payload *)
Lemma sorted_set_spec names :
  (forall x, x ∈ sorted_set names <-> x ∈ names) /\ NoDup (sorted_set names) /\
  Sorted.StronglySorted (fun a b => String.leb a b = true) (sorted_set names).
Proof.
  unfold sorted_set. split_and!.
  - intros x. by rewrite elem_of_sort_by, elem_of_fromkeys.
  - rewrite sort_by_perm. apply fromkeys_nodup.
  - apply (sort_by_sorted _ (fun _ => True)).
    + intros x y _ _. by destruct (String.leb_total x y); auto.
    + intros x y z _ _ _. apply Cluster.sle_trans.
    + by apply Forall_true.
Qed.

(** [to_model_payload_spec] what a model sees: exactly the twelve allowed keys, none of the forbidden ones; the event
    types are the rule names of the episode's trace, sorted and without duplicates; the
    numbers are those of the trace's features, and identity and direction those of the signal. *)
Theorem to_model_payload_spec signal trace feed edge calls last expired :
  let row := compress_intelligence_input signal trace feed edge calls last expired in
  let payload := to_model_payload row in
  payload.*1 = MODEL_PAYLOAD_KEYS /\ Forall (fun k => k ∉ FORBIDDEN_PAYLOAD_KEYS) payload.*1 /\
  (exists types, od_get "event_types" payload = Some (PStrings types) /\ NoDup types /\
     Sorted.StronglySorted (fun a b => String.leb a b = true) types /\ forall t, t ∈ types <-> t ∈ tr_rule_names trace) /\
  od_get "signal_id" payload = Some (PScalar (PyStr (sig_id signal))) /\
  od_get "priority" payload = Some (PScalar (PyStr (priority_value (sig_priority signal)))) /\
  od_get "change_5m" payload = Some (PScalar (opt_float (change_5m (tr_features trace)))).
Proof.
  cbn zeta. split; [done|]. split; [by apply (bool_decide_unpack _)|]. split; [|done].
  exists (sorted_set (tr_rule_names trace)). destruct (sorted_set_spec (tr_rule_names trace)) as (? & ? & ?). done.
Qed.
