(* ===== verification/Coordinator.v ===== *)
(** * The intelligence sidecar (src/market_sentinel/intelligence/coordinator.py)

    [IntelligenceCoordinator] as a state machine.  Everything between two awaits is one
    step: [observe_tick] (called by the engine), [take_work] (a worker takes the head of
    the queue and runs [_execute] up to the await of the model call), [finish] (the call
    ends with a completion, an exception or a cancellation, and [_execute] and [_run] run to
    their end), [start] and [shutdown].  The provider is whatever ends a call.  The
    telemetry runtime, shared with the pipeline, goes in and out of each step.  A call's
    task is a number; [cancel] on it is recorded and constrains nothing. *)
From Stdlib Require Import ZArith Lia Ascii String.
From stdpp Require Import prelude strings gmap relations.
From S2P Require Import Prelude PyFloat Domain Normalizer Telemetry Pipeline Health Engine Intelligence.
Local Open Scope Z_scope.

(** ** State *)
Record IntelligenceDiagnostics := mkIntelDiagnostics {
  dg_router_decisions : Z;
  dg_requests_submitted : Z;
  dg_requests_suppressed : Z;
  dg_model_calls : Z;
  dg_fallback_count : Z;
  dg_timeout_count : Z;
  dg_parse_failure_count : Z;
  dg_rate_limit_count : Z;
  dg_dropped_backpressure : Z;
  dg_stale_discard : Z;
  dg_queue_depth : Z;
  dg_router_decision_latency_s : float;
  dg_model_latency_s : float;
  dg_parse_latency_s : float;
  dg_router_latencies : list float;
  dg_model_latencies : list float
}.
Definition diagnostics_init : IntelligenceDiagnostics := mkIntelDiagnostics 0 0 0 0 0 0 0 0 0 0 0 f0 f0 f0 [] [].

Record IntelligenceWork := mkWork {
  wk_signal_id : string;
  wk_payload : IntelligenceInput;
  wk_generation : Z;
  wk_market_timestamp : float;
  wk_symbol : string;
  wk_family : string;
  wk_direction : string;
  wk_priority : string
}.

(** A worker suspended in [wait_for]. *)
Record Running := mkRunning { ru_task : nat; ru_work : IntelligenceWork; ru_started : float }.

Record Coordinator := mkCoordinator {
  co_registry : AnnotationRegistry;
  co_diag : IntelligenceDiagnostics;
  co_queue : option (list IntelligenceWork);
  co_calls : gmap string Z;
  co_last_priority : gmap string SignalPriority;
  co_generation : gmap string Z;
  co_pending : gmap string Z;
  co_active_ids : gset string;
  co_tasks : gmap string nat;
  co_in_flight : Z;
  co_closed : bool;
  co_idle : bool;
  co_running : list Running;
  co_cancelled : gset nat;
  co_next_task : nat;
  co_mono : nat;
  co_wall : nat
}.
Definition coordinator_init : Coordinator :=
  mkCoordinator ∅ diagnostics_init None ∅ ∅ ∅ ∅ ∅ ∅ 0 false true [] ∅ 0 0 0.

Definition set_registry (x : AnnotationRegistry) (c : Coordinator) : Coordinator :=
  mkCoordinator x (co_diag c) (co_queue c) (co_calls c) (co_last_priority c) (co_generation c) (co_pending c) (co_active_ids c) (co_tasks c) (co_in_flight c) (co_closed c) (co_idle c) (co_running c) (co_cancelled c) (co_next_task c) (co_mono c) (co_wall c).
Definition set_diag (x : IntelligenceDiagnostics) (c : Coordinator) : Coordinator :=
  mkCoordinator (co_registry c) x (co_queue c) (co_calls c) (co_last_priority c) (co_generation c) (co_pending c) (co_active_ids c) (co_tasks c) (co_in_flight c) (co_closed c) (co_idle c) (co_running c) (co_cancelled c) (co_next_task c) (co_mono c) (co_wall c).
Definition set_queue (x : option (list IntelligenceWork)) (c : Coordinator) : Coordinator :=
  mkCoordinator (co_registry c) (co_diag c) x (co_calls c) (co_last_priority c) (co_generation c) (co_pending c) (co_active_ids c) (co_tasks c) (co_in_flight c) (co_closed c) (co_idle c) (co_running c) (co_cancelled c) (co_next_task c) (co_mono c) (co_wall c).
Definition set_calls (x : gmap string Z) (c : Coordinator) : Coordinator :=
  mkCoordinator (co_registry c) (co_diag c) (co_queue c) x (co_last_priority c) (co_generation c) (co_pending c) (co_active_ids c) (co_tasks c) (co_in_flight c) (co_closed c) (co_idle c) (co_running c) (co_cancelled c) (co_next_task c) (co_mono c) (co_wall c).
Definition set_last_priority (x : gmap string SignalPriority) (c : Coordinator) : Coordinator :=
  mkCoordinator (co_registry c) (co_diag c) (co_queue c) (co_calls c) x (co_generation c) (co_pending c) (co_active_ids c) (co_tasks c) (co_in_flight c) (co_closed c) (co_idle c) (co_running c) (co_cancelled c) (co_next_task c) (co_mono c) (co_wall c).
Definition set_generation (x : gmap string Z) (c : Coordinator) : Coordinator :=
  mkCoordinator (co_registry c) (co_diag c) (co_queue c) (co_calls c) (co_last_priority c) x (co_pending c) (co_active_ids c) (co_tasks c) (co_in_flight c) (co_closed c) (co_idle c) (co_running c) (co_cancelled c) (co_next_task c) (co_mono c) (co_wall c).
Definition set_pending (x : gmap string Z) (c : Coordinator) : Coordinator :=
  mkCoordinator (co_registry c) (co_diag c) (co_queue c) (co_calls c) (co_last_priority c) (co_generation c) x (co_active_ids c) (co_tasks c) (co_in_flight c) (co_closed c) (co_idle c) (co_running c) (co_cancelled c) (co_next_task c) (co_mono c) (co_wall c).
Definition set_active_ids (x : gset string) (c : Coordinator) : Coordinator :=
  mkCoordinator (co_registry c) (co_diag c) (co_queue c) (co_calls c) (co_last_priority c) (co_generation c) (co_pending c) x (co_tasks c) (co_in_flight c) (co_closed c) (co_idle c) (co_running c) (co_cancelled c) (co_next_task c) (co_mono c) (co_wall c).
Definition set_tasks (x : gmap string nat) (c : Coordinator) : Coordinator :=
  mkCoordinator (co_registry c) (co_diag c) (co_queue c) (co_calls c) (co_last_priority c) (co_generation c) (co_pending c) (co_active_ids c) x (co_in_flight c) (co_closed c) (co_idle c) (co_running c) (co_cancelled c) (co_next_task c) (co_mono c) (co_wall c).
Definition set_in_flight (x : Z) (c : Coordinator) : Coordinator :=
  mkCoordinator (co_registry c) (co_diag c) (co_queue c) (co_calls c) (co_last_priority c) (co_generation c) (co_pending c) (co_active_ids c) (co_tasks c) x (co_closed c) (co_idle c) (co_running c) (co_cancelled c) (co_next_task c) (co_mono c) (co_wall c).
Definition set_closed (x : bool) (c : Coordinator) : Coordinator :=
  mkCoordinator (co_registry c) (co_diag c) (co_queue c) (co_calls c) (co_last_priority c) (co_generation c) (co_pending c) (co_active_ids c) (co_tasks c) (co_in_flight c) x (co_idle c) (co_running c) (co_cancelled c) (co_next_task c) (co_mono c) (co_wall c).
Definition set_idle (x : bool) (c : Coordinator) : Coordinator :=
  mkCoordinator (co_registry c) (co_diag c) (co_queue c) (co_calls c) (co_last_priority c) (co_generation c) (co_pending c) (co_active_ids c) (co_tasks c) (co_in_flight c) (co_closed c) x (co_running c) (co_cancelled c) (co_next_task c) (co_mono c) (co_wall c).
Definition set_running (x : list Running) (c : Coordinator) : Coordinator :=
  mkCoordinator (co_registry c) (co_diag c) (co_queue c) (co_calls c) (co_last_priority c) (co_generation c) (co_pending c) (co_active_ids c) (co_tasks c) (co_in_flight c) (co_closed c) (co_idle c) x (co_cancelled c) (co_next_task c) (co_mono c) (co_wall c).
Definition set_cancelled (x : gset nat) (c : Coordinator) : Coordinator :=
  mkCoordinator (co_registry c) (co_diag c) (co_queue c) (co_calls c) (co_last_priority c) (co_generation c) (co_pending c) (co_active_ids c) (co_tasks c) (co_in_flight c) (co_closed c) (co_idle c) (co_running c) x (co_next_task c) (co_mono c) (co_wall c).
Definition set_next_task (x : nat) (c : Coordinator) : Coordinator :=
  mkCoordinator (co_registry c) (co_diag c) (co_queue c) (co_calls c) (co_last_priority c) (co_generation c) (co_pending c) (co_active_ids c) (co_tasks c) (co_in_flight c) (co_closed c) (co_idle c) (co_running c) (co_cancelled c) x (co_mono c) (co_wall c).
Definition set_mono (x : nat) (c : Coordinator) : Coordinator :=
  mkCoordinator (co_registry c) (co_diag c) (co_queue c) (co_calls c) (co_last_priority c) (co_generation c) (co_pending c) (co_active_ids c) (co_tasks c) (co_in_flight c) (co_closed c) (co_idle c) (co_running c) (co_cancelled c) (co_next_task c) x (co_wall c).
Definition set_wall (x : nat) (c : Coordinator) : Coordinator :=
  mkCoordinator (co_registry c) (co_diag c) (co_queue c) (co_calls c) (co_last_priority c) (co_generation c) (co_pending c) (co_active_ids c) (co_tasks c) (co_in_flight c) (co_closed c) (co_idle c) (co_running c) (co_cancelled c) (co_next_task c) (co_mono c) x.

(** Counter updates. *)
Definition count_decision (d : IntelligenceDiagnostics) : IntelligenceDiagnostics :=
  mkIntelDiagnostics (dg_router_decisions d + 1) (dg_requests_submitted d) (dg_requests_suppressed d) (dg_model_calls d) (dg_fallback_count d) (dg_timeout_count d) (dg_parse_failure_count d) (dg_rate_limit_count d) (dg_dropped_backpressure d) (dg_stale_discard d) (dg_queue_depth d) (dg_router_decision_latency_s d) (dg_model_latency_s d) (dg_parse_latency_s d) (dg_router_latencies d) (dg_model_latencies d).
Definition count_submitted (d : IntelligenceDiagnostics) : IntelligenceDiagnostics :=
  mkIntelDiagnostics (dg_router_decisions d) (dg_requests_submitted d + 1) (dg_requests_suppressed d) (dg_model_calls d) (dg_fallback_count d) (dg_timeout_count d) (dg_parse_failure_count d) (dg_rate_limit_count d) (dg_dropped_backpressure d) (dg_stale_discard d) (dg_queue_depth d) (dg_router_decision_latency_s d) (dg_model_latency_s d) (dg_parse_latency_s d) (dg_router_latencies d) (dg_model_latencies d).
Definition count_suppressed (d : IntelligenceDiagnostics) : IntelligenceDiagnostics :=
  mkIntelDiagnostics (dg_router_decisions d) (dg_requests_submitted d) (dg_requests_suppressed d + 1) (dg_model_calls d) (dg_fallback_count d) (dg_timeout_count d) (dg_parse_failure_count d) (dg_rate_limit_count d) (dg_dropped_backpressure d) (dg_stale_discard d) (dg_queue_depth d) (dg_router_decision_latency_s d) (dg_model_latency_s d) (dg_parse_latency_s d) (dg_router_latencies d) (dg_model_latencies d).
Definition count_model_call (d : IntelligenceDiagnostics) : IntelligenceDiagnostics :=
  mkIntelDiagnostics (dg_router_decisions d) (dg_requests_submitted d) (dg_requests_suppressed d) (dg_model_calls d + 1) (dg_fallback_count d) (dg_timeout_count d) (dg_parse_failure_count d) (dg_rate_limit_count d) (dg_dropped_backpressure d) (dg_stale_discard d) (dg_queue_depth d) (dg_router_decision_latency_s d) (dg_model_latency_s d) (dg_parse_latency_s d) (dg_router_latencies d) (dg_model_latencies d).
Definition count_fallback (d : IntelligenceDiagnostics) : IntelligenceDiagnostics :=
  mkIntelDiagnostics (dg_router_decisions d) (dg_requests_submitted d) (dg_requests_suppressed d) (dg_model_calls d) (dg_fallback_count d + 1) (dg_timeout_count d) (dg_parse_failure_count d) (dg_rate_limit_count d) (dg_dropped_backpressure d) (dg_stale_discard d) (dg_queue_depth d) (dg_router_decision_latency_s d) (dg_model_latency_s d) (dg_parse_latency_s d) (dg_router_latencies d) (dg_model_latencies d).
Definition count_timeout (d : IntelligenceDiagnostics) : IntelligenceDiagnostics :=
  mkIntelDiagnostics (dg_router_decisions d) (dg_requests_submitted d) (dg_requests_suppressed d) (dg_model_calls d) (dg_fallback_count d) (dg_timeout_count d + 1) (dg_parse_failure_count d) (dg_rate_limit_count d) (dg_dropped_backpressure d) (dg_stale_discard d) (dg_queue_depth d) (dg_router_decision_latency_s d) (dg_model_latency_s d) (dg_parse_latency_s d) (dg_router_latencies d) (dg_model_latencies d).
Definition count_parse_failure (d : IntelligenceDiagnostics) : IntelligenceDiagnostics :=
  mkIntelDiagnostics (dg_router_decisions d) (dg_requests_submitted d) (dg_requests_suppressed d) (dg_model_calls d) (dg_fallback_count d) (dg_timeout_count d) (dg_parse_failure_count d + 1) (dg_rate_limit_count d) (dg_dropped_backpressure d) (dg_stale_discard d) (dg_queue_depth d) (dg_router_decision_latency_s d) (dg_model_latency_s d) (dg_parse_latency_s d) (dg_router_latencies d) (dg_model_latencies d).
Definition count_rate_limit (d : IntelligenceDiagnostics) : IntelligenceDiagnostics :=
  mkIntelDiagnostics (dg_router_decisions d) (dg_requests_submitted d) (dg_requests_suppressed d) (dg_model_calls d) (dg_fallback_count d) (dg_timeout_count d) (dg_parse_failure_count d) (dg_rate_limit_count d + 1) (dg_dropped_backpressure d) (dg_stale_discard d) (dg_queue_depth d) (dg_router_decision_latency_s d) (dg_model_latency_s d) (dg_parse_latency_s d) (dg_router_latencies d) (dg_model_latencies d).
Definition count_dropped (d : IntelligenceDiagnostics) : IntelligenceDiagnostics :=
  mkIntelDiagnostics (dg_router_decisions d) (dg_requests_submitted d) (dg_requests_suppressed d) (dg_model_calls d) (dg_fallback_count d) (dg_timeout_count d) (dg_parse_failure_count d) (dg_rate_limit_count d) (dg_dropped_backpressure d + 1) (dg_stale_discard d) (dg_queue_depth d) (dg_router_decision_latency_s d) (dg_model_latency_s d) (dg_parse_latency_s d) (dg_router_latencies d) (dg_model_latencies d).
Definition count_stale (d : IntelligenceDiagnostics) : IntelligenceDiagnostics :=
  mkIntelDiagnostics (dg_router_decisions d) (dg_requests_submitted d) (dg_requests_suppressed d) (dg_model_calls d) (dg_fallback_count d) (dg_timeout_count d) (dg_parse_failure_count d) (dg_rate_limit_count d) (dg_dropped_backpressure d) (dg_stale_discard d + 1) (dg_queue_depth d) (dg_router_decision_latency_s d) (dg_model_latency_s d) (dg_parse_latency_s d) (dg_router_latencies d) (dg_model_latencies d).
Definition add_router_latency (x : float) (d : IntelligenceDiagnostics) : IntelligenceDiagnostics :=
  mkIntelDiagnostics (dg_router_decisions d) (dg_requests_submitted d) (dg_requests_suppressed d) (dg_model_calls d) (dg_fallback_count d) (dg_timeout_count d) (dg_parse_failure_count d) (dg_rate_limit_count d) (dg_dropped_backpressure d) (dg_stale_discard d) (dg_queue_depth d) (fadd (dg_router_decision_latency_s d) x) (dg_model_latency_s d) (dg_parse_latency_s d) (dg_router_latencies d ++ [x]) (dg_model_latencies d).
Definition add_model_latency (x : float) (d : IntelligenceDiagnostics) : IntelligenceDiagnostics :=
  mkIntelDiagnostics (dg_router_decisions d) (dg_requests_submitted d) (dg_requests_suppressed d) (dg_model_calls d) (dg_fallback_count d) (dg_timeout_count d) (dg_parse_failure_count d) (dg_rate_limit_count d) (dg_dropped_backpressure d) (dg_stale_discard d) (dg_queue_depth d) (dg_router_decision_latency_s d) (fadd (dg_model_latency_s d) x) (dg_parse_latency_s d) (dg_router_latencies d) (dg_model_latencies d ++ [x]).
Definition add_parse_latency (x : float) (d : IntelligenceDiagnostics) : IntelligenceDiagnostics :=
  mkIntelDiagnostics (dg_router_decisions d) (dg_requests_submitted d) (dg_requests_suppressed d) (dg_model_calls d) (dg_fallback_count d) (dg_timeout_count d) (dg_parse_failure_count d) (dg_rate_limit_count d) (dg_dropped_backpressure d) (dg_stale_discard d) (dg_queue_depth d) (dg_router_decision_latency_s d) (dg_model_latency_s d) (fadd (dg_parse_latency_s d) x) (dg_router_latencies d) (dg_model_latencies d).
Definition set_queue_depth (x : Z) (d : IntelligenceDiagnostics) : IntelligenceDiagnostics :=
  mkIntelDiagnostics (dg_router_decisions d) (dg_requests_submitted d) (dg_requests_suppressed d) (dg_model_calls d) (dg_fallback_count d) (dg_timeout_count d) (dg_parse_failure_count d) (dg_rate_limit_count d) (dg_dropped_backpressure d) (dg_stale_discard d) x (dg_router_decision_latency_s d) (dg_model_latency_s d) (dg_parse_latency_s d) (dg_router_latencies d) (dg_model_latencies d).
Definition diagnose (f : IntelligenceDiagnostics -> IntelligenceDiagnostics) (c : Coordinator) : Coordinator := set_diag (f (co_diag c)) c.

(** ** What a call can end with *)
Inductive Failure :=
  | IntelligenceTimeout | BuiltinTimeout | IntelligenceMalformed | IntelligenceRateLimit
  | IntelligenceTransport | IntelligenceUnavailable | IntelligenceAuth | OtherException.
Inductive Outcome :=
  | Completed (completion : ModelCompletion) (last_parse_latency_s : option float)
  | Raised (e : Failure)
  | CancelledError.

(** [_reason_for], by [isinstance] over the exception classes. *)
Definition reason_for (e : Failure) : FallbackReason :=
  match e with
  | IntelligenceTimeout | BuiltinTimeout => Fallback.TIMEOUT
  | IntelligenceMalformed => Fallback.MALFORMED
  | IntelligenceRateLimit => Fallback.RATE_LIMITED
  | IntelligenceTransport | IntelligenceUnavailable | IntelligenceAuth => Fallback.UNAVAILABLE
  | OtherException => Fallback.TRANSPORT
  end.

(** [_ROUTER_SKIP] *)
Definition ROUTER_SKIP (r : FallbackReason) : option DecisionReason :=
  match r with
  | Fallback.EXPIRED_EPISODE => Some EXPIRED_EPISODE | Fallback.SUPPRESSED_EDGE => Some SUPPRESSED_EDGE
  | Fallback.STALE_FEED => Some STALE_FEED | Fallback.INSUFFICIENT_FEATURES => Some INSUFFICIENT_FEATURES
  | Fallback.NOT_CANDIDATE => Some NOT_CANDIDATE | Fallback.EPISODE_BUDGET => Some EPISODE_BUDGET
  | _ => None
  end.

(** The optional keyword arguments of an emission. *)
Record Extra := mkExtra {
  ex_status : option string;
  ex_decision : option DecisionReason;
  ex_fallback : option string;
  ex_latency : option float;
  ex_stage : option LatencyStage;
  ex_token_in : option Z;
  ex_token_out : option Z
}.
Definition no_extra : Extra := mkExtra None None None None None None None.
Definition with_latency (x : float) (s : LatencyStage) : Extra := mkExtra None None None (Some (fmax f0 x)) (Some s) None None.

Definition intel_fields (symbol signal_id family direction priority : string) (market : float) (x : Extra) : Fields :=
  fun id name kind created run_id =>
    mkTelemetry id name kind created run_id (Some market) (Some symbol) None (Some signal_id) None (Some family) (Some direction)
      (Some priority) None (ex_status x) (ex_decision x) (ex_fallback x) None (ex_latency x) (ex_stage x) (ex_token_in x) (ex_token_out x).

Section coordinator.
Context {S F : Type} (collect : Recorder S TelemetryEvent) (uuids : nat -> string) (tel_wall : nat -> float).
Context (mono wall : nat -> float).
Context (policy : RouterPolicy) (budget : EpisodeCallBudget) (queue_size : Z).
Abbreviation Tel := (option (TelemetryRuntime S F)).

Definition monotonic_time (c : Coordinator) : float * Coordinator := (mono (co_mono c), set_mono (1 + co_mono c) c).
Definition wall_time (c : Coordinator) : float * Coordinator := (wall (co_wall c), set_wall (1 + co_wall c) c).

(** ** Telemetry *)
Definition emit_signal (name : TelemetryName) (signal : Signal) (x : Extra) (t : Tel) : Tel :=
  match t with
  | None => None
  | Some t => Some (emit collect uuids tel_wall t name None
      (intel_fields (sig_symbol signal) (sig_id signal) (sig_family signal) (direction_value (sig_direction signal))
         (priority_value (sig_priority signal)) (sig_market_ts signal) x))
  end.
Definition emit_latency (signal : Signal) (latency_s : float) (stage : LatencyStage) (t : Tel) : Tel :=
  emit_signal INTELLIGENCE_LATENCY signal (with_latency latency_s stage) t.
Definition emit_work (work : IntelligenceWork) (name : TelemetryName) (x : Extra) (t : Tel) : Tel :=
  match t with
  | None => None
  | Some t => Some (emit collect uuids tel_wall t name None
      (intel_fields (wk_symbol work) (wk_signal_id work) (wk_family work) (wk_direction work) (wk_priority work)
         (wk_market_timestamp work) x))
  end.

(** ** Episode bookkeeping *)
Definition tracked_episodes (c : Coordinator) : gset string :=
  dom (co_calls c) ∪ dom (co_generation c) ∪ dom (co_last_priority c) ∪ dom (co_pending c).
Definition tracked_episode_count (c : Coordinator) : nat := size (tracked_episodes c).

Definition maybe_forget (signal_id : string) (c : Coordinator) : Coordinator :=
  if bool_decide (signal_id ∈ co_active_ids c) then c
  else if 0 <? default 0 (co_pending c !! signal_id) then c
  else set_pending (delete signal_id (co_pending c))
         (set_generation (delete signal_id (co_generation c))
            (set_last_priority (delete signal_id (co_last_priority c))
               (set_calls (delete signal_id (co_calls c)) c))).

Definition cancel_in_flight (signal_id : string) (c : Coordinator) : Coordinator :=
  match co_tasks c !! signal_id with
  | Some task => if existsb (fun r => bool_decide (ru_task r = task)) (co_running c)
                 then set_cancelled ({[task]} ∪ co_cancelled c) c else c
  | None => c
  end.

Definition invalidate (signal_id : string) (c : Coordinator) : Coordinator :=
  let c := set_generation (<[signal_id := default 0 (co_generation c !! signal_id) + 1]> (co_generation c)) c in
  let c := set_registry (registry_drop (co_registry c) signal_id) c in
  maybe_forget signal_id (cancel_in_flight signal_id c).

(** [_retire_inactive]; the set of retired ids is visited in any order. *)
Definition retire_inactive (active_ids : gset string) (c : Coordinator) : Coordinator :=
  let c := set_active_ids active_ids c in
  let c := set_registry (registry_prune (co_registry c) active_ids) c in
  let tracked := tracked_episodes c ∪ dom (co_registry c) in
  foldl (fun c id => invalidate id c) c (elements (tracked ∖ active_ids)).

Definition work_is_live (c : Coordinator) (work : IntelligenceWork) : bool :=
  bool_decide (wk_signal_id work ∈ co_active_ids c) &&
  bool_decide (co_generation c !! wk_signal_id work = Some (wk_generation work)).

Definition store (work : IntelligenceWork) (r : IntelligenceResult) (c : Coordinator) : Coordinator :=
  if work_is_live c work then set_registry (registry_put (co_registry c) r) c else c.

Definition release_pending (signal_id : string) (c : Coordinator) : Coordinator :=
  let remaining := default 0 (co_pending c !! signal_id) - 1 in
  maybe_forget signal_id
    (if remaining <=? 0 then set_pending (delete signal_id (co_pending c)) c
     else set_pending (<[signal_id := remaining]> (co_pending c)) c).

(** [_enqueue] *)
Definition enqueue (payload : IntelligenceInput) (market : float) (symbol family direction priority : string) (c : Coordinator)
    : bool * Coordinator :=
  match co_queue c with
  | None => (false, c)
  | Some queue =>
      let id := in_signal_id payload in
      let work := mkWork id payload (default 0 (co_generation c !! id) + 1) market symbol family direction priority in
      if (0 <? queue_size) && (queue_size <=? Z.of_nat (length queue)) then (false, diagnose count_dropped c)
      else
        let calls := default 0 (co_calls c !! id) + 1 in
        let c := set_queue (Some (queue ++ [work])) c in
        let c := set_generation (<[id := wk_generation work]> (co_generation c)) c in
        let c := set_calls (<[id := calls]> (co_calls c)) c in
        let c := set_last_priority (<[id := in_priority payload]> (co_last_priority c)) c in
        let c := set_pending (<[id := default 0 (co_pending c !! id) + 1]> (co_pending c)) c in
        let c := set_idle false (diagnose count_submitted c) in
        (true, set_registry (registry_put (co_registry c) (mkResult id QUEUED true None Fallback.NONE calls None None None)) c)
  end.

(** ** [observe_tick] *)
Definition traces_by_id (traces : list SignalTrace) : gmap string SignalTrace :=
  foldl (fun d x => <[tr_signal_id x := x]> d) ∅ traces.

Definition observe_signal (feed : FeedStatus) (row : SymbolTickResult) (current_active : gset string)
    (st : Coordinator * Tel) (signal : Signal) : Coordinator * Tel :=
  let '(c, t) := st in
  match traces_by_id (tr_traces row) !! sig_id signal with
  | None => (c, t)
  | Some trace =>
      let payload := compress_intelligence_input signal trace feed
        (bool_decide (sig_id signal ∈ sig_id <$> tr_alerts row)) (default 0 (co_calls c !! sig_id signal))
        (co_last_priority c !! sig_id signal) (negb (bool_decide (sig_id signal ∈ current_active))) in
      let '(router_started, c) := monotonic_time c in
      let decision := need_intelligence payload policy budget in
      let c := diagnose count_decision c in
      let '(router_ended, c) := monotonic_time c in
      let router_s := fsub router_ended router_started in
      if negb (rd_requested decision) then
        let c := diagnose count_suppressed c in
        match ROUTER_SKIP (rd_reason decision) with
        | Some skip => (c, emit_latency signal router_s ROUTER
            (emit_signal INTELLIGENCE_SKIPPED signal (mkExtra None (Some skip) None None None None None) t))
        | None => (c, t)
        end
      else
        let '(queued, c) := enqueue payload (sig_market_ts signal) (sig_symbol signal) (sig_family signal)
          (direction_value (sig_direction signal)) (priority_value (sig_priority signal)) c in
        if queued then (c, emit_latency signal router_s ROUTER (emit_signal INTELLIGENCE_ROUTED signal no_extra t)) else (c, t)
  end.

Definition observe_row (current_active : gset string) (st : Coordinator * Tel) (x : SymbolTickResult * FeedStatus) : Coordinator * Tel :=
  foldl (observe_signal x.2 x.1 current_active) st (tr_updates x.1).

Definition expired_at (now : float) (signal : Signal) : bool :=
  match sig_expires_at signal with Some at_ => fle at_ now | None => false end.

(** The active ids of the tick, less the expired signals among its updates. *)
Definition current_active (results : EngineTickResult) (active_ids : option (gset string)) (now : float) : gset string :=
  let signals := results ≫= tr_updates in
  let given := match active_ids with Some ids => ids | None => list_to_set (sig_id <$> signals) end in
  given ∖ list_to_set (sig_id <$> filter (fun s => expired_at now s = true) signals).

(** [statuses]: what [feed_status_for] answers for the rows, in order. *)
Definition observe_tick (results : EngineTickResult) (statuses : list FeedStatus) (active_ids : option (gset string))
    (st : Coordinator * Tel) : Coordinator * Tel :=
  let '(c, t) := st in
  let '(started, c) := monotonic_time c in
  let '(now, c) := wall_time c in
  let active := current_active results active_ids now in
  let c := retire_inactive active c in
  let '(c, t) := foldl (observe_row active) (c, t) (zip results statuses) in
  let '(ended, c) := monotonic_time c in
  let c := diagnose (add_router_latency (fsub ended started)) c in
  match co_queue c with
  | Some queue => (diagnose (set_queue_depth (Z.of_nat (length queue))) c, t)
  | None => (c, t)
  end.

(** ** Workers *)

(** [_execute] up to its await, and for work already stale its end and that of [_run]. *)
Definition take_work (c : Coordinator) : option Coordinator :=
  match co_queue c with
  | Some (work :: queue) =>
      let id := wk_signal_id work in
      let c := set_queue (Some queue) c in
      if negb (work_is_live c work) then Some (release_pending id (diagnose count_stale c))
      else
        let task := co_next_task c in
        let c := set_tasks (<[id := task]> (co_tasks c)) (set_next_task (1 + task) c) in
        if negb (work_is_live c work) then
          Some (release_pending id (diagnose count_stale (set_tasks (delete id (co_tasks c)) (cancel_in_flight id c))))
        else
          let c := diagnose count_model_call (set_in_flight (co_in_flight c + 1) c) in
          let c := store work (mkResult id RUNNING true None Fallback.NONE (default 0 (co_calls c !! id)) None None None) c in
          let '(started, c) := monotonic_time c in
          Some (set_running (co_running c ++ [mkRunning task work started]) c)
  | _ => None
  end.

(** [_execute]'s [finally] *)
Definition settle (work : IntelligenceWork) (c : Coordinator) : Coordinator :=
  let c := set_tasks (delete (wk_signal_id work) (co_tasks c)) c in
  let c := set_in_flight (Z.max 0 (co_in_flight c - 1)) c in
  match co_queue c with
  | Some [] => if co_in_flight c =? 0 then set_idle true c else c
  | _ => c
  end.

Definition count_reason (r : FallbackReason) : IntelligenceDiagnostics -> IntelligenceDiagnostics :=
  match r with
  | Fallback.TIMEOUT => count_timeout | Fallback.MALFORMED => count_parse_failure | Fallback.RATE_LIMITED => count_rate_limit
  | _ => id
  end.

(** [float(x or 0.0)] *)
Definition parse_latency (x : option float) : float := match x with Some x => if feq x f0 then f0 else x | None => f0 end.

Definition on_completion (work : IntelligenceWork) (started : float) (completion : ModelCompletion) (last_parse : option float)
    (st : Coordinator * Tel) : Coordinator * Tel :=
  let '(c, t) := st in
  let id := wk_signal_id work in
  let '(ended, c) := monotonic_time c in
  let elapsed := fsub ended started in
  let c := diagnose (add_model_latency elapsed) c in
  if negb (work_is_live c work) then (diagnose count_stale c, t)
  else
    let parse_s := parse_latency last_parse in
    let c := diagnose (add_parse_latency parse_s) c in
    let '(created, c) := wall_time c in
    let annotation := mkAnnotation id (mc_worth_highlight completion) (mc_reason completion) (mc_confidence completion)
      (mc_summary completion) created in
    let c := store work (mkResult id ENRICHED true (Some annotation) Fallback.NONE (default 0 (co_calls c !! id)) None (Some elapsed) None) c in
    let t := emit_work work INTELLIGENCE_SUCCEEDED
      (mkExtra (Some (intelligence_status_value ENRICHED)) None None None None None None) t in
    let t := emit_work work INTELLIGENCE_LATENCY (with_latency elapsed MODEL) t in
    let t := emit_work work INTELLIGENCE_LATENCY (with_latency parse_s PARSE) t in
    match mc_token_in completion, mc_token_out completion with
    | None, None => (c, t)
    | i, o => (c, emit_work work INTELLIGENCE_TOKEN_USAGE (mkExtra None None None None None i o) t)
    end.

Definition on_exception (work : IntelligenceWork) (started : float) (e : Failure) (st : Coordinator * Tel) : Coordinator * Tel :=
  let '(c, t) := st in
  let id := wk_signal_id work in
  let '(ended, c) := monotonic_time c in
  let elapsed := fsub ended started in
  let c := diagnose (add_model_latency elapsed) c in
  let reason := reason_for e in
  let c := diagnose (count_reason reason) (diagnose count_fallback c) in
  if work_is_live c work then
    let c := store work (mkResult id FALLBACK true None reason (default 0 (co_calls c !! id)) None (Some elapsed) None) c in
    let t := emit_work work INTELLIGENCE_FALLBACK
      (mkExtra (Some (intelligence_status_value FALLBACK)) None (Some (fallback_value reason)) None None None None) t in
    (c, emit_work work INTELLIGENCE_LATENCY (with_latency elapsed MODEL) t)
  else (diagnose count_stale c, t).

(** [_execute] after its await; a cancellation while closed only unwinds. *)
Definition resume (work : IntelligenceWork) (started : float) (o : Outcome) (st : Coordinator * Tel) : Coordinator * Tel :=
  match o with
  | Completed completion last_parse => on_completion work started completion last_parse st
  | Raised e => on_exception work started e st
  | CancelledError => if co_closed st.1 then st else (diagnose count_stale st.1, st.2)
  end.

(** The suspended worker [i] resumes and runs [_execute] and [_run] to their end. *)
Definition finish (i : nat) (o : Outcome) (st : Coordinator * Tel) : option (Coordinator * Tel) :=
  match co_running st.1 !! i with
  | None => None
  | Some r =>
      let '(c, t) := resume (ru_work r) (ru_started r) o st in
      let c := set_running (delete i (co_running c)) c in
      Some (release_pending (wk_signal_id (ru_work r)) (settle (ru_work r) c), t)
  end.

(** ** Life cycle *)
Definition start (c : Coordinator) : Coordinator :=
  match co_queue c with Some _ => c | None => set_queue (Some []) (set_closed false c) end.

Definition reset_after_shutdown (c : Coordinator) : Coordinator :=
  mkCoordinator ∅ (co_diag c) (co_queue c) ∅ ∅ ∅ ∅ ∅ ∅ 0 (co_closed c) true (co_running c) (co_cancelled c) (co_next_task c) (co_mono c) (co_wall c).

(** The workers are cancelled and awaited: each suspended one unwinds. *)
Definition shutdown (c : Coordinator) : Coordinator :=
  match co_queue c with
  | None => reset_after_shutdown c
  | Some _ =>
      let c := set_closed true c in
      let c := foldl (fun c r => release_pending (wk_signal_id (ru_work r)) (settle (ru_work r) c)) c (co_running c) in
      reset_after_shutdown (set_queue None (set_running [] c))
  end.
End coordinator.

Lemma requested_conditions row policy budget : rd_requested (need_intelligence row policy budget) = true ->
  in_expired row = false /\ budget_allows_call budget (in_call_count row) (in_priority row) (in_last_priority row) = true.
Proof.
  unfold need_intelligence. destruct (in_expired row); [done|]. intros H. split; [done|].
  repeat case_match; try done. by apply negb_false_iff.
Qed.

(** ** Invariant

    [D] is work taken out of its place but not yet released, [X] ids not yet visited by a
    sweep, [k] the workers between the two updates of [_in_flight]. *)
Section works.
Implicit Types (ws : list IntelligenceWork) (id : string).

Definition works_of ws id : list IntelligenceWork := filter (fun w => wk_signal_id w = id) ws.
Definition positive (n : nat) : option Z := match n with O => None | _ => Some (Z.of_nat n) end.

Lemma works_of_perm ws ws' id : ws ≡ₚ ws' -> length (works_of ws id) = length (works_of ws' id).
Proof. intros P. apply Permutation_length. by apply filter_Permutation. Qed.
Lemma works_of_cons w ws id :
  length (works_of (w :: ws) id) = ((if decide (wk_signal_id w = id) then 1 else 0) + length (works_of ws id))%nat.
Proof. unfold works_of. rewrite filter_cons. by case_decide. Qed.
Lemma works_of_nil ws id : length (works_of ws id) = 0%nat -> forall w, w ∈ ws -> wk_signal_id w <> id.
Proof.
  intros H w Hw E. apply length_zero_iff_nil in H. assert (w ∈ works_of ws id) as Hin by (by apply list_elem_of_filter).
  rewrite H in Hin. by apply not_elem_of_nil in Hin.
Qed.
Lemma positive_default n : default 0 (positive n) = Z.of_nat n.
Proof. by destruct n. Qed.
Lemma positive_lt n : (0 <? default 0 (positive n)) = negb (bool_decide (n = 0%nat)).
Proof. by destruct n. Qed.
End works.

#[local] Arguments works_of : simpl never.

(** The calls an episode may make. *)
Definition call_limit (budget : EpisodeCallBudget) : Z := bd_max_calls budget + (if bd_escalation budget then 1 else 0).

Definition row_ok (id : string) (r : IntelligenceResult) : Prop :=
  ir_signal_id r = id /\ ir_requested r = true /\
  (ir_status r = ENRICHED <-> is_Some (ir_annotation r)) /\
  (forall a, ir_annotation r = Some a -> an_signal_id a = id) /\
  (ir_fallback r = Fallback.NONE <-> ir_status r <> FALLBACK).

Lemma row_ok_bare id s calls : s <> ENRICHED -> s <> FALLBACK -> row_ok id (mkResult id s true None Fallback.NONE calls None None None).
Proof. intros ? ?. unfold row_ok. cbn. rewrite is_Some_alt. naive_solver. Qed.
Lemma row_ok_enriched id a calls x : an_signal_id a = id -> row_ok id (mkResult id ENRICHED true (Some a) Fallback.NONE calls None x None).
Proof. intros ?. unfold row_ok. cbn. rewrite is_Some_alt. naive_solver. Qed.
Lemma row_ok_fallback id reason calls x : reason <> Fallback.NONE -> row_ok id (mkResult id FALLBACK true None reason calls None x None).
Proof. intros ?. unfold row_ok. cbn. rewrite is_Some_alt. naive_solver. Qed.

Record inv_core (budget : EpisodeCallBudget) (queue_size : Z) (X : gset string) (k : Z) (ws : list IntelligenceWork)
    (registry : AnnotationRegistry) (queue : option (list IntelligenceWork)) (calls : gmap string Z)
    (last_priority : gmap string SignalPriority) (generation pending : gmap string Z) (active : gset string)
    (in_flight : Z) (running : list Running) : Prop := {
  ci_registry : map_Forall (fun id r => id ∈ active /\ row_ok id r) registry;
  ci_pending : forall id, pending !! id = positive (length (works_of ws id));
  ci_generation : Forall (fun w => exists g, generation !! wk_signal_id w = Some g /\ wk_generation w <= g) ws;
  ci_distinct : NoDup ((fun w => (wk_signal_id w, wk_generation w)) <$> ws);
  ci_calls : map_Forall (fun _ n => n <= call_limit budget) calls;
  ci_tracked : forall id, id ∈ dom calls ∪ dom generation ∪ dom last_priority ∪ dom pending ->
    id ∈ active \/ id ∈ X \/ length (works_of ws id) <> 0%nat;
  ci_queue : 0 < queue_size -> Z.of_nat (length (default [] queue)) <= queue_size;
  ci_flight : in_flight = Z.of_nat (length running) + k;
  ci_called : forall id, Z.of_nat (length (works_of ws id)) <= default 0 (calls !! id)
}.

Definition works (c : Coordinator) : list IntelligenceWork := (ru_work <$> co_running c) ++ default [] (co_queue c).

Definition inv (budget : EpisodeCallBudget) (queue_size : Z) (X : gset string) (k : Z) (ws : list IntelligenceWork) (c : Coordinator) : Prop :=
  inv_core budget queue_size X k ws (co_registry c) (co_queue c) (co_calls c) (co_last_priority c) (co_generation c) (co_pending c)
    (co_active_ids c) (co_in_flight c) (co_running c).
Abbreviation coordinator_wf budget queue_size c := (inv budget queue_size ∅ 0 (works c) c).

(** The suspended workers are the same, and the queue exists as before. *)
Definition same_workers (c c' : Coordinator) : Prop :=
  co_running c' = co_running c /\ (co_queue c' = None <-> co_queue c = None).
Lemma same_workers_trans a b c : same_workers a b -> same_workers b c -> same_workers a c.
Proof. unfold same_workers. intros [-> H] [-> H']. split; [done|]. by rewrite H'. Qed.

Section preservation.
Context {S F : Type} (collect : Recorder S TelemetryEvent) (uuids : nat -> string) (tel_wall : nat -> float).
Context (mono wall : nat -> float).
Context (policy : RouterPolicy) (budget : EpisodeCallBudget) (queue_size : Z).
Abbreviation Inv := (inv budget queue_size).

Lemma inv_perm X k ws ws' c : ws ≡ₚ ws' -> Inv X k ws c -> Inv X k ws' c.
Proof.
  intros P [R Pe G Di C T Q Fl Ca]. constructor; try done.
  - intros id. rewrite Pe. f_equal. by apply works_of_perm.
  - by rewrite <- P.
  - by rewrite <- P.
  - intros id Hid. rewrite <- (works_of_perm _ _ id P). auto.
  - intros id. by rewrite <- (works_of_perm _ _ id P).
Qed.

Lemma maybe_forget_inv X k ws id c : Inv ({[id]} ∪ X) k ws c -> Inv X k ws (maybe_forget id c).
Proof.
  intros [R Pe G Di C T Q Fl Ca]. unfold maybe_forget.
  case_bool_decide as Ha.
  { constructor; try done. intros x [?|[[->%elem_of_singleton|?]%elem_of_union|?]]%T; auto. }
  rewrite Pe, positive_lt. case_bool_decide as Hn; cbn [negb].
  2:{ constructor; try done. intros x [?|[[->%elem_of_singleton|?]%elem_of_union|?]]%T; auto. }
  constructor; cbn; try done.
  - intros x. destruct (decide (x = id)) as [->|Hx]; [by rewrite lookup_delete_eq, Hn|]. by rewrite lookup_delete_ne.
  - rewrite Forall_forall in G |- *. intros w Hw. destruct (G w Hw) as (g & Hg & Hle).
    exists g. split; [|done]. rewrite lookup_delete_ne; [done|]. intros E. by apply (works_of_nil ws id Hn w Hw).
  - intros x n Hx. apply lookup_delete_Some in Hx as [_ Hx]. by apply (C x).
  - intros x Hx. rewrite !dom_delete_L in Hx. assert (x <> id /\ x ∈ dom (co_calls c) ∪ dom (co_generation c) ∪ dom (co_last_priority c) ∪ dom (co_pending c)) as [Hne Hx'] by set_solver.
    destruct (T x Hx') as [?|[[?%elem_of_singleton|?]%elem_of_union|?]]; auto.
  - intros x. destruct (decide (x = id)) as [->|Hx]; [by rewrite lookup_delete_eq, Hn|]. by rewrite lookup_delete_ne.
Qed.

Lemma cancel_inv X k ws id c : Inv X k ws c -> Inv X k ws (cancel_in_flight id c).
Proof. intros H. unfold cancel_in_flight. destruct (co_tasks c !! id); [|done]. by destruct (existsb _ _). Qed.

Lemma invalidate_inv X k ws id c : Inv ({[id]} ∪ X) k ws c -> Inv X k ws (invalidate id c).
Proof.
  intros [R Pe G Di C T Q Fl Ca]. unfold invalidate. apply maybe_forget_inv, cancel_inv. constructor; cbn; try done.
  - intros x r Hx. unfold registry_drop in Hx. apply lookup_delete_Some in Hx as [_ Hx]. by apply (R x).
  - rewrite Forall_forall in G |- *. intros w Hw. destruct (G w Hw) as (g & Hg & Hle).
    destruct (decide (id = wk_signal_id w)) as [->|Hne].
    + rewrite lookup_insert_eq. eexists. split; [done|]. rewrite Hg. cbn. lia.
    + rewrite lookup_insert_ne by done. eauto.
  - intros x Hx. rewrite dom_insert_L in Hx.
    destruct (decide (x = id)) as [->|Hne]; [right; left; set_solver|]. apply T. set_solver.
Qed.

Lemma maybe_forget_frame id c : co_active_ids (maybe_forget id c) = co_active_ids c /\ co_queue (maybe_forget id c) = co_queue c /\
  co_running (maybe_forget id c) = co_running c /\ co_diag (maybe_forget id c) = co_diag c /\ co_registry (maybe_forget id c) = co_registry c.
Proof. unfold maybe_forget. by repeat case_match. Qed.

Lemma invalidate_frame id c : co_active_ids (invalidate id c) = co_active_ids c /\ co_queue (invalidate id c) = co_queue c /\
  co_running (invalidate id c) = co_running c.
Proof.
  unfold invalidate. match goal with |- context [maybe_forget id ?d] => destruct (maybe_forget_frame id d) as (-> & -> & -> & _) end.
  unfold cancel_in_flight. by repeat case_match.
Qed.

Lemma sweep_inv k ws l : forall c, Inv (list_to_set l) k ws c -> Inv ∅ k ws (foldl (fun c id => invalidate id c) c l).
Proof.
  induction l as [|id l IH]; intros c H; cbn; [done|]. apply IH. apply invalidate_inv. exact H.
Qed.
Lemma sweep_frame l : forall c, let c' := foldl (fun c id => invalidate id c) c l in
  co_active_ids c' = co_active_ids c /\ co_queue c' = co_queue c /\ co_running c' = co_running c.
Proof.
  induction l as [|id l IH]; intros c; [done|]. cbn. destruct (IH (invalidate id c)) as (-> & -> & ->). apply invalidate_frame.
Qed.

Lemma retire_inv k ws active c : Inv ∅ k ws c ->
  Inv ∅ k ws (retire_inactive active c) /\ co_active_ids (retire_inactive active c) = active /\
  co_queue (retire_inactive active c) = co_queue c /\ co_running (retire_inactive active c) = co_running c.
Proof.
  intros [R Pe G Di C T Q Fl Ca]. unfold retire_inactive. cbn zeta. split;
    [|match goal with |- context [foldl _ ?c0 ?l] => exact (sweep_frame l c0) end].
  apply sweep_inv. constructor; cbn; try done.
  - intros x r Hx. unfold registry_prune in Hx. apply map_lookup_filter_Some in Hx as [Hx Ha]. cbn in Ha. split; [done|]. by apply (R x).
  - intros x Hx. unfold tracked_episodes. cbn. destruct (decide (x ∈ active)) as [?|Hna]; [by left|]. right; left.
    rewrite list_to_set_elements_L. set_solver.
Qed.

Lemma budget_limit calls current last : budget_allows_call budget calls current last = true -> calls + 1 <= call_limit budget.
Proof.
  unfold budget_allows_call, call_limit. destruct (Z.ltb_spec calls (bd_max_calls budget)); [destruct (bd_escalation budget); lia|].
  destruct (bd_escalation budget); [|done]. cbn. destruct last; [|done].
  destruct (Z.leb_spec (bd_max_calls budget + 1) calls); [done|]. lia.
Qed.

Lemma enqueue_inv payload market symbol family direction priority c b c' :
  Inv ∅ 0 (works c) c -> in_signal_id payload ∈ co_active_ids c ->
  default 0 (co_calls c !! in_signal_id payload) + 1 <= call_limit budget ->
  enqueue queue_size payload market symbol family direction priority c = (b, c') ->
  Inv ∅ 0 (works c') c' /\ co_active_ids c' = co_active_ids c /\ same_workers c c'.
Proof.
  intros W Hid Hb E. unfold enqueue in E. destruct (co_queue c) as [queue|] eqn:Eq; [|by injection E as <- <-].
  destruct ((0 <? queue_size) && _) eqn:Ef; injection E as <- <-; [done|]. split; [|by split; [|split; [|rewrite Eq]]].
  set (id := in_signal_id payload) in *. destruct W as [R Pe G Di C T Q Fl Ca].
  set (work := mkWork id payload _ _ _ _ _ _).
  apply (inv_perm _ _ (work :: works c)).
  { unfold works. cbn. rewrite Eq, app_assoc, (Permutation_app_comm _ [work]). done. }
  rewrite Forall_forall in G. constructor; cbn; try done.
  - intros x r Hx. unfold registry_put in Hx. cbn in Hx. apply lookup_insert_Some in Hx as [[<- <-]|[_ Hx]]; [|by apply (R x)].
    split; [done|]. by apply row_ok_bare.
  - intros x. rewrite works_of_cons. cbn [wk_signal_id work]. destruct (decide (id = x)) as [<-|Hne].
    + rewrite lookup_insert_eq, Pe, positive_default. cbn. f_equal. lia.
    + by rewrite lookup_insert_ne, Pe.
  - apply Forall_forall. intros w [->|Hw]%elem_of_cons; cbn.
    + rewrite lookup_insert_eq. eexists. split; [done|lia].
    + destruct (G w Hw) as (g & Hg & Hle). destruct (decide (id = wk_signal_id w)) as [Hi|Hne].
      * rewrite Hi, lookup_insert_eq. eexists. split; [done|]. rewrite Hg. cbn. lia.
      * rewrite lookup_insert_ne by done. eauto.
  - apply NoDup_cons. split; [|done]. intros (w & [= Hi Hg] & Hw)%list_elem_of_fmap.
    destruct (G w Hw) as (g & Hg' & Hle). rewrite <- Hi in Hg'. rewrite Hg' in Hg. cbn in Hg. lia.
  - intros x n [[<- <-]|[_ Hx]]%lookup_insert_Some; [done|]. by apply (C x).
  - intros x Hx. rewrite !dom_insert_L in Hx. destruct (decide (x = id)) as [->|Hne]; [by left|].
    destruct (T x) as [?|[?|?]]; [set_solver|auto|set_solver|]. right; right. rewrite works_of_cons. lia.
  - intros Hq. rewrite length_app. cbn. apply andb_false_iff in Ef as [?%Z.ltb_ge|?%Z.leb_gt]; lia.
  - intros x. rewrite works_of_cons. cbn [wk_signal_id work]. specialize (Ca x). destruct (decide (id = x)) as [<-|Hne].
    + rewrite lookup_insert_eq. cbn. lia.
    + by rewrite lookup_insert_ne.
Qed.

(** ** The engine's side *)
Abbreviation Wf c := (Inv ∅ 0 (works c) c).

Lemma observe_signal_inv feed row active c (t : option (TelemetryRuntime S F)) signal :
  Wf c -> co_active_ids c = active ->
  let st := observe_signal collect uuids tel_wall mono policy budget queue_size feed row active (c, t) signal in
  Wf st.1 /\ co_active_ids st.1 = active /\ same_workers c st.1.
Proof.
  intros W Ha. unfold observe_signal. destruct (traces_by_id (tr_traces row) !! sig_id signal) as [trace|]; [|done].
  cbn [monotonic_time]. destruct (rd_requested _) eqn:Er; cbn [negb].
  2:{ by destruct (ROUTER_SKIP _). }
  match goal with |- context [enqueue _ ?p ?m ?s ?f ?d ?r ?c1] => destruct (enqueue queue_size p m s f d r c1) as [b c2] eqn:Ee;
    destruct (enqueue_inv p m s f d r c1 b c2 W) as (W2 & Ha2 & Hs) end.
  - cbn. apply requested_conditions in Er as (He & _). cbn in He. apply negb_false_iff, bool_decide_eq_true in He. congruence.
  - apply requested_conditions in Er as (_ & Hb). by apply budget_limit in Hb.
  - done.
  - destruct b; (split; [exact W2|split; [etrans; [exact Ha2|exact Ha]|exact Hs]]).
Qed.

Lemma observe_rows_inv active rows : forall c (t : option (TelemetryRuntime S F)), Wf c -> co_active_ids c = active ->
  let st := foldl (observe_row collect uuids tel_wall mono policy budget queue_size active) (c, t) rows in
  Wf st.1 /\ co_active_ids st.1 = active /\ same_workers c st.1.
Proof.
  induction rows as [|[row feed] rows IH]; intros c t W Ha; [done|]. cbn [foldl].
  assert (H : forall l c (t : option (TelemetryRuntime S F)), Wf c -> co_active_ids c = active ->
    let st := foldl (observe_signal collect uuids tel_wall mono policy budget queue_size feed row active) (c, t) l in
    Wf st.1 /\ co_active_ids st.1 = active /\ same_workers c st.1).
  { clear. induction l as [|s l IH]; intros c t W Ha; [done|]. cbn [foldl].
    destruct (observe_signal_inv feed row active c t s W Ha) as (W' & Ha' & Hs).
    destruct (observe_signal _ _ _ _ _ _ _ _ _ _ (c, t) s) as [c' t']. destruct (IH c' t' W' Ha') as (? & ? & ?).
    split; [done|]. split; [done|]. by eapply same_workers_trans. }
  specialize (H (tr_updates row) c t W Ha).
  change (foldl (observe_signal _ _ _ _ _ _ _ _ _ _) (c, t) (tr_updates row))
    with (observe_row collect uuids tel_wall mono policy budget queue_size active (c, t) (row, feed)) in H.
  destruct (observe_row _ _ _ _ _ _ _ _ (c, t) (row, feed)) as [c' t'].
  destruct H as (W' & Ha' & Hs). destruct (IH c' t' W' Ha') as (? & ? & ?).
  split; [done|]. split; [done|]. by eapply same_workers_trans.
Qed.

Lemma observe_tick_inv results statuses active_ids c (t : option (TelemetryRuntime S F)) : Wf c ->
  let st := observe_tick collect uuids tel_wall mono wall policy budget queue_size results statuses active_ids (c, t) in
  Wf st.1 /\ co_active_ids st.1 = current_active results active_ids (wall (co_wall c)) /\ same_workers c st.1.
Proof.
  intros W. unfold observe_tick. cbn [monotonic_time wall_time]. set (active := current_active _ _ _).
  match goal with |- context [retire_inactive active ?c0] =>
    destruct (retire_inv 0 (works c) active c0 W) as (W1 & A1 & Q1 & R1) end.
  set (c1 := retire_inactive active _) in *.
  assert (Hw : works c1 = works c) by (unfold works; by rewrite Q1, R1).
  rewrite <- Hw in W1. destruct (observe_rows_inv active (zip results statuses) c1 t W1 A1) as (W2 & A2 & S2).
  destruct (foldl _ (c1, t) (zip results statuses)) as [c2 t2]. cbn in W2, A2, S2.
  assert (S' : same_workers c c2) by (unfold same_workers in *; by rewrite R1, Q1 in S2).
  cbn. by destruct (co_queue c2) eqn:Eq.
Qed.

(** ** The workers' side *)
Lemma live_facts c w : work_is_live c w = true ->
  wk_signal_id w ∈ co_active_ids c /\ co_generation c !! wk_signal_id w = Some (wk_generation w).
Proof. intros [?%bool_decide_eq_true ?%bool_decide_eq_true]%andb_prop. done. Qed.

Lemma store_inv X k ws w r c : row_ok (wk_signal_id w) r -> Inv X k ws c -> Inv X k ws (store w r c).
Proof.
  intros Hr [R Pe G Di C T Q Fl Ca]. unfold store. destruct (work_is_live c w) eqn:El; [|done].
  apply live_facts in El as [Ha _]. constructor; cbn; try done.
  intros x y Hx. unfold registry_put in Hx. pose proof Hr as (Hid & _). rewrite Hid in Hx.
  apply lookup_insert_Some in Hx as [[<- <-]|[_ Hx]]; [done|]. by apply (R x).
Qed.

Lemma release_inv X k ws w c : Inv X k (w :: ws) c -> Inv X k ws (release_pending (wk_signal_id w) c).
Proof.
  intros [R Pe G Di C T Q Fl Ca]. unfold release_pending. cbn zeta. apply maybe_forget_inv. set (id := wk_signal_id w) in *.
  apply Forall_cons in G as [_ G]. cbn in Di. apply NoDup_cons in Di as [_ Di].
  assert (Hp : co_pending c !! id = Some (Z.of_nat (length (works_of ws id)) + 1)).
  { rewrite Pe, works_of_cons, decide_True by done. cbn. f_equal. lia. }
  assert (Hn : forall x, x <> id -> length (works_of (w :: ws) x) = length (works_of ws x)).
  { intros x Hx. by rewrite works_of_cons, decide_False. }
  assert (Ca' : forall x, Z.of_nat (length (works_of ws x)) <= default 0 (co_calls c !! x)).
  { intros x. specialize (Ca x). rewrite works_of_cons in Ca. lia. }
  rewrite Hp. match goal with |- context [default 0 (Some ?n)] => change (default 0 (Some n)) with n end.
  replace (Z.of_nat (length (works_of ws id)) + 1 - 1) with (Z.of_nat (length (works_of ws id))) by lia.
  destruct (Z.leb_spec (Z.of_nat (length (works_of ws id))) 0) as [Hz|Hz]; constructor; cbn; try done.
  - intros x. destruct (decide (x = id)) as [->|Hx].
    + rewrite lookup_delete_eq. by replace (length (works_of ws id)) with 0%nat by lia.
    + by rewrite lookup_delete_ne, Pe, Hn.
  - intros x Hx. destruct (decide (x = id)) as [->|Hne]; [right; left; set_solver|].
    rewrite <- (Hn x Hne). destruct (T x) as [?|[?|?]]; [set_solver|auto|set_solver|auto].
  - intros x. destruct (decide (x = id)) as [->|Hx].
    + rewrite lookup_insert_eq. destruct (length (works_of ws id)); [lia|done].
    + by rewrite lookup_insert_ne, Pe, Hn.
  - intros x Hx. destruct (decide (x = id)) as [->|Hne]; [right; left; set_solver|].
    rewrite <- (Hn x Hne). destruct (T x) as [?|[?|?]]; [set_solver|auto|set_solver|auto].
Qed.

Lemma settle_inv X ws w c : Inv X 1 ws c -> Inv X 0 ws (settle w c).
Proof.
  intros [R Pe G Di C T Q Fl Ca]. unfold settle. cbn zeta.
  match goal with |- Inv X 0 ws (match co_queue ?c1 with _ => _ end) => assert (H : Inv X 0 ws c1) end.
  { constructor; cbn; try done. lia. }
  destruct (co_queue _) as [[|? ?]|]; [|done..]. by destruct (co_in_flight _ =? 0).
Qed.

Lemma release_frame id c : co_active_ids (release_pending id c) = co_active_ids c /\ co_queue (release_pending id c) = co_queue c /\
  co_running (release_pending id c) = co_running c /\ co_diag (release_pending id c) = co_diag c /\
  co_registry (release_pending id c) = co_registry c.
Proof.
  unfold release_pending.
  match goal with |- context [maybe_forget id ?d] => destruct (maybe_forget_frame id d) as (-> & -> & -> & -> & ->) end.
  by destruct (_ <=? _).
Qed.

Lemma settle_frame w c : co_active_ids (settle w c) = co_active_ids c /\ co_queue (settle w c) = co_queue c /\
  co_running (settle w c) = co_running c /\ co_diag (settle w c) = co_diag c /\ co_registry (settle w c) = co_registry c.
Proof. unfold settle. cbn zeta. by repeat case_match. Qed.

Lemma store_frame w r c : co_active_ids (store w r c) = co_active_ids c /\ co_queue (store w r c) = co_queue c /\
  co_running (store w r c) = co_running c /\ co_diag (store w r c) = co_diag c.
Proof. unfold store. by destruct (work_is_live c w). Qed.

Lemma take_work_inv c c' : Wf c -> take_work mono c = Some c' -> Wf c' /\ co_active_ids c' = co_active_ids c.
Proof.
  intros W E. unfold take_work in E. destruct (co_queue c) as [[|w queue]|] eqn:Eq; [done| |done].
  set (c1 := set_queue (Some queue) c) in E.
  assert (W1 : Inv ∅ 0 (w :: works c1) c1).
  { apply (inv_perm _ _ (works c)). { unfold works. cbn. rewrite Eq. cbn. by rewrite Permutation_middle. }
    destruct W as [R Pe G Di C T Q Fl Ca]. constructor; cbn; try done. intros Hq. specialize (Q Hq). rewrite Eq in Q. cbn in Q. lia. }
  destruct (work_is_live c1 w) eqn:El; cbn [negb] in E.
  - change (work_is_live (set_tasks _ _) w) with (work_is_live c1 w) in E. rewrite El in E. cbn [negb monotonic_time] in E.
    injection E as <-. match goal with |- context [store w ?r ?d] => set (res := r); set (c2 := d) end.
    assert (W2 : Inv ∅ 1 (w :: works c1) c2).
    { destruct W1 as [R Pe G Di C T Q Fl Ca]. constructor; cbn; try done. cbn in Fl. lia. }
    apply (store_inv _ _ _ w res) in W2; [|by apply row_ok_bare].
    destruct (store_frame w res c2) as (Ha & Hq & Hr & _). split; [|cbn; by rewrite Ha].
    apply (inv_perm _ _ (w :: works c1)).
    { unfold works. cbn. rewrite Hr, Hq. cbn. rewrite fmap_app. cbn. rewrite <- app_assoc. cbn. by rewrite Permutation_middle. }
    destruct W2 as [R Pe G Di C T Q Fl Ca]. constructor; cbn; try done. rewrite Hr, length_app in *. cbn in *. lia.
  - injection E as <-. apply (release_inv _ _ (works c1) w (diagnose count_stale c1)) in W1.
    destruct (release_frame (wk_signal_id w) (diagnose count_stale c1)) as (Ha & Hq & Hr & _).
    split; [|exact Ha]. replace (works _) with (works c1); [done|]. unfold works. by rewrite Hr, Hq.
Qed.

Lemma resume_inv X k ws w started o c (t : option (TelemetryRuntime S F)) : Inv X k ws c ->
  let st := resume collect uuids tel_wall mono wall w started o (c, t) in
  Inv X k ws st.1 /\ co_running st.1 = co_running c /\ co_queue st.1 = co_queue c /\ co_active_ids st.1 = co_active_ids c.
Proof.
  intros W. destruct o as [completion parse|e|]; cbn [resume].
  - unfold on_completion. cbn [monotonic_time wall_time]. destruct (work_is_live _ w); cbn [negb]; [|done].
    match goal with |- context [store w ?r ?d] => set (res := r); set (c2 := d) end.
    assert (W2 : Inv X k ws (store w res c2)) by (apply store_inv; [by apply row_ok_enriched|exact W]).
    destruct (store_frame w res c2) as (Ha & Hq & Hr & _).
    destruct (mc_token_in completion), (mc_token_out completion); cbn; (split; [exact W2|by rewrite Ha, Hq, Hr]).
  - unfold on_exception. cbn [monotonic_time]. destruct (work_is_live _ w); [|done].
    match goal with |- context [store w ?r ?d] => set (res := r); set (c2 := d) end.
    assert (W2 : Inv X k ws (store w res c2)).
    { apply store_inv; [|exact W]. apply row_ok_fallback. by destruct e. }
    destruct (store_frame w res c2) as (Ha & Hq & Hr & _). cbn. split; [exact W2|by rewrite Ha, Hq, Hr].
  - cbn. by destruct (co_closed c).
Qed.

Lemma finish_inv i o c (t : option (TelemetryRuntime S F)) st : Wf c ->
  finish collect uuids tel_wall mono wall i o (c, t) = Some st -> Wf st.1 /\ co_active_ids st.1 = co_active_ids c.
Proof.
  intros W E. unfold finish in E. cbn [fst] in E. destruct (co_running c !! i) as [r|] eqn:Er; [|done].
  destruct (resume_inv ∅ 0 (works c) (ru_work r) (ru_started r) o c t W) as (W1 & R1 & Q1 & A1).
  destruct (resume _ _ _ _ _ _ _ _ (c, t)) as [c1 t1]. cbn in W1, R1, Q1, A1. injection E as <-. cbn [fst].
  set (c2 := set_running (delete i (co_running c1)) c1).
  assert (W2 : Inv ∅ 1 (ru_work r :: works c2) c2).
  { apply (inv_perm _ _ (works c)).
    { unfold works. cbn. rewrite R1, Q1. rewrite (delete_Permutation (co_running c) i r Er) at 1. done. }
    destruct W1 as [R Pe G Di C T Q Fl Ca]. constructor; cbn; try done.
    rewrite R1 in *. pose proof (delete_Permutation _ _ _ Er) as P%Permutation_length. cbn in P. lia. }
  apply settle_inv with (w := ru_work r), release_inv in W2.
  destruct (release_frame (wk_signal_id (ru_work r)) (settle (ru_work r) c2)) as (Ha & Hq & Hr & _).
  destruct (settle_frame (ru_work r) c2) as (Ha' & Hq' & Hr' & _).
  split; [|by rewrite Ha, Ha']. replace (works (release_pending _ _)) with (works c2); [done|].
  unfold works. by rewrite Hr, Hq, Hr', Hq'.
Qed.

Lemma resume_frame w started o c (t : option (TelemetryRuntime S F)) :
  let st := resume collect uuids tel_wall mono wall w started o (c, t) in
  co_running st.1 = co_running c /\ co_queue st.1 = co_queue c.
Proof.
  destruct o as [completion parse|e|]; cbn [resume].
  - unfold on_completion. cbn [monotonic_time wall_time]. destruct (work_is_live _ w); cbn [negb]; [|done].
    match goal with |- context [store w ?r ?d] => set (res := r); set (c2 := d) end.
    destruct (store_frame w res c2) as (_ & Hq & Hr & _).
    destruct (mc_token_in completion), (mc_token_out completion); cbn; by rewrite Hq, Hr.
  - unfold on_exception. cbn [monotonic_time]. destruct (work_is_live _ w); [|done].
    match goal with |- context [store w ?r ?d] => set (res := r); set (c2 := d) end.
    destruct (store_frame w res c2) as (_ & Hq & Hr & _). cbn. by rewrite Hq, Hr.
  - cbn. by destruct (co_closed c).
Qed.

Lemma finish_frame i o c (t : option (TelemetryRuntime S F)) st' :
  finish collect uuids tel_wall mono wall i o (c, t) = Some st' ->
  co_queue st'.1 = co_queue c /\ length (co_running c) = Datatypes.S (length (co_running st'.1)).
Proof.
  unfold finish. cbn [fst]. destruct (co_running c !! i) as [r|] eqn:Er; [|done].
  destruct (resume_frame (ru_work r) (ru_started r) o c t) as [R1 Q1]. destruct (resume _ _ _ _ _ _ _ _ (c, t)) as [c1 t1].
  cbn in R1, Q1. rewrite <- R1 in Er. pose proof (delete_Permutation _ _ _ Er) as P%Permutation_length. cbn in P.
  intros E%(inj Some). rewrite <- E. cbn [fst].
  match goal with |- context [release_pending ?i ?d] => destruct (release_frame i d) as (_ & -> & -> & _) end.
  match goal with |- context [settle ?w ?d] => destruct (settle_frame w d) as (_ & -> & -> & _) end.
  cbn. rewrite <- R1, Q1. by rewrite P.
Qed.

Lemma take_frame c c' : take_work mono c = Some c' -> exists w queue l, co_queue c = Some (w :: queue) /\
  co_queue c' = Some queue /\ co_running c' = co_running c ++ l /\ (length l <= 1)%nat.
Proof.
  unfold take_work. destruct (co_queue c) as [[|w queue]|] eqn:Eq; [done| |done]. cbn zeta.
  destruct (work_is_live (set_queue (Some queue) c) w) eqn:El; cbn [negb].
  - change (work_is_live (set_tasks _ _) w) with (work_is_live (set_queue (Some queue) c) w). rewrite El.
    cbn [negb monotonic_time]. match goal with |- context [store w ?r ?d] => set (res := r); set (c2 := d) end.
    destruct (store_frame w res c2) as (_ & Hq & Hr & _). intros [= <-]. cbn. rewrite Hr, Hq. eexists w, queue, [_]. split_and!; [done|done|done|cbn; lia].
  - intros [= <-]. match goal with |- context [release_pending ?i ?d] => destruct (release_frame i d) as (_ & -> & -> & _) end.
    exists w, queue, []. cbn. rewrite app_nil_r. split_and!; [done..|lia].
Qed.

Lemma init_inv : Wf coordinator_init.
Proof.
  constructor.
  - apply map_Forall_empty.
  - intros id. apply lookup_empty.
  - constructor.
  - constructor.
  - apply map_Forall_empty.
  - intros id Hid. exfalso. cbn [coordinator_init co_calls co_generation co_last_priority co_pending] in Hid.
    rewrite !dom_empty_L in Hid. set_solver.
  - intros ?. cbn. lia.
  - done.
  - intros id. cbn [coordinator_init co_calls]. by rewrite lookup_empty.
Qed.

Lemma start_inv c : Wf c -> Wf (start c).
Proof.
  intros W. unfold start. destruct (co_queue c) eqn:Eq; [done|].
  replace (works _) with (works c) by (unfold works; cbn; by rewrite Eq).
  destruct W as [R Pe G Di C T Q Fl Ca]. constructor; cbn; try done. lia.
Qed.
End preservation.

(** ** Runs *)
Section runs.
Context {S F : Type} (collect : Recorder S TelemetryEvent) (uuids : nat -> string) (tel_wall : nat -> float).
Context (mono wall : nat -> float).
Context (policy : RouterPolicy) (budget : EpisodeCallBudget) (queue_size concurrency : Z).
Abbreviation State := (Coordinator * option (TelemetryRuntime S F))%type.
Abbreviation Wf c := (inv budget queue_size ∅ 0 (works c) c).

(** [max(1, concurrency)] *)
Definition worker_count : Z := Z.max 1 concurrency.

(** A worker's moves. *)
Inductive worker_step : State -> State -> Prop :=
  | step_take c c' t : Z.of_nat (length (co_running c)) < worker_count -> take_work mono c = Some c' -> worker_step (c, t) (c', t)
  | step_finish i o st st' : finish collect uuids tel_wall mono wall i o st = Some st' -> worker_step st st'.

Inductive step : State -> State -> Prop :=
  | step_observe results statuses active_ids st :
      step st (observe_tick collect uuids tel_wall mono wall policy budget queue_size results statuses active_ids st)
  | step_worker st st' : worker_step st st' -> step st st'
  | step_start c t : step (c, t) (start c, t)
  | step_shutdown c t : step (c, t) (shutdown c, t).

Definition good (c : Coordinator) : Prop :=
  Wf c /\ Z.of_nat (length (co_running c)) <= worker_count /\ (co_queue c = None -> co_running c = []).

Lemma reset_good c : co_queue c = None -> co_running c = [] -> good (reset_after_shutdown c).
Proof.
  intros Eq Er. unfold good, inv, works, reset_after_shutdown. cbn. rewrite Eq, Er. split; [apply init_inv|].
  split; [cbn; unfold worker_count; lia|done].
Qed.

Lemma shutdown_good c : good c -> good (shutdown c).
Proof.
  intros (W & _ & Hn). unfold shutdown. destruct (co_queue c) eqn:Eq; [by apply reset_good|].
  apply reset_good; auto.
Qed.

Lemma worker_step_good st st' : good st.1 -> worker_step st st' -> good st'.1.
Proof.
  intros (W & Hc & Hn) H. destruct H as [c c' t Hl E|i o [c t] st' E]; cbn [fst] in *.
  - destruct (take_work_inv mono budget queue_size c c' W E) as [W' _].
    destruct (take_frame mono c c' E) as (w & queue & l & _ & Hq & Hr & Hlen).
    split; [done|]. rewrite Hr, Hq, length_app. split; [lia|done].
  - destruct (finish_inv collect uuids tel_wall mono wall budget queue_size i o c t st' W E) as [W' _].
    destruct (finish_frame collect uuids tel_wall mono wall i o c t st' E) as [Hq Hl].
    split; [done|]. split; [lia|]. intros Hnone. rewrite Hq in Hnone. by rewrite (Hn Hnone) in Hl.
Qed.

Lemma step_good st st' : good st.1 -> step st st' -> good st'.1.
Proof.
  intros G H. destruct H as [results statuses active_ids [c t]|? ? H|c t|c t]; cbn [fst] in *.
  - destruct G as (W & Hc & Hn).
    destruct (observe_tick_inv collect uuids tel_wall mono wall policy budget queue_size results statuses active_ids c t W) as (W' & _ & Hr & Hq).
    split; [done|]. rewrite Hr, Hq. done.
  - by eapply worker_step_good.
  - destruct G as (W & Hc & Hn). split; [by apply start_inv|]. unfold start. by destruct (co_queue c) eqn:Eq; cbn; rewrite ?Eq.
  - by apply shutdown_good.
Qed.

Lemma init_good : good coordinator_init.
Proof. split; [apply init_inv|]. split; [cbn; unfold worker_count; lia|done]. Qed.

Lemma reachable_good t0 st : rtc step (coordinator_init, t0) st -> good st.1.
Proof.
  intros H. assert (G : good (coordinator_init, t0).1) by apply init_good. revert G.
  induction H as [|a b st Hs _ IH]; [done|]. intros G. apply IH. by eapply step_good.
Qed.

(** ** Draining *)
Definition measure (c : Coordinator) : nat := 2 * length (default [] (co_queue c)) + length (co_running c).

Lemma worker_step_measure st st' : worker_step st st' -> (measure st'.1 < measure st.1)%nat.
Proof.
  intros H. unfold measure. destruct H as [c c' t Hl E|i o [c t] st' E]; cbn [fst] in *.
  - destruct (take_frame mono c c' E) as (w & queue & l & -> & -> & -> & Hlen). rewrite length_app. cbn. lia.
  - destruct (finish_frame collect uuids tel_wall mono wall i o c t st' E) as [-> ->]. lia.
Qed.

Lemma worker_progress st : good st.1 -> works st.1 <> [] -> exists st', worker_step st st'.
Proof.
  destruct st as [c t]. cbn [fst]. intros (_ & _ & Hn) Hw. destruct (co_running c) as [|r rs] eqn:Er.
  - unfold works in Hw. rewrite Er in Hw. destruct (co_queue c) as [[|w queue]|] eqn:Eq; try done.
    assert (H : exists c', take_work mono c = Some c').
    { unfold take_work. rewrite Eq. cbn zeta. repeat case_match; by eexists. }
    destruct H as [c' E]. exists (c', t). constructor; [|done]. rewrite Er. cbn. unfold worker_count. lia.
  - assert (H : exists st', finish collect uuids tel_wall mono wall 0 CancelledError (c, t) = Some st').
    { unfold finish. cbn [fst]. rewrite Er. cbn [lookup list_lookup]. destruct (resume _ _ _ _ _ _ _ _ _). by eexists. }
    destruct H as [st' E]. exists st'. by eapply step_finish.
Qed.

Lemma drained_forgets c : Wf c -> works c = [] -> tracked_episodes c ⊆ co_active_ids c /\ co_pending c = ∅ /\ co_in_flight c = 0.
Proof.
  intros [R Pe G Di C T Q Fl Ca] Hw. rewrite Hw in *. split; [|split].
  - intros id Hid. destruct (T id Hid) as [?|[?|?]]; [done|set_solver|done].
  - apply map_eq. intros id. by rewrite Pe, lookup_empty.
  - unfold works in Hw. apply app_eq_nil in Hw as [Hw _]. apply fmap_nil_inv in Hw. by rewrite Hw in Fl.
Qed.

Lemma workers_run_out st : good st.1 -> exists st', rtc worker_step st st' /\ good st'.1 /\ works st'.1 = [].
Proof.
  intros G. remember (measure st.1) as n eqn:E. revert st G E. induction (lt_wf n) as [n _ IH]. intros st G ->.
  destruct (decide (works st.1 = [])) as [?|Hw]; [by exists st|].
  destruct (worker_progress st G Hw) as [st1 H1]. pose proof (worker_step_good _ _ G H1) as G1.
  destruct (IH _ (worker_step_measure _ _ H1) st1 G1 eq_refl) as (st' & Hs & ? & ?).
  exists st'. split; [|done]. by eapply rtc_l.
Qed.
End runs.

(** ** Histories: what a run submits and calls

    Read off the queue and the suspended workers alone, not off the counters: a step submits
    the work it adds at the end of the queue and makes the calls of the workers it adds. *)
Inductive CallEvent := Submitted (id : string) | Called (id : string).
#[export] Instance call_event_dec : EqDecision CallEvent.
Proof. solve_decision. Defined.
Definition is_submission (e : CallEvent) : bool := match e with Submitted _ => true | Called _ => false end.

Definition emitted (c c' : Coordinator) : list CallEvent :=
  ((fun w => Submitted (wk_signal_id w)) <$> drop (length (default [] (co_queue c))) (default [] (co_queue c'))) ++
  ((fun r => Called (wk_signal_id (ru_work r))) <$> drop (length (co_running c)) (co_running c')).
Definition times (e : CallEvent) (l : list CallEvent) : Z := Z.of_nat (length (filter (fun x => x = e) l)).
Definition submissions (l : list CallEvent) : Z := Z.of_nat (length (filter (fun e => is_submission e = true) l)).
Definition model_calls (l : list CallEvent) : Z := Z.of_nat (length (filter (fun e => is_submission e = false) l)).
Definition queued (c : Coordinator) (id : string) : Z := Z.of_nat (length (works_of (default [] (co_queue c)) id)).

Lemma times_app e l k : times e (l ++ k) = times e l + times e k.
Proof. unfold times. rewrite filter_app, length_app. lia. Qed.
Lemma submissions_app l k : submissions (l ++ k) = submissions l + submissions k.
Proof. unfold submissions. rewrite filter_app, length_app. lia. Qed.
Lemma model_calls_app l k : model_calls (l ++ k) = model_calls l + model_calls k.
Proof. unfold model_calls. rewrite filter_app, length_app. lia. Qed.

(** The events of added work and of added workers. *)
Definition submitted_all (ws : list IntelligenceWork) : list CallEvent := (fun w => Submitted (wk_signal_id w)) <$> ws.
Definition called_all (rs : list Running) : list CallEvent := (fun r => Called (wk_signal_id (ru_work r))) <$> rs.
Lemma submitted_counts ws : submissions (submitted_all ws) = Z.of_nat (length ws) /\ model_calls (submitted_all ws) = 0 /\
  forall id, times (Submitted id) (submitted_all ws) = Z.of_nat (length (works_of ws id)) /\ times (Called id) (submitted_all ws) = 0.
Proof.
  unfold submissions, model_calls, times, submitted_all. induction ws as [|w ws (H1 & H2 & H3)]; [done|]. cbn [fmap list_fmap].
  rewrite !filter_cons. cbn [is_submission]. rewrite decide_True, decide_False by done. cbn [length]. split; [lia|]. split; [done|].
  intros id. destruct (H3 id) as [H4 H5]. rewrite !filter_cons, works_of_cons. split; [|by rewrite decide_False].
  destruct (decide (wk_signal_id w = id)) as [->|Hn]; [rewrite decide_True by done|rewrite decide_False by congruence]; cbn [length]; lia.
Qed.
Lemma called_counts rs : submissions (called_all rs) = 0 /\ model_calls (called_all rs) = Z.of_nat (length rs) /\
  forall id, times (Submitted id) (called_all rs) = 0 /\ times (Called id) (called_all rs) = Z.of_nat (length (works_of (ru_work <$> rs) id)).
Proof.
  unfold submissions, model_calls, times, called_all. induction rs as [|r rs (H1 & H2 & H3)]; [done|]. cbn [fmap list_fmap].
  rewrite !filter_cons. cbn [is_submission]. rewrite decide_False, decide_True by done. cbn [length]. split; [done|]. split; [lia|].
  intros id. destruct (H3 id) as [H4 H5]. rewrite !filter_cons, works_of_cons. split; [by rewrite decide_False|].
  destruct (decide (wk_signal_id (ru_work r) = id)) as [->|Hn]; [rewrite decide_True by done|rewrite decide_False by congruence]; cbn [length]; lia.
Qed.

(** What the coordinator's own books say of [l]. *)
Record accounted (c c' : Coordinator) (l : list CallEvent) : Prop := {
  ac_submitted : dg_requests_submitted (co_diag c') = dg_requests_submitted (co_diag c) + submissions l;
  ac_model : dg_model_calls (co_diag c') = dg_model_calls (co_diag c) + model_calls l;
  ac_calls : forall id, id ∈ co_active_ids c' -> default 0 (co_calls c' !! id) = default 0 (co_calls c !! id) + times (Submitted id) l;
  ac_queued : forall id, times (Called id) l + queued c' id <= queued c id + times (Submitted id) l
}.

(** The engine's side adds [ws] to the queue, and counts it. *)
Record grown (active : gset string) (c c' : Coordinator) (ws : list IntelligenceWork) : Prop := {
  gr_queue : default [] (co_queue c') = default [] (co_queue c) ++ ws;
  gr_running : co_running c' = co_running c;
  gr_submitted : dg_requests_submitted (co_diag c') = dg_requests_submitted (co_diag c) + Z.of_nat (length ws);
  gr_model : dg_model_calls (co_diag c') = dg_model_calls (co_diag c);
  gr_calls : forall id, id ∈ active -> default 0 (co_calls c' !! id) = default 0 (co_calls c !! id) + Z.of_nat (length (works_of ws id))
}.

Lemma grown_none active c c' : default [] (co_queue c') = default [] (co_queue c) -> co_running c' = co_running c ->
  dg_requests_submitted (co_diag c') = dg_requests_submitted (co_diag c) -> dg_model_calls (co_diag c') = dg_model_calls (co_diag c) ->
  (forall id, id ∈ active -> co_calls c' !! id = co_calls c !! id) -> grown active c c' [].
Proof. intros Hq ? ? ? Hc. split; [by rewrite app_nil_r|done|cbn; lia|done|]. intros id Hid. rewrite (Hc id Hid). unfold works_of. cbn. lia. Qed.
Lemma grown_trans active a b c l k : grown active a b l -> grown active b c k -> grown active a c (l ++ k).
Proof.
  intros [Q R S M C] [Q' R' S' M' C']. split; [by rewrite Q', Q, app_assoc|congruence|rewrite S', S, length_app; lia|congruence|].
  intros id Hid. rewrite (C' id Hid), (C id Hid). unfold works_of. rewrite filter_app, length_app. lia.
Qed.
Lemma grown_accounted c c' ws : grown (co_active_ids c') c c' ws -> accounted c c' (emitted c c').
Proof.
  intros [Q R S M C]. assert (E : emitted c c' = submitted_all ws).
  { unfold emitted. rewrite Q, R, drop_app_length, drop_ge by done. apply app_nil_r. }
  destruct (submitted_counts ws) as (H1 & H2 & H3). rewrite E. split; [lia|lia|..]; intros id; destruct (H3 id) as [H4 H5].
  - intros Hid. rewrite (C id Hid). lia.
  - unfold queued, works_of in *. rewrite Q, filter_app, length_app. lia.
Qed.

Lemma forget_frame id c : forall x, x <> id \/ x ∈ co_active_ids c -> co_calls (maybe_forget id c) !! x = co_calls c !! x.
Proof.
  intros x Hx. unfold maybe_forget. case_bool_decide; [done|]. destruct (_ <? _); [done|]. cbn. rewrite lookup_delete_ne; [done|]. intros <-. by destruct Hx.
Qed.
Lemma invalidate_calls id c : co_diag (invalidate id c) = co_diag c /\ forall x, x <> id -> co_calls (invalidate id c) !! x = co_calls c !! x.
Proof.
  unfold invalidate. match goal with |- context [maybe_forget id ?d] => destruct (maybe_forget_frame id d) as (_ & _ & _ & -> & _); pose proof (forget_frame id d) as F end.
  assert (H : co_diag (cancel_in_flight id c) = co_diag c /\ co_calls (cancel_in_flight id c) = co_calls c) by (unfold cancel_in_flight; by repeat case_match).
  split; [unfold cancel_in_flight; by repeat case_match|]. intros x Hx. rewrite F by by left. unfold cancel_in_flight. by repeat case_match.
Qed.
Lemma sweep_calls l : forall c, let c' := foldl (fun c id => invalidate id c) c l in
  co_diag c' = co_diag c /\ forall x, x ∉ l -> co_calls c' !! x = co_calls c !! x.
Proof.
  induction l as [|id l IH]; intros c; [done|]. cbn. destruct (IH (invalidate id c)) as [-> H], (invalidate_calls id c) as [-> H']. split; [done|].
  intros x Hx%not_elem_of_cons. rewrite H, H' by apply Hx. done.
Qed.
Lemma retire_grown active c : grown active c (retire_inactive active c) [].
Proof.
  unfold retire_inactive. cbn zeta. match goal with |- context [foldl _ ?c0 ?l] => destruct (sweep_frame l c0) as (_ & Hq & Hr), (sweep_calls l c0) as [Hd Hc] end.
  apply grown_none; rewrite ?Hq, ?Hr, ?Hd; try done. intros id Hid. rewrite Hc; [done|]. rewrite elem_of_elements. set_solver.
Qed.

Section histories.
Context {S F : Type} (collect : Recorder S TelemetryEvent) (uuids : nat -> string) (tel_wall : nat -> float).
Context (mono wall : nat -> float).
Context (policy : RouterPolicy) (budget : EpisodeCallBudget) (queue_size concurrency : Z).
Abbreviation State := (Coordinator * option (TelemetryRuntime S F))%type.
Implicit Types (t : option (TelemetryRuntime S F)).

Lemma enqueue_grown active payload market symbol family direction priority c b c' :
  enqueue queue_size payload market symbol family direction priority c = (b, c') -> exists ws, grown active c c' ws.
Proof.
  unfold enqueue. destruct (co_queue c) as [queue|] eqn:Eq; [|intros [= _ <-]; exists []; by apply grown_none].
  destruct (_ && _); intros [= _ <-]; [exists []; by apply grown_none|].
  match goal with |- context [queue ++ [?w]] => exists [w] end. split; cbn; try done; [by rewrite Eq|].
  intros id _. rewrite works_of_cons. cbn [wk_signal_id]. unfold works_of at 1. cbn. destruct (decide (in_signal_id payload = id)) as [<-|Hn].
  - rewrite lookup_insert_eq. cbn. lia.
  - rewrite lookup_insert_ne by done. cbn. lia.
Qed.
Lemma signal_grown feed row active c t signal : exists ws,
  grown active c (observe_signal collect uuids tel_wall mono policy budget queue_size feed row active (c, t) signal).1 ws.
Proof.
  unfold observe_signal. destruct (traces_by_id (tr_traces row) !! sig_id signal) as [trace|]; [|exists []; by apply grown_none].
  cbn [monotonic_time]. destruct (rd_requested _); cbn [negb]; [|destruct (ROUTER_SKIP _); exists []; by apply grown_none].
  match goal with |- context [enqueue _ ?p ?m ?s ?f ?d ?r ?c1] => destruct (enqueue queue_size p m s f d r c1) as [b c2] eqn:Ee;
    apply (enqueue_grown active) in Ee as (ws & G) end.
  exists ([] ++ ws). eapply grown_trans; [|destruct b; exact G]. by apply grown_none.
Qed.
Lemma rows_grown active rows : forall c t, exists ws,
  grown active c (foldl (observe_row collect uuids tel_wall mono policy budget queue_size active) (c, t) rows).1 ws.
Proof.
  assert (H : forall row feed l c t, exists ws,
    grown active c (foldl (observe_signal collect uuids tel_wall mono policy budget queue_size feed row active) (c, t) l).1 ws).
  { intros row feed l. induction l as [|s l IH]; intros c t; [exists []; by apply grown_none|]. cbn [foldl].
    destruct (signal_grown feed row active c t s) as (ws & G). destruct (observe_signal _ _ _ _ _ _ _ _ _ _ (c, t) s) as [c1 t1].
    destruct (IH c1 t1) as (ws' & G'). exists (ws ++ ws'). by eapply grown_trans. }
  induction rows as [|[row feed] rows IH]; intros c t; [exists []; by apply grown_none|]. cbn [foldl].
  destruct (H row feed (tr_updates row) c t) as (ws & G). change (foldl (observe_signal _ _ _ _ _ _ _ _ _ _) (c, t) (tr_updates row))
    with (observe_row collect uuids tel_wall mono policy budget queue_size active (c, t) (row, feed)) in G.
  destruct (observe_row _ _ _ _ _ _ _ _ (c, t) (row, feed)) as [c1 t1]. destruct (IH c1 t1) as (ws' & G'). exists (ws ++ ws'). by eapply grown_trans.
Qed.
Lemma tick_grown results statuses active_ids c t : inv budget queue_size ∅ 0 (works c) c ->
  let c' := (observe_tick collect uuids tel_wall mono wall policy budget queue_size results statuses active_ids (c, t)).1 in
  exists ws, grown (co_active_ids c') c c' ws.
Proof.
  intros W. cbv zeta. destruct (observe_tick_inv collect uuids tel_wall mono wall policy budget queue_size results statuses active_ids c t W) as (_ & Ha & _).
  rewrite Ha. clear Ha.
  unfold observe_tick. cbn [monotonic_time wall_time]. set (active := current_active _ _ _).
  match goal with |- context [retire_inactive active ?c0] => pose proof (retire_grown active c0) as G0; set (c1 := retire_inactive active c0) in * end.
  destruct (rows_grown active (zip results statuses) c1 t) as (ws & G). destruct (foldl _ (c1, t) (zip results statuses)) as [c2 t2].
  exists ([] ++ ws). eapply grown_trans; [eapply (grown_trans _ _ _ _ [] []); [|exact G0]; by apply grown_none|]. cbn [fst] in *.
  rewrite <- (app_nil_r ws). eapply grown_trans; [exact G|]. cbn. destruct (co_queue c2) eqn:Eq; by apply grown_none.
Qed.

Lemma release_calls id c x : x ∈ co_active_ids c -> co_calls (release_pending id c) !! x = co_calls c !! x.
Proof. intros Hx. unfold release_pending. rewrite forget_frame by (right; by destruct (_ <=? _)). by destruct (_ <=? _). Qed.
Lemma store_books w r c : co_diag (store w r c) = co_diag c /\ co_calls (store w r c) = co_calls c.
Proof. unfold store. by destruct (work_is_live c w). Qed.

Lemma take_accounted c c' : take_work mono c = Some c' -> accounted c c' (emitted c c').
Proof.
  unfold take_work. destruct (co_queue c) as [[|w queue]|] eqn:Eq; [done| |done]. cbn zeta.
  assert (D : forall (c' : Coordinator), co_queue c' = Some queue -> forall rs, co_running c' = co_running c ++ rs -> emitted c c' = called_all rs).
  { intros d Hq rs Hr. unfold emitted. rewrite Hq, Hr, drop_app_length, Eq. cbn. rewrite drop_ge by lia. done. }
  assert (Qc : forall (c' : Coordinator) id, co_queue c' = Some queue -> queued c id = queued c' id + Z.of_nat (length (works_of [w] id))).
  { intros d id Hq. unfold queued. rewrite Eq, Hq. cbn. rewrite !works_of_cons. unfold works_of at 3. cbn. lia. }
  destruct (work_is_live (set_queue (Some queue) c) w) eqn:El; cbn [negb].
  - change (work_is_live (set_tasks _ _) w) with (work_is_live (set_queue (Some queue) c) w). rewrite El.
    cbn [negb monotonic_time]. match goal with |- context [store w ?r ?d] => set (res := r); set (c2 := d) end.
    destruct (store_frame w res c2) as (_ & Hq & Hr & _), (store_books w res c2) as [Hd Hc]. intros [= <-].
    match goal with |- accounted c ?d _ => set (c3 := d) end.
    assert (Hq3 : co_queue c3 = Some queue) by by cbn; rewrite Hq.
    rewrite (D c3 Hq3 [mkRunning (co_next_task c) w (mono (co_mono (store w res c2)))]) by (cbn; by rewrite Hr).
    destruct (called_counts [mkRunning (co_next_task c) w (mono (co_mono (store w res c2)))]) as (H1 & H2 & H3). cbn [length fmap list_fmap ru_work] in *.
    split; [rewrite H1; cbn; rewrite Hd; cbn; lia|rewrite H2; cbn; rewrite Hd; cbn; lia|..]; intros id; destruct (H3 id) as [H4 H5].
    + intros _. rewrite H4. cbn. rewrite Hc. cbn. lia.
    + rewrite (Qc c3 id Hq3), H4, H5. lia.
  - intros [= <-]. match goal with |- context [release_pending ?i ?d] => destruct (release_frame i d) as (Ha & Hq & Hr & Hd & _);
      pose proof (release_calls i d) as Hc; set (c3 := release_pending i d) in * end.
    rewrite (D c3 Hq []) by by rewrite app_nil_r, Hr. destruct (called_counts []) as (H1 & H2 & _). split; [rewrite H1, Hd; cbn; lia|rewrite H2, Hd; cbn; lia|..]; intros id.
    + intros Hid. rewrite Hc by by rewrite <- Ha. cbn. unfold times. cbn. lia.
    + rewrite (Qc c3 id Hq). unfold times. cbn. lia.
Qed.

Lemma resume_books w started o c t : let c' := (resume collect uuids tel_wall mono wall w started o (c, t)).1 in
  dg_requests_submitted (co_diag c') = dg_requests_submitted (co_diag c) /\ dg_model_calls (co_diag c') = dg_model_calls (co_diag c) /\
  co_calls c' = co_calls c /\ co_active_ids c' = co_active_ids c.
Proof.
  destruct o as [completion parse|e|]; cbn [resume].
  - unfold on_completion. cbn [monotonic_time wall_time]. destruct (work_is_live _ w); cbn [negb]; [|done].
    match goal with |- context [store w ?r ?d] => set (res := r); set (c2 := d) end.
    destruct (store_frame w res c2) as (Ha & _), (store_books w res c2) as [Hd Hc].
    destruct (mc_token_in completion), (mc_token_out completion); cbn; by rewrite Hd, Hc, Ha.
  - unfold on_exception. cbn [monotonic_time]. destruct (work_is_live _ w); [|by destruct e].
    match goal with |- context [store w ?r ?d] => set (res := r); set (c2 := d) end.
    destruct (store_frame w res c2) as (Ha & _), (store_books w res c2) as [Hd Hc]. cbn. rewrite Hd, Hc, Ha. by destruct e.
  - cbn. by destruct (co_closed c).
Qed.
Lemma settle_calls w c : co_calls (settle w c) = co_calls c.
Proof. unfold settle. cbn zeta. by repeat case_match. Qed.
Lemma same_queue_accounted c c' : (length (co_running c') <= length (co_running c))%nat ->
  (length (default [] (co_queue c')) <= length (default [] (co_queue c)))%nat -> (forall id, queued c' id <= queued c id) ->
  dg_requests_submitted (co_diag c') = dg_requests_submitted (co_diag c) -> dg_model_calls (co_diag c') = dg_model_calls (co_diag c) ->
  (forall id, id ∈ co_active_ids c' -> co_calls c' !! id = co_calls c !! id) -> accounted c c' (emitted c c').
Proof.
  intros Hr Hq Hw Hs Hm Hc. unfold emitted. rewrite !drop_ge by done. split; [unfold submissions; cbn; lia|unfold model_calls; cbn; lia|..]; intros id; unfold times; cbn.
  - intros Hid. rewrite (Hc id Hid). lia.
  - specialize (Hw id). lia.
Qed.
Lemma finish_accounted i o c t st' : finish collect uuids tel_wall mono wall i o (c, t) = Some st' -> accounted c st'.1 (emitted c st'.1).
Proof.
  intros E. destruct (finish_frame collect uuids tel_wall mono wall i o c t st' E) as [Hq Hl]. revert E. unfold finish. cbn [fst].
  destruct (co_running c !! i) as [r|]; [|done]. destruct (resume_books (ru_work r) (ru_started r) o c t) as (Hs & Hm & Hc & Ha).
  destruct (resume _ _ _ _ _ _ _ _ (c, t)) as [c1 t1]. cbn [fst] in *. intros [= <-]. cbn [fst] in *.
  apply same_queue_accounted; [lia|by rewrite Hq|intros id; unfold queued; by rewrite Hq|..];
    match goal with |- context [release_pending ?j ?d] => destruct (release_frame j d) as (Ha' & _ & _ & Hd & _); pose proof (release_calls j d) as Hc'; set (c3 := d) in * end;
    match goal with c3 := settle ?w ?d |- _ => destruct (settle_frame w d) as (Ha2 & _ & _ & Hd2 & _); pose proof (settle_calls w d) as Hc2; fold c3 in Ha2, Hd2, Hc2 end.
  - by rewrite Hd, Hd2.
  - by rewrite Hd, Hd2.
  - intros id Hid. rewrite Hc' by by rewrite <- Ha'. rewrite Hc2. cbn. by rewrite Hc.
Qed.

Lemma unwind_diag rs : forall c, co_diag (foldl (fun c r => release_pending (wk_signal_id (ru_work r)) (settle (ru_work r) c)) c rs) = co_diag c.
Proof.
  induction rs as [|r rs IH]; intros c; [done|]. cbn [foldl]. rewrite IH.
  match goal with |- context [release_pending ?j ?d] => destruct (release_frame j d) as (_ & _ & _ & -> & _) end.
  by destruct (settle_frame (ru_work r) c) as (_ & _ & _ & -> & _).
Qed.
Lemma shutdown_accounted c : accounted c (shutdown c) (emitted c (shutdown c)).
Proof.
  assert (N : forall id (d : Coordinator), id ∈ co_active_ids (reset_after_shutdown d) -> False) by (intros id d; cbn; set_solver).
  unfold shutdown. destruct (co_queue c) eqn:Eq; apply same_queue_accounted; try (by intros id []%N); try done; cbn [reset_after_shutdown co_diag co_queue co_running set_queue set_running default length];
    rewrite ?unwind_diag; try done; try (cbn; lia).
  intros id. unfold queued, works_of. cbn. lia.
Qed.
Lemma step_accounted (st st' : State) : good budget queue_size concurrency st.1 ->
  step collect uuids tel_wall mono wall policy budget queue_size concurrency st st' -> accounted st.1 st'.1 (emitted st.1 st'.1).
Proof.
  intros G H. destruct H as [results statuses active_ids [c t]|st st' [c c' t Hl E|i o [c t] st1 E]|c t|c t]; cbn [fst] in *.
  - destruct (tick_grown results statuses active_ids c t (proj1 G)) as (ws & ?). by eapply grown_accounted.
  - by apply take_accounted.
  - by eapply finish_accounted.
  - unfold start. destruct (co_queue c) eqn:Eq; apply same_queue_accounted; cbn; unfold queued; rewrite ?Eq; done || (cbn; lia).
  - apply shutdown_accounted.
Qed.

(** A run all of whose states after the first satisfy [P], with what it submitted and called. *)
Inductive history (P : State -> Prop) : list CallEvent -> State -> State -> Prop :=
  | history_nil st : history P [] st st
  | history_step log st st1 st2 : history P log st st1 ->
      step collect uuids tel_wall mono wall policy budget queue_size concurrency st1 st2 -> P st2 ->
      history P (log ++ emitted st1.1 st2.1) st st2.

Lemma history_any P log st st' : history P log st st' -> history (fun _ => True) log st st'.
Proof. induction 1; [constructor|by eapply history_step]. Qed.

Lemma history_accounted P log st st' : good budget queue_size concurrency st.1 -> history P log st st' ->
  good budget queue_size concurrency st'.1 /\
  dg_requests_submitted (co_diag st'.1) = dg_requests_submitted (co_diag st.1) + submissions log /\
  dg_model_calls (co_diag st'.1) = dg_model_calls (co_diag st.1) + model_calls log /\
  (forall id, times (Called id) log + queued st'.1 id <= queued st.1 id + times (Submitted id) log) /\
  (forall id, (forall s, P s -> id ∈ co_active_ids s.1) ->
     default 0 (co_calls st'.1 !! id) = default 0 (co_calls st.1 !! id) + times (Submitted id) log).
Proof.
  intros G H. induction H as [st|log st st1 st2 H IH Hs Hp].
  - split; [done|]. unfold submissions, model_calls, times. cbn. split_and!; try lia; intros; lia.
  - destruct (IH G) as (G1 & Hsub & Hm & Hq & Hc). destruct (step_accounted _ _ G1 Hs) as [A1 A2 A3 A4].
    split; [by eapply step_good|]. rewrite submissions_app, model_calls_app, A1, A2. split; [lia|]. split; [lia|]. split.
    + intros id. specialize (Hq id). specialize (A4 id). rewrite !times_app. lia.
    + intros id Hid. rewrite A3 by by apply Hid. rewrite (Hc id Hid), times_app. lia.
Qed.

(** An episode: the signal stays active. *)
Definition active_in (id : string) (st : State) : Prop := id ∈ co_active_ids st.1.

Lemma episode_calls id log st st' : good budget queue_size concurrency st.1 -> history (active_in id) log st st' ->
  default 0 (co_calls st'.1 !! id) = default 0 (co_calls st.1 !! id) + times (Submitted id) log /\
  times (Called id) log <= Z.max 0 (call_limit budget).
Proof.
  intros G H. destruct (history_accounted _ _ _ _ G H) as (G' & _ & _ & Hq & Hc). specialize (Hc id (fun s h => h)). split; [done|]. specialize (Hq id).
  destruct G as ([_ _ _ _ _ _ _ _ Ca] & _), G' as ([_ _ _ _ C _ _ _ _] & _). specialize (Ca id).
  assert (queued st.1 id <= Z.of_nat (length (works_of (works st.1) id))).
  { unfold queued, works, works_of. rewrite filter_app, length_app. lia. }
  assert (default 0 (co_calls st'.1 !! id) <= Z.max 0 (call_limit budget)).
  { destruct (co_calls st'.1 !! id) as [n|] eqn:E; cbn; [|lia]. pose proof (C id n E) as Hn. cbn in Hn. lia. }
  assert (0 <= queued st'.1 id) by (unfold queued; lia). lia.
Qed.
End histories.

(** ** Properties *)

Lemma live_unique ws c w w' : NoDup ((fun w => (wk_signal_id w, wk_generation w)) <$> ws) -> w ∈ ws -> w' ∈ ws ->
  wk_signal_id w = wk_signal_id w' -> work_is_live c w = true -> work_is_live c w' = true -> w = w'.
Proof.
  intros N Hw Hw' E [_ G]%live_facts [_ G']%live_facts. rewrite <- E, G in G'. injection G' as G'.
  apply list_elem_of_lookup in Hw as [i Hi]. apply list_elem_of_lookup in Hw' as [j Hj].
  assert (i = j) as ->; [|congruence]. eapply (NoDup_lookup _ i j); [exact N| |];
    rewrite list_lookup_fmap; [by rewrite Hi|rewrite Hj; cbn; by rewrite E, G'].
Qed.

(** C4: whatever the order of ticks, worker moves, call outcomes, starts and shutdowns: the
    registry holds well-formed results of active signals only; at most one piece of unfinished
    work per signal is live, so no superseded call can store; no bookkeeping outlives the
    signal and its pending work; queue and workers stay within their limits, [pending] and
    [in_flight] count the unfinished work and the suspended workers.  Along every further run
    the counters of submissions and of model calls grow by exactly what was put on the queue
    and taken into a call, and for a signal that stays active the coordinator's count of its
    calls grows by exactly the work queued for it, so that an episode never makes more model
    calls than its budget. *)
Theorem coordinator_safe {S F} (collect : Recorder S TelemetryEvent) uuids tel_wall mono wall policy budget queue_size concurrency
    (t0 : option (TelemetryRuntime S F)) st :
  rtc (step collect uuids tel_wall mono wall policy budget queue_size concurrency) (coordinator_init, t0) st ->
  let c := st.1 in
  let runs P log st' := history collect uuids tel_wall mono wall policy budget queue_size concurrency P log st st' in
  map_Forall (fun id r => id ∈ co_active_ids c /\ row_ok id r) (co_registry c) /\
  map_Forall (fun _ n => n <= call_limit budget) (co_calls c) /\
  (forall w w', w ∈ works c -> w' ∈ works c -> wk_signal_id w = wk_signal_id w' ->
     work_is_live c w = true -> work_is_live c w' = true -> w = w') /\
  (forall id, id ∈ tracked_episodes c -> id ∈ co_active_ids c \/ exists w, w ∈ works c /\ wk_signal_id w = id) /\
  (forall id, default 0 (co_pending c !! id) = Z.of_nat (length (works_of (works c) id))) /\
  co_in_flight c = Z.of_nat (length (co_running c)) /\ co_in_flight c <= worker_count concurrency /\
  (0 < queue_size -> Z.of_nat (length (default [] (co_queue c))) <= queue_size) /\
  (forall log st', runs (fun _ => True) log st' ->
     dg_requests_submitted (co_diag st'.1) = dg_requests_submitted (co_diag c) + submissions log /\
     dg_model_calls (co_diag st'.1) = dg_model_calls (co_diag c) + model_calls log) /\
  (forall id log st', runs (active_in id) log st' ->
     default 0 (co_calls st'.1 !! id) = default 0 (co_calls c !! id) + times (Submitted id) log /\
     times (Called id) log <= Z.max 0 (call_limit budget)).
Proof.
  intros H. pose proof (reachable_good _ _ _ _ _ _ _ _ _ _ _ H) as G. pose proof G as ([R Pe Ge Di C T Q Fl Ca] & Hc & _). cbn zeta.
  split; [done|]. split; [done|]. split; [intros ? ? ? ?; by apply (live_unique (works st.1))|].
  split; [|split; [|split; [lia|split; [lia|split; [done|split]]]]].
  - intros id Hid. destruct (T id Hid) as [?|[?|Hn]]; [by left|set_solver|right].
    destruct (works_of (works st.1) id) as [|w l] eqn:E; [done|]. exists w.
    assert (Hw : w ∈ works_of (works st.1) id) by (rewrite E; left). apply list_elem_of_filter in Hw as [? ?]. done.
  - intros id. by rewrite Pe, positive_default.
  - intros log st' Hr. by destruct (history_accounted _ _ _ _ _ _ _ _ _ _ _ _ _ G Hr) as (_ & ? & ? & _).
  - intros id log st' Hr. by apply (episode_calls _ _ _ _ _ _ _ _ _ _ _ _ _ G Hr).
Qed.

(** What a live call's end leaves in the registry. *)
Definition recorded (w : IntelligenceWork) (o : Outcome) (old new : option IntelligenceResult) : Prop :=
  match o with
  | Completed completion _ => exists created elapsed calls, new = Some (mkResult (wk_signal_id w) ENRICHED true
      (Some (mkAnnotation (wk_signal_id w) (mc_worth_highlight completion) (mc_reason completion) (mc_confidence completion)
         (mc_summary completion) created)) Fallback.NONE calls None (Some elapsed) None)
  | Raised e => exists elapsed calls, new = Some (mkResult (wk_signal_id w) FALLBACK true None (reason_for e) calls None (Some elapsed) None)
  | CancelledError => new = old
  end.

Definition is_cancelled (o : Outcome) : bool := match o with CancelledError => true | _ => false end.

Section ends.
Context {S F : Type} (collect : Recorder S TelemetryEvent) (uuids : nat -> string) (tel_wall mono wall : nat -> float).
Implicit Types (t : option (TelemetryRuntime S F)) (w : IntelligenceWork).

Lemma store_live w r c d : co_registry d = co_registry c -> work_is_live d w = true -> ir_signal_id r = wk_signal_id w ->
  co_registry (store w r d) !! wk_signal_id w = Some r /\
  forall id, id <> wk_signal_id w -> co_registry (store w r d) !! id = co_registry c !! id.
Proof.
  intros Hd Hl Hid. unfold store. rewrite Hl. cbn. unfold registry_put. rewrite Hid, Hd.
  split; [by rewrite lookup_insert_eq|]. intros id Hne. by rewrite lookup_insert_ne.
Qed.

Lemma resume_live w started o c t : work_is_live c w = true ->
  let c' := (resume collect uuids tel_wall mono wall w started o (c, t)).1 in
  recorded w o (co_registry c !! wk_signal_id w) (co_registry c' !! wk_signal_id w) /\
  forall id, id <> wk_signal_id w -> co_registry c' !! id = co_registry c !! id.
Proof.
  intros Hl. destruct o as [completion parse|e|]; cbn [resume recorded].
  - unfold on_completion. cbn [monotonic_time wall_time].
    match goal with |- context [work_is_live ?d w] => change (work_is_live d w) with (work_is_live c w); rewrite Hl end.
    cbn [negb]. match goal with |- context [store w ?r ?d] => destruct (store_live w r c d eq_refl Hl eq_refl) as [H1 H2];
      set (c2 := store w r d) in * end.
    destruct (mc_token_in completion), (mc_token_out completion); cbn [fst]; (split; [rewrite H1; by do 3 eexists|done]).
  - unfold on_exception. cbn [monotonic_time].
    match goal with |- context [work_is_live ?d w] => change (work_is_live d w) with (work_is_live c w); rewrite Hl end.
    match goal with |- context [store w ?r ?d] => destruct (store_live w r c d eq_refl Hl eq_refl) as [H1 H2];
      set (c2 := store w r d) in * end.
    cbn [fst]. split; [|done]. rewrite H1. by do 2 eexists.
  - cbn [fst snd]. by destruct (co_closed c).
Qed.

Lemma resume_stale w started o c t : work_is_live c w = false ->
  let st := resume collect uuids tel_wall mono wall w started o (c, t) in
  co_registry st.1 = co_registry c /\ st.2 = t /\
  dg_stale_discard (co_diag st.1) = dg_stale_discard (co_diag c) + (if is_cancelled o && co_closed c then 0 else 1).
Proof.
  intros Hl. destruct o as [completion parse|e|]; cbn [resume is_cancelled andb].
  - unfold on_completion. cbn [monotonic_time].
    match goal with |- context [work_is_live ?d w] => change (work_is_live d w) with (work_is_live c w); rewrite Hl end. by cbn.
  - unfold on_exception. cbn [monotonic_time].
    match goal with |- context [work_is_live ?d w] => change (work_is_live d w) with (work_is_live c w); rewrite Hl end. by destruct e.
  - cbn [fst snd]. destruct (co_closed c); cbn; (split; [done|split; [done|lia]]).
Qed.

(** The end of a live call, through the worker's cleanup. *)
Lemma finish_live i o c t r : co_running c !! i = Some r -> work_is_live c (ru_work r) = true ->
  exists c' t', finish collect uuids tel_wall mono wall i o (c, t) = Some (c', t') /\
    recorded (ru_work r) o (co_registry c !! wk_signal_id (ru_work r)) (co_registry c' !! wk_signal_id (ru_work r)) /\
    forall id, id <> wk_signal_id (ru_work r) -> co_registry c' !! id = co_registry c !! id.
Proof.
  intros Er Hl. unfold finish. cbn [fst]. rewrite Er. pose proof (resume_live (ru_work r) (ru_started r) o c t Hl) as L.
  destruct (resume collect uuids tel_wall mono wall (ru_work r) (ru_started r) o (c, t)) as [c1 t1]. do 2 eexists. split; [reflexivity|].
  match goal with |- context [release_pending ?i ?d] => destruct (release_frame i d) as (_ & _ & _ & _ & ->) end.
  match goal with |- context [settle ?w ?d] => destruct (settle_frame w d) as (_ & _ & _ & _ & ->) end. done.
Qed.
End ends.

(** C15: when a model call ends, a worker always runs to its end. If the work is still live,
    the registry gets the completion's annotation or the exception's fallback reason under
    its signal, and nothing else in it changes. If the signal was retired or the work
    superseded, the registry and the telemetry are untouched and exactly one stale discard is counted
    (none for a cancellation at shutdown). *)
Theorem finish_spec {S F} (collect : Recorder S TelemetryEvent) uuids tel_wall mono wall i o c (t : option (TelemetryRuntime S F)) r :
  co_running c !! i = Some r ->
  exists c' t', finish collect uuids tel_wall mono wall i o (c, t) = Some (c', t') /\
    (work_is_live c (ru_work r) = true ->
       recorded (ru_work r) o (co_registry c !! wk_signal_id (ru_work r)) (co_registry c' !! wk_signal_id (ru_work r)) /\
       forall id, id <> wk_signal_id (ru_work r) -> co_registry c' !! id = co_registry c !! id) /\
    (work_is_live c (ru_work r) = false ->
       co_registry c' = co_registry c /\ t' = t /\
       dg_stale_discard (co_diag c') = dg_stale_discard (co_diag c) +
         (if is_cancelled o && co_closed c then 0 else 1)).
Proof.
  intros Er. unfold finish. cbn [fst]. rewrite Er.
  pose proof (resume_live collect uuids tel_wall mono wall (ru_work r) (ru_started r) o c t) as L.
  pose proof (resume_stale collect uuids tel_wall mono wall (ru_work r) (ru_started r) o c t) as N.
  destruct (resume collect uuids tel_wall mono wall (ru_work r) (ru_started r) o (c, t)) as [c1 t1].
  do 2 eexists. split; [reflexivity|].
  match goal with |- context [release_pending ?i ?d] => destruct (release_frame i d) as (_ & _ & _ & -> & ->) end.
  match goal with |- context [settle ?w ?d] => destruct (settle_frame w d) as (_ & _ & _ & -> & ->) end. done.
Qed.

(** C11: the workers always drain: from any reachable state every worker move consumes work
    (each state has finitely many left), some move is possible while work remains, whatever
    the calls answer, and once none remains nothing is pending and only active signals are
    still tracked. *)
Theorem workers_drain {S F} (collect : Recorder S TelemetryEvent) uuids tel_wall mono wall policy budget queue_size concurrency
    (t0 : option (TelemetryRuntime S F)) st :
  rtc (step collect uuids tel_wall mono wall policy budget queue_size concurrency) (coordinator_init, t0) st ->
  (forall st', worker_step collect uuids tel_wall mono wall concurrency st st' -> (measure st'.1 < measure st.1)%nat) /\
  (works st.1 <> [] -> exists st', worker_step collect uuids tel_wall mono wall concurrency st st') /\
  (exists st', rtc (worker_step collect uuids tel_wall mono wall concurrency) st st' /\ works st'.1 = []) /\
  (works st.1 = [] -> tracked_episodes st.1 ⊆ co_active_ids st.1 /\ co_pending st.1 = ∅ /\ co_in_flight st.1 = 0).
Proof.
  intros H. pose proof (reachable_good _ _ _ _ _ _ _ _ _ _ _ H) as G. split; [|split; [|split]].
  - intros st'. apply worker_step_measure.
  - by apply (worker_progress _ _ _ _ _ budget queue_size).
  - destruct (workers_run_out collect uuids tel_wall mono wall budget queue_size concurrency st G) as (st' & ? & _ & ?). by exists st'.
  - apply drained_forgets with (budget := budget) (queue_size := queue_size). apply G.
Qed.

(** ** Witnesses *)
Definition demo_signal : Signal :=
  mkSignal "s1" ["e1"] "600519.SH" "momentum" UP IMPORTANT "title" "summary" RULE (flit 5 0) (flit 5 0) (flit 5 0) (flit 5 0) None.
Definition demo_trace : SignalTrace :=
  mkTrace "s1" ["e1"] ["rapid_move"] moving_features "momentum" UP IMPORTANT "severity" (flit 5 0) (flit 5 0).
Definition demo_row : SymbolTickResult :=
  mkTickResult "600519.SH" (Some moving_features) [] [demo_signal] [demo_trace] [demo_signal] COLD HOT.
Definition demo_completion : ModelCompletion := mkCompletion true "sharp move" (flit 5 1) "volume confirms" None None.

Abbreviation demo_step := (step (F := unit) (S := list TelemetryEvent) inmemory_record demo_ids (fun _ => f0) (fun _ => f0) (fun _ => f0)
  default_router_policy default_budget 8 1).
Definition demo_observed : Coordinator * option (TelemetryRuntime (list TelemetryEvent) unit) :=
  observe_tick inmemory_record demo_ids (fun _ => f0) (fun _ => f0) (fun _ => f0) default_router_policy default_budget 8 [demo_row] [LIVE]
    (Some {["s1"]}) (start coordinator_init, Some demo_runtime).
Definition demo_taken : Coordinator := default coordinator_init (take_work (fun _ => f0) demo_observed.1).

Lemma demo_take : take_work (fun _ => f0) demo_observed.1 = Some demo_taken.
Proof. vm_compute. reflexivity. Qed.
Lemma demo_idle : (Z.of_nat (length (co_running demo_observed.1)) <? worker_count 1) = true.
Proof. vm_compute. reflexivity. Qed.
Lemma demo_reached : rtc demo_step (coordinator_init, Some demo_runtime) (demo_taken, demo_observed.2).
Proof.
  eapply rtc_l; [apply step_start|]. eapply rtc_l; [apply (step_observe _ _ _ _ _ _ _ _ _ [demo_row] [LIVE] (Some {["s1"]}))|].
  apply rtc_once, step_worker. change (observe_tick _ _ _ _ _ _ _ _ _ _ _ _) with demo_observed.
  rewrite (surjective_pairing demo_observed) at 1. apply step_take; [apply Z.ltb_lt, demo_idle|apply demo_take].
Qed.
Lemma demo_in_flight : co_in_flight demo_taken = 1.
Proof. vm_compute. reflexivity. Qed.

Definition demo_start : Coordinator * option (TelemetryRuntime (list TelemetryEvent) unit) := (start coordinator_init, Some demo_runtime).
Lemma demo_episode : history (F := unit) (S := list TelemetryEvent) inmemory_record demo_ids (fun _ => f0) (fun _ => f0) (fun _ => f0)
  default_router_policy default_budget 8 1 (active_in "s1") [Submitted "s1"; Called "s1"] demo_start (demo_taken, demo_observed.2).
Proof.
  assert (H : history (F := unit) (S := list TelemetryEvent) inmemory_record demo_ids (fun _ => f0) (fun _ => f0) (fun _ => f0)
    default_router_policy default_budget 8 1 (active_in "s1") [Submitted "s1"] demo_start demo_observed).
  { change [Submitted "s1"] with ([] ++ [Submitted "s1"]). replace [Submitted "s1"] with (emitted demo_start.1 demo_observed.1) by (vm_compute; reflexivity).
    eapply history_step; [apply history_nil|exact (step_observe _ _ _ _ _ _ _ _ _ [demo_row] [LIVE] (Some {["s1"]}) demo_start)|].
    unfold active_in. refine (bool_decide_unpack _ _). vm_compute. exact I. }
  change [Submitted "s1"; Called "s1"] with ([Submitted "s1"] ++ [Called "s1"]).
  replace [Called "s1"] with (emitted demo_observed.1 demo_taken) by (vm_compute; reflexivity).
  eapply (history_step _ _ _ _ _ _ _ _ _ _ _ _ demo_observed (demo_taken, demo_observed.2)); [exact H| |].
  - apply step_worker. rewrite (surjective_pairing demo_observed) at 1. apply step_take; [apply Z.ltb_lt, demo_idle|apply demo_take].
  - unfold active_in. refine (bool_decide_unpack _ _). vm_compute. exact I.
Qed.

(** One submission, one call, within a budget of one. *)
Lemma coordinator_safe_witness :
  default 0 (co_calls demo_taken !! "s1") = 1 /\ dg_requests_submitted (co_diag demo_taken) = 1 /\
  1 <= Z.max 0 (call_limit default_budget).
Proof.
  pose proof (coordinator_safe inmemory_record demo_ids (fun _ => f0) (fun _ => f0) (fun _ => f0) default_router_policy
    default_budget 8 1 (Some demo_runtime) demo_start ltac:(apply rtc_once, step_start)) as H.
  destruct H as (_ & _ & _ & _ & _ & _ & _ & _ & Totals & Episodes).
  destruct (Episodes "s1" _ _ demo_episode) as [Calls Limit]. split; [exact Calls|]. split; [|exact Limit].
  exact (proj1 (Totals _ _ (history_any _ _ _ _ _ _ _ _ _ _ _ _ _ demo_episode))).
Defined.

Lemma demo_worker : exists r, co_running demo_taken !! 0%nat = Some r /\ work_is_live demo_taken (ru_work r) = true.
Proof. vm_compute. eexists. split; reflexivity. Qed.

Lemma finish_spec_witness : exists r st, finish inmemory_record demo_ids (fun _ => f0) (fun _ => f0) (fun _ => f0) 0
    (Completed demo_completion None) (demo_taken, demo_observed.2) = Some st /\
  recorded (ru_work r) (Completed demo_completion None) (co_registry demo_taken !! wk_signal_id (ru_work r))
    (co_registry st.1 !! wk_signal_id (ru_work r)).
Proof.
  destruct demo_worker as (r & Er & El).
  destruct (finish_spec inmemory_record demo_ids (fun _ => f0) (fun _ => f0) (fun _ => f0) 0 (Completed demo_completion None)
    demo_taken demo_observed.2 r Er) as (c' & t' & E & L & _).
  exists r, (c', t'). split; [exact E|exact (proj1 (L El))].
Defined.

Lemma workers_drain_witness : exists st', rtc (worker_step inmemory_record demo_ids (fun _ => f0) (fun _ => f0) (fun _ => f0) 1)
    (demo_taken, demo_observed.2) st' /\ works st'.1 = [].
Proof.
  exact (proj1 (proj2 (proj2 (workers_drain inmemory_record demo_ids (fun _ => f0) (fun _ => f0) (fun _ => f0) default_router_policy
    default_budget 8 1 (Some demo_runtime) (demo_taken, demo_observed.2) demo_reached)))).
Defined.
