(* ===== verification/Sidecar.v ===== *)
(** * The intelligence provider (src/market_sentinel/intelligence/: model_settings.py, redaction.py,
      fake.py, providers/dashscope.py, factory.py, bootstrap.py)

    How the sidecar is built from the environment, and one call of the model.  What is outside
    the program enters by its answers: the HTTP exchange ([exchange], the [k]-th one answers a
    status and body bytes, or raises), the gb18030 decoder and the decoding of error pages.
    A call ends in a completion or an exception, which is what the coordinator (Coordinator.v)
    gets as the outcome of its await; the warning logged there is not modelled. *)
From Stdlib Require Import ZArith Lia Ascii String.
From stdpp Require Import prelude strings gmap.
From S2P Require Import Prelude PyFloat Domain Normalizer NumberText Json PyText Features Telemetry Pipeline Engine Intelligence Coordinator.
Local Open Scope Z_scope.

(** ** model_settings.py *)
Definition DEFAULT_PROVIDER : string := "dashscope".
Definition DEFAULT_MODEL : string := "qwen3.7-max-2026-06-08".
Definition DEFAULT_BASE_URL : string := "https://dashscope.aliyuncs.com/compatible-mode/v1".
Definition DEFAULT_TIMEOUT_S : float := flit 8 0.
Definition DEFAULT_MAX_OUTPUT_TOKENS : Z := 150.
Definition API_KEY_ENV : string := "DASHSCOPE_API_KEY".

Record IntelligenceModelSettings := mkSettings {
  ms_provider : string;
  ms_model : string;
  ms_base_url : string;
  ms_timeout_s : float;
  ms_max_output_tokens : Z;
  ms_api_key_env : string
}.

(** [int(text)]: white space, a sign, digits with single underscores between them, at most 4300. *)
Definition int_of_str (s : string) : option Z :=
  let '(neg, s) := split_sign (strip s) in
  let '(v, n, rest) := digits_run s 0 0 in
  if (0 <? n) && bool_decide (rest = "") && (n <=? Z.of_nat MAX_STR_DIGITS) then Some (sgn neg v) else None.
Example int_ex : int_of_str " -1_0 " = Some (-10) /\ int_of_str "1__0" = None /\ int_of_str "1.5" = None /\ int_of_str "" = None.
Proof. by vm_compute. Qed.

(** [str.rstrip("/")] *)
Definition rstrip_slash (s : string) : string := String.rev (lstrip_chars [SLASH] (String.rev s)).

Abbreviation Environ := (string -> option string).
Definition environ_get (env : Environ) (name fallback : string) : string := default fallback (env name).

Definition load_model_settings (env : Environ) : result IntelligenceModelSettings :=
  timeout ← match env "MARKET_SENTINEL_INTEL_TIMEOUT_S" with Some raw => py_float (PyStr raw) | None => Ok DEFAULT_TIMEOUT_S end;
  tokens ← match env "MARKET_SENTINEL_INTEL_MAX_OUTPUT_TOKENS" with
           | Some raw => of_option (ValueError "invalid literal for int()") (int_of_str raw)
           | None => Ok DEFAULT_MAX_OUTPUT_TOKENS
           end;
  Ok (mkSettings (environ_get env "MARKET_SENTINEL_INTEL_PROVIDER" DEFAULT_PROVIDER) (environ_get env "MARKET_SENTINEL_INTEL_MODEL" DEFAULT_MODEL)
        (rstrip_slash (environ_get env "MARKET_SENTINEL_INTEL_BASE_URL" DEFAULT_BASE_URL)) timeout tokens
        (environ_get env "MARKET_SENTINEL_INTEL_API_KEY_ENV" API_KEY_ENV)).

(** ** redaction.py *)
Definition redact_secrets (text : string) (secrets : list string) : string :=
  foldl (fun redacted secret => if decide (secret = "") then redacted else str_replace secret "[redacted]" redacted) text secrets.

(** ** errors.py *)
Definition intelligence_error {A} (kind message : string) : result A := Err (IntelligenceError kind message).
Definition auth_error {A} (message : string) : result A := intelligence_error "IntelligenceAuthError" message.
Definition timeout_error {A} : result A := intelligence_error "IntelligenceTimeoutError" "model request timed out".

(** ** fake.py *)
Record FakeIntelligenceProvider := mkFakeIntelligence {
  fi_scripted : ModelCompletion;
  fi_error : option exn;
  fi_calls : list (list (string * payload_value));
  fi_last_parse : float
}.
Definition scripted_default : ModelCompletion := mkCompletion true "scripted" (flit 5 1) "scripted summary" None None.
Definition fake_intelligence (scripted : option ModelCompletion) (error : option exn) : FakeIntelligenceProvider :=
  mkFakeIntelligence (default scripted_default scripted) error [] f0.
Definition fake_complete (payload : list (string * payload_value)) : Step FakeIntelligenceProvider ModelCompletion := fun p =>
  let p := mkFakeIntelligence (fi_scripted p) (fi_error p) (fi_calls p ++ [payload]) (fi_last_parse p) in
  match fi_error p with Some e => (Err e, p) | None => (Ok (fi_scripted p), p) end.

(** ** dashscope.py *)
Definition non_negative_int (value : json) : option Z :=
  match value with JInt n => if n <? 0 then None else Some n | _ => None end.
Definition member_of (v : json) (key : string) : json :=
  match v with JObj ms => default JNull (od_get key ms) | _ => JNull end.
Definition usage_tokens (envelope : json) : option Z * option Z :=
  match member_of envelope "usage" with
  | JObj _ as usage => (non_negative_int (member_of usage "prompt_tokens"), non_negative_int (member_of usage "completion_tokens"))
  | _ => (None, None)
  end.

Definition SYSTEM_PROMPT : string :=
  "You are a market tape analyst. Reply with a JSON object only, keys: worth_highlight (bool), reason (string), confidence (0..1), summary (string). Use only the supplied structured facts. Do not give buy/sell or trading advice. Do not invent prices, volumes, or events.".

(** What [urlopen] does: a response with its status and bytes; [TimeoutError]; [HTTPError] with
    its code and its page, if there is one; [URLError] with its reason; or another exception. *)
Inductive UrlAnswer :=
  | UrlResponse (status : Z) (raw : string) | UrlTimeout | UrlHttpError (code : Z) (page : option string) | UrlError (reason : string) | UrlRaises (e : exn).
Record HttpRequest := mkRequest { rq_url : string; rq_headers : list (string * string); rq_body : string; rq_timeout_s : float }.

Section transport.
Context (exchange : nat -> HttpRequest -> UrlAnswer) (gb18030 : string -> option string) (replacing : string -> string).

(** [_default_transport]; [raw.decode] tries UTF-8, then gb18030. *)
Definition default_transport (k : nat) (request : HttpRequest) : result (Z * string) :=
  match exchange k request with
  | UrlTimeout => timeout_error
  | UrlHttpError code page => Ok (code, from_option replacing "" page)
  | UrlError reason =>
      if contains "timed out" (lower reason) then timeout_error
      else intelligence_error "IntelligenceTransportError" "model transport failed"
  | UrlRaises e => Err e
  | UrlResponse status raw =>
      if utf8_valid raw then Ok (status, raw)
      else match gb18030 raw with
           | Some text => Ok (status, text)
           | None => intelligence_error "IntelligenceMalformedError" "unable to decode model response"
           end
  end.
End transport.

Record DashScopeIntelligenceProvider := mkDashScope {
  ds_api_key : string;
  ds_model : string;
  ds_endpoint : string;
  ds_max_output_tokens : Z;
  ds_last_parse : float;
  ds_calls : nat;        (* exchanges made *)
  ds_perf : nat          (* readings of [time.perf_counter] *)
}.

Definition dashscope_init (api_key model base_url : string) (max_output_tokens : Z) : result DashScopeIntelligenceProvider :=
  if bool_decide (strip api_key = "") then auth_error "API key is not set"
  else Ok (mkDashScope api_key model (rstrip_slash base_url +:+ "/chat/completions") max_output_tokens f0 0 0).

Definition headers (p : DashScopeIntelligenceProvider) : list (string * string) :=
  [("Authorization", "Bearer " +:+ ds_api_key p); ("Content-Type", "application/json")].

Definition raise_http {A} (status : Z) : result A :=
  if (status =? 401) || (status =? 403) then auth_error "model auth failed"
  else if status =? 429 then intelligence_error "IntelligenceRateLimitError" "model rate limited"
  else if 500 <=? status then intelligence_error "IntelligenceUnavailableError" "model unavailable"
  else intelligence_error "IntelligenceTransportError" ("model HTTP " +:+ int_repr status).

(** A payload as the JSON value [json.dumps] prints. *)
Definition pyval_json (v : pyval) : json :=
  match v with
  | PyNone | PyOther => JNull
  | PyBool b => JBool b | PyInt n => JInt n | PyFloat x => JFloat x | PyStr s => JStr s
  end.
Definition payload_json (payload : list (string * payload_value)) : json :=
  JObj ((fun m => (m.1, match m.2 with PScalar v => pyval_json v | PStrings l => JList (JStr <$> l) end)) <$> payload).

Definition request_json (p : DashScopeIntelligenceProvider) (content : string) : json :=
  JObj [("model", JStr (ds_model p));
        ("messages", JList [JObj [("role", JStr "system"); ("content", JStr SYSTEM_PROMPT)]; JObj [("role", JStr "user"); ("content", JStr content)]]);
        ("response_format", JObj [("type", JStr "json_object")]);
        ("max_tokens", JInt (ds_max_output_tokens p)); ("temperature", JFloat (flit 2 1)); ("enable_thinking", JBool false)].

(** [envelope["choices"][0]["message"]["content"]] *)
Definition content_at (envelope : json) : result json :=
  choices ← item_at envelope "choices"; choice ← first_item choices; message ← item_at choice "message"; item_at message "content".

Section dashscope.
Context (limit : nat) (transport : nat -> HttpRequest -> result (Z * string)) (perf_counter : nat -> float).
Abbreviation M := (Step DashScopeIntelligenceProvider).

Definition read_perf : M float := fun p =>
  (Ok (perf_counter (ds_perf p)),
   mkDashScope (ds_api_key p) (ds_model p) (ds_endpoint p) (ds_max_output_tokens p) (ds_last_parse p) (ds_calls p) (1 + ds_perf p)).
Definition set_last_parse (x : float) : M unit := modify (fun p =>
  mkDashScope (ds_api_key p) (ds_model p) (ds_endpoint p) (ds_max_output_tokens p) x (ds_calls p) (ds_perf p)).

(** The request's text, and the transport's answer; a [TimeoutError] becomes the program's own. *)
Definition request_text (p : DashScopeIntelligenceProvider) (payload : list (string * payload_value)) : result string :=
  content ← dumps_ascii (payload_json payload); dumps_ascii (request_json p content).
Definition send_request (body : string) (timeout_s : float) : M (Z * string) := fun p =>
  (match transport (ds_calls p) (mkRequest (ds_endpoint p) (headers p) body timeout_s) with
   | Err (TimeoutError _) => timeout_error
   | r => r
   end,
   mkDashScope (ds_api_key p) (ds_model p) (ds_endpoint p) (ds_max_output_tokens p) (ds_last_parse p) (1 + ds_calls p) (ds_perf p)).

Definition decode_envelope (text : string) : result json :=
  match loads limit text with
  | Parsed v => Ok v
  | JSONDecodeError => malformed "model envelope is not JSON"
  | LoadsRaises e => Err e
  end.
Definition content_text (envelope : json) : result string :=
  match content_at envelope with
  | Ok (JStr s) => Ok s
  | Ok _ => malformed "model content is not a string"
  | Err (KeyError | IndexError | TypeError) => malformed "model envelope missing content"
  | Err e => Err e
  end.
(** [parse_model_output] from the text. *)
Definition parse_text (content : string) : result ModelCompletion :=
  match loads limit content with
  | Parsed (JObj ms) => parse_model_output (Some (Some ((fun m => (m.1, scalar m.2)) <$> ms)))
  | Parsed _ => parse_model_output (Some None)
  | JSONDecodeError => parse_model_output None
  | LoadsRaises e => Err e
  end.

Definition complete_sync (payload : list (string * payload_value)) (timeout_s : float) : M ModelCompletion :=
  body ← (fun p => (request_text p payload, p));
  '(status, text) ← send_request body timeout_s;
  _ ← lift (if 400 <=? status then raise_http status else Ok tt);
  envelope ← lift (decode_envelope text);
  content ← lift (content_text envelope);
  started ← read_perf;
  parsed ← lift (parse_text content);
  ended ← read_perf;
  _ ← set_last_parse (fsub ended started);
  let '(token_in, token_out) := usage_tokens envelope in
  mret (match token_in, token_out with
        | None, None => parsed
        | _, _ => mkCompletion (mc_worth_highlight parsed) (mc_reason parsed) (mc_confidence parsed) (mc_summary parsed) token_in token_out
        end).
End dashscope.

(** ** factory.py *)
Inductive IntelligenceProvider := FakeIntelligence (p : FakeIntelligenceProvider) | DashScope (p : DashScopeIntelligenceProvider).

(** [name] and [api_key] may be absent; an empty name counts as absent. *)
Definition create_intelligence_provider (name : option string) (settings : IntelligenceModelSettings) (api_key : option string) (env : Environ)
    : result IntelligenceProvider :=
  let named := match name with Some n => if decide (n = "") then ms_provider settings else n | None => ms_provider settings end in
  let chosen := lower (strip named) in
  if decide (chosen = "fake") then Ok (FakeIntelligence (fake_intelligence None None))
  else if decide (chosen = "dashscope") then
    let key := match api_key with Some k => k | None => environ_get env (ms_api_key_env settings) "" end in
    if decide (key = "") then auth_error "API key is not set"
    else p ← dashscope_init key (ms_model settings) (ms_base_url settings) (ms_max_output_tokens settings); Ok (DashScope p)
  else Err (ValueError ("unknown intelligence provider: " +:+ chosen)).

(** ** bootstrap.py *)
Record Sidecar := mkSidecar {
  sd_provider : IntelligenceProvider;
  sd_timeout_s : float;
  sd_secrets : list string;
  sd_coordinator : Coordinator
}.

Definition build_sidecar (env : Environ) : result Sidecar :=
  settings ← load_model_settings env;
  let name := environ_get env "MARKET_SENTINEL_INTEL_PROVIDER" (ms_provider settings) in
  let secret := if bool_decide (lower (strip name) = "fake") then "" else environ_get env (ms_api_key_env settings) "" in
  let given := if decide (secret = "") then None else Some secret in
  provider ← create_intelligence_provider (Some name) settings given env;
  Ok (mkSidecar provider (ms_timeout_s settings) (option_list given) coordinator_init).

Definition intelligence_flag (env : Environ) : bool :=
  bool_decide (lower (strip (environ_get env "MARKET_SENTINEL_INTEL_ENABLED" "")) ∈ ["1"; "true"; "yes"]).

Definition optional_intelligence (env : Environ) (enabled : option bool) : result (option Sidecar) :=
  if negb (match enabled with Some b => b | None => intelligence_flag env end) then Ok None
  else match build_sidecar env with
       | Ok s => Ok (Some s)
       | Err (IntelligenceError _ _ | ValueError _) => Ok None
       | Err e => Err e
       end.

(** ** A call, as the coordinator's await sees it *)
Definition failure_of (e : exn) : Failure :=
  match e with
  | IntelligenceError kind _ =>
      if decide (kind = "IntelligenceTimeoutError") then IntelligenceTimeout
      else if decide (kind = "IntelligenceMalformedError") then IntelligenceMalformed
      else if decide (kind = "IntelligenceRateLimitError") then IntelligenceRateLimit
      else if decide (kind = "IntelligenceTransportError") then IntelligenceTransport
      else if decide (kind = "IntelligenceUnavailableError") then IntelligenceUnavailable
      else IntelligenceAuth
  | TimeoutError _ => BuiltinTimeout
  | _ => OtherException
  end.
Definition outcome_of (o : result ModelCompletion * float) : Outcome :=
  match o.1 with Ok c => Completed c (Some o.2) | Err e => Raised (failure_of e) end.

Definition model_call (limit : nat) (transport : nat -> HttpRequest -> result (Z * string)) (perf_counter : nat -> float)
    (payload : list (string * payload_value)) (timeout_s : float) (p : IntelligenceProvider) : Outcome * IntelligenceProvider :=
  match p with
  | FakeIntelligence p => let '(r, p) := fake_complete payload p in (outcome_of (r, fi_last_parse p), FakeIntelligence p)
  | DashScope p => let '(r, p) := complete_sync limit transport perf_counter payload timeout_s p in (outcome_of (r, ds_last_parse p), DashScope p)
  end.

(** * Construction *)
Lemma strip_empty : strip "" = "".
Proof. done. Qed.

Definition chosen (env : Environ) : string := lower (strip (environ_get env "MARKET_SENTINEL_INTEL_PROVIDER" DEFAULT_PROVIDER)).
Definition api_key (env : Environ) : string := environ_get env (environ_get env "MARKET_SENTINEL_INTEL_API_KEY_ENV" API_KEY_ENV) "".
(** The numeric settings are absent or parse. *)
Definition numbers_ok (env : Environ) : Prop :=
  (forall raw, env "MARKET_SENTINEL_INTEL_TIMEOUT_S" = Some raw -> float_of_str raw <> None) /\
  (forall raw, env "MARKET_SENTINEL_INTEL_MAX_OUTPUT_TOKENS" = Some raw -> int_of_str raw <> None).

Lemma load_settings_spec env :
  match load_model_settings env with
  | Ok s => numbers_ok env /\ ms_provider s = environ_get env "MARKET_SENTINEL_INTEL_PROVIDER" DEFAULT_PROVIDER /\
            ms_api_key_env s = environ_get env "MARKET_SENTINEL_INTEL_API_KEY_ENV" API_KEY_ENV /\ 
            (ms_max_output_tokens s = 150 \/ exists raw, int_of_str raw = Some (ms_max_output_tokens s))
  | Err e => ~ numbers_ok env /\ exists m, e = ValueError m
  end.
Proof.
  unfold load_model_settings, numbers_ok. destruct (env "MARKET_SENTINEL_INTEL_TIMEOUT_S") as [t|] eqn:Et.
  - cbn [py_float]. destruct (float_of_str t) as [x|] eqn:Ex; cbn [of_option mbind result_bind]; [|split; [|by eexists]; intros [H _]; by apply (H t)].
    destruct (env "MARKET_SENTINEL_INTEL_MAX_OUTPUT_TOKENS") as [n|] eqn:En.
    + destruct (int_of_str n) as [z|] eqn:Ez; cbn [of_option mbind result_bind]; [|split; [|by eexists]; intros [_ H]; by apply (H n)].
      split; [split; congruence|]. split; [done|]. split; [done|]. right. by exists n.
    + split; [split; congruence|]. split; [done|]. split; [done|]. by left.
  - cbn [mbind result_bind]. destruct (env "MARKET_SENTINEL_INTEL_MAX_OUTPUT_TOKENS") as [n|] eqn:En.
    + destruct (int_of_str n) as [z|] eqn:Ez; cbn [of_option mbind result_bind]; [|split; [|by eexists]; intros [_ H]; by apply (H n)].
      split; [split; congruence|]. split; [done|]. split; [done|]. right. by exists n.
    + split; [split; congruence|]. split; [done|]. split; [done|]. by left.
Qed.

(** A parsed integer has at most 4300 digits, and so prints. *)
Lemma digits_run_bound s : forall acc n v m r, 0 <= n -> 0 <= acc < 10 ^ n -> digits_run s acc n = (v, m, r) -> 0 <= v < 10 ^ m /\ n <= m.
Proof.
  remember (String.length s) as k eqn:E. assert (L : (String.length s <= k)%nat) by lia. clear E. revert s L.
  induction k as [|k IH]; intros s L acc n v m r Hn Ha; (destruct s as [|c s]; [by intros [= <- <- _]|]); [cbn in L; lia|].
  cbn in L. cbn [digits_run]. destruct (is_digit c) eqn:D.
  - intros H. apply IH in H; [|lia|lia|].
    + destruct H. split; [done|lia].
    + unfold is_digit, in_range in D. rewrite andb_true_iff, !Z.leb_le in D. rewrite Z.pow_add_r by lia. lia.
  - destruct (_ && _); [|by intros [= <- <- _]]. destruct s as [|d s]; [by intros [= <- <- _]|]. destruct (is_digit d); [|by intros [= <- <- _]].
    intros H. apply IH in H; [done|cbn in *; lia|done|done].
Qed.
Lemma dec_digits_length fuel : forall n acc k, 0 <= n < 10 ^ Z.of_nat k -> k <> O ->
  (String.length (dec_digits fuel n acc) <= k + String.length acc)%nat.
Proof.
  induction fuel as [|fuel IH]; intros n acc k Hn Hk; cbn [dec_digits]; [lia|]. destruct k as [|k]; [done|].
  cbv zeta. destruct (Z.ltb_spec n 10) as [E|E]; [cbn [String.length]; lia|]. destruct k as [|k].
  - change (10 ^ Z.of_nat 1) with 10 in Hn. lia.
  - etrans; [apply (IH _ _ (Datatypes.S k)); [|done]|cbn [String.length]; lia].
    rewrite Nat2Z.inj_succ, Z.pow_succ_r in Hn by lia. split; [apply Z.div_pos; lia|]. apply Z.div_lt_upper_bound; lia.
Qed.
Lemma tokens_printable m : (m = 150 \/ exists raw, int_of_str raw = Some m) -> digits_ok m = true.
Proof.
  intros [->|[raw H]]; [vm_compute; reflexivity|]. unfold int_of_str in H. destruct (split_sign (strip raw)) as [neg s].
  destruct (digits_run s 0 0) as [[v n] r] eqn:E. apply digits_run_bound in E as [Hv Hn]; [|lia|cbn; lia].
  destruct ((0 <? n) && _ && (n <=? Z.of_nat MAX_STR_DIGITS)) eqn:G; [|done]. injection H as <-.
  apply andb_prop in G as [[G1%Z.ltb_lt _]%andb_prop G2%Z.leb_le]. unfold digits_ok. apply Nat.leb_le.
  assert (Z.abs (sgn neg v) = v) as -> by (destruct neg; cbn; lia).
  unfold dec. etrans; [apply (dec_digits_length _ _ _ (Z.to_nat n)); [rewrite Z2Nat.id; lia|lia]|]. cbn [String.length]. lia.
Qed.

(** The sidecar can be built. *)
Definition buildable (env : Environ) : Prop :=
  numbers_ok env /\ (chosen env = "fake" \/ chosen env = "dashscope" /\ strip (api_key env) <> "").

Lemma build_spec env :
  match build_sidecar env with
  | Ok s => buildable env /\ sd_coordinator s = coordinator_init /\
      match sd_provider s with
      | FakeIntelligence p => chosen env = "fake" /\ p = fake_intelligence None None /\ sd_secrets s = []
      | DashScope p => chosen env = "dashscope" /\ ds_api_key p = api_key env /\ sd_secrets s = [api_key env] /\
          (ds_max_output_tokens p = 150 \/ exists raw, int_of_str raw = Some (ds_max_output_tokens p))
      end
  | Err e => ~ buildable env /\ ((exists m, e = ValueError m) \/ exists m, e = IntelligenceError "IntelligenceAuthError" m)
  end.
Proof.
  unfold build_sidecar, buildable. pose proof (load_settings_spec env) as L. destruct (load_model_settings env) as [st|e].
  2:{ cbn [mbind result_bind]. destruct L as [L [m ->]]. split; [by intros [? _]|]. left. by eexists. }
  destruct L as (Hn & Hp & Hk & Ht). cbn [mbind result_bind]. rewrite Hp, Hk. set (name := environ_get env "MARKET_SENTINEL_INTEL_PROVIDER" DEFAULT_PROVIDER).
  assert (En : environ_get env "MARKET_SENTINEL_INTEL_PROVIDER" name = name) by (unfold name, environ_get; by destruct (env _)). rewrite En.
  fold (api_key env). unfold create_intelligence_provider. rewrite Hp, Hk. fold name.
  assert (Ed : (if decide (name = "") then name else name) = name) by by case_decide. rewrite Ed. fold (api_key env). change (lower (strip name)) with (chosen env).
  destruct (decide (chosen env = "fake")) as [Ef|Ef].
  { rewrite bool_decide_true by done. cbn [mbind result_bind sd_coordinator sd_provider sd_secrets].
    split; [split; [done|by left]|]. by split_and!. }
  rewrite bool_decide_false by done. destruct (decide (chosen env = "dashscope")) as [Ec|Ec].
  2:{ cbn [mbind result_bind]. split; [|left; by eexists]. intros [_ [?|[? _]]]; done. }
  assert (Key : match (if decide (api_key env = "") then None else Some (api_key env)) with Some k => k | None => api_key env end = api_key env)
    by (by destruct (decide (api_key env = ""))).
  rewrite Key. destruct (decide (api_key env = "")) as [E0|E0].
  { cbn [mbind result_bind]. split; [|right; by eexists]. intros [_ [?|[_ H]]]; [done|]. apply H. rewrite E0. done. }
  unfold dashscope_init. case_bool_decide as Eb; cbn [mbind result_bind].
  { split; [|right; by eexists]. intros [_ [?|[_ H]]]; done. }
  cbn. split; [split; [done|by right]|]. split; [done|]. by split_and!.
Qed.

(** C22: The sidecar is optional: [optional_intelligence] never raises.  It gives a sidecar exactly when one is
    wanted - asked for, or enabled by the environment - and can be built: the numeric settings parse, and the
    provider is the fake one, or DashScope with a key that is not blank.  A sidecar's coordinator is fresh; the
    DashScope provider carries the environment's key, which is the one secret to be redacted, and a token
    limit whose digits can be printed. *)
Theorem sidecar_optional env enabled : exists o, optional_intelligence env enabled = Ok o /\
  (is_Some o <-> match enabled with Some b => b | None => intelligence_flag env end = true /\ buildable env) /\
  forall s, o = Some s -> sd_coordinator s = coordinator_init /\
    match sd_provider s with
    | FakeIntelligence _ => sd_secrets s = []
    | DashScope p => ds_api_key p = api_key env /\ strip (api_key env) <> "" /\ sd_secrets s = [api_key env] /\ digits_ok (ds_max_output_tokens p) = true
    end.
Proof.
  unfold optional_intelligence. set (wanted := match enabled with Some b => b | None => _ end). destruct wanted; cbn [negb].
  2:{ exists None. split; [done|]. split; [|done]. split; [by intros [? [=]]|]. by intros [? _]. }
  pose proof (build_spec env) as B. destruct (build_sidecar env) as [s|e].
  - exists (Some s). split; [done|]. destruct B as (Hb & Hc & Hp). split; [split; [done|by eexists]|]. intros ? [= <-]. split; [done|].
    destruct (sd_provider s) as [p|p]; [apply Hp|]. destruct Hp as (Ec & Hk & Hs & Ht). split_and!; [done| |done|].
    + destruct Hb as [_ [?|[_ H]]]; [congruence|done].
    + by apply tokens_printable.
  - destruct B as [Hb [[m ->]|[m ->]]]; exists None; (split; [done|]; split; [|done]; split; [by intros [? [=]]|by intros [_ ?]]).
Qed.

(** * One call of the model *)
(** What a completion that reaches the host is. *)
Record completion_ok (c : ModelCompletion) : Prop := {
  ck_confidence : fle f0 (mc_confidence c) = true /\ fle (mc_confidence c) (flit 1 0) = true;
  ck_texts : mc_reason c <> "" /\ mc_summary c <> "";
  ck_advice : contains_trading_advice (mc_reason c) = false /\ contains_trading_advice (mc_summary c) = false;
  ck_tokens : forall n, mc_token_in c = Some n \/ mc_token_out c = Some n -> 0 <= n
}.
Definition malformed_error (e : exn) : Prop := exists m, e = IntelligenceError "IntelligenceMalformedError" m.

Lemma item_at_error v key e : item_at v key = Err e -> e = KeyError \/ e = TypeError.
Proof. destruct v as [| | | | | |ms]; cbn; try (intros [= <-]; by right). destruct (od_get key ms); [done|]. intros [= <-]. by left. Qed.
Lemma first_item_error v e : first_item v = Err e -> e = KeyError \/ e = IndexError \/ e = TypeError.
Proof. destruct v as [| | | |[]|[]|]; cbn; intros [= <-]; auto. Qed.
Lemma content_text_error v e : content_text v = Err e -> malformed_error e.
Proof.
  unfold content_text. assert (K : forall e, content_at v = Err e -> e = KeyError \/ e = IndexError \/ e = TypeError).
  { intros x. unfold content_at. destruct (item_at v "choices") as [a|x1] eqn:E1; cbn [mbind result_bind].
    2:{ intros [= <-]. apply item_at_error in E1 as [?|?]; auto. }
    destruct (first_item a) as [b|x2] eqn:E2; cbn [mbind result_bind]; [|intros [= <-]; by apply first_item_error in E2].
    destruct (item_at b "message") as [d|x3] eqn:E3; cbn [mbind result_bind]; [|intros [= <-]; apply item_at_error in E3 as [?|?]; auto].
    intros H%item_at_error. destruct H; auto. }
  destruct (content_at v) as [u|x]; [destruct u; try done; intros [= <-]; by eexists|].
  destruct (K x eq_refl) as [->|[-> | ->]]; intros [= <-]; by eexists.
Qed.

Definition unread (e : exn) : Prop := e = OverflowError \/ raisable e.
Lemma parse_text_spec limit content :
  match parse_text limit content with
  | Ok c => completion_ok c
  | Err e => malformed_error e \/ unread e
  end.
Proof.
  assert (P : forall d, match parse_model_output d with Ok c => completion_ok c | Err e => malformed_error e \/ unread e end).
  { intros d. pose proof (proj1 (parse_model_output_spec d)) as H. destruct (parse_model_output d) as [c|e] eqn:E.
    - destruct H as ((data & reason & summary & number & -> & C & Hn & Hr & Hs) & H1 & H2 & H3 & H4 & H5 & H6). split; [done..|].
      intros n Hn'. rewrite (parse_carries _ _ _ _ _ C) in E. destruct (blank reason); [done|]. destruct (blank summary); [done|].
      rewrite Hn in E. cbn [mbind result_bind] in E. destruct (negb _); [done|]. destruct (_ || _); [done|]. injection E as E. rewrite <- E in Hn'. by destruct Hn'.
    - destruct H as [?|[-> _]]; [by left|right; by left]. }
  unfold parse_text. destruct (loads limit content) as [v| |e] eqn:E; [|apply (P None)|right; right; by eapply loads_raises].
  destruct v; first [apply (P (Some None))|apply (P (Some (Some _)))].
Qed.
Lemma decode_error limit text e : decode_envelope limit text = Err e -> malformed_error e \/ unread e.
Proof.
  unfold decode_envelope. destruct (loads limit text) as [v| |x] eqn:E; [done| |]; intros [= <-]; [left; by eexists|right; right; by eapply loads_raises].
Qed.
Lemma usage_tokens_ok v n : (usage_tokens v).1 = Some n \/ (usage_tokens v).2 = Some n -> 0 <= n.
Proof.
  assert (N : forall v n, non_negative_int v = Some n -> 0 <= n) by (intros [| |m| | | |] k; cbn; try done; destruct (Z.ltb_spec m 0); [done|intros [= <-]; lia]).
  unfold usage_tokens. destruct (member_of v "usage"); cbn; intros [H|H]; try done; by eapply N.
Qed.

(** Whatever is done to the provider but for its key, its configuration and counters. *)
Definition same_provider (p p' : DashScopeIntelligenceProvider) : Prop :=
  ds_api_key p' = ds_api_key p /\ ds_model p' = ds_model p /\ ds_endpoint p' = ds_endpoint p /\ ds_max_output_tokens p' = ds_max_output_tokens p.

Definition verdict (answer : result (Z * string)) (r : result ModelCompletion) : Prop :=
  match answer with
  | Err e => exists x, r = Err x /\ reason_for (failure_of x) = reason_for (failure_of e)
  | Ok (status, text) =>
      if 400 <=? status then exists x, r = Err x /\ reason_for (failure_of x) = if status =? 429 then Fallback.RATE_LIMITED else Fallback.UNAVAILABLE
      else match r with Ok c => completion_ok c | Err x => malformed_error x \/ unread x end
  end.

Lemma raise_http_spec {A} status : exists x, raise_http (A := A) status = Err x /\
  reason_for (failure_of x) = if status =? 429 then Fallback.RATE_LIMITED else Fallback.UNAVAILABLE.
Proof.
  unfold raise_http. destruct (Z.eqb_spec status 401) as [->|]; [by eexists|]. destruct (Z.eqb_spec status 403) as [->|]; [by eexists|]. cbn [orb].
  destruct (status =? 429); [by eexists|]. destruct (500 <=? status); by eexists.
Qed.

Section call.
Context (limit : nat) (transport : nat -> HttpRequest -> result (Z * string)) (perf_counter : nat -> float).
Lemma complete_runs payload timeout_s p body : request_text p payload = Ok body ->
  let answer := transport (ds_calls p) (mkRequest (ds_endpoint p) (headers p) body timeout_s) in
  exists r p', complete_sync limit transport perf_counter payload timeout_s p = (r, p') /\ verdict answer r /\
    same_provider p p' /\ ds_calls p' = Datatypes.S (ds_calls p).
Proof.
  intros Eb. cbv zeta. unfold complete_sync. rewrite (step_ok _ _ _ body p) by by rewrite Eb. unfold send_request, mbind at 1, step_bind at 1.
  destruct (transport (ds_calls p) _) as [[status text]|e]; [|destruct e; (do 2 eexists; split; [reflexivity|]; split; [by eexists|done])].
  unfold verdict. cbn beta iota. unfold mbind at 1, step_bind at 1. destruct (400 <=? status).
  { destruct (raise_http_spec (A := unit) status) as (x & -> & Hx). do 2 eexists. split; [reflexivity|]. split; [by eexists|done]. }
  cbn [lift]. unfold mbind at 1, step_bind at 1, lift at 1. destruct (decode_envelope limit text) as [v|e] eqn:Ed.
  2:{ do 2 eexists. split; [reflexivity|]. split; [by eapply decode_error|done]. }
  unfold mbind at 1, step_bind at 1, lift at 1. destruct (content_text v) as [content|e] eqn:Ec.
  2:{ do 2 eexists. split; [reflexivity|]. split; [left; by eapply content_text_error|done]. }
  unfold mbind at 1, step_bind at 1, read_perf at 1. unfold mbind at 1, step_bind at 1, lift at 1. pose proof (parse_text_spec limit content) as P.
  destruct (parse_text limit content) as [c|e]; [|by do 2 eexists]. unfold mbind, step_bind, read_perf, set_last_parse, modify.
  pose proof (usage_tokens_ok v) as U. destruct (usage_tokens v) as [ti to]. do 2 eexists. split; [reflexivity|]. split; [|done].
  destruct ti as [ti|], to as [to|]; [..|exact P]; destruct P as [P1 P2 P3 _]; (split; [done..|]); exact U.
Qed.
End call.

(** ** The request *)
(** Strings are printable ASCII, floats canonical: what the program's own rows are. *)
Record row_sendable (row : IntelligenceInput) : Prop := {
  rs_strings : printable (in_signal_id row) = true /\ printable (in_symbol row) = true /\ printable (in_family row) = true;
  rs_types : forallb printable (in_event_types row) = true;
  rs_floats : forall x, Some x ∈ [in_change_1m row; in_change_5m row; in_volume_ratio_5m row; in_rsi14 row; in_day_range row] -> valid x = true
}.

Lemma strings_ints l : forallb ints_ok (JStr <$> l) = true.
Proof. by induction l. Qed.
Lemma strings_printable l : forallb printable l = true -> forallb (strings_ok printable) (JStr <$> l) = true.
Proof. induction l as [|s l IH]; [done|]. cbn. intros [-> H]%andb_prop. by apply IH. Qed.
Lemma strings_fit d l : forallb (fits d) (JStr <$> l) = true.
Proof. by induction l. Qed.
Lemma opt_float_ints o : ints_ok (pyval_json (opt_float o)) = true.
Proof. by destruct o. Qed.
Lemma opt_bool_ints o : ints_ok (pyval_json (opt_bool o)) = true.
Proof. by destruct o. Qed.
Lemma payload_ints row : ints_ok (payload_json (to_model_payload row)) = true.
Proof.
  unfold payload_json, to_model_payload. cbn -[opt_float opt_bool pyval_json]. rewrite !opt_float_ints, opt_bool_ints, strings_ints. done.
Qed.

Lemma request_runs p row : digits_ok (ds_max_output_tokens p) = true ->
  exists content body, dumps_ascii (payload_json (to_model_payload row)) = Ok content /\ dumps_ascii (request_json p content) = Ok body /\
    request_text p (to_model_payload row) = Ok body.
Proof.
  intros H. unfold request_text, dumps_ascii, dumps. rewrite payload_ints. cbn [mbind result_bind].
  set (content := to_ascii _). assert (R : ints_ok (request_json p content) = true) by (cbn; by rewrite H).
  rewrite R. exists content. eexists. split; [done|]. by rewrite R.
Qed.

Section sendable.
Context (row : IntelligenceInput) (Hrow : row_sendable row).
Let floats := [in_change_1m row; in_change_5m row; in_volume_ratio_5m row; in_rsi14 row; in_day_range row].
Lemma float_printable o : o ∈ floats -> strings_ok printable (pyval_json (opt_float o)) = true.
Proof. destruct Hrow as [_ _ F]. destruct o as [x|]; [|done]. intros H. exact (F x H). Qed.
Lemma float_fits o d : o ∈ floats -> fits d (pyval_json (opt_float o)) = true.
Proof. destruct Hrow as [_ _ F]. destruct o as [x|]; [|done]. intros H. exact (F x H). Qed.
Lemma payload_printable : strings_ok printable (payload_json (to_model_payload row)) = true.
Proof.
  destruct Hrow as [(H1 & H2 & H3) H4 _]. unfold payload_json, to_model_payload. cbn -[opt_float opt_bool pyval_json printable]. cbn [pyval_json strings_ok].
  rewrite H1, H2, H3, (strings_printable _ H4), !float_printable by (unfold floats; rewrite !elem_of_cons; tauto).
  by destruct (in_direction row), (in_priority row), (in_above_vwap row).
Qed.
Lemma payload_fits d : (2 <= d)%nat -> fits d (payload_json (to_model_payload row)) = true.
Proof.
  intros Hd. destruct d as [|[|d]]; [lia|lia|]. unfold payload_json, to_model_payload. cbn [fmap list_fmap fits].
  rewrite bool_decide_true by (vm_compute; apply (bool_decide_unpack _); vm_compute; reflexivity).
  cbn -[opt_float opt_bool pyval_json]. cbn [pyval_json fits].
  rewrite strings_fit, !float_fits by (unfold floats; rewrite !elem_of_cons; tauto).
  by destruct (in_above_vwap row).
Qed.
End sendable.

Lemma request_printable p content : printable (ds_model p) = true -> printable content = true -> strings_ok printable (request_json p content) = true.
Proof. intros Hm Hc. unfold request_json. cbn -[printable]. rewrite Hm, Hc. by vm_compute. Qed.
Lemma request_fits p content d : digits_ok (ds_max_output_tokens p) = true -> (3 <= d)%nat -> fits d (request_json p content) = true.
Proof.
  intros Ht Hd. destruct d as [|[|[|d]]]; [lia..|]. unfold request_json. cbn -[digits_ok SYSTEM_PROMPT]. by rewrite Ht.
Qed.

Definition with_key (key : string) (p : DashScopeIntelligenceProvider) : DashScopeIntelligenceProvider :=
  mkDashScope key (ds_model p) (ds_endpoint p) (ds_max_output_tokens p) (ds_last_parse p) (ds_calls p) (ds_perf p).

(** C21: The model is sent the payload and nothing else: for a row of the program (printable strings, canonical
    floats) the request is built, its body parses to the chat request whose user message parses to exactly the
    payload - the twelve allowed keys, no forbidden one - and the body does not depend on the API key, which
    travels only in the [Authorization] header. *)
Theorem request_carries_payload limit p row : row_sendable row -> printable (ds_model p) = true ->
  digits_ok (ds_max_output_tokens p) = true -> (3 <= limit)%nat ->
  let payload := to_model_payload row in
  exists content body, request_text p payload = Ok body /\ loads limit body = Parsed (request_json p content) /\
    loads limit content = Parsed (payload_json payload) /\ payload.*1 = MODEL_PAYLOAD_KEYS /\
    Forall (fun k => k ∉ FORBIDDEN_PAYLOAD_KEYS) payload.*1 /\
    forall key, request_text (with_key key p) payload = Ok body.
Proof.
  intros Hr Hm Ht Hl payload.
  destruct (ascii_roundtrip limit (payload_json payload)) as (content & Ec & Lc & Pc); [by apply payload_printable|apply payload_fits; [done|lia]|].
  destruct (ascii_roundtrip limit (request_json p content)) as (body & Eb & Lb & _); [by apply request_printable|by apply request_fits|].
  exists content, body. unfold request_text. rewrite Ec. cbn [mbind result_bind]. split; [done|]. split; [done|]. split; [done|].
  split; [done|]. split; [by apply (bool_decide_unpack _)|]. intros key. exact Eb.
Qed.

(** C20: A model call is contained, whatever the transport answers: it makes one exchange, sends the payload's
    request, leaves the provider's configuration as it was, and ends in a completion in range, free of trading
    advice and with counts that are not negative, or in an exception; an HTTP status of 400 or more, and a
    transport error, keep the fallback reason of their kind.  Given to a worker whose work is live, the outcome
    is recorded under its signal alone: the completion's annotation, or the exception's fallback reason. *)
Theorem model_call_contained {St F} (collect : Recorder St TelemetryEvent) uuids tel_wall mono wall limit transport perf_counter p row timeout_s :
  digits_ok (ds_max_output_tokens p) = true ->
  exists body r p', request_text p (to_model_payload row) = Ok body /\
    model_call limit transport perf_counter (to_model_payload row) timeout_s (DashScope p) = (outcome_of (r, ds_last_parse p'), DashScope p') /\
    same_provider p p' /\ ds_calls p' = Datatypes.S (ds_calls p) /\
    verdict (transport (ds_calls p) (mkRequest (ds_endpoint p) (headers p) body timeout_s)) r /\
    forall i c (t : option (TelemetryRuntime St F)) w, co_running c !! i = Some w -> work_is_live c (ru_work w) = true ->
      exists c' t', finish collect uuids tel_wall mono wall i (outcome_of (r, ds_last_parse p')) (c, t) = Some (c', t') /\
        recorded (ru_work w) (outcome_of (r, ds_last_parse p')) (co_registry c !! wk_signal_id (ru_work w)) (co_registry c' !! wk_signal_id (ru_work w)) /\
        forall id, id <> wk_signal_id (ru_work w) -> co_registry c' !! id = co_registry c !! id.
Proof.
  intros Ht. destruct (request_runs p row Ht) as (_ & body & _ & _ & Eb).
  destruct (complete_runs limit transport perf_counter _ timeout_s p body Eb) as (r & p' & E & V & Hs & Hc).
  exists body, r, p'. split; [done|]. split; [unfold model_call; by rewrite E|]. do 3 (split; [done|]).
  intros i c t w Ew Hl. by apply finish_live.
Qed.

(** ** Witnesses *)
Definition demo_env (name : string) : option string :=
  if decide (name = "MARKET_SENTINEL_INTEL_ENABLED") then Some "Yes" else if decide (name = API_KEY_ENV) then Some "sk-1" else None.
Lemma demo_env_flag : intelligence_flag demo_env = true.
Proof. vm_compute. reflexivity. Qed.
Lemma demo_env_buildable : buildable demo_env.
Proof. split; [split; intros raw H; vm_compute in H; discriminate H|]. right. split; [vm_compute; reflexivity|]. assert (api_key demo_env = "sk-1") as -> by (vm_compute; reflexivity). discriminate. Qed.
Lemma sidecar_optional_witness : exists s, optional_intelligence demo_env None = Ok (Some s) /\ sd_coordinator s = coordinator_init /\
  optional_intelligence demo_env (Some false) = Ok None.
Proof.
  destruct (sidecar_optional demo_env None) as (o & E & [_ H] & Hs). destruct (H (conj demo_env_flag demo_env_buildable)) as [s ->].
  destruct (Hs s eq_refl) as [Hc _]. exists s. split; [exact E|]. split; [exact Hc|reflexivity].
Defined.

Definition demo_provider : DashScopeIntelligenceProvider := mkDashScope "sk-1" DEFAULT_MODEL (DEFAULT_BASE_URL +:+ "/chat/completions") 150 f0 0 0.
Definition demo_input : IntelligenceInput := compress_intelligence_input demo_signal demo_trace LIVE true 0 None false.
Lemma demo_sendable : row_sendable demo_input.
Proof.
  split; [vm_compute; by split_and!|vm_compute; reflexivity|]. intros x Hx.
  assert (K : forallb (from_option valid true) [in_change_1m demo_input; in_change_5m demo_input; in_volume_ratio_5m demo_input; in_rsi14 demo_input;
    in_day_range demo_input] = true) by (vm_compute; reflexivity).
  exact (forallb_elem _ _ K _ Hx).
Qed.
Lemma demo_tokens : digits_ok (ds_max_output_tokens demo_provider) = true.
Proof. vm_compute. reflexivity. Qed.
Lemma request_carries_payload_witness : exists body, request_text demo_provider (to_model_payload demo_input) = Ok body /\
  request_text (with_key "another" demo_provider) (to_model_payload demo_input) = Ok body.
Proof.
  destruct (request_carries_payload 10 demo_provider demo_input demo_sendable ltac:(vm_compute; reflexivity) demo_tokens ltac:(lia))
    as (content & body & E & _ & _ & _ & _ & K). exists body. split; [exact E|exact (K "another")].
Defined.

Definition demo_reply : string := match dumps compact (JObj [("worth_highlight", JBool true); ("reason", JStr "sharp move");
  ("confidence", JFloat (flit 5 1)); ("summary", JStr "volume confirms")]) with Ok s => s | Err _ => "" end.
Definition demo_envelope : string := match dumps compact (JObj [("choices", JList [JObj [("message", JObj [("content", JStr demo_reply)])]]);
  ("usage", JObj [("prompt_tokens", JInt 120); ("completion_tokens", JInt (-1))])]) with Ok s => s | Err _ => "" end.
Definition demo_transport (k : nat) (request : HttpRequest) : result (Z * string) := Ok (200, demo_envelope).
Example demo_call : (model_call 10 demo_transport (fun _ => f0) (to_model_payload demo_input) DEFAULT_TIMEOUT_S (DashScope demo_provider)).1
  = Completed (mkCompletion true "sharp move" (flit 5 1) "volume confirms" (Some 120) None) (Some (fsub f0 f0)).
Proof. vm_compute. reflexivity. Qed.
Lemma model_call_contained_witness : exists o w st,
  o = (model_call 10 demo_transport (fun _ => f0) (to_model_payload demo_input) DEFAULT_TIMEOUT_S (DashScope demo_provider)).1 /\
  co_running demo_taken !! 0%nat = Some w /\
  finish inmemory_record demo_ids (fun _ => f0) (fun _ => f0) (fun _ => f0) 0 o (demo_taken, demo_observed.2) = Some st /\
  recorded (ru_work w) o (co_registry demo_taken !! wk_signal_id (ru_work w)) (co_registry st.1 !! wk_signal_id (ru_work w)).
Proof.
  destruct demo_worker as (w & Ew & Hl).
  destruct (model_call_contained (F := unit) inmemory_record demo_ids (fun _ => f0) (fun _ => f0) (fun _ => f0) 10 demo_transport (fun _ => f0) demo_provider
    demo_input DEFAULT_TIMEOUT_S demo_tokens) as (body & r & p' & _ & E & _ & _ & _ & K).
  destruct (K 0%nat demo_taken demo_observed.2 w Ew Hl) as (c' & t' & Ef & R & _).
  eexists _, w, (c', t'). split; [reflexivity|]. rewrite E. by split_and!.
Defined.
