(* ===== verification/Wire.v ===== *)
(** * Wire messages (src/market_sentinel/ipc/dto.py, mapping.py, codec.py, protocol.py)

    The wire records with their objects (values of Json.v), the mapping of the engine's state to
    them, the protocol's envelope and the decoder of a command line.  [json.loads] enters
    [decode_line] by its outcome ([loaded]); the text of a message is not modelled. *)
From Stdlib Require Import ZArith Lia Ascii String.
From stdpp Require Import prelude strings gmap.
From S2P Require Import Prelude PyFloat Domain Normalizer NumberText Json Features Cluster Telemetry Health Watchlist Engine Intelligence Coordinator.
Local Open Scope Z_scope.

Definition jopt {A} (f : A -> json) (o : option A) : json := match o with Some a => f a | None => JNull end.
(** A member present only when it has a value. *)
Definition member {A} (k : string) (f : A -> json) (o : option A) : list (string * json) :=
  match o with Some a => [(k, f a)] | None => [] end.
Definition member_if (k : string) (b : bool) : list (string * json) := if b then [(k, JBool true)] else [].

(** ** protocol.py *)
Definition PROTOCOL_VERSION : Z := 1.
Definition HOST_COMMANDS : list string :=
  ["hello"; "start"; "pause"; "resume"; "set_watchlist"; "get_state"; "host_interaction"; "user_feedback"; "shutdown"].
Module Phase.
Inductive DaemonPhase := AWAITING_HELLO | READY | RUNNING | PAUSED | SHUTTING_DOWN.
End Phase.
Abbreviation DaemonPhase := Phase.DaemonPhase.
#[export] Instance DaemonPhase_eq : EqDecision DaemonPhase.
Proof. solve_decision. Defined.

Module Code.
Inductive ErrorCode :=
  | INVALID_JSON | PROTOCOL_MISMATCH | UNKNOWN_TYPE | MISSING_REQUEST_ID | INVALID_PAYLOAD | NOT_READY | NOT_STARTED
  | PAUSED | SHUTTING_DOWN | WATCHLIST_FULL | DUPLICATE_SYMBOL.
End Code.
Abbreviation ErrorCode := Code.ErrorCode.
Definition code_value (c : ErrorCode) : string :=
  match c with
  | Code.INVALID_JSON => "invalid_json" | Code.PROTOCOL_MISMATCH => "protocol_mismatch" | Code.UNKNOWN_TYPE => "unknown_type"
  | Code.MISSING_REQUEST_ID => "missing_request_id" | Code.INVALID_PAYLOAD => "invalid_payload" | Code.NOT_READY => "not_ready"
  | Code.NOT_STARTED => "not_started" | Code.PAUSED => "paused" | Code.SHUTTING_DOWN => "shutting_down"
  | Code.WATCHLIST_FULL => "watchlist_full" | Code.DUPLICATE_SYMBOL => "duplicate_symbol"
  end.

(** ** codec.py *)
Definition encode_message (message_type : string) (request_id : option string) (fields : list (string * json)) : json :=
  JObj (foldl (fun p f => od_set f.1 f.2 p)
    ([("protocol_version", JInt PROTOCOL_VERSION); ("type", JStr message_type)] ++ member "request_id" JStr request_id) fields).
Definition encode_error (code : ErrorCode) (message : string) (request_id : option string) : json :=
  encode_message "error" request_id [("code", JStr (code_value code)); ("message", JStr message)].

(** [raw.get("protocol_version") == PROTOCOL_VERSION]: booleans and floats compare too. *)
Definition is_version (v : json) : bool :=
  match v with
  | JInt n => n =? PROTOCOL_VERSION
  | JBool b => b
  | JFloat x => feq x (flit 1 0)
  | _ => false
  end.

(** [inl]: the command, or nothing for a blank line; [inr]: the error message.  [repr] of a
    refused version is not kept. *)
Definition decode_line (loads : string -> loaded) (line : string) : result (option (list (string * json)) + json) :=
  let stripped := strip line in
  if bool_decide (stripped = "") then Ok (inl None)
  else
    match loads stripped with
    | LoadsRaises e => Err e
    | JSONDecodeError => Ok (inr (encode_error Code.INVALID_JSON "line is not valid JSON" None))
    | Parsed (JObj raw) =>
        let request_id := as_str (jget raw "request_id") in
        if negb (is_version (jget raw "protocol_version"))
        then Ok (inr (encode_error Code.PROTOCOL_MISMATCH "unsupported protocol_version" request_id))
        else match jget raw "type" with
             | JStr t => if bool_decide (t = "") then Ok (inr (encode_error Code.INVALID_PAYLOAD "type must be a non-empty string" request_id))
                         else Ok (inl (Some raw))
             | _ => Ok (inr (encode_error Code.INVALID_PAYLOAD "type must be a non-empty string" request_id))
             end
    | Parsed _ => Ok (inr (encode_error Code.INVALID_JSON "JSON line must be an object" None))
    end.

(** ** dto.py *)
Record WireIntelligence := mkWireIntelligence {
  wi_status : string;
  wi_summary : option string;
  wi_reason : option string;
  wi_confidence : option float;
  wi_fallback_reason : option string;
  wi_worth_highlight : option bool
}.
Definition intelligence_to_wire (w : WireIntelligence) : json :=
  JObj ([("status", JStr (wi_status w))] ++ member "summary" JStr (wi_summary w) ++ member "reason" JStr (wi_reason w) ++
        member "confidence" JFloat (wi_confidence w) ++ member "fallback_reason" JStr (wi_fallback_reason w) ++
        member "worth_highlight" JBool (wi_worth_highlight w)).

Record WireSignal := mkWireSignal {
  ws_id : string;
  ws_family : string;
  ws_direction : string;
  ws_priority : string;
  ws_title : string;
  ws_summary : string;
  ws_intelligence : option WireIntelligence
}.
Definition signal_to_wire (w : WireSignal) : json :=
  JObj ([("id", JStr (ws_id w)); ("family", JStr (ws_family w)); ("direction", JStr (ws_direction w));
         ("priority", JStr (ws_priority w)); ("title", JStr (ws_title w)); ("summary", JStr (ws_summary w))] ++
        member "intelligence" intelligence_to_wire (ws_intelligence w)).

Record WireSymbolState := mkWireSymbolState {
  wy_symbol : string;
  wy_price : option float;
  wy_scheduler_level : string;
  wy_feed_status : string;
  wy_change_1m : option float;
  wy_change_5m : option float;
  wy_change_15m : option float;
  wy_volume_ratio_1m : option float;
  wy_volume_ratio_5m : option float;
  wy_ema5 : option float;
  wy_ema20 : option float;
  wy_rsi14 : option float;
  wy_vwap : option float;
  wy_active_signals : list WireSignal;
  wy_change_day : option float;
  wy_above_vwap : option bool;
  wy_session_high_obs : option float;
  wy_session_low_obs : option float;
  wy_session_high_ref : option float;
  wy_session_low_ref : option float;
  wy_market_timestamp : option float
}.
Definition symbol_to_wire (w : WireSymbolState) : json :=
  JObj ([("symbol", JStr (wy_symbol w)); ("price", jopt JFloat (wy_price w)); ("scheduler_level", JStr (wy_scheduler_level w));
         ("feed_status", JStr (wy_feed_status w)); ("change_1m", jopt JFloat (wy_change_1m w)); ("change_5m", jopt JFloat (wy_change_5m w));
         ("change_15m", jopt JFloat (wy_change_15m w)); ("volume_ratio_1m", jopt JFloat (wy_volume_ratio_1m w));
         ("volume_ratio_5m", jopt JFloat (wy_volume_ratio_5m w)); ("ema5", jopt JFloat (wy_ema5 w)); ("ema20", jopt JFloat (wy_ema20 w));
         ("rsi14", jopt JFloat (wy_rsi14 w)); ("vwap", jopt JFloat (wy_vwap w));
         ("active_signals", JList (signal_to_wire <$> wy_active_signals w))] ++
        member "change_day" JFloat (wy_change_day w) ++ member "above_vwap" JBool (wy_above_vwap w) ++
        member "session_high_obs" JFloat (wy_session_high_obs w) ++ member "session_low_obs" JFloat (wy_session_low_obs w) ++
        member "session_high_ref" JFloat (wy_session_high_ref w) ++ member "session_low_ref" JFloat (wy_session_low_ref w) ++
        member "market_timestamp" JFloat (wy_market_timestamp w)).

Record WireMarketState := mkWireMarketState {
  wm_watchlist_count : Z;
  wm_feed_status : string;
  wm_symbols : list WireSymbolState;
  wm_intelligence_enabled : bool;
  wm_replay_complete : bool;
  wm_last_market_timestamp : option float
}.
Definition state_to_wire (w : WireMarketState) : json :=
  JObj ([("watchlist_count", JInt (wm_watchlist_count w)); ("feed_status", JStr (wm_feed_status w));
         ("symbols", JList (symbol_to_wire <$> wm_symbols w))] ++
        member_if "intelligence_enabled" (wm_intelligence_enabled w) ++ member_if "replay_complete" (wm_replay_complete w) ++
        member "last_market_timestamp" JFloat (wm_last_market_timestamp w)).

Record WireAlertCandidate := mkWireAlert {
  wa_id : string;
  wa_symbol : string;
  wa_family : string;
  wa_direction : string;
  wa_priority : string;
  wa_title : string;
  wa_summary : string
}.
Definition alert_to_wire (w : WireAlertCandidate) : json :=
  JObj [("id", JStr (wa_id w)); ("symbol", JStr (wa_symbol w)); ("family", JStr (wa_family w)); ("direction", JStr (wa_direction w));
        ("priority", JStr (wa_priority w)); ("title", JStr (wa_title w)); ("summary", JStr (wa_summary w))].

(** ** mapping.py *)
Definition map_intelligence (r : option IntelligenceResult) (signal_id : string) : option WireIntelligence :=
  let view := intelligence_view r signal_id in
  if bool_decide (ir_status view = NOT_REQUESTED) then None
  else
    let annotation := ir_annotation view in
    let fallback := if bool_decide (ir_fallback view = Fallback.NONE) then None else Some (fallback_value (ir_fallback view)) in
    Some (mkWireIntelligence (intelligence_status_value (ir_status view)) (an_summary <$> annotation) (an_reason <$> annotation)
      (an_confidence <$> annotation) fallback (an_worth_highlight <$> annotation)).

Definition map_signal (signal : Signal) (intelligence : option IntelligenceResult) : WireSignal :=
  mkWireSignal (sig_id signal) (sig_family signal) (direction_value (sig_direction signal)) (priority_value (sig_priority signal))
    (sig_title signal) (sig_summary signal) (map_intelligence intelligence (sig_id signal)).

Definition map_alert_candidate (signal : Signal) : WireAlertCandidate :=
  mkWireAlert (sig_id signal) (sig_symbol signal) (sig_family signal) (direction_value (sig_direction signal))
    (priority_value (sig_priority signal)) (sig_title signal) (sig_summary signal).

Definition map_symbol_state (symbol : string) (st : option MarketState) (intelligence_of : string -> option IntelligenceResult) : WireSymbolState :=
  let features := st ≫= ms_features in
  let latest := st ≫= ms_latest in
  mkWireSymbolState symbol (sn_price <$> latest) (level_value (from_option ms_level COLD st))
    (status_value (from_option ms_feed_status DISCONNECTED st)) (features ≫= change_1m) (features ≫= change_5m) (features ≫= change_15m)
    (features ≫= volume_ratio_1m) (features ≫= volume_ratio_5m) (features ≫= ema5) (features ≫= ema20) (features ≫= rsi14)
    (features ≫= vwap)
    ((fun item => map_signal item (intelligence_of (sig_id item))) <$> from_option ms_active_signals [] st)
    (features ≫= change_day) (features ≫= above_vwap) (session_high_obs <$> features) (session_low_obs <$> features)
    (features ≫= session_high_ref) (features ≫= session_low_ref) (sn_market_ts <$> latest).

Definition max_timestamp (l : list float) : option float :=
  match l with [] => None | x :: l => Some (builtin_max x l) end.

Section mapping.
Context {P S F : Type} (source_exhausted : P -> bool) (health_policy : HealthPolicy) (mono : nat -> float).
Abbreviation Eng := (Engine P S F Coordinator).

(** [engine.health.aggregate_status(enabled)] *)
Definition health_aggregate (symbols : list string) : Step Eng FeedStatus := fun e =>
  let '(s, h) := aggregate_status health_policy (en_health e) symbols mono (en_mono e) in
  (Ok s, mkEngine (en_watchlist e) (en_provider e) (en_scheduler e) (en_buffers e) (en_states e) h (en_pipeline e) (en_telemetry e)
     (en_intelligence e) (en_fetched e) (en_diagnostics e) (length symbols + en_mono e)).

Definition registry_lookup (e : Eng) (signal_id : string) : option IntelligenceResult :=
  match en_intelligence e with None => None | Some c => co_registry c !! signal_id end.

Definition map_engine_state : Step Eng WireMarketState :=
  items ← gets (fun e => list_items (en_watchlist e));
  symbols ← gets (fun e => (fun item => map_symbol_state (wi_symbol item) (en_states e !! wi_symbol item) (registry_lookup e)) <$> items);
  enabled ← gets (fun e => enabled_symbols (en_watchlist e));
  feed ← (if bool_decide (enabled = []) then mret DISCONNECTED else health_aggregate enabled);
  intelligence_enabled ← gets (fun e => negb (is_none (en_intelligence e)));
  replay_complete ← gets (fun e => source_exhausted (en_provider e));
  mret (mkWireMarketState (Z.of_nat (length items)) (status_value feed) symbols intelligence_enabled replay_complete
    (max_timestamp (omap wy_market_timestamp symbols))).
End mapping.

Definition map_tick_alerts (results : EngineTickResult) : list WireAlertCandidate * option float :=
  let signals := results ≫= tr_alerts in
  (map_alert_candidate <$> signals, sig_market_ts <$> last signals).
