(* ===== verification/Capabilities.v ===== *)
(** * Capabilities and the MCP server's tools (src/market_sentinel/capabilities/, mcp_server/server.py)

    The read-only facade over the engine ([MarketCapabilities]), its error codes, the bounded
    buffer of recent events, and the six tools of the server with their JSON envelope.  A tool
    call runs without an await, so it is one step of the facade's state.  The SDK checks a call's arguments
    against the annotations of the tool's parameters ([TOOLS]); its check is a parameter with the laws of
    [Schema], and [strict_bind] an instance.  The wire messages are those of Wire.v.  Every question about health consumes one reading of the clock. *)
From Stdlib Require Import ZArith Lia Ascii String.
From stdpp Require Import prelude strings gmap.
From S2P Require Import Prelude PyFloat Domain Normalizer NumberText Json PyText Features Telemetry Pipeline Scheduler Health Watchlist Engine Intelligence Coordinator Wire.
Local Open Scope Z_scope.

(** ** errors.py *)
Module Capability.
Inductive CapabilityErrorCode := NOT_FOUND | INVALID_ARGUMENT | NOT_RUNNING | UNAVAILABLE | TIMEOUT | INTERNAL.
End Capability.
Abbreviation CapabilityErrorCode := Capability.CapabilityErrorCode.

Definition capability_value (c : CapabilityErrorCode) : string :=
  match c with
  | Capability.NOT_FOUND => "not_found" | Capability.INVALID_ARGUMENT => "invalid_argument" | Capability.NOT_RUNNING => "not_running"
  | Capability.UNAVAILABLE => "unavailable" | Capability.TIMEOUT => "timeout" | Capability.INTERNAL => "internal"
  end.
Definition capability_codes : list string :=
  capability_value <$> [Capability.NOT_FOUND; Capability.INVALID_ARGUMENT; Capability.NOT_RUNNING; Capability.UNAVAILABLE; Capability.TIMEOUT; Capability.INTERNAL].

Definition capability_error (c : CapabilityErrorCode) (message : string) : exn := CapabilityError (capability_value c) message.

(** The code and text of [map_exception]'s error; [SnapshotValidationError] and the other errors
    of the program are not [ValueError]s, an [IndexError] is no [KeyError], and an
    [OverflowError] or [ZeroDivisionError] no [ValueError]. *)
Definition map_exception (e : exn) : string * string :=
  match e with
  | CapabilityError code message => (code, message)
  | TimeoutError _ => (capability_value Capability.TIMEOUT, "capability execution timed out")
  | KeyError => (capability_value Capability.NOT_FOUND, "requested object was not found")
  | TypeError | ValueError _ => (capability_value Capability.INVALID_ARGUMENT, "invalid capability argument")
  | _ => (capability_value Capability.INTERNAL, "unexpected capability failure")
  end.

(** ** views.py *)
Record SymbolFeedHealth := mkFeedHealth {
  sf_symbol : string;
  sf_status : string;
  sf_feed_latency_s : option float;
  sf_last_update_age_s : option float
}.
Definition feed_row_to_wire (r : SymbolFeedHealth) : json :=
  JObj [("symbol", JStr (sf_symbol r)); ("status", JStr (sf_status r)); ("feed_latency_s", jopt JFloat (sf_feed_latency_s r));
        ("last_update_age_s", jopt JFloat (sf_last_update_age_s r))].

Record FeedHealthReport := mkFeedReport { fr_aggregate_status : string; fr_symbols : list SymbolFeedHealth }.
Definition feed_report_to_wire (r : FeedHealthReport) : json :=
  JObj [("aggregate_status", JStr (fr_aggregate_status r)); ("symbols", JList (feed_row_to_wire <$> fr_symbols r))].

Record EventView := mkEventView {
  vw_id : string;
  vw_symbol : string;
  vw_event_type : string;
  vw_direction : string;
  vw_severity : Z;
  vw_market_timestamp : float;
  vw_detected_timestamp : float;
  vw_rule_name : string
}.
Definition event_to_wire (v : EventView) : json :=
  JObj [("id", JStr (vw_id v)); ("symbol", JStr (vw_symbol v)); ("event_type", JStr (vw_event_type v)); ("direction", JStr (vw_direction v));
        ("severity", JInt (vw_severity v)); ("market_timestamp", JFloat (vw_market_timestamp v));
        ("detected_timestamp", JFloat (vw_detected_timestamp v)); ("rule_name", JStr (vw_rule_name v))].
Definition event_view (e : MarketEvent) : EventView :=
  mkEventView (ev_id e) (ev_symbol e) (type_value (ev_type e)) (direction_value (ev_direction e)) (ev_severity e) (ev_market_ts e) (ev_detected_ts e)
    (ev_rule_name e).

(** [l[-n:]] for a positive [n]. *)
Definition last_items {A} (n : nat) (l : list A) : list A := drop (length l - n) l.

(** [deque(maxlen=n)]: appending to a full one drops its oldest. *)
Record RecentEventsBuffer := mkRecent { re_maxlen : nat; re_events : list EventView }.
Definition recent_init (maxlen : Z) : result RecentEventsBuffer :=
  if maxlen <? 1 then Err (ValueError "maxlen must be a positive integer") else Ok (mkRecent (Z.to_nat maxlen) []).
Definition default_recent : RecentEventsBuffer := mkRecent 200 [].
Definition recent_append (b : RecentEventsBuffer) (v : EventView) : RecentEventsBuffer :=
  mkRecent (re_maxlen b) (last_items (re_maxlen b) (re_events b ++ [v])).
Definition buffer_observe_tick (b : RecentEventsBuffer) (results : EngineTickResult) : RecentEventsBuffer :=
  foldl (fun b r => foldl (fun b e => recent_append b (event_view e)) b (tr_accepted r)) b results.
Definition shown (symbol : option string) (v : EventView) : bool :=
  match symbol with None => true | Some s => bool_decide (vw_symbol v = s) end.
Definition recent (b : RecentEventsBuffer) (symbol : option string) (limit : nat) : list EventView :=
  last_items limit (filter (fun v => shown symbol v = true) (re_events b)).

(** [_FEED_SEVERITY[FeedStatus(value)]] *)
Definition feed_status_of (value : string) : result FeedStatus :=
  of_option (ValueError "is not a valid FeedStatus") (find (fun s => bool_decide (status_value s = value)) [LIVE; DELAYED; STALE; DISCONNECTED]).
Definition FEED_SEVERITY (s : FeedStatus) : Z := match s with LIVE => 0 | DELAYED => 1 | STALE => 2 | DISCONNECTED => 3 end.
Definition severity (value : string) : result Z := s ← feed_status_of value; Ok (FEED_SEVERITY s).

(** [max(values, key=severity)]: the first of the worst. *)
Fixpoint worst_value (best : string) (values : list string) : result string :=
  match values with
  | [] => _ ← severity best; Ok best
  | v :: values => b ← severity best; s ← severity v; worst_value (if b <? s then v else best) values
  end.

(** ** api.py *)
Definition MAX_RECENT_EVENTS : Z := 200.
Definition SYMBOL_FORMAT : string := "invalid symbol format; expected e.g. 600519.SH".
Definition LIMIT_RANGE : string := "limit must be an integer in [1, 200]".

(** The facade shares the engine with the owner of the tick loop; [cp_started] is what the
    owner's predicate answers, if one was given. *)
Record MarketCapabilities (P S F : Type) := mkCapabilities {
  cp_engine : Engine P S F Coordinator;
  cp_events : RecentEventsBuffer;
  cp_started : option bool
}.
Arguments mkCapabilities {P S F}.
Arguments cp_engine {P S F}.
Arguments cp_events {P S F}.
Arguments cp_started {P S F}.

Section capabilities.
Context {P S F : Type} (source_exhausted : P -> bool) (health_policy : HealthPolicy) (mono : nat -> float).
Abbreviation Eng := (Engine P S F Coordinator).
Abbreviation Caps := (MarketCapabilities P S F).
Abbreviation M := (Step Caps).

Definition core {A} (m : Step Eng A) : M A := fun c =>
  let '(r, e) := m (cp_engine c) in (r, mkCapabilities e (cp_events c) (cp_started c)).
Definition refuse {A} (code : CapabilityErrorCode) (message : string) : M A := lift (Err (capability_error code message)).

Definition observe_results (results : EngineTickResult) : M unit :=
  modify (fun c => mkCapabilities (cp_engine c) (buffer_observe_tick (cp_events c) results) (cp_started c)).

Definition require_started : M unit :=
  started ← gets cp_started;
  match started with Some false => refuse Capability.NOT_RUNNING "core is not running" | _ => mret tt end.

(** [_ensure_known_symbol], with the text it accepted. *)
Definition ensure_known_symbol (symbol : pyval) : M string :=
  match symbol with
  | PyStr s =>
      if negb (is_valid_symbol s) then refuse Capability.INVALID_ARGUMENT SYMBOL_FORMAT
      else known ← gets (fun c => wi_symbol <$> list_items (en_watchlist (cp_engine c)));
           if bool_decide (s ∈ known) then mret s else refuse Capability.NOT_FOUND ("symbol is not on the watchlist: " +:+ s)
  | _ => refuse Capability.INVALID_ARGUMENT SYMBOL_FORMAT
  end.

Definition get_market_state : M WireMarketState :=
  _ ← require_started; core (map_engine_state source_exhausted health_policy mono).

Definition get_symbol_state (symbol : pyval) : M WireSymbolState :=
  _ ← require_started; s ← ensure_known_symbol symbol;
  core (gets (fun e => map_symbol_state s (en_states e !! s) (registry_lookup e))).

(** The live signals of a watched symbol. *)
Definition live_signals (e : Eng) (symbol : string) : list Signal := from_option ms_active_signals [] (en_states e !! symbol).

Definition get_active_signals : M (list (string * list WireSignal)) :=
  _ ← require_started;
  core (gets (fun e => foldl (fun out item =>
    let symbol := wi_symbol item in
    match live_signals e symbol with
    | [] => out
    | signals => od_set symbol ((fun s => map_signal s (registry_lookup e (sig_id s))) <$> signals) out
    end) [] (list_items (en_watchlist e)))).

Definition get_signal (signal_id : pyval) : M WireSignal :=
  _ ← require_started;
  match signal_id with
  | PyStr id =>
      if bool_decide (strip id = "") then refuse Capability.INVALID_ARGUMENT "signal_id must be a non-empty string"
      else found ← core (gets (fun e =>
                     find (fun s => bool_decide (sig_id s = id)) (list_items (en_watchlist e) ≫= (fun item => live_signals e (wi_symbol item)))));
           match found with
           | Some s => core (gets (fun e => map_signal s (registry_lookup e id)))
           | None => refuse Capability.NOT_FOUND ("signal not found: " +:+ id)
           end
  | _ => refuse Capability.INVALID_ARGUMENT "signal_id must be a non-empty string"
  end.

Definition feed_row (symbol : string) : Step Eng SymbolFeedHealth :=
  status ← health_peek health_policy mono symbol;
  latency ← gets (fun e => feed_latency (en_health e) symbol);
  now ← read_clock mono;
  age ← gets (fun e => last_update_age (en_health e) symbol now);
  mret (mkFeedHealth symbol (status_value status) latency age).

Definition get_feed_health : M FeedHealthReport :=
  _ ← require_started;
  symbols ← gets (fun c => wi_symbol <$> list_items (en_watchlist (cp_engine c)));
  rows ← core (each feed_row symbols);
  match rows with
  | [] => mret (mkFeedReport (status_value DISCONNECTED) [])
  | row :: rest => aggregate ← lift (worst_value (sf_status row) (sf_status <$> rest)); mret (mkFeedReport aggregate (row :: rest))
  end.

(** [isinstance(limit, int)], with [True] and [False] refused first. *)
Definition get_recent_events (symbol limit : pyval) : M (list EventView) :=
  _ ← require_started;
  match limit with
  | PyInt n =>
      if negb ((1 <=? n) && (n <=? MAX_RECENT_EVENTS)) then refuse Capability.INVALID_ARGUMENT LIMIT_RANGE
      else
        let answer s := gets (fun c => recent (cp_events c) s (Z.to_nat n)) in
        match symbol with
        | PyNone => answer None
        | PyStr s => if is_valid_symbol s then answer (Some s) else refuse Capability.INVALID_ARGUMENT SYMBOL_FORMAT
        | _ => lift (Err TypeError)
        end
  | _ => refuse Capability.INVALID_ARGUMENT LIMIT_RANGE
  end.

(** ** server.py *)
Definition envelope (r : result json) : json :=
  match r with
  | Ok data => JObj [("ok", JBool true); ("data", data)]
  | Err e => 
      let '(code, text) := map_exception e in
      JObj [("ok", JBool false);
            ("error", JObj [("code", JStr code); ("message", JStr (match e with CapabilityError _ _ => text | _ => code end))])]
  end.
Definition guarded (operation : M json) : M json := fun c => let '(r, c) := operation c in (Ok (envelope r), c).

Inductive Tool :=
  | GetMarketState | GetSymbolState (symbol : pyval) | GetActiveSignals | GetSignal (signal_id : pyval) | GetFeedHealth
  | GetRecentEvents (symbol limit : pyval).
#[export] Instance tool_eq_dec : EqDecision Tool.
Proof. solve_decision. Defined.

Definition read (t : Tool) : M json :=
  match t with
  | GetMarketState => w ← get_market_state; mret (state_to_wire w)
  | GetSymbolState symbol => w ← get_symbol_state symbol; mret (symbol_to_wire w)
  | GetActiveSignals => groups ← get_active_signals; mret (JObj ((fun g => (g.1, JList (signal_to_wire <$> g.2))) <$> groups))
  | GetSignal id => w ← get_signal id; mret (signal_to_wire w)
  | GetFeedHealth => r ← get_feed_health; mret (feed_report_to_wire r)
  | GetRecentEvents symbol limit => views ← get_recent_events symbol limit; mret (JList (event_to_wire <$> views))
  end.
Definition call_tool (t : Tool) : M json := guarded (read t).
End capabilities.

(** The annotations of the tools' parameters: from them the SDK makes the schema it checks the
    arguments of a call against. *)
Inductive Kind := StrKind | OptionalStrKind | IntKind (ge le : Z).
Record Param := mkParam { pm_name : string; pm_kind : Kind; pm_default : option pyval }.
Definition RECENT_EVENTS_LIMIT : Z := 200.

(** The tools registered by [build_server], with what their bodies call. *)
Definition TOOLS : list (string * (list Param * (list pyval -> Tool))) :=
  [("get_market_state", ([], fun _ => GetMarketState));
   ("get_symbol_state", ([mkParam "symbol" StrKind None], fun vs => GetSymbolState (nth 0 vs PyNone)));
   ("get_active_signals", ([], fun _ => GetActiveSignals));
   ("get_signal", ([mkParam "signal_id" StrKind None], fun vs => GetSignal (nth 0 vs PyNone)));
   ("get_feed_health", ([], fun _ => GetFeedHealth));
   ("get_recent_events", ([mkParam "symbol" OptionalStrKind (Some PyNone); mkParam "limit" (IntKind 1 RECENT_EVENTS_LIMIT) (Some (PyInt 20))],
                          fun vs => GetRecentEvents (nth 0 vs PyNone) (nth 1 vs PyNone)))].

Abbreviation Arguments_ := (list (string * json)).
(** What a client gets: a result with [isError], or the envelope. *)
Inductive Reply := ToolError | Envelope (v : json).

(** The SDK's validation, as documented: what it passes has the annotated type and lies within
    the annotated bounds; an argument that is missing without a default, of a kind it never
    converts, or out of bounds makes it refuse the call; plain arguments pass as they are. *)
Definition conforms (k : Kind) (v : pyval) : Prop :=
  match k with
  | StrKind => exists s, v = PyStr s
  | OptionalStrKind => v = PyNone \/ exists s, v = PyStr s
  | IntKind ge le => exists n, v = PyInt n /\ ge <= n <= le
  end.
Definition unfit (k : Kind) (v : json) : bool :=
  match k, v with
  | StrKind, JStr _ | OptionalStrKind, (JNull | JStr _) => false
  | StrKind, _ | OptionalStrKind, _ => true
  | IntKind ge le, JInt n => negb ((ge <=? n) && (n <=? le))
  | IntKind _ _, (JNull | JList _ | JObj _) => true
  | IntKind _ _, _ => false
  end.
Definition plain (k : Kind) (v : json) : option pyval :=
  match k, v with
  | StrKind, JStr s => Some (PyStr s)
  | OptionalStrKind, JNull => Some PyNone
  | OptionalStrKind, JStr s => if re_fullmatch s then Some (PyStr s) else None
  | IntKind ge le, JInt n => if (ge <=? n) && (n <=? le) then Some (PyInt n) else None
  | _, _ => None
  end.
Definition given (args : Arguments_) (p : Param) : option pyval :=
  match od_get (pm_name p) args with None => pm_default p | Some v => plain (pm_kind p) v end.
Definition refused_by (args : Arguments_) (p : Param) : Prop :=
  match od_get (pm_name p) args with None => pm_default p = None | Some v => unfit (pm_kind p) v = true end.

Class Schema (bind : list Param -> Arguments_ -> option (list pyval)) := {
  bind_typed ps args vs : bind ps args = Some vs -> Forall (fun p => from_option (conforms (pm_kind p)) True (pm_default p)) ps ->
    Forall2 (fun p v => conforms (pm_kind p) v) ps vs;
  bind_refuses ps args p : p ∈ ps -> refused_by args p -> bind ps args = None;
  bind_plain ps args vs : mapM (given args) ps = Some vs -> bind ps args = Some vs
}.

Section server.
Context {P S F : Type} (source_exhausted : P -> bool) (health_policy : HealthPolicy) (mono : nat -> float).
Context (bind : list Param -> Arguments_ -> option (list pyval)).
(** The tool a call reaches, once its arguments passed the schema. *)
Definition asked_tool (name : string) (args : Arguments_) : option Tool :=
  '(ps, make) ← od_get name TOOLS; vs ← bind ps args; Some (make vs).
Definition serve_call (name : string) (args : Arguments_) : Step (MarketCapabilities P S F) Reply :=
  match asked_tool name args with
  | None => mret ToolError
  | Some t => v ← call_tool source_exhausted health_policy mono t; mret (Envelope v)
  end.
End server.

(** ** The bounded buffer *)
Lemma last_items_length {A} n (l : list A) : length (last_items n l) = Nat.min n (length l).
Proof. unfold last_items. rewrite length_drop. lia. Qed.
Lemma last_items_short {A} n (l : list A) : (length l <= n)%nat -> last_items n l = l.
Proof. intros H. unfold last_items. by replace (length l - n)%nat with 0%nat by lia. Qed.
Lemma last_items_app {A} n (l r : list A) : last_items n (last_items n l ++ r) = last_items n (l ++ r).
Proof.
  destruct (Nat.le_gt_cases (length l) n) as [H|H]; [by rewrite (last_items_short n l)|].
  unfold last_items at 1 3. rewrite !length_app, last_items_length, Nat.min_l by lia. unfold last_items.
  rewrite <- (drop_app_le l r (length l - n)) by lia. rewrite drop_drop. f_equal. lia.
Qed.

Lemma append_all b vs : (length (re_events b) <= re_maxlen b)%nat ->
  foldl recent_append b vs = mkRecent (re_maxlen b) (last_items (re_maxlen b) (re_events b ++ vs)).
Proof.
  revert b. induction vs as [|v vs IH]; intros [n l] H; cbn [foldl re_maxlen re_events] in *.
  - by rewrite app_nil_r, last_items_short by lia.
  - rewrite IH; cbn [recent_append re_maxlen re_events]; [by rewrite last_items_app, <- app_assoc|]. rewrite last_items_length. lia.
Qed.

(** The views a tick's results publish, in order. *)
Definition published (results : EngineTickResult) : list EventView := event_view <$> (results ≫= tr_accepted).

Lemma observe_all b results : (length (re_events b) <= re_maxlen b)%nat ->
  buffer_observe_tick b results = mkRecent (re_maxlen b) (last_items (re_maxlen b) (re_events b ++ published results)).
Proof.
  intros H. rewrite <- append_all by done. clear H. unfold buffer_observe_tick, published. revert b.
  induction results as [|r results IH]; intros b; [done|]. cbn [foldl mbind list_bind]. rewrite IH, fmap_app, foldl_app. f_equal.
  generalize (tr_accepted r). intros l. revert b. clear. induction l as [|e l IH]; intros b; [done|]. cbn. apply IH.
Qed.

(** ** Reading *)
(** A reading step may move the clock and what [R] allows in the health records. *)
Section reads.
Context {P S F : Type} (R : relation Health) `{!PreOrder R}.
Abbreviation Eng := (Engine P S F Coordinator).
Definition seen (e e' : Eng) : Prop :=
  en_watchlist e' = en_watchlist e /\ en_provider e' = en_provider e /\ en_scheduler e' = en_scheduler e /\ en_buffers e' = en_buffers e /\
  en_states e' = en_states e /\ R (en_health e) (en_health e') /\ en_pipeline e' = en_pipeline e /\ en_telemetry e' = en_telemetry e /\
  en_intelligence e' = en_intelligence e /\ en_fetched e' = en_fetched e /\ en_diagnostics e' = en_diagnostics e.
#[export] Instance seen_preorder : PreOrder seen.
Proof.
  split; [by intros e|]. intros a b c (?&?&?&?&?&?&?&?&?&?&?) (?&?&?&?&?&?&?&?&?&?&?). unfold seen.
  split_and!; try congruence. by etrans.
Qed.

Definition looks (c c' : MarketCapabilities P S F) : Prop :=
  seen (cp_engine c) (cp_engine c') /\ cp_events c' = cp_events c /\ cp_started c' = cp_started c.
Definition reads {A} (m : Step (MarketCapabilities P S F) A) : Prop := forall c, looks c (m c).2.
Definition peeks {A} (m : Step Eng A) : Prop := forall e, seen e (m e).2.

Lemma reads_bind {A B} (m : Step (MarketCapabilities P S F) A) (k : A -> Step _ B) : reads m -> (forall a, reads (k a)) -> reads (m ≫= k).
Proof.
  intros Hm Hk c. unfold mbind, step_bind. specialize (Hm c). destruct (m c) as [[a|e] c1]; [|done].
  destruct Hm as (S1 & E1 & T1). destruct (Hk a c1) as (S2 & E2 & T2). cbn [snd] in *. split; [by etrans|]. split; congruence.
Qed.
Lemma reads_ret {A} (a : A) : reads (mret a).
Proof. by intros c. Qed.
Lemma reads_gets {A} (f : MarketCapabilities P S F -> A) : reads (gets f).
Proof. by intros c. Qed.
Lemma reads_lift {A} (r : result A) : reads (lift r).
Proof. by intros c. Qed.
Lemma reads_refuse {A} code m : reads (refuse (A := A) code m).
Proof. apply reads_lift. Qed.
Lemma reads_core {A} (m : Step Eng A) : peeks m -> reads (core m).
Proof. intros H c. unfold core. specialize (H (cp_engine c)). destruct (m (cp_engine c)) as [r e]. by split. Qed.
Lemma reads_started : reads require_started.
Proof. apply reads_bind; [apply reads_gets|]. intros [[]|]; first [apply reads_ret|apply reads_refuse]. Qed.

Lemma peeks_bind {A B} (m : Step Eng A) (k : A -> Step _ B) : peeks m -> (forall a, peeks (k a)) -> peeks (m ≫= k).
Proof.
  intros Hm Hk e. unfold mbind, step_bind. specialize (Hm e). destruct (m e) as [[a|x] e1]; [|done]. etrans; [exact Hm|apply Hk].
Qed.
Lemma peeks_ret {A} (a : A) : peeks (mret a).
Proof. by intros e. Qed.
Lemma peeks_gets {A} (f : Eng -> A) : peeks (gets f).
Proof. by intros e. Qed.
Lemma peeks_clock mono : peeks (read_clock mono).
Proof. intros e. unfold read_clock, seen. cbn. by split_and!. Qed.
Lemma peeks_peek policy mono symbol : peeks (health_peek policy mono symbol).
Proof. apply peeks_bind; [apply peeks_clock|intros now; apply peeks_gets]. Qed.
Lemma peeks_each {A B} (f : A -> Step Eng B) l : (forall x, peeks (f x)) -> peeks (each f l).
Proof. intros H. induction l as [|x l IH]; cbn [each]; [apply peeks_ret|]. apply peeks_bind; [apply H|]. intros y. apply peeks_bind; [exact IH|]. intros ys. apply peeks_ret. Qed.
Lemma peeks_row policy mono symbol : peeks (feed_row policy mono symbol).
Proof.
  apply peeks_bind; [apply peeks_peek|]. intros st. apply peeks_bind; [apply peeks_gets|]. intros latency. apply peeks_bind; [apply peeks_clock|].
  intros now. apply peeks_bind; [apply peeks_gets|]. intros age. apply peeks_ret.
Qed.
End reads.
#[export] Hint Resolve reads_ret reads_gets reads_lift reads_refuse reads_core reads_started peeks_ret peeks_gets peeks_clock peeks_peek peeks_row : market.
#[export] Hint Extern 0 (PreOrder _) => exact _ : market.

(** Health records that differ in the logged status only. *)
Definition facts (r : SymbolHealth) : SymbolHealth := mkHealth (hl_last_success r) (hl_failures r) (hl_market r) (hl_received r) None.
Definition same_facts (h h' : Health) : Prop := forall x, facts <$> h' !! x = facts <$> h !! x.
#[export] Instance same_facts_preorder : PreOrder same_facts.
Proof. split; [by intros h x|]. intros a b c H1 H2 x. by rewrite H2, H1. Qed.

Lemma status_facts policy h symbol now : same_facts h (status policy h symbol now).2.
Proof.
  intros x. unfold status. cbn [snd]. destruct (h !! symbol) as [r|] eqn:E; [|done]. case_decide; [done|].
  destruct (decide (symbol = x)) as [<-|]; [by rewrite lookup_insert_eq, E|by rewrite lookup_insert_ne].
Qed.
Lemma statuses_facts policy symbols clock : forall h n, same_facts h (statuses policy h symbols clock n).2.
Proof.
  induction symbols as [|x symbols IH]; intros h n; cbn [statuses]; [done|]. pose proof (status_facts policy h x (clock n)) as S.
  destruct (status policy h x (clock n)) as [s h1]. specialize (IH h1 (Datatypes.S n)). destruct (statuses policy h1 symbols clock (Datatypes.S n)) as [rest h2].
  cbn [snd] in *. by etrans.
Qed.
Lemma aggregate_facts policy h symbols clock n : same_facts h (aggregate_status policy h symbols clock n).2.
Proof.
  unfold aggregate_status. pose proof (statuses_facts policy symbols clock h n) as S. by destruct (statuses policy h symbols clock n) as [[|s l] h'].
Qed.

Section tools.
Context {P S F : Type} (source_exhausted : P -> bool) (policy : HealthPolicy) (mono : nat -> float).
Abbreviation Eng := (Engine P S F Coordinator).
Abbreviation Caps := (MarketCapabilities P S F).

Lemma read_looks (R : relation Health) `{!PreOrder R} t : t <> GetMarketState -> reads (P := P) (S := S) (F := F) R (read source_exhausted policy mono t).
Proof.
  intros Ht. destruct t as [|symbol| |id| |symbol limit]; [done|..]; cbn [read]; (apply reads_bind; [done| |intros ?; auto with market]).
  - apply reads_bind; [done|auto with market|]. intros _. apply reads_bind; [done| |intros s; auto with market].
    destruct symbol; cbn [ensure_known_symbol]; auto with market. case_match; [auto with market|]. apply reads_bind; [done|auto with market|].
    intros known. case_match; auto with market.
  - apply reads_bind; [done|auto with market|]. intros _. auto with market.
  - apply reads_bind; [done|auto with market|]. intros _. destruct id; auto with market. case_match; [auto with market|].
    apply reads_bind; [done|auto with market|]. intros [s0|]; auto with market.
  - apply reads_bind; [done|auto with market|]. intros _. apply reads_bind; [done|auto with market|]. intros symbols.
    apply reads_bind; [done|apply reads_core, peeks_each; auto with market|]. intros [|row rest]; [auto with market|].
    apply reads_bind; [done|auto with market|]. auto with market.
  - apply reads_bind; [done|auto with market|]. intros _. destruct limit; auto with market. case_match; [auto with market|].
    cbv zeta. destruct symbol; auto with market. case_match; auto with market.
Qed.

Lemma market_looks : reads (P := P) (S := S) (F := F) same_facts (get_market_state source_exhausted policy mono).
Proof.
  apply reads_bind; [apply _|apply reads_started, _|]. intros u. apply reads_core. unfold map_engine_state.
  repeat (apply peeks_bind; [apply _|solve [auto with market]|]; intros ?). apply peeks_bind; [apply _| |].
  - case_match; [auto with market|]. intros e. unfold health_aggregate.
    match goal with |- context [aggregate_status policy ?h ?l ?c ?n] => pose proof (aggregate_facts policy h l c n) as Ha; destruct (aggregate_status policy h l c n) as [s h'] end.
    unfold seen. cbn. by split_and!.
  - intros feed. repeat (apply peeks_bind; [apply _|solve [auto with market]|]; intros ?). auto with market.
Qed.

Lemma guarded_runs (m : Step Caps json) c : guarded m c = (Ok (envelope (m c).1), (m c).2).
Proof. unfold guarded. by destruct (m c). Qed.

(** ** What the tools answer *)
Definition watched (e : Eng) : list string := wi_symbol <$> list_items (en_watchlist e).
Definition visible (e : Eng) : list Signal := watched e ≫= live_signals e.
Definition signal_view (e : Eng) (s : Signal) : WireSignal := map_signal s (registry_lookup e (sig_id s)).
Definition at_clock (n : nat) (e : Eng) : Eng :=
  mkEngine (en_watchlist e) (en_provider e) (en_scheduler e) (en_buffers e) (en_states e) (en_health e) (en_pipeline e) (en_telemetry e)
    (en_intelligence e) (en_fetched e) (en_diagnostics e) n.

Fixpoint feed_rows (h : Health) (symbols : list string) (n : nat) : list SymbolFeedHealth :=
  match symbols with
  | [] => []
  | x :: symbols =>
      mkFeedHealth x (status_value (peek_status policy h x (mono n))) (feed_latency h x) (last_update_age h x (mono (1 + n)))
        :: feed_rows h symbols (2 + n)
  end.

Lemma core_gets {A} (f : Eng -> A) (c : Caps) : core (gets f) c = (Ok (f (cp_engine c)), c).
Proof. by destruct c. Qed.
Lemma started_runs (c : Caps) : cp_started c <> Some false -> require_started c = (Ok tt, c).
Proof. intros H. unfold require_started. rewrite (step_ok _ _ _ (cp_started c) c) by done. by destruct (cp_started c) as [[]|]. Qed.
Lemma stopped_runs (c : Caps) : cp_started c = Some false -> require_started c = (Err (capability_error Capability.NOT_RUNNING "core is not running"), c).
Proof. intros H. unfold require_started. rewrite (step_ok _ _ _ (cp_started c) c) by done. by rewrite H. Qed.

Lemma rows_run symbols : forall e : Eng,
  each (feed_row policy mono) symbols e = (Ok (feed_rows (en_health e) symbols (en_mono e)), at_clock (2 * length symbols + en_mono e) e).
Proof.
  induction symbols as [|x symbols IH]; intros e; cbn [each feed_rows]; [by destruct e|].
  rewrite (step_ok _ _ _ (mkFeedHealth x (status_value (peek_status policy (en_health e) x (mono (en_mono e)))) (feed_latency (en_health e) x)
    (last_update_age (en_health e) x (mono (1 + en_mono e)))) (at_clock (2 + en_mono e) e)) by done.
  erewrite step_ok by apply IH. cbn [at_clock en_health en_mono]. unfold mret, step_ret. f_equal. unfold at_clock. cbn. f_equal. lia.
Qed.

Lemma severity_value s : severity (status_value s) = Ok (worst_rank s).
Proof. by destruct s. Qed.
Lemma worst_value_spec l : forall s, worst_value (status_value s) (status_value <$> l) = Ok (status_value (worst s l)).
Proof.
  induction l as [|x l IH]; intros s; cbn [fmap list_fmap worst_value worst]; rewrite !severity_value; [done|]. cbn [mbind result_bind].
  rewrite <- IH. by destruct (worst_rank s <? worst_rank x).
Qed.
Fixpoint statuses_at (h : Health) (symbols : list string) (n : nat) : list FeedStatus :=
  match symbols with [] => [] | x :: symbols => peek_status policy h x (mono n) :: statuses_at h symbols (2 + n) end.
Definition worst_of (l : list FeedStatus) : FeedStatus := match l with [] => DISCONNECTED | s :: l => worst s l end.
Lemma feed_rows_status h symbols : forall n, sf_status <$> feed_rows h symbols n = status_value <$> statuses_at h symbols n.
Proof. induction symbols as [|x symbols IH]; intros n; [done|]. cbn [feed_rows statuses_at fmap list_fmap sf_status]. f_equal. apply IH. Qed.

(** What [get_feed_health] reports, with the clock read twice per symbol. *)
Definition feed_report (h : Health) (symbols : list string) (n : nat) : FeedHealthReport :=
  mkFeedReport (status_value (worst_of (statuses_at h symbols n))) (feed_rows h symbols n).
Lemma feed_health_runs (c : Caps) : cp_started c <> Some false ->
  get_feed_health policy mono c =
    (Ok (feed_report (en_health (cp_engine c)) (watched (cp_engine c)) (en_mono (cp_engine c))),
     mkCapabilities (at_clock (2 * length (watched (cp_engine c)) + en_mono (cp_engine c)) (cp_engine c)) (cp_events c) (cp_started c)).
Proof.
  intros H. unfold get_feed_health. erewrite step_ok by by apply started_runs. rewrite (step_ok _ _ _ (watched (cp_engine c)) c) by done.
  set (e := cp_engine c). set (w := watched e).
  erewrite step_ok; [|unfold core; by rewrite rows_run]. fold e w. unfold feed_report. destruct w as [|x l]; [done|].
  cbn [feed_rows statuses_at worst_of sf_status]. rewrite feed_rows_status. erewrite step_ok; [|unfold lift; by rewrite worst_value_spec]. done.
Qed.

Definition symbol_row (e : Eng) (x : string) : WireSymbolState := map_symbol_state x (en_states e !! x) (registry_lookup e).
Lemma row_signals e x : wy_active_signals (symbol_row e x) = signal_view e <$> live_signals e x.
Proof. done. Qed.

Lemma symbol_state_runs (c : Caps) symbol : cp_started c <> Some false ->
  get_symbol_state symbol c = (match symbol with
    | PyStr s => if negb (is_valid_symbol s) then Err (capability_error Capability.INVALID_ARGUMENT SYMBOL_FORMAT)
                 else if bool_decide (s ∈ watched (cp_engine c)) then Ok (symbol_row (cp_engine c) s)
                 else Err (capability_error Capability.NOT_FOUND ("symbol is not on the watchlist: " +:+ s))
    | _ => Err (capability_error Capability.INVALID_ARGUMENT SYMBOL_FORMAT) end, c).
Proof.
  intros H. unfold get_symbol_state. erewrite step_ok by by apply started_runs. destruct symbol as [| | | |s|]; try done. unfold ensure_known_symbol.
  destruct (negb (is_valid_symbol s)); [done|]. unfold mbind, step_bind, gets at 1. fold (watched (cp_engine c)).
  destruct (bool_decide (s ∈ watched (cp_engine c))); [|done]. exact (core_gets _ c).
Qed.

Lemma visible_items e : (list_items (en_watchlist e) ≫= (fun item => live_signals e (wi_symbol item))) = visible e.
Proof. unfold visible, watched. induction (list_items (en_watchlist e)) as [|item items IH]; [done|]. cbn. by rewrite IH. Qed.

(** The first visible signal with an id. *)
Definition find_signal (e : Eng) (id : string) : option Signal := find (fun s => bool_decide (sig_id s = id)) (visible e).
Lemma signal_runs (c : Caps) id : cp_started c <> Some false -> strip id <> "" ->
  get_signal (PyStr id) c = (match find_signal (cp_engine c) id with
    | Some s => Ok (signal_view (cp_engine c) s)
    | None => Err (capability_error Capability.NOT_FOUND ("signal not found: " +:+ id)) end, c).
Proof.
  intros H Hb. unfold get_signal. erewrite step_ok by by apply started_runs. rewrite bool_decide_false by done.
  rewrite (step_ok _ _ _ _ _ (core_gets _ c)). rewrite visible_items. fold (find_signal (cp_engine c) id).
  destruct (find_signal (cp_engine c) id) as [s|] eqn:E; [|done]. rewrite core_gets. unfold signal_view.
  apply find_some in E as [_ E%bool_decide_eq_true]. by rewrite E.
Qed.

Definition groups (e : Eng) : list (string * list WireSignal) :=
  foldl (fun out x => match live_signals e x with [] => out | signals => od_set x (signal_view e <$> signals) out end) [] (watched e).
Lemma active_signals_runs (c : Caps) : cp_started c <> Some false -> get_active_signals c = (Ok (groups (cp_engine c)), c).
Proof.
  intros H. unfold get_active_signals. erewrite step_ok by by apply started_runs. rewrite core_gets. repeat f_equal. unfold groups, watched.
  generalize (@nil (string * list WireSignal)). induction (list_items (en_watchlist (cp_engine c))) as [|item items IH]; intros out; [done|].
  cbn [foldl fmap list_fmap]. apply IH.
Qed.
Lemma groups_get e x : od_get x (groups e) = if decide (x ∈ watched e) then match live_signals e x with [] => None | l => Some (signal_view e <$> l) end else None.
Proof.
  unfold groups. assert (G : forall l out, od_get x (foldl (fun out x => match live_signals e x with [] => out | signals => od_set x (signal_view e <$> signals) out end) out l)
    = if decide (x ∈ l) then match live_signals e x with [] => od_get x out | s => Some (signal_view e <$> s) end else od_get x out).
  { induction l as [|y l IH]; intros out; [done|]. cbn [foldl]. rewrite IH. destruct (decide (x = y)) as [<-|Ny].
    - rewrite (decide_True (P := x ∈ x :: l)) by by left. destruct (live_signals e x) as [|s sl]; [by destruct (decide (x ∈ l))|].
      destruct (decide (x ∈ l)); [done|]. by rewrite od_get_set, decide_True.
    - assert (D : od_get x (match live_signals e y with [] => out | signals => od_set y (signal_view e <$> signals) out end) = od_get x out).
      { destruct (live_signals e y); [done|]. by rewrite od_get_set, decide_False by congruence. }
      rewrite D. destruct (decide (x ∈ l)) as [Hl|Hl]; [by rewrite decide_True by by right|].
      rewrite decide_False; [done|]. by intros [?|?]%elem_of_cons. }
  rewrite G. cbn [od_get]. by destruct (decide (x ∈ watched e)), (live_signals e x).
Qed.

Lemma market_state_runs (c : Caps) : cp_started c <> Some false ->
  exists w c', get_market_state source_exhausted policy mono c = (Ok w, c') /\ wm_symbols w = symbol_row (cp_engine c) <$> watched (cp_engine c).
Proof.
  intros H. unfold get_market_state. erewrite step_ok by by apply started_runs. unfold core, map_engine_state, mbind, step_bind, gets, mret, step_ret.
  cbn beta iota. destruct (bool_decide _); [|unfold health_aggregate; destruct (aggregate_status _ _ _ _ _)]; cbn; eexists _, _; (split; [reflexivity|]);
    cbn; unfold watched; by rewrite <- list_fmap_compose.
Qed.

Lemma recent_runs (c : Caps) symbol limit : cp_started c <> Some false ->
  get_recent_events symbol limit c = (match limit with
    | PyInt n => if negb ((1 <=? n) && (n <=? MAX_RECENT_EVENTS)) then Err (capability_error Capability.INVALID_ARGUMENT LIMIT_RANGE)
                 else match symbol with
                      | PyNone => Ok (recent (cp_events c) None (Z.to_nat n))
                      | PyStr s => if is_valid_symbol s then Ok (recent (cp_events c) (Some s) (Z.to_nat n))
                                   else Err (capability_error Capability.INVALID_ARGUMENT SYMBOL_FORMAT)
                      | _ => Err TypeError
                      end
    | _ => Err (capability_error Capability.INVALID_ARGUMENT LIMIT_RANGE) end, c).
Proof.
  intros H. unfold get_recent_events. erewrite step_ok by by apply started_runs. destruct limit as [| |n| | |]; try done. destruct (negb _); [done|].
  cbv zeta. destruct symbol as [| | | |s|]; try done. by destruct (is_valid_symbol s).
Qed.

(** ** The code a call is refused with *)
Definition refusal (c : Caps) (t : Tool) : option CapabilityErrorCode :=
  if bool_decide (cp_started c = Some false) then Some Capability.NOT_RUNNING
  else match t with
  | GetMarketState | GetActiveSignals | GetFeedHealth => None
  | GetSymbolState (PyStr s) =>
      if negb (is_valid_symbol s) then Some Capability.INVALID_ARGUMENT
      else if bool_decide (s ∈ watched (cp_engine c)) then None else Some Capability.NOT_FOUND
  | GetSignal (PyStr id) =>
      if bool_decide (strip id = "") then Some Capability.INVALID_ARGUMENT
      else if bool_decide (id ∈ sig_id <$> visible (cp_engine c)) then None else Some Capability.NOT_FOUND
  | GetRecentEvents symbol (PyInt n) =>
      let symbol_ok := match symbol with PyNone => true | PyStr s => is_valid_symbol s | _ => false end in
      if (1 <=? n) && (n <=? MAX_RECENT_EVENTS) && symbol_ok then None else Some Capability.INVALID_ARGUMENT
  | _ => Some Capability.INVALID_ARGUMENT
  end.

Definition success (v : json) : Prop := exists data, v = JObj [("ok", JBool true); ("data", data)].
Definition failure (code : CapabilityErrorCode) (v : json) : Prop :=
  exists message, v = JObj [("ok", JBool false); ("error", JObj [("code", JStr (capability_value code)); ("message", JStr message)])].

(** A read as its refusal says. *)
Definition answers (o : option CapabilityErrorCode) (c : Caps) (p : result json * Caps) : Prop :=
  match o with
  | None => success (envelope p.1)
  | Some code => failure code (envelope p.1) /\ p.2 = c
  end.

Lemma refused_answers {A} (k : A -> Step Caps json) (m : Step Caps A) c code text : m c = (Err (capability_error code text), c) -> answers (Some code) c ((m ≫= k) c).
Proof. intros H. rewrite (step_err _ _ _ _ _ H). split; [|done]. by eexists. Qed.
Lemma given_answers {A} (f : A -> json) (m : Step Caps A) c c' a : m c = (Ok a, c') -> answers None c ((m ≫= (fun a => mret (f a))) c).
Proof. intros H. rewrite (step_ok _ _ _ _ _ H). by eexists. Qed.

Lemma find_signal_None e id : find_signal e id = None <-> id ∉ sig_id <$> visible e.
Proof.
  unfold find_signal. split.
  - intros H Hin. apply list_elem_of_fmap in Hin as (s & -> & Hs). apply list_elem_of_In in Hs. by apply (find_none _ _ H), bool_decide_eq_false in Hs.
  - intros H. destruct (find _ (visible e)) as [s|] eqn:E; [|done]. exfalso. apply H. apply find_some in E as [Hs E%bool_decide_eq_true]. subst id.
    apply list_elem_of_fmap. exists s. split; [done|]. by apply list_elem_of_In.
Qed.

Lemma read_answers t (c : Caps) : answers (refusal c t) c (read source_exhausted policy mono t c).
Proof.
  unfold refusal. case_bool_decide as Hs.
  { destruct t; cbn [read]; (eapply refused_answers, step_err; by apply stopped_runs). }
  destruct t as [|symbol| |id| |symbol limit]; cbn [read].
  - destruct (market_state_runs c Hs) as (w & c' & E & _). by eapply given_answers.
  - pose proof (symbol_state_runs c symbol Hs) as E. destruct symbol as [| | | |s|]; try by eapply refused_answers.
    destruct (negb (is_valid_symbol s)); [by eapply refused_answers|]. destruct (bool_decide (s ∈ _)); [by eapply given_answers|by eapply refused_answers].
  - eapply given_answers. by apply active_signals_runs.
  - destruct id as [| | | |id|]; try (eapply refused_answers; unfold get_signal; erewrite step_ok; [|by apply started_runs]; done).
    case_bool_decide as Hb.
    + eapply refused_answers. unfold get_signal. erewrite step_ok by by apply started_runs. cbv beta iota. rewrite (bool_decide_true _ Hb). reflexivity.
    + pose proof (signal_runs c id Hs Hb) as E. pose proof (find_signal_None (cp_engine c) id) as N. destruct (find_signal (cp_engine c) id) as [s|].
      * rewrite bool_decide_true; [by eapply given_answers|]. apply dec_stable. intros H%N. done.
      * rewrite bool_decide_false by by apply N. by eapply refused_answers.
  - eapply given_answers. by apply feed_health_runs.
  - pose proof (recent_runs c symbol limit Hs) as E. destruct limit as [| |n| | |]; try by eapply refused_answers.
    revert E. destruct ((1 <=? n) && (n <=? MAX_RECENT_EVENTS)); intros E; cbn [negb andb] in *; [|by eapply refused_answers].
    destruct symbol as [| | | |s|]; try (by eapply given_answers); try (rewrite (step_err _ _ _ _ _ E); split; [|done]; by eexists).
    destruct (is_valid_symbol s); [by eapply given_answers|by eapply refused_answers].
Qed.

Lemma answered (c : Caps) t : exists v c', call_tool source_exhausted policy mono t c = (Ok v, c') /\ looks same_facts c c' /\
  match refusal c t with None => success v | Some code => failure code v /\ c' = c end.
Proof.
  unfold call_tool. rewrite guarded_runs. eexists _, _. split; [reflexivity|]. split; [|apply read_answers].
  destruct (decide (t = GetMarketState)) as [->|Ht]; [|exact (read_looks same_facts t Ht c)].
  apply (reads_bind same_facts); [apply market_looks|]. intros w. apply reads_ret, _.
Qed.

(** The arguments the schema lets through. *)
Definition typed (t : Tool) : Prop :=
  match t with
  | GetMarketState | GetActiveSignals | GetFeedHealth => True
  | GetSymbolState v | GetSignal v => conforms StrKind v
  | GetRecentEvents symbol limit => conforms OptionalStrKind symbol /\ conforms (IntKind 1 RECENT_EVENTS_LIMIT) limit
  end.
Lemma tools_named name ps make : od_get name TOOLS = Some (ps, make) -> (name, (ps, make)) ∈ TOOLS.
Proof. apply od_get_elem. Qed.
Lemma asked_typed bind `{!Schema bind} name args t : asked_tool bind name args = Some t -> typed t /\ (t = GetMarketState -> name = "get_market_state").
Proof.
  unfold asked_tool. destruct (od_get name TOOLS) as [[ps make]|] eqn:E; [|done]. cbn [mbind option_bind]. destruct (bind ps args) as [vs|] eqn:B; [|done].
  intros [= <-]. apply tools_named in E. assert (D : Forall (fun p => from_option (conforms (pm_kind p)) True (pm_default p)) ps).
  { unfold TOOLS in E. repeat (apply elem_of_cons in E as [[= -> -> ->]|E]; [repeat apply Forall_cons_2; try apply Forall_nil_2; cbn; try done|]);
      [by left|by exists 20|by apply elem_of_nil in E]. }
  pose proof (bind_typed ps args vs B D) as T. unfold TOOLS in E.
  repeat (apply elem_of_cons in E as [[= -> -> ->]|E];
    [repeat (apply Forall2_cons_inv_l in T as (? & ? & ? & T & ->)); apply Forall2_nil_inv_l in T as ->; by split_and!|]). by apply elem_of_nil in E.
Qed.

Lemma limit_bounds bind `{!Schema bind} n : asked_tool bind "get_recent_events" [("limit", JInt n)] =
  if (1 <=? n) && (n <=? 200) then Some (GetRecentEvents PyNone (PyInt n)) else None.
Proof.
  set (ps := [mkParam "symbol" OptionalStrKind (Some PyNone); mkParam "limit" (IntKind 1 RECENT_EVENTS_LIMIT) (Some (PyInt 20))]).
  assert (H : od_get "get_recent_events" TOOLS = Some (ps, fun vs => GetRecentEvents (nth 0 vs PyNone) (nth 1 vs PyNone))) by done.
  unfold asked_tool. rewrite H. cbn [mbind option_bind]. destruct ((1 <=? n) && (n <=? 200)) eqn:E.
  - rewrite (bind_plain ps _ [PyNone; PyInt n]); [done|].
    assert (G : given [("limit", JInt n)] (mkParam "limit" (IntKind 1 RECENT_EVENTS_LIMIT) (Some (PyInt 20))) =
      if (1 <=? n) && (n <=? 200) then Some (PyInt n) else None) by done.
    unfold ps. cbn [mapM]. rewrite G, E. reflexivity.
  - rewrite (bind_refuses ps _ (mkParam "limit" (IntKind 1 RECENT_EVENTS_LIMIT) (Some (PyInt 20)))); [done|by right; left|].
    change (negb ((1 <=? n) && (n <=? 200)) = true). by rewrite E.
Qed.

(** C18: Every tool call is answered, and reads only.  A call whose arguments the schema refuses - a missing
    or ill-typed [symbol] or [signal_id], a [limit] out of [1, 200], a tool that does not exist - gets the
    SDK's tool error, and nothing happens; an integer [limit] within the range passes.  Any other gets one envelope: the success envelope, or the failure
    envelope with the code the call deserves - [not_running] before start, [invalid_argument] for a symbol
    of the wrong shape or a blank signal id, [not_found] for a symbol off the watchlist or a signal that is
    not live - and then everything is left as it was.  No call changes the watchlist, the
    provider, the scheduler, the buffers, the states, the pipeline, the telemetry, the coordinator or
    the recorded events; only [get_market_state] touches the health records, and there only the
    status kept for the log. *)
Theorem tool_contract bind `{!Schema bind} (c : Caps) name args :
  exists reply c', serve_call source_exhausted policy mono bind name args c = (Ok reply, c') /\
    looks same_facts c c' /\ (name <> "get_market_state" -> looks eq c c') /\
    match asked_tool bind name args with
    | None => reply = ToolError /\ c' = c
    | Some t => typed t /\ exists v, reply = Envelope v /\
        match refusal c t with None => success v | Some code => failure code v /\ c' = c end
    end /\
    (od_get name TOOLS = None -> reply = ToolError) /\
    (forall ps make, od_get name TOOLS = Some (ps, make) ->
       (forall p, p ∈ ps -> refused_by args p -> reply = ToolError) /\
       (forall vs, mapM (given args) ps = Some vs -> asked_tool bind name args = Some (make vs))) /\
    (forall n, name = "get_recent_events" -> args = [("limit", JInt n)] ->
       asked_tool bind name args = if (1 <=? n) && (n <=? 200) then Some (GetRecentEvents PyNone (PyInt n)) else None).
Proof.
  assert (G : forall ps make, od_get name TOOLS = Some (ps, make) -> asked_tool bind name args = make <$> bind ps args).
  { intros ps make H. unfold asked_tool. rewrite H. cbn. by destruct (bind ps args). }
  assert (N : od_get name TOOLS = None -> asked_tool bind name args = None) by (intros H; unfold asked_tool; by rewrite H).
  assert (R : forall ps make p, od_get name TOOLS = Some (ps, make) -> p ∈ ps -> refused_by args p -> asked_tool bind name args = None).
  { intros ps make p H Hp Hr. rewrite (G _ _ H). by rewrite (bind_refuses _ _ _ Hp Hr). }
  assert (A : forall ps make vs, od_get name TOOLS = Some (ps, make) -> mapM (given args) ps = Some vs -> asked_tool bind name args = Some (make vs)).
  { intros ps make vs H Hm. rewrite (G _ _ H). by rewrite (bind_plain _ _ _ Hm). }
  unfold serve_call. destruct (asked_tool bind name args) as [t|] eqn:E.
  - destruct (asked_typed bind name args t E) as [Ht Hn]. destruct (answered c t) as (v & c' & Ev & L & V).
    exists (Envelope v), c'. split; [by erewrite step_ok|]. split; [done|]. split.
    { intros Hm. unfold call_tool in Ev. rewrite guarded_runs in Ev. injection Ev as _ <-. apply (read_looks eq t); auto. }
    split; [split; [done|]; by exists v|]. split; [intros H%N; discriminate H|]. split; [intros ps make H; split; [intros p Hp Hr; discriminate (R _ _ _ H Hp Hr)|intros vs; by apply (A ps make vs)]|].
    intros n -> ->. by rewrite <- (limit_bounds bind), E.
  - exists ToolError, c. split; [done|]. split; [by split; [reflexivity|]|]. split; [by split; [reflexivity|]|]. split; [done|]. split; [done|]. split; [intros ps make H; split; [done|intros vs; by apply (A ps make vs)]|].
    intros n -> ->. by rewrite <- (limit_bounds bind), E.
Qed.

Lemma statuses_still h symbols t : (forall n, mono n = t) -> forall n, statuses_at h symbols n = (fun x => peek_status policy h x t) <$> symbols.
Proof. intros Ht. induction symbols as [|x symbols IH]; intros n; [done|]. cbn [statuses_at fmap list_fmap]. by rewrite IH, Ht. Qed.
Lemma aggregate_still t : (forall n, mono n = t) -> forall symbols h n,
  (aggregate_status policy h symbols mono n).1 = worst_of ((fun x => peek_status policy h x t) <$> symbols).
Proof.
  intros Ht. assert (G : forall symbols h n, (statuses policy h symbols mono n).1 = (fun x => peek_status policy h x t) <$> symbols).
  { induction symbols as [|x symbols IH]; intros h n; cbn [statuses]; [done|]. pose proof (fun y => status_peek policy h x (mono n) y t) as Hp.
    assert (E : (status policy h x (mono n)).1 = peek_status policy h x t) by by rewrite Ht.
    destruct (status policy h x (mono n)) as [s h1]. cbn [fst snd] in E, Hp. specialize (IH h1 (Datatypes.S n)).
    destruct (statuses policy h1 symbols mono (Datatypes.S n)) as [rest h2]. cbn [fst fmap list_fmap] in *. rewrite E, IH. f_equal.
    apply list_fmap_ext. intros _ y _. apply Hp. }
  intros symbols h n. unfold aggregate_status. specialize (G symbols h n). destruct (statuses policy h symbols mono n) as [[|s l] h']; cbn [fst] in *; by rewrite <- G.
Qed.

Lemma market_feed (c : Caps) w c' : get_market_state source_exhausted policy mono c = (Ok w, c') ->
  wm_feed_status w = status_value (let e := cp_engine c in
    if bool_decide (enabled_symbols (en_watchlist e) = []) then DISCONNECTED
    else (aggregate_status policy (en_health e) (enabled_symbols (en_watchlist e)) mono (en_mono e)).1).
Proof.
  unfold get_market_state. destruct (decide (cp_started c = Some false)) as [H|H]; [by erewrite step_err by by apply stopped_runs|].
  erewrite step_ok by by apply started_runs. unfold core, map_engine_state, mbind, step_bind, gets, mret, step_ret.
  cbn beta iota. cbv zeta. destruct (bool_decide _); [by intros [= <- _]|]. unfold health_aggregate.
  destruct (aggregate_status _ _ _ _ _) as [a h]; cbn. by intros [= <- _].
Qed.

Lemma find_fmap {A B} (f : A -> B) (p : B -> bool) l : find p (f <$> l) = f <$> find (fun x => p (f x)) l.
Proof. induction l as [|x l IH]; [done|]. cbn. by destruct (p (f x)). Qed.
Lemma rows_visible e : ((symbol_row e <$> watched e) ≫= wy_active_signals) = signal_view e <$> visible e.
Proof. unfold visible. induction (watched e) as [|x l IH]; [done|]. cbn [fmap list_fmap mbind list_bind]. by rewrite row_signals, fmap_app, IH. Qed.

(** C28: The facade's views agree.  What [get_signal] answers is the first signal of that id in the
    whole-watchlist state, and [not_found] when there is none; [get_symbol_state] answers with the
    symbol's row of that state; the groups of [get_active_signals] are the non-empty signal lists of
    those rows, and no other symbol has a group.  The aggregate of [get_feed_health] is the worst
    status over the whole watchlist: read at one time, it is the feed status of the whole-watchlist
    state when every symbol is enabled. *)
Theorem views_agree (c : Caps) id : cp_started c <> Some false -> strip id <> "" ->
  exists w cw g r cr, get_market_state source_exhausted policy mono c = (Ok w, cw) /\ get_active_signals c = (Ok g, c) /\
    get_feed_health policy mono c = (Ok r, cr) /\
    (get_signal (PyStr id) c).1 = of_option (capability_error Capability.NOT_FOUND ("signal not found: " +:+ id))
      (find (fun s => bool_decide (ws_id s = id)) (wm_symbols w ≫= wy_active_signals)) /\
    (forall x, x ∈ watched (cp_engine c) -> is_valid_symbol x = true ->
       exists row, (get_symbol_state (PyStr x) c).1 = Ok row /\ row ∈ wm_symbols w /\ wy_symbol row = x) /\
    (forall row, row ∈ wm_symbols w -> od_get (wy_symbol row) g = match wy_active_signals row with [] => None | signals => Some signals end) /\
    (forall x, od_get x g <> None -> x ∈ wy_symbol <$> wm_symbols w) /\
    (forall t, (forall n, mono n = t) -> Forall (fun item => wi_enabled item = true) (list_items (en_watchlist (cp_engine c))) ->
       fr_aggregate_status r = wm_feed_status w).
Proof.
  intros H Hb. destruct (market_state_runs c H) as (w & cw & Ew & Hw). set (e := cp_engine c) in *.
  exists w, cw, (groups e), (feed_report (en_health e) (watched e) (en_mono e)). eexists. split; [exact Ew|]. split; [by apply active_signals_runs|].
  split; [by apply feed_health_runs|]. split; [|split; [|split; [|split]]].
  - rewrite signal_runs by done. fold e. rewrite Hw, rows_visible, find_fmap. cbn [fst]. unfold find_signal, signal_view at 2. cbn. by destruct (find _ (visible e)).
  - intros x Hx Hv. exists (symbol_row e x). rewrite symbol_state_runs, Hv by done. cbn [negb fst]. fold e. rewrite bool_decide_true by done.
    split; [done|]. split; [|done]. rewrite Hw. by apply list_elem_of_fmap_2.
  - intros row Hr. rewrite Hw in Hr. apply list_elem_of_fmap in Hr as (x & -> & Hx). change (wy_symbol (symbol_row e x)) with x.
    rewrite groups_get, decide_True, row_signals by done. by destruct (live_signals e x).
  - intros x. rewrite groups_get, Hw, <- list_fmap_compose. destruct (decide (x ∈ watched e)) as [Hx|]; [|done]. intros _.
    apply list_elem_of_fmap. by exists x.
  - intros t Ht Hall. rewrite (market_feed c w cw Ew). fold e. cbv zeta. cbn [fr_aggregate_status feed_report]. f_equal.
    rewrite (statuses_still _ _ t Ht). assert (watched e = enabled_symbols (en_watchlist e)) as ->.
    { unfold enabled_symbols, watched. f_equal. symmetry. clear -Hall. induction Hall as [|x l Hx Hl IH]; [done|]. rewrite filter_cons_True by done. by f_equal. }
    case_bool_decide as Hn; [by rewrite Hn|]. by rewrite (aggregate_still t Ht).
Qed.
End tools.

(** ** Witnesses *)
Definition mcp_telemetry : TelemetryRuntime unit unit := runtime_init (fun _ => "id") tt tt None.
Definition noon (n : nat) : float := flit 1700000000 0.
Definition demo_caps : MarketCapabilities unit unit unit :=
  let e := engine_init (mkWatchlist false 10 false [("600519.SH", mkWatchItem "600519.SH" true); ("000001.SZ", mkWatchItem "000001.SZ" true)] None) tt mcp_telemetry None in
  mkCapabilities (set_states {["600519.SH" := mkMarketState "600519.SH" None HOT LIVE None None None [Coordinator.demo_signal]]} e) default_recent (Some true).
Definition the_id : string := sig_id Coordinator.demo_signal.

(** A schema that converts nothing. *)
Definition strict_bind (ps : list Param) (args : Arguments_) : option (list pyval) := mapM (given args) ps.
#[export] Instance strict_schema : Schema strict_bind.
Proof.
  split; unfold strict_bind.
  - intros ps args vs H D. apply mapM_Some in H. clear -H D. induction H as [|p v ps vs Hg H IH]; [constructor|]. apply Forall_cons in D as [Dp D].
    constructor; [|by apply IH]. unfold given in Hg. destruct (od_get _ _) as [j|]; [|by rewrite Hg in Dp].
    unfold plain in Hg. unfold conforms. repeat case_match; simplify_eq; try done; try (by eexists); try (by left); try (right; by eexists).
    eexists. split; [done|]. rewrite andb_true_iff, !Z.leb_le in *. done.
  - intros ps args p Hp Hr. destruct (mapM (given args) ps) as [vs|] eqn:E; [|done]. apply mapM_Some in E.
    apply list_elem_of_lookup in Hp as [i Hi]. destruct (Forall2_lookup_l _ _ _ _ _ E Hi) as (v & _ & Hg). exfalso.
    unfold refused_by in Hr. unfold given in Hg. destruct (od_get _ _) as [j|]; [|congruence]. unfold unfit in Hr. unfold plain in Hg.
    repeat case_match; simplify_eq; try done; match goal with H : negb _ = true |- _ => apply negb_true_iff in H; congruence end.
  - done.
Qed.

Lemma tool_contract_witness :
  (exists v c', serve_call (fun _ => false) default_health_policy noon strict_bind "get_signal" [("signal_id", JStr the_id)] demo_caps = (Ok (Envelope v), c') /\
     looks eq demo_caps c' /\ success v) /\
  (exists c', serve_call (fun _ => false) default_health_policy noon strict_bind "get_recent_events" [("limit", JInt 201)] demo_caps = (Ok ToolError, c')).
Proof.
  split.
  - destruct (tool_contract (fun _ => false) default_health_policy noon strict_bind demo_caps "get_signal" [("signal_id", JStr the_id)])
      as (r & c' & E & _ & L & A & _). destruct A as (_ & v & -> & V). exists v, c'. split; [exact E|]. split; [by apply L|]. exact V.
  - destruct (tool_contract (fun _ => false) default_health_policy noon strict_bind demo_caps "get_recent_events" [("limit", JInt 201)])
      as (r & c' & E & _ & _ & _ & _ & R & _). destruct (R _ _ eq_refl) as [Rf _].
    exists c'. rewrite E. rewrite (Rf (mkParam "limit" (IntKind 1 RECENT_EVENTS_LIMIT) (Some (PyInt 20)))); [done|by right; left|reflexivity].
Defined.

Lemma views_agree_witness : exists w cw, get_market_state (fun _ => false) default_health_policy noon demo_caps = (Ok w, cw) /\
  is_ok (get_signal (PyStr the_id) demo_caps).1 = true /\
  ws_id <$> (wm_symbols w ≫= wy_active_signals) = [the_id].
Proof.
  destruct (views_agree (fun _ => false) default_health_policy noon demo_caps the_id ltac:(discriminate) ltac:(vm_compute; discriminate))
    as (w & cw & g & r & cr & Ew & _ & _ & Es & _).
  exists w, cw. split; [exact Ew|]. assert (Hw : ws_id <$> (wm_symbols w ≫= wy_active_signals) = [the_id]).
  { apply (f_equal fst) in Ew. cbn [fst] in Ew. assert (K : match (get_market_state (fun _ => false) default_health_policy noon demo_caps).1 with
      | Ok w => ws_id <$> (wm_symbols w ≫= wy_active_signals) | Err _ => [] end = [the_id]) by (vm_compute; reflexivity). by rewrite Ew in K. }
  split; [|exact Hw]. rewrite Es. destruct (wm_symbols w ≫= wy_active_signals) as [|s l]; [done|]. cbn. injection Hw as Hs _. by rewrite Hs.
Defined.
