(* ===== verification/Standalone.v ===== *)
(** * The standalone runtime (src/market_sentinel/mcp_server/runtime.py)

    [StandaloneRuntime] resolves a watchlist, builds an engine over a provider and the facade
    over it, and runs the tick loop; [serve] answers tool calls until it stops.  Rounds of the
    loop and tool calls, those that passed the schema of Capabilities.v, interleave: neither awaits within its own turn but for the provider.
    The fixture and the watchlist file enter as their lines and rows. *)
From Stdlib Require Import ZArith Lia Ascii String.
From stdpp Require Import prelude strings gmap.
From S2P Require Import Prelude PyFloat Domain Normalizer Json PyText Features Cooldown Cluster Composer Telemetry Pipeline Scheduler Health Watchlist Engine Providers Coordinator Wire Capabilities.
Local Open Scope Z_scope.

(** ** runtime.py *)
Definition PROVIDER_CHOICES : list string := ["fake"; "replay"; "longbridge"].
Definition DEFAULT_FAKE_SYMBOLS : list string := ["600519.SH"; "000001.SZ"; "300750.SZ"].

Section resolve.
(** [str] and [bool] of values the program does not itself write, and the decoder's recursion limit. *)
Context (str_other : pyval -> string) (bool_other : pyval -> bool) (limit : nat).

(** [str(quote["symbol"])], checked and added to [seen]. *)
Definition seen_symbol (seen : list (string * unit)) (quote : json) : result (list (string * unit)) :=
  v ← item_at quote "symbol";
  let symbol := py_str str_other (scalar v) in
  if is_valid_symbol symbol then Ok (match od_get symbol seen with Some _ => seen | None => od_set symbol tt seen end)
  else Err (McpConfigError ("fixture contains invalid symbol: " +:+ symbol)).
Fixpoint seen_symbols (seen : list (string * unit)) (quotes : list json) : result (list (string * unit)) :=
  match quotes with
  | [] => Ok seen
  | q :: quotes => seen ← seen_symbol seen q; seen_symbols seen quotes
  end.

(** [json.loads(text.splitlines()[0])] with its handler. *)
Definition first_batch (lines : list string) : result json :=
  line ← of_option IndexError (head lines);
  match loads_line limit line with
  | Err (ValueError m) => Err (McpConfigError ("cannot read replay fixture: " +:+ m))
  | r => r
  end.

Fixpoint check_symbols (symbols : list string) : result unit :=
  match symbols with
  | [] => Ok tt
  | s :: symbols => if is_valid_symbol s then check_symbols symbols else Err (McpConfigError ("invalid symbol format: " +:+ s))
  end.

(** [replay] is the fixture's lines when a path is given, [watchlist] the rows of the watchlist
    file when a path is given and is a file. *)
Definition resolve_watchlist_symbols (provider_name : string) (replay : option (list string)) (explicit : list string) (watchlist : option Payload)
    : result (list string) :=
  if bool_decide (explicit <> []) then _ ← check_symbols explicit; Ok explicit
  else
    items ← match watchlist with
            | Some rows => w ← watchlist_init str_other bool_other true 10 true (Some rows); Ok (list_items w)
            | None => Ok []
            end;
    if bool_decide (items <> []) then Ok (wi_symbol <$> items)
    else if bool_decide (provider_name = "replay") then
      match replay with
      | None => Err (McpConfigError "replay provider requires --replay <fixture path>")
      | Some lines => batch ← first_batch lines; quotes ← iterate batch; seen ← seen_symbols [] quotes; Ok seen.*1
      end
    else if bool_decide (provider_name = "fake") then Ok DEFAULT_FAKE_SYMBOLS
    else Err (McpConfigError ("provider " +:+ provider_name +:+ " requires an explicit watchlist (--symbols or --watchlist)")).
End resolve.

(** The tick loop's task: not created, running, or ended by an exception.  [sr_telemetry]: a no-op telemetry
    runtime is held; the engine of the run shares it. *)
Inductive TickTask := NoTask | Looping | Ended (e : exn).

Record StandaloneRuntime (S F : Type) := mkStandalone {
  sr_provider_name : string;
  sr_replay : option (list string);
  sr_symbols : list string;
  sr_capabilities : option (MarketCapabilities MarketProvider S F);     (* with the engine it shares *)
  sr_telemetry : bool;
  sr_task : TickTask;
  sr_running : bool
}.
Arguments mkStandalone {S F}.
Arguments sr_provider_name {S F}.
Arguments sr_replay {S F}.
Arguments sr_symbols {S F}.
Arguments sr_capabilities {S F}.
Arguments sr_telemetry {S F}.
Arguments sr_task {S F}.
Arguments sr_running {S F}.

Section runtime.
Context {S F : Type} (environ : string -> option string) (sdk_installed : bool) (limit : nat).
Context (create : nat -> Sdk unit) (quote : nat -> list string -> Sdk (list VendorQuote)).
Context (str_other : pyval -> string) (bool_other : pyval -> bool) (text_of : exn -> string).
Context (mono wall : nat -> float) (telemetry : TelemetryRuntime S F).
Context (run_pipeline : Pipeline -> TelemetryRuntime S F -> option MarketFeatures -> MarketFeatures ->
  result (SignalPipelineResult * Pipeline * TelemetryRuntime S F)).
Context (scheduler_policy : SchedulerPolicy).
Abbreviation Rt := (StandaloneRuntime S F).
Abbreviation Caps := (MarketCapabilities MarketProvider S F).

(** [StandaloneRuntime(...)] *)
Definition standalone_init (provider_name : string) (replay : option (list string)) (symbols : list string) (live : bool) : result Rt :=
  if bool_decide (provider_name ∉ PROVIDER_CHOICES) then Err (McpConfigError ("unknown provider " +:+ provider_name +:+ "; choose from fake, replay, longbridge"))
  else if bool_decide (provider_name = "longbridge") && negb live then Err (McpConfigError "longbridge is a live provider; pass --live to opt in explicitly")
  else if live && negb (bool_decide (provider_name = "longbridge")) then Err (McpConfigError "--live only applies to the longbridge provider")
  else if bool_decide (provider_name = "replay") && is_none replay then Err (McpConfigError "replay provider requires --replay <fixture path>")
  else Ok (mkStandalone provider_name replay symbols None false NoTask false).

(** The provider's methods, as [MarketProvider] dispatches them; only the replay has an end. *)
Definition market_fetch (p : MarketProvider) (symbols : list string) : result (list MarketSnapshot) * MarketProvider :=
  match p with
  | FakeP p => let '(r, p) := fake_fetch wall p symbols in (r, FakeP p)
  | ReplayP p => let '(r, p') := replay_fetch (wall (rv_index p)) p symbols in (r, ReplayP p')
  | LongbridgeP p => let '(r, p) := longbridge_fetch environ create quote mono wall p symbols in (r, LongbridgeP p)
  end.
Definition market_exhausted (p : MarketProvider) : bool := match p with ReplayP p => Providers.source_exhausted p | _ => false end.

Fixpoint add_all (w : Watchlist) (symbols : list string) : result Watchlist :=
  match symbols with
  | [] => Ok w
  | s :: symbols => '(_, w) ← add w s; add_all w symbols
  end.

(** The runtime's engine has no intelligence and telemetry of its own. *)
Definition start_engine (rt : Rt) : result (Engine MarketProvider S F Coordinator) :=
  provider ← match create_provider environ sdk_installed limit (sr_provider_name rt) (sr_replay rt) false with
             | Err (ValueError _ as e) | Err (ProviderError _ as e) => Err (McpConfigError ("cannot create provider: " +:+ text_of e))
             | r => r
             end;
  symbols ← resolve_watchlist_symbols str_other bool_other limit (sr_provider_name rt) (sr_replay rt) (sr_symbols rt) None;
  w ← watchlist_init str_other bool_other false 10 false None;
  w ← add_all w symbols;
  Ok (engine_init w provider telemetry None).

(** [self._telemetry = TelemetryRuntime(clock)] and the two uses of its absence. *)
Definition hold_telemetry (held : bool) (rt : Rt) : Rt :=
  mkStandalone (sr_provider_name rt) (sr_replay rt) (sr_symbols rt) (sr_capabilities rt) held (sr_task rt) (sr_running rt).

(** The telemetry is assigned before anything can raise, so a failed start leaves it behind. *)
Definition start_runtime : Step Rt unit := fun rt =>
  if sr_running rt then (Err (McpConfigError "runtime already started"), rt)
  else match start_engine rt with
  | Ok e => (Ok tt, mkStandalone (sr_provider_name rt) (sr_replay rt) (sr_symbols rt) (Some (mkCapabilities e default_recent (Some true))) true Looping true)
  | Err ex => (Err ex, hold_telemetry true rt)
  end.

(** [started=lambda: self._running] is read through the facade. *)
Definition on_capabilities {A} (m : Step Caps A) : Step Rt A := fun rt =>
  match sr_capabilities rt with
  | None => (Err (McpConfigError "runtime not started"), rt)
  | Some c =>
      let '(r, c) := m (mkCapabilities (cp_engine c) (cp_events c) (Some (sr_running rt))) in
      (r, mkStandalone (sr_provider_name rt) (sr_replay rt) (sr_symbols rt) (Some c) (sr_telemetry rt) (sr_task rt) (sr_running rt))
  end.

Definition set_task (task : TickTask) (running : bool) (rt : Rt) : Rt :=
  mkStandalone (sr_provider_name rt) (sr_replay rt) (sr_symbols rt) (sr_capabilities rt) (sr_telemetry rt) task running.

(** [stop]: awaiting a task that died raises its exception, before the telemetry is closed. *)
Definition stop_runtime : Step Rt unit := fun rt =>
  match sr_task rt with
  | Ended ex => (Err ex, set_task (Ended ex) false rt)
  | _ => (Ok tt, hold_telemetry false (set_task NoTask false rt))
  end.

Definition unattached_observer (c : Coordinator) (t : TelemetryRuntime S F) (_ : EngineTickResult) (_ : gset string) (_ : list FeedStatus) := (c, t).
Definition standalone_tick : Step (Engine MarketProvider S F Coordinator) EngineTickResult :=
  tick market_fetch market_exhausted unattached_observer default_feature_policy default_warming scheduler_policy default_health_policy run_pipeline mono.

(** One round of [_tick_loop]: the wait before the next. *)
Definition loop_round : Step Caps float :=
  results ← core standalone_tick;
  _ ← observe_results results;
  core (now ← read_clock mono;
        gets (fun e => next_wait_s scheduler_policy (en_scheduler e) (enabled_symbols (en_watchlist e)) now)).

(** ** Runs: the loop's rounds while its task lives, and the tools' calls with their answers *)
Inductive RuntimeTurn := Round | Call (t : Tool).

Definition run_turn (t : RuntimeTurn) (rt : Rt) : list (Tool * json) * Rt :=
  match t with
  | Round =>
      match sr_task rt with
      | Looping => match on_capabilities loop_round rt with
                   | (Ok _, rt) => ([], rt)
                   | (Err ex, rt) => ([], set_task (Ended ex) (sr_running rt) rt)
                   end
      | _ => ([], rt)
      end
  | Call tool => match on_capabilities (call_tool market_exhausted default_health_policy mono tool) rt with
                 | (Ok v, rt) => ([(tool, v)], rt)
                 | (Err _, rt) => ([], rt)
                 end
  end.
Fixpoint run_turns (ts : list RuntimeTurn) (rt : Rt) : list (Tool * json) * Rt :=
  match ts with
  | [] => ([], rt)
  | t :: ts => let '(out, rt) := run_turn t rt in let '(rest, rt) := run_turns ts rt in (out ++ rest, rt)
  end.

(** [serve]: start, the turns while the server runs, and [stop] in any case once started. *)
Definition serve_mcp (ts : list RuntimeTurn) (rt : Rt) : result (list (Tool * json)) * Rt :=
  match start_runtime rt with
  | (Err ex, rt) => (Err ex, rt)
  | (Ok _, rt) =>
      let '(out, rt) := run_turns ts rt in
      match stop_runtime rt with (Ok _, rt) => (Ok out, rt) | (Err ex, rt) => (Err ex, rt) end
  end.
End runtime.

(** * The standalone runtime *)
#[export] Instance market_contract environ create quote mono wall (W : forall n, valid (wall n) = true)
    (Hq : forall k l qs, quote k l = Answered qs -> Forall quote_valid qs) : ProviderContract (market_fetch environ create quote mono wall).
Proof.
  exists (fun p => match p with FakeP p => fake_valid p | ReplayP p => replay_valid p | LongbridgeP _ => True end).
  intros [p|p|p] symbols r p' V; cbn [market_fetch].
  - destruct (fake_fetch wall p symbols) as [r0 p0] eqn:E. intros [= <- <-]. exact (@prov_fetch _ _ (fake_contract wall W) p symbols r0 p0 V E).
  - destruct (replay_fetch (wall (rv_index p)) p symbols) as [r0 p0] eqn:E. intros [= <- <-].
    exact (@prov_fetch _ _ (replay_contract (wall (rv_index p))) p symbols r0 p0 V E).
  - destruct (longbridge_fetch environ create quote mono wall p symbols) as [r0 p0] eqn:E. intros [= <- <-]. split; [done|].
    exact (proj2 (@prov_fetch _ _ (longbridge_contract environ create quote mono wall Hq) p symbols r0 p0 I E)).
Defined.

(** ** Resolving the watchlist *)
Lemma check_symbols_ok symbols : check_symbols symbols = Ok tt <-> Forall (fun s => is_valid_symbol s = true) symbols.
Proof.
  induction symbols as [|s symbols IH]; [by split; [constructor|]|]. cbn [check_symbols]. destruct (is_valid_symbol s) eqn:E.
  - rewrite IH. split; [by constructor|]. by intros [_ ?]%Forall_cons.
  - split; [done|]. intros [? _]%Forall_cons. congruence.
Qed.
Lemma check_symbols_error symbols e : check_symbols symbols = Err e -> exists m, e = McpConfigError m.
Proof. induction symbols as [|s symbols IH]; [done|]. cbn [check_symbols]. destruct (is_valid_symbol s); [exact IH|]. intros [= <-]. by eexists. Qed.

Definition mcp_error (e : exn) : Prop := exists m, e = McpConfigError m.
Definition row_named (q : json) : Prop := exists ms v, q = JObj ms /\ od_get "symbol" ms = Some v.
Definition batch_named (batch : json) : Prop := exists quotes, iterate batch = Ok quotes /\ Forall row_named quotes.

Lemma iterate_error v e : iterate v = Err e -> e = TypeError.
Proof. destruct v as [| | | |[]| |]; cbn; congruence. Qed.
Lemma loads_line_error limit line e : loads_line limit line = Err e -> (exists m, e = ValueError m) \/ loads limit line = LoadsRaises e.
Proof. unfold loads_line. destruct (loads limit line); intros [= <-]; [left; by eexists|by right]. Qed.
Lemma traverse_error {A B} (f : A -> result B) l e : traverse f l = Err e -> exists x, x ∈ l /\ f x = Err e.
Proof.
  induction l as [|x l IH]; [done|]. cbn [traverse]. destruct (f x) as [y|ex] eqn:E; cbn [mbind result_bind]; [|intros [= <-]; exists x; split; [by left|done]].
  destruct (traverse f l) as [ys|ex]; [done|]. intros [= ->]. destruct IH as (z & Hz & Ez); [done|]. exists z. split; [by right|done].
Qed.

Section resolving.
Context (str_other : pyval -> string) (bool_other : pyval -> bool) (limit : nat).

Lemma seen_symbols_spec quotes : forall seen, NoDup seen.*1 -> Forall (fun s => is_valid_symbol s = true) seen.*1 ->
  match seen_symbols str_other seen quotes with
  | Ok seen' => NoDup seen'.*1 /\ Forall (fun s => is_valid_symbol s = true) seen'.*1
  | Err e => mcp_error e \/ (e = KeyError \/ e = TypeError) /\ ~ Forall row_named quotes
  end.
Proof.
  induction quotes as [|q quotes IH]; intros seen N V; cbn [seen_symbols]; [done|]. unfold seen_symbol, item_at at 1.
  assert (F : forall ex, (forall ms v, q = JObj ms -> od_get "symbol" ms = Some v -> False) -> ex = KeyError \/ ex = TypeError ->
    mcp_error ex \/ (ex = KeyError \/ ex = TypeError) /\ ~ Forall row_named (q :: quotes)).
  { intros ex Hq He. right. split; [done|]. intros [(ms & v & -> & Hv) _]%Forall_cons. by eapply Hq. }
  destruct q as [| | | | | |ms]; try (by apply F; [|right]). destruct (od_get "symbol" ms) as [v|] eqn:E; cbn [of_option mbind result_bind].
  2:{ apply F; [|by left]. intros ? v [= <-]. congruence. }
  set (x := py_str str_other (scalar v)). destruct (is_valid_symbol x) eqn:Ev; [|left; by eexists]. cbn [mbind result_bind].
  assert (G : forall seen1, NoDup seen1.*1 -> Forall (fun s => is_valid_symbol s = true) seen1.*1 ->
    match seen_symbols str_other seen1 quotes with
    | Ok seen' => NoDup seen'.*1 /\ Forall (fun s => is_valid_symbol s = true) seen'.*1
    | Err e => mcp_error e \/ (e = KeyError \/ e = TypeError) /\ ~ Forall row_named (JObj ms :: quotes)
    end).
  { intros seen1 N1 V1. specialize (IH seen1 N1 V1). destruct (seen_symbols str_other seen1 quotes); [done|].
    destruct IH as [?|[? Hn]]; [by left|right; split; [done|]]. by intros [_ ?]%Forall_cons. }
  destruct (od_get x seen) eqn:Ex; [by apply G|]. apply G; [by apply od_set_nodup|]. rewrite od_set_keys. case_decide; [done|].
  apply Forall_app. split; [done|]. by apply Forall_singleton.
Qed.

(** The watchlist a standalone runtime resolves, and what else can happen. *)
Definition resolve_of (name : string) (replay : option (list string)) (explicit : list string) : result (list string) :=
  resolve_watchlist_symbols str_other bool_other limit name replay explicit None.
Definition fixture_leak (name : string) (replay : option (list string)) (explicit : list string) (ex : exn) : Prop :=
  explicit = [] /\ name = "replay" /\ exists lines, replay = Some lines /\
    ((lines = [] /\ ex = IndexError) \/
     exists line rest, lines = line :: rest /\
       (loads limit line = LoadsRaises ex \/ (ex = KeyError \/ ex = TypeError) /\ exists batch, loads_line limit line = Ok batch /\ ~ batch_named batch)).

Lemma fake_symbols_valid : Forall (fun s => is_valid_symbol s = true) DEFAULT_FAKE_SYMBOLS.
Proof. repeat apply Forall_cons_2; [vm_compute; reflexivity..|constructor]. Qed.

Lemma resolve_spec name replay explicit :
  match resolve_of name replay explicit with
  | Ok symbols => Forall (fun s => is_valid_symbol s = true) symbols
  | Err ex => mcp_error ex \/ fixture_leak name replay explicit ex
  end.
Proof.
  unfold resolve_of, resolve_watchlist_symbols. case_bool_decide as He.
  { destruct (check_symbols explicit) as [[]|e] eqn:E; cbn [mbind result_bind]; [by apply check_symbols_ok|left; by eapply check_symbols_error]. }
  assert (explicit = []) as -> by (destruct explicit; [done|by destruct He]). cbn [mbind result_bind]. rewrite bool_decide_false by (by intros H).
  case_bool_decide as Hr; [subst name|].
  - destruct replay as [lines|]; [|left; by eexists]. unfold first_batch. destruct lines as [|line rest].
    { right. split; [done|]. split; [done|]. exists []. split; [done|by left]. }
    cbn [head of_option mbind result_bind]. pose proof (loads_line_error limit line) as Le. destruct (loads_line limit line) as [batch|e] eqn:El.
    + cbn [mbind result_bind]. assert (L : forall ex, ex = KeyError \/ ex = TypeError -> ~ batch_named batch ->
        fixture_leak "replay" (Some (line :: rest)) [] ex).
      { intros ex Hx Hb. split; [done|]. split; [done|]. eexists. split; [done|]. right. do 2 eexists. split; [done|]. right. split; [done|]. by exists batch. }
      destruct (iterate batch) as [quotes|e] eqn:Ei; cbn [mbind result_bind].
      * pose proof (seen_symbols_spec quotes [] (NoDup_nil_2) (Forall_nil_2 _)) as H. destruct (seen_symbols str_other [] quotes) as [seen|ex]; cbn [mbind result_bind].
        { apply H. }
        destruct H as [?|[Hx Hn]]; [by left|right]. apply L; [done|]. intros (q' & Eq & Hq). congruence.
      * right. apply L; [right; by eapply iterate_error|]. intros (q' & Eq & _). congruence.
    + destruct (Le e eq_refl) as [[m ->]|Hr]; [left; by eexists|].
      assert (K : fixture_leak "replay" (Some (line :: rest)) [] e) by (split; [done|]; split; [done|]; eexists; split; [done|]; right; do 2 eexists; split; [done|by left]).
      destruct e; first [by right|left; by eexists].
  - case_bool_decide; [|left; by eexists]. apply fake_symbols_valid.
Qed.
End resolving.

(** ** The watchlist of the runtime *)
Definition fresh_row (row : string * WatchItem) : Prop := row.2 = mkWatchItem row.1 true.

Lemma add_all_spec symbols : forall w, wl_persist w = false -> NoDup (wl_items w).*1 -> Forall fresh_row (wl_items w) ->
  match add_all w symbols with
  | Ok w' => NoDup (wl_items w').*1 /\ Forall fresh_row (wl_items w') /\ (forall x, x ∈ (wl_items w').*1 <-> x ∈ (wl_items w).*1 \/ x ∈ symbols) /\
             Z.of_nat (length (wl_items w')) <= Z.max (wl_limit w) (Z.of_nat (length (wl_items w)))
  | Err e => e = WatchlistFullError "watchlist limit" /\
             forall l, NoDup l -> (forall x, x ∈ l <-> x ∈ (wl_items w).*1 \/ x ∈ symbols) -> wl_limit w < Z.of_nat (length l)
  end.
Proof.
  induction symbols as [|s symbols IH]; intros w Hp N F; cbn [add_all].
  { split; [done|]. split; [done|]. split; [|lia]. intros x. split; [by left|]. by intros [?|?%elem_of_nil]. }
  unfold add. destruct (od_get s (wl_items w)) as [item|] eqn:E; cbn [mbind result_bind].
  - assert (Hs : s ∈ (wl_items w).*1) by (apply od_get_elem in E; apply list_elem_of_fmap; by exists (s, item)).
    assert (K : forall x, x ∈ (wl_items w).*1 \/ x ∈ symbols <-> x ∈ (wl_items w).*1 \/ x ∈ s :: symbols).
    { intros x. rewrite elem_of_cons. split; [naive_solver|]. intros [?|[->|?]]; naive_solver. }
    specialize (IH w Hp N F). destruct (add_all w symbols) as [w'|e].
    + destruct IH as (H1 & H2 & H3 & H4). split_and!; [done|done| |done]. intros x. by rewrite H3, K.
    + destruct IH as [-> H]. split; [done|]. intros l Nl Hl. apply H; [done|]. intros x. by rewrite Hl, K.
  - apply od_get_None in E. destruct (Z.leb_spec (wl_limit w) (Z.of_nat (length (wl_items w)))) as [Hl|Hl]; cbn [full mbind result_bind].
    + split; [done|]. intros l Nl Hin. assert (length (s :: (wl_items w).*1) <= length l)%nat as Hlen.
      { apply (NoDup_incl_length (l := s :: (wl_items w).*1)); [by apply NoDup_ListNoDup, NoDup_cons|]. intros x Hx%list_elem_of_In. apply list_elem_of_In, Hin.
        apply elem_of_cons in Hx as [->|?]; [right; by left|by left]. }
      cbn [length] in Hlen. rewrite length_fmap in Hlen. lia.
    + set (w1 := save _). assert (K : wl_items w1 = od_set s (mkWatchItem s true) (wl_items w) /\ wl_persist w1 = false /\ wl_limit w1 = wl_limit w).
      { unfold w1, save. cbn [with_items wl_persist]. by rewrite Hp. }
      destruct K as (Ki & Kp & Kl).
      assert (Kk : (wl_items w1).*1 = (wl_items w).*1 ++ [s]) by (rewrite Ki, od_set_keys; by case_decide).
      assert (N1 : NoDup (wl_items w1).*1) by (rewrite Ki; by apply od_set_nodup).
      assert (F1 : Forall fresh_row (wl_items w1)).
      { rewrite Forall_forall in F |- *. rewrite Ki. intros [k it] Hin. apply elem_of_od_set in Hin as [[-> ->]|[_ Hin]]; [done|by apply (F (k, it))|done]. }
      assert (M : forall x, x ∈ (wl_items w1).*1 \/ x ∈ symbols <-> x ∈ (wl_items w).*1 \/ x ∈ s :: symbols).
      { intros x. rewrite Kk. set_solver. }
      specialize (IH w1 Kp N1 F1). rewrite Kl in IH.
      assert (Ln : length (wl_items w1) = Datatypes.S (length (wl_items w))) by (rewrite <- (length_fmap fst), Kk, length_app, length_fmap; cbn; lia).
      destruct (add_all w1 symbols) as [w'|e].
      * destruct IH as (H1 & H2 & H3 & H4). split_and!; [done|done| |lia]. intros x. by rewrite H3, M.
      * destruct IH as [-> H]. split; [done|]. intros l Nl Hl'. apply H; [done|]. intros x. by rewrite Hl', M.
Qed.

Lemma fresh_items items : Forall fresh_row items -> wi_symbol <$> (snd <$> items) = items.*1 /\ Forall (fun it => wi_enabled it = true) (snd <$> items).
Proof.
  induction 1 as [|[k it] items H F [IH1 IH2]]; [by split|]. unfold fresh_row in H. cbn in H. subst it. cbn. split; [by f_equal|by constructor].
Qed.

Section standalone.
Context {S F : Type} (environ : string -> option string) (sdk_installed : bool) (limit : nat).
Context (str_other : pyval -> string) (bool_other : pyval -> bool) (text_of : exn -> string) (telemetry : TelemetryRuntime S F).
Abbreviation Rt := (StandaloneRuntime S F).
Abbreviation Eng := (Engine MarketProvider S F Coordinator).
Abbreviation start := (start_runtime environ sdk_installed limit str_other bool_other text_of telemetry).
Abbreviation resolved rt := (resolve_of str_other bool_other limit (sr_provider_name rt) (sr_replay rt) (sr_symbols rt)).

(** An undecodable line of the fixture whose error is not a [ValueError]. *)
Definition decoder_leak (rt : Rt) (ex : exn) : Prop :=
  sr_provider_name rt = "replay" /\ exists lines line, sr_replay rt = Some lines /\ line ∈ lines /\ loads limit line = LoadsRaises ex.
Definition full_leak (rt : Rt) (ex : exn) : Prop :=
  ex = WatchlistFullError "watchlist limit" /\ exists symbols, resolved rt = Ok symbols /\ 10 < Z.of_nat (length (remove_dups symbols)).

Lemma create_error name replay quote_client e : create_provider environ sdk_installed limit name replay quote_client = Err e ->
  (exists m, e = ValueError m) \/ (exists k, e = ProviderError k) \/
  (name = "replay" /\ exists lines line, replay = Some lines /\ line ∈ lines /\ loads limit line = LoadsRaises e).
Proof.
  unfold create_provider. case_decide; [done|]. case_decide as Hr.
  - destruct replay as [lines|]; [|intros [= <-]; left; by eexists]. unfold replay_init. destruct (loads_lines limit lines) as [ticks|e'] eqn:E; [done|].
    intros [= <-]. apply traverse_error in E as (line & [_ Hl]%list_elem_of_filter & E). apply loads_line_error in E as [?|E]; [by left|].
    right; right. split; [done|]. by exists lines, line.
  - case_decide; [intros [= <-]; left; by eexists|]. case_decide; [|intros [= <-]; left; by eexists]. unfold longbridge_init, require_installed_sdk.
    intros H'. right; left. destruct (negb quote_client && _); [|done]. destruct (negb (credentials_present environ)); [by injection H' as <-; eexists|].
    destruct sdk_installed; [done|]. by injection H' as <-; eexists.
Qed.

Lemma start_engine_spec (rt : Rt) :
  match start_engine environ sdk_installed limit str_other bool_other text_of telemetry rt with
  | Ok e => exists symbols p, resolved rt = Ok symbols /\
      create_provider environ sdk_installed limit (sr_provider_name rt) (sr_replay rt) false = Ok p /\
      (exists w, e = engine_init w p telemetry None) /\ NoDup (watched e) /\ (forall x, x ∈ watched e <-> x ∈ symbols) /\
      Z.of_nat (length (watched e)) <= 10 /\ Forall (fun x => is_valid_symbol x = true) (watched e) /\
      Forall (fun it => wi_enabled it = true) (list_items (en_watchlist e))
  | Err ex => mcp_error ex \/ full_leak rt ex \/ decoder_leak rt ex \/ fixture_leak limit (sr_provider_name rt) (sr_replay rt) (sr_symbols rt) ex
  end.
Proof.
  unfold start_engine. pose proof (create_error (sr_provider_name rt) (sr_replay rt) false) as Ce.
  destruct (create_provider environ sdk_installed limit (sr_provider_name rt) (sr_replay rt) false) as [p|e] eqn:Ep.
  2:{ destruct (Ce e eq_refl) as [[m ->]|[[k ->]|Hd]]; [left; by eexists|left; by eexists|].
      assert (D : decoder_leak rt e) by exact Hd. destruct e; cbn [mbind result_bind]; first [by (right; right; left)|left; by eexists]. }
  cbn [mbind result_bind]. pose proof (resolve_spec str_other bool_other limit (sr_provider_name rt) (sr_replay rt) (sr_symbols rt)) as Rs.
  fold (resolve_of str_other bool_other limit (sr_provider_name rt) (sr_replay rt) (sr_symbols rt)).
  destruct (resolved rt) as [symbols|e] eqn:Er; cbn [mbind result_bind]; [|destruct Rs as [?|?]; [by left|by right; right; right]].
  unfold watchlist_init. cbn [andb mbind result_bind].
  pose proof (add_all_spec symbols (mkWatchlist false 10 false [] None) eq_refl (NoDup_nil_2) (Forall_nil_2 _)) as A.
  destruct (add_all _ symbols) as [w|e]; cbn [mbind result_bind].
  - destruct A as (N & Fr & Hin & Hl). destruct (fresh_items _ Fr) as [Ek En]. exists symbols, p. split; [done|]. split; [done|]. split; [by eexists|].
    assert (Ew : watched (engine_init (S := S) (F := F) (I := Coordinator) w p telemetry None) = (wl_items w).*1) by exact Ek.
    rewrite !Ew, length_fmap. assert (K : forall x, x ∈ (wl_items w).*1 <-> x ∈ symbols) by (intros x; rewrite Hin; cbn; set_solver).
    split_and!; [done|exact K|cbn in Hl; lia| |exact En]. rewrite Forall_forall in Rs |- *. intros x Hx. by apply Rs, K.
  - destruct A as [-> A]. right; left. split; [done|]. exists symbols. split; [done|]. apply (A (remove_dups symbols)); [apply NoDup_remove_dups|].
    intros x. rewrite elem_of_remove_dups. cbn. set_solver.
Qed.

(** C19: Starting fails closed, with the exceptions found.  [start] either puts the runtime in its running state
    over a fresh engine, whose watchlist is the resolved one - without duplicates, at most ten well-formed
    symbols, all enabled - with the facade's event buffer empty; or raises and leaves the runtime as it
    was, but for the telemetry it had already created unless the runtime was running.  What it raises is [McpConfigError], except that a watchlist of more than ten symbols raises
    [WatchlistFullError], and that a replay fixture without lines, a first batch that is not a list of
    rows with a symbol, and an input the decoder refuses by another error escape as they are. *)
Theorem startup_fails_closed (rt : Rt) :
  match start rt with
  | (Ok _, rt') => sr_running rt = false /\ sr_running rt' = true /\ sr_task rt' = Looping /\ sr_telemetry rt' = true /\
      exists e symbols, sr_capabilities rt' = Some (mkCapabilities e default_recent (Some true)) /\ resolved rt = Ok symbols /\
        NoDup (watched e) /\ (forall x, x ∈ watched e <-> x ∈ symbols) /\ Z.of_nat (length (watched e)) <= 10 /\
        Forall (fun x => is_valid_symbol x = true) (watched e) /\ Forall (fun it => wi_enabled it = true) (list_items (en_watchlist e)) /\
        en_states e = ∅ /\ en_intelligence e = None
  | (Err ex, rt') => rt' = (if sr_running rt then rt else hold_telemetry true rt) /\
      (mcp_error ex \/ full_leak rt ex \/ decoder_leak rt ex \/ fixture_leak limit (sr_provider_name rt) (sr_replay rt) (sr_symbols rt) ex)
  end.
Proof.
  unfold start_runtime. destruct (sr_running rt); [split; [done|left; by eexists]|]. pose proof (start_engine_spec rt) as H.
  destruct (start_engine _ _ _ _ _ _ _ rt) as [e|ex]; [|by split]. destruct H as (symbols & p & Er & _ & (w & ->) & H).
  do 4 (split; [done|]). eexists _, symbols. split; [reflexivity|]. split; [done|]. destruct H as (?&?&?&?&?). by split_and!.
Qed.
End standalone.

(** ** Runs *)
Definition calls (ts : list RuntimeTurn) : list Tool := omap (fun t => match t with Call tool => Some tool | Round => None end) ts.

Section runs.
Context {S F : Type} (environ : string -> option string) (sdk_installed : bool) (limit : nat).
Context (create : nat -> Sdk unit) (quote : nat -> list string -> Sdk (list VendorQuote)).
Context (str_other : pyval -> string) (bool_other : pyval -> bool) (text_of : exn -> string).
Context (mono wall : nat -> float) (telemetry : TelemetryRuntime S F).
Context (run_pipeline : Pipeline -> TelemetryRuntime S F -> option MarketFeatures -> MarketFeatures ->
  result (SignalPipelineResult * Pipeline * TelemetryRuntime S F)).
Context (scheduler_policy : SchedulerPolicy).
Context `{!PipelineContract run_pipeline} (fresh_pipeline : pipe_wf pipeline_init).
Context (wall_valid : forall n, valid (wall n) = true) (quotes_valid : forall k l qs, quote k l = Answered qs -> Forall quote_valid qs).
#[local] Instance provider : ProviderContract (market_fetch environ create quote mono wall) :=
  market_contract environ create quote mono wall wall_valid quotes_valid.
Abbreviation Rt := (StandaloneRuntime S F).
Abbreviation Eng := (Engine MarketProvider S F Coordinator).
Abbreviation Caps := (MarketCapabilities MarketProvider S F).
Abbreviation wf := (engine_wf (market_fetch environ create quote mono wall) run_pipeline (S := S) (F := F) (I := Coordinator)).
Abbreviation tick_here := (standalone_tick environ create quote mono wall run_pipeline scheduler_policy).
Abbreviation round := (loop_round environ create quote mono wall run_pipeline scheduler_policy).
Abbreviation turn_of := (run_turn environ create quote mono wall run_pipeline scheduler_policy).
Abbreviation turns_of := (run_turns environ create quote mono wall run_pipeline scheduler_policy).

Lemma seen_wf R (e e' : Eng) : seen R e e' -> wf e -> wf e'.
Proof.
  intros (_ & Hp & _ & Hb & Hs & _ & Hpl & _) [B Wp V L]. split; [by rewrite Hb|by rewrite Hpl|by rewrite Hp|]. intros x. unfold latest_state. rewrite Hs, Hb. apply L.
Qed.

(** The results of a round's tick. *)
Definition results_of (c : Caps) : EngineTickResult := match (tick_here (cp_engine c)).1 with Ok results => results | Err _ => [] end.

Lemma round_runs (c : Caps) : wf (cp_engine c) -> exists wait c', round c = (Ok wait, c') /\ wf (cp_engine c') /\
  en_watchlist (cp_engine c') = en_watchlist (cp_engine c) /\ cp_events c' = buffer_observe_tick (cp_events c) (results_of c) /\
  tr_symbol <$> results_of c = due_now scheduler_policy mono (cp_engine c).
Proof.
  intros W. destruct (tick_runs (market_fetch environ create quote mono wall) market_exhausted unattached_observer default_feature_policy default_warming
    scheduler_policy default_health_policy run_pipeline mono (cp_engine c) W) as (rs & e' & E & W' & Hw & _ & Hd & _).
  unfold results_of, round. unfold tick_of in E. unfold standalone_tick at 2 3. rewrite E. cbn [fst].
  erewrite step_ok; [|unfold core, standalone_tick; by rewrite E]. erewrite step_ok by reflexivity.
  eexists _, _. split; [reflexivity|]. cbn [cp_engine cp_events]. split; [|done].
  exact (seen_wf eq _ _ (peeks_clock eq mono e') W').
Qed.

(** A runtime whose loop lives, over watchlist [w], with the views of [log] published. *)
Definition alive (w : Watchlist) (log : list EventView) (rt : Rt) : Prop :=
  sr_task rt = Looping /\ sr_running rt = true /\
  exists c, sr_capabilities rt = Some c /\ wf (cp_engine c) /\ en_watchlist (cp_engine c) = w /\ cp_events c = mkRecent 200 (last_items 200 log).

Definition log_of (t : RuntimeTurn) (rt : Rt) : list EventView :=
  match t, sr_capabilities rt with Round, Some c => published (results_of c) | _, _ => [] end.
Fixpoint logs_of (ts : list RuntimeTurn) (rt : Rt) : list EventView :=
  match ts with [] => [] | t :: ts => log_of t rt ++ logs_of ts (turn_of t rt).2 end.

Lemma turn_alive t rt w log : alive w log rt ->
  alive w (log ++ log_of t rt) (turn_of t rt).2 /\ (turn_of t rt).1.*1 = calls [t] /\
  Forall (fun a => success a.2 \/ exists code, failure code a.2) (turn_of t rt).1.
Proof.
  intros (Ht & Hr & c & Hc & W & Hw & He). destruct t as [|tool]; unfold log_of; cbn [run_turn]; rewrite Ht || idtac; unfold on_capabilities; rewrite Hc, Hr.
  - set (c0 := mkCapabilities _ _ _). destruct (round_runs c0 W) as (wait & c' & E & W' & Hw' & He' & _). rewrite E.
    change (results_of c) with (results_of c0). split; [|split; [done|constructor]]. cbn [snd].
    split; [done|]. split; [done|]. exists c'. split; [done|]. split; [done|]. split; [by rewrite Hw'|]. rewrite He'. change (cp_events c0) with (cp_events c).
    rewrite He, observe_all; cbn [re_events re_maxlen]; [by rewrite last_items_app|]. rewrite last_items_length. lia.
  - set (c0 := mkCapabilities _ _ _). destruct (answered market_exhausted default_health_policy mono c0 tool) as (v & c' & E & (Sn & Ev & _) & Hv). rewrite E, app_nil_r. cbn [fst snd].
    assert (Sv : success v \/ exists code, failure code v) by (destruct (refusal c0 tool); [right; eexists; apply Hv|by left]).
    split; [|split; [done|apply Forall_cons_2; [exact Sv|constructor]]].
    split; [done|]. split; [done|]. exists c'. split; [done|]. split; [by eapply seen_wf|]. split; [by destruct Sn as [-> _]|]. by rewrite Ev.
Qed.

Lemma turns_alive w ts : forall rt log, alive w log rt ->
  alive w (log ++ logs_of ts rt) (turns_of ts rt).2 /\ (turns_of ts rt).1.*1 = calls ts /\
  Forall (fun a => success a.2 \/ exists code, failure code a.2) (turns_of ts rt).1.
Proof.
  induction ts as [|t ts IH]; intros rt log A; cbn [run_turns logs_of]; [by rewrite app_nil_r|].
  destruct (turn_alive t rt w log A) as (A1 & C1 & F1). destruct (turn_of t rt) as [out rt1]. cbn [fst snd] in *.
  specialize (IH rt1 _ A1). destruct (turns_of ts rt1) as [rest rt2]. cbn [fst snd] in *. destruct IH as (A2 & C2 & F2).
  rewrite app_assoc. split; [done|]. split; [|by apply Forall_app]. rewrite fmap_app, C1, C2. unfold calls. by destruct t.
Qed.

Abbreviation start := (start_runtime environ sdk_installed limit str_other bool_other text_of telemetry).
Abbreviation serve := (serve_mcp environ sdk_installed limit create quote str_other bool_other text_of mono wall telemetry run_pipeline scheduler_policy).
Lemma start_alive (rt rt' : Rt) : start rt = (Ok tt, rt') -> exists w, alive w [] rt'.
Proof.
  unfold start_runtime. destruct (sr_running rt); [done|].
  pose proof (start_engine_spec environ sdk_installed limit str_other bool_other text_of telemetry rt) as H.
  destruct (start_engine _ _ _ _ _ _ _ rt) as [e|ex]; [|done]. destruct H as (symbols & p & _ & Hp & (w & ->) & _). intros [= <-].
  exists w. split; [done|]. split; [done|]. eexists. split; [reflexivity|]. split; [|done]. apply engine_init_wf; [done|]. cbn.
  unfold create_provider in Hp. case_decide; [injection Hp as <-; intros ? ?; cbn; by rewrite lookup_empty|]. case_decide.
  - destruct (sr_replay rt) as [lines|] eqn:Er; [|done]. unfold replay_init in Hp. destruct (loads_lines limit lines) as [ticks|] eqn:El; [|done].
    injection Hp as <-. by eapply loads_lines_valid.
  - case_decide; [done|]. case_decide; [|done]. by destruct (longbridge_init _ _ _ _); [injection Hp as <-|].
Qed.

Lemma start_failed (rt : Rt) ex rt' : start rt = (Err ex, rt') -> rt' = (if sr_running rt then rt else hold_telemetry true rt).
Proof. unfold start_runtime. destruct (sr_running rt); [by intros [= _ <-]|]. destruct (start_engine _ _ _ _ _ _ _ rt); [done|by intros [= _ <-]]. Qed.

(** C17: The standalone server is safe.  Over a vendor SDK whose quotes are Python values and a pipeline that keeps its
    contract, for every sequence of loop rounds and of tool calls the schema lets through (Capabilities.serve_call), after a
    start that succeeds: the tick loop never
    dies, the engine's invariant holds to the end, every call is answered in order by an envelope, the
    event buffer holds exactly the last 200 events accepted by the rounds, and the server stops and gives up its
    telemetry; from then on every tool answers [not_running].  A start that raises leaves the runtime as it
    was, but for the telemetry it had created. *)
Theorem standalone_safe ts (rt : Rt) :
  match serve ts rt with
  | (Ok out, rt') => out.*1 = calls ts /\ Forall (fun a => success a.2 \/ exists code, failure code a.2) out /\
      sr_running rt' = false /\ sr_task rt' = NoTask /\ sr_telemetry rt' = false /\
      (exists c, sr_capabilities rt' = Some c /\ wf (cp_engine c) /\ re_events (cp_events c) = last_items 200 (logs_of ts (start rt).2)) /\
      (forall tool, exists v rt2, on_capabilities (call_tool market_exhausted default_health_policy mono tool) rt' = (Ok v, rt2) /\
         failure Capability.NOT_RUNNING v)
  | (Err ex, rt') => rt' = (if sr_running rt then rt else hold_telemetry true rt) /\ (start rt).1 = Err ex
  end.
Proof.
  unfold serve. pose proof (start_alive rt) as Sa. pose proof (start_failed rt) as So.
  destruct (start rt) as [[[]|ex] rt1]; [|by rewrite (So ex rt1)]. destruct (Sa rt1 eq_refl) as [w A]. cbn [snd].
  destruct (turns_alive w ts rt1 [] A) as (A2 & C2 & F2). destruct (turns_of ts rt1) as [out rt2]. cbn [fst snd app] in *.
  destruct A2 as (Ht & _ & c & Hc & W & Hw & He). unfold stop_runtime. rewrite Ht. do 5 (split; [done|]). split.
  - exists c. split; [done|]. split; [done|]. by rewrite He.
  - intros tool. unfold on_capabilities, hold_telemetry, set_task. cbn [sr_capabilities sr_running]. rewrite Hc.
    set (c0 := mkCapabilities _ _ _). destruct (answered market_exhausted default_health_policy mono c0 tool) as (v & c' & -> & _ & Hv).
    assert (R : refusal c0 tool = Some Capability.NOT_RUNNING) by (unfold refusal; by rewrite bool_decide_true).
    rewrite R in Hv. eexists _, _. split; [reflexivity|]. apply Hv.
Qed.
End runs.

(** ** Witnesses *)
Definition mcp_pipeline := engine_pipeline (S := unit) (F := unit) noop_record (fun _ => "id") (fun _ => f0) demo_ids demo_ids (fun _ => f0) (fun _ => f0)
  (fun _ => f0) CLUSTER_LOOKBACK_S DEFAULT_COOLDOWN_S.
#[export] Instance mcp_contract : PipelineContract mcp_pipeline :=
  engine_pipeline_contract (S := unit) (F := unit) noop_record (fun _ => "id") (fun _ => f0) demo_ids demo_ids (fun _ => f0) (fun _ => f0) (fun _ => f0)
    CLUSTER_LOOKBACK_S DEFAULT_COOLDOWN_S demo_ids_inj demo_ids_inj (proj1 lookback_fin) (proj2 lookback_fin).

Definition no_sdk (k : nat) : Sdk unit := Providers.Raised SdkTimeout.
Definition no_quotes (k : nat) (symbols : list string) : Sdk (list VendorQuote) := Answered [].
Definition standalone (symbols : list string) (replay : option (list string)) : StandaloneRuntime unit unit :=
  mkStandalone (match replay with Some _ => "replay" | None => "fake" end) replay symbols None false NoTask false.
Definition start_demo := start_runtime (F := unit) (fun _ => None) false 100 (fun _ => "") (fun _ => true) (fun _ => "") mcp_telemetry.

(** More than ten symbols; an empty fixture; a batch that is no list of rows. *)
Definition eleven : list string := (fun c => String c "1.SH") <$> list_ascii_of_string "abcdefghijk".
Example start_examples :
  (start_demo (standalone eleven None)).1 = Err (WatchlistFullError "watchlist limit") /\
  (start_demo (standalone [] (Some []))).1 = Err IndexError /\
  (start_demo (standalone [] (Some ["[{}]"]))).1 = Err KeyError /\
  (start_demo (standalone [] (Some ["3"]))).1 = Err TypeError /\
  (start_demo (standalone [] None)).1 = Ok tt.
Proof. by vm_compute. Qed.

Definition demo_turns : list RuntimeTurn :=
  [Call GetMarketState; Round; Call (GetSymbolState (PyStr "600519.SH")); Call (GetSignal (PyStr "x")); Call (GetRecentEvents PyNone (PyInt 0))].
Definition demo_serve := serve_mcp (F := unit) (fun _ => None) false 100 no_sdk no_quotes (fun _ => "") (fun _ => true) (fun _ => "") noon noon mcp_telemetry
  mcp_pipeline default_scheduler_policy demo_turns (standalone [] None).
Definition envelope_ok (v : json) : bool := match v with JObj ((_, JBool b) :: _) => b | _ => false end.
Lemma demo_serve_runs : match demo_serve.1 with Ok out => map (fun a => envelope_ok a.2) out | Err _ => [] end = [true; true; false; false].
Proof. vm_compute. reflexivity. Qed.

Lemma standalone_safe_witness : exists out rt', demo_serve = (Ok out, rt') /\ out.*1 = calls demo_turns /\ sr_running rt' = false.
Proof.
  pose proof demo_serve_runs as R. pose proof (standalone_safe (fun _ => None) false 100 no_sdk no_quotes (fun _ => "") (fun _ => true) (fun _ => "") noon noon
    mcp_telemetry mcp_pipeline default_scheduler_policy (pipeline_init_wf demo_ids demo_ids) ltac:(intros n; vm_compute; reflexivity) ltac:(intros k l qs [= <-]; constructor)
    demo_turns (standalone [] None)) as H.
  unfold demo_serve in *. destruct (serve_mcp _ _ _ _ _ _ _ _ _ _ _ _ _ _ _) as [[out|ex] rt']; [|done].
  exists out, rt'. split; [done|]. destruct H as (H1 & _ & H2 & _). by split.
Defined.
