(* ===== verification/Doctor.v ===== *)
(** * The doctor command (src/market_sentinel/cli/doctor.py)

    The checks of the local environment, their report and the exit code.  What a check looks at
    enters as [Probes]: the interpreter, the importable modules, the environment variables, the
    texts of the configuration files and two predicates on directories.  Paths are POSIX paths;
    a printed line is an element of the output. *)
From Stdlib Require Import ZArith Lia Ascii String.
From stdpp Require Import prelude strings gmap.
From S2P Require Import Prelude PyFloat Normalizer NumberText Json PyText Jsonl Wire Providers Intelligence Sidecar.
Local Open Scope Z_scope.

(** ** Paths *)
(** Whether it starts at the root, and its parts, the last one first. *)
Record Path := mkPath { path_root : bool; path_rev : list string }.
(** [base / text] *)
Definition joinpath (base : Path) (text : string) : Path :=
  let parts := filter (fun p => p <> "" /\ p <> ".") (split_on SLASH text) in
  if starts_with "/" text then mkPath true (rev parts) else mkPath (path_root base) (rev parts ++ path_rev base).
Definition path_of (parts : list string) : Path := foldl joinpath (mkPath false []) parts.
Definition parent (p : Path) : Path := mkPath (path_root p) (tail (path_rev p)).
Definition path_str (p : Path) : string :=
  if path_root p then "/" +:+ join "/" (rev (path_rev p)) else if decide (path_rev p = []) then "." else join "/" (rev (path_rev p)).
Example path_ex : path_str <$> [path_of ["/home/u"; ".local"; "share"]; path_of ["a//b/./c/"]; parent (path_of ["a"]); path_of ["x"; "/y"]; parent (path_of ["/"])]
  = ["/home/u/.local/share"; "a/b/c"; "."; "/y"; "/"].
Proof. vm_compute. reflexivity. Qed.

(** ** The checks *)
Definition OK : string := "✓".
Definition WARN : string := "⚠".
Definition FAIL : string := "✗".
Definition INFO : string := "-".
Definition PYTHON_MIN : Z * Z := (3, 12).

Record Check := mkCheck { ck_status : string; ck_label : string; ck_detail : string }.

(** A configuration file: not there, there but unreadable, or its text. *)
Inductive ConfigFile := NoFile | Unreadable | FileText (text : string).
Record Probes := mkProbes {
  pr_version : string;               (* [sys.version.split()[0]] *)
  pr_version_info : Z * Z;
  pr_uv : option string;             (* [shutil.which("uv")] *)
  pr_distribution : option string;   (* the version of the installed package *)
  pr_in_venv : bool;
  pr_importable : string -> bool;
  pr_environ : string -> option string;
  pr_fixtures : option string;       (* the name of the fixture directory, if it is one *)
  pr_zcode : list (string * ConfigFile);
  pr_home : list string;
  pr_is_dir : Path -> bool;
  pr_writable : Path -> bool
}.

Section doctor.
Context (limit : nat) (pr : Probes).

Definition check_python : list Check :=
  let detail := pr_version pr +:+ " (>= " +:+ int_repr PYTHON_MIN.1 +:+ "." +:+ int_repr PYTHON_MIN.2 +:+ " required)" in
  let '(major, minor) := pr_version_info pr in
  if (PYTHON_MIN.1 <? major) || ((major =? PYTHON_MIN.1) && (PYTHON_MIN.2 <=? minor)) then [mkCheck OK "Python" detail] else [mkCheck FAIL "Python" detail].

Definition check_uv : list Check :=
  match pr_uv pr with
  | None => [mkCheck WARN "uv" "not on PATH; documented commands assume `uv run`"]
  | Some uv => [mkCheck OK "uv" uv]
  end.

Definition check_package : list Check :=
  match pr_distribution pr with
  | None => [mkCheck FAIL "package" "market-sentinel not installed; run `uv sync`"]
  | Some version =>
      let detail := "market-sentinel " +:+ version +:+ " (protocol " +:+ int_repr PROTOCOL_VERSION +:+ ")" in
      [mkCheck OK "package" (detail +:+ if pr_in_venv pr then "; virtualenv active" else "; no virtualenv detected")]
  end.

Definition check_optional_live_deps : list Check :=
  let missing := filter (fun name => pr_importable pr name = false) ["httpx"; "longbridge"] in
  if decide (missing = []) then [mkCheck OK "live dependencies" "httpx and longbridge importable"]
  else [mkCheck WARN "live dependencies" ("not installed: " +:+ join ", " missing +:+ " (optional; `uv sync --extra live`)")].

Definition check_providers : list Check :=
  let missing := missing_credential_names (pr_environ pr) in
  [mkCheck OK "provider fake" "default, no configuration";
   match pr_fixtures pr with
   | Some name => mkCheck OK "provider replay" ("fixture corpus found: " +:+ name +:+ "/")
   | None => mkCheck INFO "provider replay" "offline tuning/replay corpus ships with the repository checkout; installed package still supports --replay <file> and --fixture"
   end;
   if decide (missing = []) then mkCheck OK "provider longbridge" "credentials present in environment"
   else mkCheck WARN "provider longbridge" ("credentials not set: " +:+ join ", " missing +:+ " (optional live provider)");
   mkCheck INFO "provider http" "intentional stub; use fake, replay, or longbridge"].

Definition check_intelligence : result (list Check) :=
  settings ← load_model_settings (pr_environ pr);
  let state := if intelligence_flag (pr_environ pr) then "enabled" else "disabled (default)" in
  Ok [mkCheck OK "intelligence" (state +:+ "; provider " +:+ ms_provider settings +:+ ", model " +:+ ms_model settings);
      if decide (environ_get (pr_environ pr) (ms_api_key_env settings) "" = "")
      then mkCheck WARN "intelligence key" (ms_api_key_env settings +:+ " not set; live model calls unavailable (fail-open to rules-only)")
      else mkCheck OK "intelligence key" (ms_api_key_env settings +:+ " is set")].

Definition check_mcp_extra : list Check :=
  if pr_importable pr "mcp" then [mkCheck OK "mcp extra" "installed; serve tools with `market-sentinel mcp`"]
  else [mkCheck WARN "mcp extra" "not installed (optional; `uv sync --extra mcp`)"].

(** [bool(value)] *)
Definition truthy (v : json) : bool :=
  match v with
  | JNull => false
  | JBool b => b
  | JInt n => negb (n =? 0)
  | JFloat x => negb (feq x f0)
  | JStr s => negb (bool_decide (s = ""))
  | JList l => match l with [] => false | _ => true end
  | JObj ms => match ms with [] => false | _ => true end
  end.
(** [name in servers] *)
Definition is_in (name : string) (servers : json) : result bool :=
  match servers with
  | JObj ms => Ok (bool_decide (is_Some (od_get name ms)))
  | JList l => Ok (existsb (fun v => bool_decide (as_str v = Some name)) l)
  | JStr s => Ok (contains name s)
  | _ => Err TypeError
  end.
(** [value.get(key)] *)
Definition get_member (v : json) (key : string) : result (option json) :=
  match v with JObj ms => Ok (od_get key ms) | _ => Err AttributeError end.
(** [data.get("mcp", {}).get("servers") or data.get("mcpServers") or {}] *)
Definition servers_of (data : json) : result json :=
  mcp ← get_member data "mcp";
  servers ← get_member (default (JObj []) mcp) "servers";
  fallback ← get_member data "mcpServers";
  Ok (if truthy (default JNull servers) then default JNull servers else if truthy (default JNull fallback) then default JNull fallback else JObj []).

Definition file_registers (file : ConfigFile) : result bool :=
  match file with
  | NoFile | Unreadable => Ok false
  | FileText text =>
      match loads limit text with
      | Parsed data => servers ← servers_of data; is_in "market-sentinel" servers
      | JSONDecodeError => Ok false
      | LoadsRaises (ValueError _) => Ok false
      | LoadsRaises e => Err e
      end
  end.
Fixpoint registered_zcode_scope (paths : list (string * ConfigFile)) : result (option string) :=
  match paths with
  | [] => Ok None
  | (scope, file) :: paths => registers ← file_registers file; if registers : bool then Ok (Some scope) else registered_zcode_scope paths
  end.
Definition check_zcode_registration : result (list Check) :=
  scope ← registered_zcode_scope (pr_zcode pr);
  Ok [match scope with
      | Some scope => mkCheck OK "ZCode integration" ("market-sentinel server registered (" +:+ scope +:+ "); host connection is verified in a live session")
      | None => mkCheck WARN "ZCode integration" "not registered; see docs/integrations/zcode.md for setup"
      end].

Fixpoint ancestor_from (root : bool) (rev_parts : list string) : Path :=
  let current := mkPath root rev_parts in
  if pr_is_dir pr current then current else match rev_parts with [] => current | _ :: rest => ancestor_from root rest end.
Definition first_existing_ancestor (p : Path) : Path := ancestor_from (path_root p) (path_rev p).

Definition data_dir : Path := path_of (resolve_data_dir (pr_environ pr) false (pr_home pr) None).
Definition check_telemetry_dir : list Check :=
  if pr_is_dir pr data_dir then
    if pr_writable pr data_dir then [mkCheck OK "telemetry directory" ("writable: " +:+ path_str data_dir)]
    else [mkCheck FAIL "telemetry directory" ("not writable: " +:+ path_str data_dir)]
  else
    let ancestor := first_existing_ancestor data_dir in
    if pr_is_dir pr ancestor && pr_writable pr ancestor then [mkCheck OK "telemetry directory" ("creatable on first run: " +:+ path_str data_dir)]
    else [mkCheck FAIL "telemetry directory" ("no writable ancestor found for: " +:+ path_str data_dir +:+ " (checked up to " +:+ path_str ancestor +:+ ")")].

Definition doctor_checks : result (list Check) :=
  intelligence ← check_intelligence;
  zcode ← check_zcode_registration;
  Ok (check_python ++ check_uv ++ check_package ++ check_optional_live_deps ++ check_providers ++ intelligence ++ check_mcp_extra
      ++ check_telemetry_dir ++ [mkCheck INFO "DeepSeek Harness integration" "not implemented (planned milestone M5)"] ++ zcode).

Definition has_failed (checks : list Check) : bool := existsb (fun c => bool_decide (ck_status c = FAIL)) checks.
Definition check_json (c : Check) : json := JObj [("status", JStr (ck_status c)); ("check", JStr (ck_label c)); ("detail", JStr (ck_detail c))].
Definition doctor_json (checks : list Check) : json := JObj [("ok", JBool (negb (has_failed checks))); ("checks", JList (check_json <$> checks))].
Definition check_line (c : Check) : string :=
  ck_status c +:+ " " +:+ ck_label c +:+ (if decide (ck_detail c = "") then "" else ": " +:+ ck_detail c).

(** The exit code and the printed lines. *)
Definition run_doctor (as_json : bool) : result (Z * list string) :=
  checks ← doctor_checks;
  out ← if as_json then text ← dumps (indented 2) (doctor_json checks); Ok [text] else Ok (check_line <$> checks);
  Ok (if has_failed checks then 1 else 0, out).
End doctor.

(** * What doctor finds *)
(** The nearest existing directory, the path itself first, is writable. *)
Definition up (k : nat) (p : Path) : Path := Nat.iter k parent p.
Definition usable (is_dir writable : Path -> bool) (p : Path) : Prop :=
  exists k, is_dir (up k p) = true /\ writable (up k p) = true /\ forall j, (j < k)%nat -> is_dir (up j p) = false.

Definition healthy (pr : Probes) : Prop :=
  (PYTHON_MIN.1 < (pr_version_info pr).1 \/ (pr_version_info pr).1 = PYTHON_MIN.1 /\ PYTHON_MIN.2 <= (pr_version_info pr).2) /\
  is_Some (pr_distribution pr) /\ usable (pr_is_dir pr) (pr_writable pr) (data_dir pr).

Definition is_object (v : json) : bool := match v with JObj _ => true | _ => false end.
(** A configuration doctor cannot read, by the exception it raises. *)
Inductive bad_config (limit : nat) (text : string) : exn -> Prop :=
  | config_deep : loads limit text = LoadsRaises (RuntimeError "RecursionError") -> bad_config limit text (RuntimeError "RecursionError")
  | config_not_object v : loads limit text = Parsed v -> is_object v = false -> bad_config limit text AttributeError
  | config_mcp_not_object ms v : loads limit text = Parsed (JObj ms) -> od_get "mcp" ms = Some v -> is_object v = false ->
      bad_config limit text AttributeError
  | config_servers_scalar v s : loads limit text = Parsed v -> servers_of v = Ok s ->
      (exists b, s = JBool b) \/ (exists n, s = JInt n) \/ (exists x, s = JFloat x) -> bad_config limit text TypeError.

Lemma up_down k p : up (S k) p = up k (parent p).
Proof. apply Nat.iter_succ_r. Qed.
Lemma ancestor_spec pr root rest : let p := mkPath root rest in let a := ancestor_from pr root rest in
  exists k, a = up k p /\ (forall j, (j < k)%nat -> pr_is_dir pr (up j p) = false) /\
    (pr_is_dir pr a = true \/ forall j, pr_is_dir pr (up j p) = false).
Proof.
  cbv zeta. induction rest as [|x rest (k & Ek & Hk & Hd)]; cbn [ancestor_from]; destruct (pr_is_dir pr (mkPath root _)) eqn:D;
    try (exists 0%nat; split; [done|]; split; [lia|]; by left).
  - exists 0%nat. split; [done|]. split; [lia|]. right. intros j. assert (up j (mkPath root []) = mkPath root []) as ->; [|done].
    induction j as [|j IH]; [done|]. by rewrite up_down.
  - exists (S k). rewrite up_down. split; [done|]. split.
    + intros [|j] Hj; [done|]. rewrite up_down. apply Hk. lia.
    + destruct Hd as [Hd|Hd]; [by left|right]. intros [|j]; [done|]. rewrite up_down. apply Hd.
Qed.
Lemma ancestor_usable pr p : usable (pr_is_dir pr) (pr_writable pr) p <->
  pr_is_dir pr (first_existing_ancestor pr p) && pr_writable pr (first_existing_ancestor pr p) = true.
Proof.
  destruct p as [root rest]. unfold first_existing_ancestor. cbn [path_root path_rev].
  destruct (ancestor_spec pr root rest) as (k & -> & Hk & Hd). rewrite andb_true_iff. split.
  - intros (n & D & W & Hn). destruct Hd as [Hd|Hd]; [|by rewrite Hd in D]. destruct (lt_eq_lt_dec n k) as [[L| ->]|L]; [by rewrite Hk in D|done|].
    by rewrite Hn in Hd.
  - intros [D W]. by exists k.
Qed.

Lemma has_failed_app a b : has_failed (a ++ b) = has_failed a || has_failed b.
Proof. apply existsb_app. Qed.
Lemma python_failed pr : has_failed (check_python pr) = false <->
  PYTHON_MIN.1 < (pr_version_info pr).1 \/ (pr_version_info pr).1 = PYTHON_MIN.1 /\ PYTHON_MIN.2 <= (pr_version_info pr).2.
Proof. unfold check_python. destruct (pr_version_info pr) as [major minor]. cbn [PYTHON_MIN fst snd]. repeat (case_match; cbn); split; intros; try done; lia. Qed.
Lemma package_failed pr : has_failed (check_package pr) = false <-> is_Some (pr_distribution pr).
Proof. unfold check_package. by destruct (pr_distribution pr). Qed.
Lemma telemetry_failed pr : has_failed (check_telemetry_dir pr) = false <-> usable (pr_is_dir pr) (pr_writable pr) (data_dir pr).
Proof.
  rewrite ancestor_usable. unfold check_telemetry_dir. destruct (pr_is_dir pr (data_dir pr)) eqn:D.
  - assert (first_existing_ancestor pr (data_dir pr) = data_dir pr) as ->.
    { revert D. unfold first_existing_ancestor. destruct (data_dir pr) as [root [|x rest]]; cbn; by intros ->. }
    rewrite D. by destruct (pr_writable pr (data_dir pr)).
  - by destruct (pr_is_dir pr (first_existing_ancestor pr _) && _).
Qed.
Lemma optional_never_fails pr : has_failed (check_uv pr) = false /\ has_failed (check_optional_live_deps pr) = false /\
  has_failed (check_providers pr) = false /\ has_failed (check_mcp_extra pr) = false.
Proof.
  unfold check_uv, check_optional_live_deps, check_providers, check_mcp_extra. split; [by destruct (pr_uv pr)|]. split; [by case_decide|].
  split; [|by destruct (pr_importable pr "mcp")]. destruct (pr_fixtures pr); by case_decide.
Qed.

Lemma intelligence_spec pr : match check_intelligence pr with
  | Ok l => numbers_ok (pr_environ pr) /\ has_failed l = false
  | Err e => ~ numbers_ok (pr_environ pr) /\ exists m, e = ValueError m
  end.
Proof.
  unfold check_intelligence. pose proof (load_settings_spec (pr_environ pr)) as L. destruct (load_model_settings _) as [s|e]; [|done].
  split; [apply L|]. cbn [mbind result_bind]. by case_decide.
Qed.

Lemma file_registers_error limit file e : file_registers limit file = Err e -> exists text, file = FileText text /\ bad_config limit text e.
Proof.
  destruct file as [| |text]; [done..|]. cbn [file_registers]. intros H. exists text. split; [done|]. destruct (loads limit text) as [v| |x] eqn:L; [|done|].
  - destruct (servers_of v) as [s|y] eqn:S; cbn [mbind result_bind] in H.
    + destruct s; try done; injection H as <-; eapply config_servers_scalar; eauto.
      exfalso. unfold servers_of in S. destruct (get_member v "mcp") as [m|]; [|done]. cbn [mbind result_bind] in S.
      destruct (get_member _ "servers") as [a|]; [|done]. cbn [mbind result_bind] in S. destruct (get_member v "mcpServers") as [b|]; [|done].
      cbn [mbind result_bind] in S. destruct (truthy (default JNull a)) eqn:A; [injection S as S; by rewrite S in A|].
      destruct (truthy (default JNull b)) eqn:B; [injection S as S; by rewrite S in B|done].
    + injection H as <-. destruct v as [| | | | | |ms]; try (injection S as <-; by eapply config_not_object).
      unfold servers_of in S. cbn [get_member mbind result_bind] in S. destruct (od_get "mcp" ms) as [m|] eqn:M; [|done].
      destruct m; try done; injection S as <-; by eapply config_mcp_not_object.
  - pose proof (loads_raises _ _ _ L) as [-> | ->]; [done|]. injection H as <-. by apply config_deep.
Qed.
Lemma scope_error limit paths e : registered_zcode_scope limit paths = Err e -> exists scope text, (scope, FileText text) ∈ paths /\ bad_config limit text e.
Proof.
  induction paths as [|[scope file] paths IH]; [done|]. cbn [registered_zcode_scope]. destruct (file_registers limit file) as [b|x] eqn:E.
  - cbn [mbind result_bind]. destruct b; [done|]. intros (s & t & H & B)%IH. exists s, t. split; [by right|done].
  - cbn [mbind result_bind]. intros [= <-]. apply file_registers_error in E as (t & -> & B). exists scope, t. split; [left|done].
Qed.

Lemma checks_spec limit pr : match doctor_checks limit pr with
  | Ok checks => numbers_ok (pr_environ pr) /\ (has_failed checks = false <-> healthy pr)
  | Err e => ~ numbers_ok (pr_environ pr) /\ (exists m, e = ValueError m) \/
      numbers_ok (pr_environ pr) /\ exists scope text, (scope, FileText text) ∈ pr_zcode pr /\ bad_config limit text e
  end.
Proof.
  unfold doctor_checks. pose proof (intelligence_spec pr) as I. destruct (check_intelligence pr) as [l|e]; cbn [mbind result_bind]; [|by left].
  unfold check_zcode_registration. destruct (registered_zcode_scope limit (pr_zcode pr)) as [scope|e] eqn:E; cbn [mbind result_bind].
  2:{ right. split; [apply I|by apply scope_error]. }
  destruct I as [I1 I2]. split; [done|]. destruct (optional_never_fails pr) as (H1 & H2 & H3 & H4).
  rewrite !has_failed_app, H1, H2, H3, H4, I2. unfold healthy. rewrite <- python_failed, <- package_failed, <- telemetry_failed.
  destruct scope; cbn [has_failed existsb]; rewrite !bool_decide_false by done; rewrite !orb_false_r, !orb_false_iff; cbn; tauto.
Qed.

Lemma doctor_fits d checks : (3 <= d)%nat -> fits d (doctor_json checks) = true.
Proof.
  intros Hd. destruct d as [|[|[|d]]]; [lia..|]. unfold doctor_json. cbn [fits fmap list_fmap fst snd forallb]. rewrite bool_decide_true by by apply (bool_decide_unpack _).
  cbn. rewrite andb_true_r. by induction checks.
Qed.

(** C26: Doctor reports what it finds, and its exit code says so: the code is 0 exactly when the interpreter is
    recent enough, the package is installed, and the telemetry directory - or, if it does not exist yet, the
    nearest of its ancestors that does - is writable; everything optional can only warn.  With [--json] one text
    is printed, which parses back to the checks.  It raises only when a numeric setting of the sidecar does not
    parse, which the daemon survives without a sidecar, or when a configuration file has a shape it does not
    expect. *)
Theorem doctor_reports limit pr as_json : (3 <= limit)%nat ->
  match run_doctor limit pr as_json with
  | Ok (code, out) => numbers_ok (pr_environ pr) /\ (code = 0 /\ healthy pr \/ code = 1 /\ ~ healthy pr) /\
      exists checks, doctor_checks limit pr = Ok checks /\
        if as_json then exists text, out = [text] /\ loads limit text = Parsed (doctor_json checks) else out = check_line <$> checks
  | Err e => ~ numbers_ok (pr_environ pr) /\ (exists m, e = ValueError m) \/
      numbers_ok (pr_environ pr) /\ exists scope text, (scope, FileText text) ∈ pr_zcode pr /\ bad_config limit text e
  end.
Proof.
  intros Hl. unfold run_doctor. pose proof (checks_spec limit pr) as C. destruct (doctor_checks limit pr) as [checks|e]; cbn [mbind result_bind]; [|done].
  destruct C as [Hn C]. destruct (loads_dumps (indented 2) limit _ (indented_ok 2) (doctor_fits limit checks Hl)) as (text & E & L).
  assert (K : forall out : list string, (if as_json then exists text, out = [text] /\ loads limit text = Parsed (doctor_json checks) else out = check_line <$> checks) ->
    numbers_ok (pr_environ pr) /\ ((if has_failed checks then 1 else 0) = 0 /\ healthy pr \/ (if has_failed checks then 1 else 0) = 1 /\ ~ healthy pr) /\
    exists cs, Ok checks = Ok cs /\ if as_json then exists text, out = [text] /\ loads limit text = Parsed (doctor_json cs) else out = check_line <$> cs).
  { intros out Ho. split; [done|]. split; [|by exists checks]. destruct (has_failed checks); [right|left]; (split; [done|]); [|by apply C].
    intros H%C. done. }
  destruct as_json; [rewrite E; cbn [mbind result_bind]|]; apply K; [by exists text|done].
Qed.

Definition demo_probes : Probes :=
  mkProbes "3.12.4" (3, 12) None (Some "0.4.0") true (fun _ => false) demo_env None [("user config", NoFile); ("workspace config", FileText "{}")] ["/home/u"]
    (fun p => bool_decide (path_str p = "/home/u")) (fun _ => true).
Lemma doctor_reports_witness : exists out, run_doctor 10 demo_probes true = Ok (0, out) /\ numbers_ok (pr_environ demo_probes).
Proof.
  pose proof (doctor_reports 10 demo_probes true ltac:(lia)) as D. assert (E : exists out, run_doctor 10 demo_probes true = Ok (0, out)) by (eexists; vm_compute; reflexivity).
  destruct E as [out E]. exists out. rewrite E in D. split; [exact E|exact (proj1 D)].
Defined.
