(* ===== verification/Display.v ===== *)
(** * The terminal dashboard (src/market_sentinel/cli/display.py)

    The lines the [run] command prints for the states of the watched symbols after a tick.
    [datetime.strftime] writes the year with four digits, as it does from the year 1000 on. *)
From Stdlib Require Import ZArith Lia Ascii String.
From Corelib Require Import SpecFloat.
From stdpp Require Import prelude strings gmap.
From S2P Require Import Prelude PyFloat Domain Normalizer NumberText Json PyText Session Features Cluster Engine.
Local Open Scope Z_scope.

(** ** Numbers *)
Definition NA : string := "N/A".
(** The last [k] decimal digits of [n]. *)
Fixpoint last_digits (k : nat) (n : Z) (acc : string) : string :=
  match k with O => acc | S k => last_digits k (n / 10) (String (digit (n mod 10)) acc) end.
(** [format(x, ".kf")], the exact binary value rounded half to even. *)
Definition fixed (k : nat) (x : float) : string :=
  let digits (n : Z) : string := int_repr (n / 10 ^ Z.of_nat k) +:+ "." +:+ last_digits k n "" in
  match x with
  | S754_nan => "nan"
  | S754_infinity s => (if s then "-" else "") +:+ "inf"
  | S754_zero s => (if s then "-" else "") +:+ digits 0
  | S754_finite s m e => (if s then "-" else "") +:+ digits (if 0 <=? e then Zpos m * 2 ^ e * 10 ^ Z.of_nat k else rne (Zpos m * 10 ^ Z.of_nat k) (- e))
  end.
Example fixed_ex : fixed 1 (flit 7049 2) = "70.5" /\ fixed 1 (flit 25 2) = "0.2" /\ fixed 3 (fneg (flit 17000005 4)) = "-1700.001" /\ fixed 3 f0 = "0.000".
Proof. by vm_compute. Qed.

Definition shown_with (f : float -> string) (o : option float) : string := match o with Some x => f x | None => NA end.
Definition format_percent : option float -> string := shown_with (fun x => fixed2 true (fmul x hundred) +:+ "%").
Definition format_ratio : option float -> string := shown_with (fun x => fixed2 false x +:+ "x").
Definition format_price : option float -> string := shown_with (fixed2 false).
Definition format_seconds : option float -> string := shown_with (fun x => fixed2 false x +:+ "s").
Definition format_rsi : option float -> string := shown_with (fixed 1).

Definition utc_us (x : float) : result Z :=
  '(sec, us) ← timeval x;
  if (sec <? min_utc_s) || (end_utc_s <=? sec) then Err (ValueError "year is out of range") else Ok (sec * 1000000 + us).
Definition format_updated (wall_time : float) : result string :=
  us ← utc_us wall_time;
  let s := us / 1000000 mod 86400 in
  Ok (isoformat (us / day_us) +:+ " " +:+ pad2 (s / 3600) +:+ ":" +:+ pad2 (s / 60 mod 60) +:+ ":" +:+ pad2 (s mod 60) +:+ " UTC").
Example format_updated_ex : format_updated (flit 1753263000 0) = Ok "2025-07-23 09:30:00 UTC".
Proof. vm_compute. reflexivity. Qed.

(** [Enum.name] *)
Definition format_direction (d : EventDirection) : string := match d with UP => "UP" | DOWN => "DOWN" | NONE => "NONE" end.
Definition format_priority (p : SignalPriority) : string :=
  match p with INFO => "INFO" | NOTICE => "NOTICE" | IMPORTANT => "IMPORTANT" | CRITICAL => "CRITICAL" end.
Definition format_position (above_vwap : option bool) : string :=
  match above_vwap with None => NA | Some b => if b : bool then "ABOVE" else "BELOW" end.

(** ** Lines *)
Definition SEP : string := "============================================================".
Definition SUB : string := "------------------------------------------------------------".
Definition LABEL : nat := 12.
Definition field (label value : string) : string := label +:+ spaces (LABEL - String.length label) +:+ " " +:+ value.

Definition verbose_persistent (state : MarketState) (tick : option SymbolTickResult) : list string :=
  [""] ++
  [match tick with
   | None => "Scheduler: " +:+ level_value (ms_level state)
   | Some t => "Scheduler: " +:+ level_value (tr_level_before t) +:+ " -> " +:+ level_value (tr_level_after t)
   end] ++
  match (match ms_features state with
         | Some f => Some (ft_market_ts f, ft_received_ts f)
         | None => (fun s => (sn_market_ts s, sn_received_ts s)) <$> ms_latest state
         end) with
  | None => ["market_timestamp " +:+ NA; "received_timestamp " +:+ NA]
  | Some (market, received) => ["market_timestamp " +:+ fixed 3 market; "received_timestamp " +:+ fixed 3 received]
  end.

Definition render_persistent_state (state : MarketState) (tick : option SymbolTickResult) (verbose : bool) : list string :=
  let feature (f : MarketFeatures -> option float) := ms_features state ≫= f in
  [field "Price" (format_price (sn_price <$> ms_latest state));
   field "1m" (format_percent (feature change_1m));
   field "5m" (format_percent (feature change_5m));
   field "15m" (format_percent (feature change_15m));
   "";
   field "Volume 1m" (format_ratio (feature volume_ratio_1m));
   field "Volume 5m" (format_ratio (feature volume_ratio_5m));
   "";
   field "VWAP" (format_price (feature vwap));
   field "Position" (format_position (ms_features state ≫= above_vwap));
   field "EMA5" (format_price (feature ema5));
   field "EMA20" (format_price (feature ema20));
   field "RSI14" (format_rsi (feature rsi14));
   "";
   field "Feed" (status_value (ms_feed_status state));
   field "Latency" (format_seconds (ms_feed_latency state));
   field "Age" (format_seconds (ms_last_update_age state))]
  ++ if verbose then verbose_persistent state tick else [].

Definition signal_lines (verbose : bool) (signal : Signal) : list string :=
  ["[" +:+ format_priority (sig_priority signal) +:+ "] [" +:+ format_direction (sig_direction signal) +:+ "] " +:+ sig_family signal;
   sig_title signal; sig_summary signal; "Events: " +:+ int_repr (Z.of_nat (length (sig_event_ids signal)))]
  ++ if verbose then ["id " +:+ sig_id signal] else [].
Definition render_active_signals (signals : list Signal) (verbose : bool) : list string :=
  "ACTIVE SIGNALS" ::
  match signals with
  | [] => ["None"]
  | s :: signals => signal_lines verbose s ++ (signals ≫= (fun s => "" :: signal_lines verbose s))
  end.

Definition event_line (verbose : bool) (event : MarketEvent) : string :=
  "[" +:+ int_repr (ev_severity event) +:+ "] " +:+ type_value (ev_type event) +:+ " " +:+ format_direction (ev_direction event)
  +:+ (if verbose then " id=" +:+ ev_id event else "").
Definition alert_line (verbose : bool) (signal : Signal) : string :=
  "[" +:+ format_priority (sig_priority signal) +:+ "] " +:+ sig_title signal +:+ (if verbose then " id=" +:+ sig_id signal else "").
Definition titled (title : string) (rows : list string) : list string := title :: match rows with [] => ["None"] | _ => rows end.
Definition render_events_this_tick (events : list MarketEvent) (verbose : bool) : list string := titled "EVENTS THIS TICK" (event_line verbose <$> events).
Definition render_alerts_this_tick (alerts : list Signal) (verbose : bool) : list string := titled "ALERTS THIS TICK" (alert_line verbose <$> alerts).

Definition render_symbol_state (state : MarketState) (tick : option SymbolTickResult) (verbose : bool) : list string :=
  [SEP; ms_symbol state +:+ "  " +:+ level_value (ms_level state); SUB]
  ++ render_persistent_state state tick verbose ++ [""]
  ++ render_active_signals (ms_active_signals state) verbose ++ [""]
  ++ render_events_this_tick (from_option tr_accepted [] tick) verbose ++ [""]
  ++ render_alerts_this_tick (from_option tr_alerts [] tick) verbose ++ [SEP].

Definition rstrip (s : string) : string := String.rev (drop_spaces (String.rev s)).
Definition dashboard_lines (feed : FeedStatus) (states : list MarketState) (watchlist_count : Z) (tick_result : option EngineTickResult)
    (updated : option string) (verbose : bool) : list string :=
  ["MARKET SENTINEL"; ""; "Feed: " +:+ status_value feed; "Watchlist: " +:+ int_repr watchlist_count]
  ++ option_list ((fun u => "Updated: " +:+ u) <$> updated) ++ [""]
  ++ (states ≫= (fun state => render_symbol_state state (tick_result ≫= (fun r => for_symbol r (ms_symbol state))) verbose ++ [""])).
Definition format_dashboard (feed : FeedStatus) (states : list MarketState) (watchlist_count : Z) (tick_result : option EngineTickResult)
    (updated : option string) (verbose : bool) : string :=
  rstrip (Json.join newline (dashboard_lines feed states watchlist_count tick_result updated verbose)) +:+ newline.
