(* ===== verification/Daemon.v ===== *)
(** * The daemon (src/market_sentinel/ipc/daemon.py)

    [MarketDaemon] over the engine with its intelligence coordinator.  Commands and ticks
    share a lock, so a run is a sequence of turns: a line of the host, the end of its input,
    or a turn of the ticker.  The messages written are kept in order.  An exception that
    escapes a command ends the daemon; one that escapes a tick ends the ticker. *)
From Stdlib Require Import ZArith Lia Ascii String.
From stdpp Require Import prelude strings gmap relations.
From S2P Require Import Prelude PyFloat Domain Normalizer NumberText Json Features Cluster Telemetry Pipeline Scheduler Health Watchlist Engine Intelligence Coordinator Wire.
Local Open Scope Z_scope.

Definition core_version : string := "0.7.0".
Definition IDLE_WAIT_S : float := flit 5 2.

Record Daemon (P S F : Type) := mkDaemon {
  dm_engine : Engine P S F Coordinator;
  dm_phase : DaemonPhase;
  dm_shutdown : bool;
  dm_ticker : option exn;        (* what ended the ticker task, if anything *)
  dm_out : list json
}.
Arguments mkDaemon {P S F}.
Arguments dm_engine {P S F}.
Arguments dm_phase {P S F}.
Arguments dm_shutdown {P S F}.
Arguments dm_ticker {P S F}.
Arguments dm_out {P S F}.

(** A parsed item of [set_watchlist], or the refusal's text. *)
Definition parse_item (raw : json) : WatchItem + string :=
  match raw with
  | JObj members =>
      match jget members "symbol" with
      | JStr symbol =>
          if bool_decide (symbol = "") then inr "each item needs a non-empty symbol"
          else match default (JBool true) (od_get "enabled" members) with
               | JBool enabled => inl (mkWatchItem symbol enabled)
               | _ => inr "enabled must be a boolean"
               end
      | _ => inr "each item needs a non-empty symbol"
      end
  | _ => inr "each item needs a non-empty symbol"
  end.
Fixpoint parse_items (items : list json) : list WatchItem + string :=
  match items with
  | [] => inl []
  | raw :: items =>
      match parse_item raw with
      | inr m => inr m
      | inl item => match parse_items items with inl rest => inl (item :: rest) | inr m => inr m end
      end
  end.

Section daemon.
Context {P S F : Type} (collect : Recorder S TelemetryEvent) (store : Recorder F UserFeedback) (uuids : nat -> string) (tel_wall : nat -> float).
Context (fetch_quotes : P -> list string -> result (list MarketSnapshot) * P) (source_exhausted : P -> bool).
Context (observer : Coordinator -> TelemetryRuntime S F -> EngineTickResult -> gset string -> list FeedStatus -> Coordinator * TelemetryRuntime S F).
Context (feature_policy : FeaturePolicy) (warming : WarmingConfig) (scheduler_policy : SchedulerPolicy) (health_policy : HealthPolicy).
Context (run_pipeline : Pipeline -> TelemetryRuntime S F -> option MarketFeatures -> MarketFeatures ->
  result (SignalPipelineResult * Pipeline * TelemetryRuntime S F)).
Context (mono : nat -> float) (loads : string -> loaded).
Abbreviation Eng := (Engine P S F Coordinator).
Abbreviation Dm := (Daemon P S F).
Abbreviation M := (Step Dm).
Abbreviation command := (list (string * json)).

Definition daemon_init (e : Eng) : Dm := mkDaemon e Phase.AWAITING_HELLO false None [].

Definition set_phase (p : DaemonPhase) : M unit := modify (fun d => mkDaemon (dm_engine d) p (dm_shutdown d) (dm_ticker d) (dm_out d)).
Definition send (m : json) : M unit := modify (fun d => mkDaemon (dm_engine d) (dm_phase d) (dm_shutdown d) (dm_ticker d) (dm_out d ++ [m])).
Definition on_engine {A} (m : Step Eng A) : M A := fun d =>
  let '(r, e) := m (dm_engine d) in (r, mkDaemon e (dm_phase d) (dm_shutdown d) (dm_ticker d) (dm_out d)).
Definition set_telemetry (t : TelemetryRuntime S F) (e : Eng) : Eng := set_pipeline (en_pipeline e) t e.
Definition set_watchlist (w : Watchlist) (e : Eng) : Eng :=
  mkEngine w (en_provider e) (en_scheduler e) (en_buffers e) (en_states e) (en_health e) (en_pipeline e) (en_telemetry e)
    (en_intelligence e) (en_fetched e) (en_diagnostics e) (en_mono e).

Definition refuse (code : ErrorCode) (message : string) (request_id : string) : M unit :=
  send (encode_error code message (Some request_id)).
Definition ack (request_id : string) (fields : list (string * json)) : M unit := send (encode_message "ack" (Some request_id) fields).

(** ** Handlers *)
(** [_require_ready], with the handler it guards. *)
Definition require_ready (request_id : string) (k : M unit) : M unit :=
  phase ← gets dm_phase;
  if bool_decide (phase = Phase.AWAITING_HELLO) then refuse Code.NOT_READY "hello is required first" request_id else k.

Definition hello (request_id : string) : M unit :=
  phase ← gets dm_phase;
  _ ← (if bool_decide (phase = Phase.AWAITING_HELLO) then set_phase Phase.READY else mret tt);
  send (encode_message "ready" (Some request_id) [("core_version", JStr core_version)]).

Definition start_cmd (request_id : string) : M unit :=
  require_ready request_id (
    phase ← gets dm_phase;
    if bool_decide (phase = Phase.PAUSED) then refuse Code.PAUSED "daemon is paused; send resume" request_id
    else _ ← set_phase Phase.RUNNING; ack request_id []).

Definition pause (request_id : string) : M unit :=
  require_ready request_id (
    phase ← gets dm_phase;
    if bool_decide (phase = Phase.READY) then refuse Code.NOT_STARTED "start is required before pause" request_id
    else _ ← set_phase Phase.PAUSED; ack request_id []).

Definition resume_cmd (request_id : string) : M unit :=
  require_ready request_id (
    phase ← gets dm_phase;
    if bool_decide (phase = Phase.READY) then refuse Code.NOT_STARTED "start is required before resume" request_id
    else _ ← set_phase Phase.RUNNING; ack request_id []).

Definition set_watchlist_cmd (c : command) (request_id : string) : M unit :=
  require_ready request_id (
    match jget c "items" with
    | JList items =>
        match parse_items items with
        | inr m => refuse Code.INVALID_PAYLOAD m request_id
        | inl parsed =>
            w ← gets (fun d => en_watchlist (dm_engine d));
            match replace w parsed with
            | Ok w' =>
                _ ← on_engine (modify (set_watchlist w'));
                ack request_id [("watchlist_count", JInt (Z.of_nat (length (list_items w'))))]
            | Err (WatchlistFullError m) => refuse Code.WATCHLIST_FULL m request_id
            | Err (WatchlistSymbolError m) => refuse Code.DUPLICATE_SYMBOL m request_id
            | Err ex => lift (Err ex)
            end
        end
    | _ => refuse Code.INVALID_PAYLOAD "items must be a list" request_id
    end).

Definition get_state (request_id : string) : M unit :=
  require_ready request_id (
    w ← on_engine (map_engine_state source_exhausted health_policy mono);
    send (encode_message "state" (Some request_id) [("state", state_to_wire w)])).

Definition scalars (c : command) : record := (fun m => (m.1, scalar m.2)) <$> c.

Definition host_interaction (c : command) (request_id : string) : M unit :=
  require_ready request_id (
    parsed ← lift (parse_host_interaction (scalars c));
    match parsed with
    | inr m => refuse Code.INVALID_PAYLOAD m request_id
    | inl fact =>
        _ ← on_engine (modify (fun e => set_telemetry
              (emit collect uuids tel_wall (en_telemetry e) (hf_name fact) (hf_created fact) (interaction_fields fact)) e));
        ack request_id []
    end).

Definition user_feedback (c : command) (request_id : string) : M unit :=
  require_ready request_id (
    parsed ← lift (parse_user_feedback (scalars c));
    match parsed with
    | inr m => refuse Code.INVALID_PAYLOAD m request_id
    | inl fact =>
        stored ← on_engine (state (fun e =>
          let '(r, t) := record_feedback store uuids (en_telemetry e) (ff_signal_id fact) (ff_label fact) (ff_created fact) in
          (Ok r, set_telemetry t e)));
        match stored with
        | Err _ => refuse Code.INVALID_PAYLOAD "feedback storage failed" request_id
        | Ok _ => ack request_id []
        end
    end).

(** [_shutdown_sync] *)
Definition shutdown_sync (request_id : option string) : M unit :=
  _ ← modify (fun d => mkDaemon (dm_engine d) Phase.SHUTTING_DOWN true (dm_ticker d) (dm_out d));
  send (encode_message "shutdown_ack" request_id []).

(** The dictionary of handlers. *)
Definition handler (message_type : string) (c : command) (request_id : string) : M unit :=
  if decide (message_type = "hello") then hello request_id
  else if decide (message_type = "start") then start_cmd request_id
  else if decide (message_type = "pause") then pause request_id
  else if decide (message_type = "resume") then resume_cmd request_id
  else if decide (message_type = "set_watchlist") then set_watchlist_cmd c request_id
  else if decide (message_type = "get_state") then get_state request_id
  else if decide (message_type = "host_interaction") then host_interaction c request_id
  else if decide (message_type = "user_feedback") then user_feedback c request_id
  else lift (Err KeyError).

(** [_dispatch_line] from the decoded command on. *)
Definition dispatch (c : command) : M unit :=
  let message_type := default "" (as_str (jget c "type")) in
  if negb (bool_decide (message_type ∈ HOST_COMMANDS))
  then send (encode_error Code.UNKNOWN_TYPE ("unknown type: " +:+ message_type) (as_str (jget c "request_id")))
  else
    match jget c "request_id" with
    | JStr request_id =>
        if bool_decide (request_id = "") then send (encode_error Code.MISSING_REQUEST_ID "request_id is required" None)
        else if bool_decide (message_type = "shutdown") then shutdown_sync (Some request_id)
        else
          phase ← gets dm_phase;
          if bool_decide (phase = Phase.SHUTTING_DOWN) then refuse Code.SHUTTING_DOWN "daemon is shutting down" request_id
          else handler message_type c request_id
    | _ => send (encode_error Code.MISSING_REQUEST_ID "request_id is required" None)
    end.

Definition dispatch_line (line : string) : M unit :=
  decoded ← lift (decode_line loads line);
  match decoded with
  | inr error => send error
  | inl None => mret tt
  | inl (Some c) => dispatch c
  end.

(** ** The ticker *)
Definition emit_tick (results : EngineTickResult) : M unit :=
  w ← on_engine (map_engine_state source_exhausted health_policy mono);
  _ ← send (encode_message "state" None [("state", state_to_wire w)]);
  let '(candidates, market_timestamp) := map_tick_alerts results in
  if bool_decide (candidates = []) then mret tt
  else send (encode_message "alert" None
         [("candidates", JList (alert_to_wire <$> candidates)); ("market_timestamp", jopt JFloat market_timestamp)]).

Definition engine_tick : Step Eng EngineTickResult :=
  tick fetch_quotes source_exhausted observer feature_policy warming scheduler_policy health_policy run_pipeline mono.

(** One round of [_tick_loop]'s body: the wait before the next. *)
Definition tick_round : M float :=
  phase ← gets dm_phase;
  if bool_decide (phase = Phase.RUNNING) then
    results ← on_engine engine_tick;
    _ ← emit_tick results;
    on_engine (now ← read_clock mono;
               gets (fun e => next_wait_s scheduler_policy (en_scheduler e) (enabled_symbols (en_watchlist e)) now))
  else mret IDLE_WAIT_S.

(** ** Runs *)
Inductive Turn := HostLine (line : string) | HostEof | Ticker.

(** [None] when the run goes on; the exception that ends it otherwise. *)
Definition turn (t : Turn) (d : Dm) : option exn * Dm :=
  match t with
  | HostLine line => match dispatch_line line d with (Ok _, d) => (None, d) | (Err ex, d) => (Some ex, d) end
  | HostEof => match shutdown_sync None d with (Ok _, d) => (None, d) | (Err ex, d) => (Some ex, d) end
  | Ticker =>
      match dm_ticker d with
      | Some _ => (None, d)
      | None =>
          match tick_round d with
          | (Ok _, d) => (None, d)
          | (Err ex, d) => (None, mkDaemon (dm_engine d) (dm_phase d) (dm_shutdown d) (Some ex) (dm_out d))
          end
      end
  end.

(** [run]'s [finally]: awaiting a ticker that died raises its exception again; otherwise the
    coordinator is shut down. *)
Definition finalise (ex : option exn) (d : Dm) : option exn * Dm :=
  match dm_ticker d with
  | Some dead => (Some dead, mkDaemon (dm_engine d) Phase.SHUTTING_DOWN true (dm_ticker d) (dm_out d))
  | None => (ex, mkDaemon (set_intelligence (shutdown <$> en_intelligence (dm_engine d)) (dm_engine d)) Phase.SHUTTING_DOWN true (dm_ticker d) (dm_out d))
  end.

Fixpoint serve (turns : list Turn) (d : Dm) : option exn * Dm :=
  if dm_shutdown d then (None, d)
  else match turns with
       | [] => (None, d)
       | t :: turns => match turn t d with (None, d) => serve turns d | (Some ex, d) => (Some ex, d) end
       end.

(** [run]: start the coordinator, serve, finalise. *)
Definition run (turns : list Turn) (e : Eng) : option exn * Dm :=
  let '(ex, d) := serve turns (daemon_init (set_intelligence (start <$> en_intelligence e) e)) in finalise ex d.
End daemon.

(** ** The protocol's abstract machine: the phase after a command, [None] when it is refused *)
Definition spec_phase (message_type : string) (p : DaemonPhase) : option DaemonPhase :=
  if decide (message_type = "hello") then Some (match p with Phase.AWAITING_HELLO => Phase.READY | p => p end)
  else match p with
       | Phase.AWAITING_HELLO => None
       | Phase.SHUTTING_DOWN => None
       | p =>
           if decide (message_type = "start") then match p with Phase.PAUSED => None | _ => Some Phase.RUNNING end
           else if decide (message_type = "pause") then match p with Phase.READY => None | _ => Some Phase.PAUSED end
           else if decide (message_type = "resume") then match p with Phase.READY => None | _ => Some Phase.RUNNING end
           else Some p
       end.
Definition LIFECYCLE : list string := ["hello"; "start"; "pause"; "resume"; "get_state"].

(** A change of the engine that leaves the market's state alone. *)
Definition keeps {P S F} (e e' : Engine P S F Coordinator) : Prop :=
  en_buffers e' = en_buffers e /\ en_pipeline e' = en_pipeline e /\ en_states e' = en_states e /\ en_intelligence e' = en_intelligence e /\
  en_scheduler e' = en_scheduler e /\ en_provider e' = en_provider e.

(** One reply in [d'], to a command [t] with the id [r] received in [d]. *)
Definition replied {P S F} (t r : string) (d d' : Daemon P S F) : Prop :=
  exists kind fields, dm_out d' = dm_out d ++ [encode_message kind (Some r) fields] /\
    dm_shutdown d' = dm_shutdown d /\ dm_ticker d' = dm_ticker d /\ keeps (dm_engine d) (dm_engine d') /\
    (kind = "error" -> dm_phase d' = dm_phase d /\ en_watchlist (dm_engine d') = en_watchlist (dm_engine d)) /\
    (kind <> "error" -> spec_phase t (dm_phase d) = Some (dm_phase d')) /\
    (kind = "error" -> t ∈ LIFECYCLE -> spec_phase t (dm_phase d) = None).

Section replies.
Context {P S F : Type} (collect : Recorder S TelemetryEvent) (store : Recorder F UserFeedback) (uuids : nat -> string) (tel_wall : nat -> float).
Context (source_exhausted : P -> bool) (health_policy : HealthPolicy) (mono : nat -> float).
Implicit Types (d : Daemon P S F) (e : Engine P S F Coordinator).

Lemma keeps_refl e : keeps e e.
Proof. done. Qed.

Lemma map_state_runs e : exists w e', map_engine_state source_exhausted health_policy mono e = (Ok w, e') /\ keeps e e' /\
  en_watchlist e' = en_watchlist e /\ en_telemetry e' = en_telemetry e.
Proof.
  unfold map_engine_state. unfold mbind at 1, step_bind at 1, gets at 1. cbn beta iota.
  unfold mbind at 1, step_bind at 1, gets at 1. cbn beta iota. unfold mbind at 1, step_bind at 1, gets at 1. cbn beta iota.
  unfold mbind at 1, step_bind at 1. case_bool_decide; cbn [mret step_ret]; [by do 2 eexists|].
  unfold health_aggregate. destruct (aggregate_status _ _ _ _ _) as [s h]. by do 2 eexists.
Qed.

(** A refusal, and an answer that moves to phase [p] and engine [e]. *)
Lemma refuse_replied t r code message d : (t ∈ LIFECYCLE -> spec_phase t (dm_phase d) = None) ->
  replied t r d (refuse code message r d).2.
Proof. intros H. do 2 eexists. split_and!; try done. Qed.

Lemma answer_replied t r kind fields d d0 : kind <> "error" -> dm_out d0 = dm_out d -> dm_shutdown d0 = dm_shutdown d ->
  dm_ticker d0 = dm_ticker d -> keeps (dm_engine d) (dm_engine d0) -> spec_phase t (dm_phase d) = Some (dm_phase d0) ->
  replied t r d (send (encode_message kind (Some r) fields) d0).2.
Proof. intros Hk Ho Hs Ht He Hp. exists kind, fields. cbn. rewrite Ho, Hs, Ht. split_and!; done. Qed.

Definition outcome (t r : string) (d : Daemon P S F) (x : result unit * Daemon P S F) (escape : exn -> Prop) : Prop :=
  match x.1 with Ok _ => replied t r d x.2 | Err ex => x.2 = d /\ escape ex end.
Definition never : exn -> Prop := fun _ => False.

(** The guard, in the phases that pass the dispatcher. *)
Lemma ready_outcome t r d k escape : t <> "hello" -> dm_phase d <> Phase.SHUTTING_DOWN ->
  (dm_phase d <> Phase.AWAITING_HELLO -> outcome t r d (k d) escape) -> outcome t r d (require_ready r k d) escape.
Proof.
  intros Ht Hp Hk. unfold require_ready, mbind, step_bind, gets. case_bool_decide as E; [|by apply Hk].
  apply refuse_replied. intros _. unfold spec_phase. rewrite decide_False by done. by rewrite E.
Qed.

Lemma hello_outcome r d : dm_phase d <> Phase.SHUTTING_DOWN -> outcome "hello" r d (hello r d) never.
Proof.
  intros Hp. unfold hello, outcome, mbind, step_bind, gets. case_bool_decide as E; cbn [fst];
    apply answer_replied; try done; cbn; [by rewrite E|destruct (dm_phase d); done].
Qed.

Lemma start_outcome r d : dm_phase d <> Phase.SHUTTING_DOWN -> outcome "start" r d (start_cmd r d) never.
Proof.
  intros Hp. apply ready_outcome; [done|done|]. intros Ha. unfold mbind, step_bind, gets. case_bool_decide as E.
  - apply refuse_replied. intros _. by rewrite E.
  - unfold outcome. cbn [fst]. apply answer_replied; try done. cbn. by destruct (dm_phase d).
Qed.

Lemma pause_outcome r d : dm_phase d <> Phase.SHUTTING_DOWN -> outcome "pause" r d (pause r d) never.
Proof.
  intros Hp. apply ready_outcome; [done|done|]. intros Ha. unfold mbind, step_bind, gets. case_bool_decide as E.
  - apply refuse_replied. intros _. by rewrite E.
  - unfold outcome. cbn [fst]. apply answer_replied; try done. cbn. by destruct (dm_phase d).
Qed.

Lemma resume_outcome r d : dm_phase d <> Phase.SHUTTING_DOWN -> outcome "resume" r d (resume_cmd r d) never.
Proof.
  intros Hp. apply ready_outcome; [done|done|]. intros Ha. unfold mbind, step_bind, gets. case_bool_decide as E.
  - apply refuse_replied. intros _. by rewrite E.
  - unfold outcome. cbn [fst]. apply answer_replied; try done. cbn. by destruct (dm_phase d).
Qed.

(** Commands outside the life cycle keep the phase. *)
Lemma spec_phase_other t p : t ∈ ["set_watchlist"; "get_state"; "host_interaction"; "user_feedback"] ->
  p <> Phase.AWAITING_HELLO -> p <> Phase.SHUTTING_DOWN -> spec_phase t p = Some p.
Proof.
  intros Ht H1 H2. unfold spec_phase. repeat (apply elem_of_cons in Ht as [->|Ht]; [by destruct p|]). by apply elem_of_nil in Ht.
Qed.

Lemma get_state_outcome r d : dm_phase d <> Phase.SHUTTING_DOWN ->
  outcome "get_state" r d (get_state source_exhausted health_policy mono r d) never.
Proof.
  intros Hp. apply ready_outcome; [done|done|]. intros Ha. unfold mbind, step_bind, on_engine.
  destruct (map_state_runs (dm_engine d)) as (w & e' & E & K & _). rewrite E. unfold outcome. cbn [fst].
  apply answer_replied; try done. by apply spec_phase_other; [apply (bool_decide_unpack _)| |].
Qed.

Lemma watchlist_outcome c r d : dm_phase d <> Phase.SHUTTING_DOWN ->
  outcome "set_watchlist" r d (set_watchlist_cmd c r d) never.
Proof.
  intros Hp. apply ready_outcome; [done|done|]. intros Ha.
  assert (Hn : "set_watchlist" ∈ LIFECYCLE -> spec_phase "set_watchlist" (dm_phase d) = None).
  { intros H. exfalso. revert H. by apply (bool_decide_unpack _). }
  destruct (jget c "items"); try by apply refuse_replied.
  destruct (parse_items l) as [parsed|m]; [|by apply refuse_replied].
  unfold mbind, step_bind, gets. destruct (replace_errors (en_watchlist (dm_engine d)) parsed) as [[w' E]|[[m E]|[m E]]]; rewrite E;
    [|by apply refuse_replied..].
  unfold outcome. cbn [fst on_engine modify]. apply answer_replied; try done.
  by apply spec_phase_other; [apply (bool_decide_unpack _)| |].
Qed.

(** What a timestamp beyond the float range does to the parsers. *)
Definition huge_timestamp (c : list (string * json)) (ex : exn) : Prop :=
  ex = OverflowError /\ exists n, jget c "created_timestamp" = JInt n /\ of_Z n = None.

Lemma scalars_get c k : get (scalars c) k = scalar (jget c k).
Proof.
  unfold get, jget, scalars. induction c as [|[k' v] c IH]; [done|]. cbn. destruct (decide (k = k')); [done|]. exact IH.
Qed.

Lemma scalar_int v n : scalar v = PyInt n -> v = JInt n.
Proof. destruct v; try done. by intros [= ->]. Qed.

Lemma interaction_outcome c r d : dm_phase d <> Phase.SHUTTING_DOWN ->
  outcome "host_interaction" r d (host_interaction collect uuids tel_wall c r d) (huge_timestamp c).
Proof.
  intros Hp. apply ready_outcome; [done|done|]. intros Ha.
  assert (Hn : "host_interaction" ∈ LIFECYCLE -> spec_phase "host_interaction" (dm_phase d) = None).
  { intros H. exfalso. revert H. by apply (bool_decide_unpack _). }
  pose proof (parse_host_interaction_facts (scalars c)) as H. unfold mbind, step_bind, lift.
  destruct (parse_host_interaction (scalars c)) as [[fact|m]|ex]; [|by apply refuse_replied|].
  - unfold outcome. cbn [fst on_engine modify]. apply answer_replied; try done.
    by apply spec_phase_other; [apply (bool_decide_unpack _)| |].
  - split; [done|]. destruct H as (-> & n & Hg & Hz). split; [done|]. exists n. rewrite scalars_get in Hg. by apply scalar_int in Hg.
Qed.

Lemma feedback_outcome c r d : dm_phase d <> Phase.SHUTTING_DOWN ->
  outcome "user_feedback" r d (user_feedback store uuids c r d) (huge_timestamp c).
Proof.
  intros Hp. apply ready_outcome; [done|done|]. intros Ha.
  assert (Hn : "user_feedback" ∈ LIFECYCLE -> spec_phase "user_feedback" (dm_phase d) = None).
  { intros H. exfalso. revert H. by apply (bool_decide_unpack _). }
  pose proof (parse_user_feedback_facts (scalars c)) as H. unfold mbind, step_bind, lift.
  destruct (parse_user_feedback (scalars c)) as [[fact|m]|ex]; [|by apply refuse_replied|].
  - unfold on_engine, state. cbn [fst]. destruct (record_feedback _ _ _ _ _ _) as [stored t].
    destruct stored as [item|ex]; unfold outcome; cbn [fst].
    + apply answer_replied; try done. by apply spec_phase_other; [apply (bool_decide_unpack _)| |].
    + do 2 eexists. split_and!; try done.
  - split; [done|]. destruct H as (-> & n & Hg & Hz). split; [done|]. exists n. rewrite scalars_get in Hg. by apply scalar_int in Hg.
Qed.
End replies.

Section daemon_facts.
Context {P S F : Type} (collect : Recorder S TelemetryEvent) (store : Recorder F UserFeedback) (uuids : nat -> string) (tel_wall : nat -> float).
Context (fetch_quotes : P -> list string -> result (list MarketSnapshot) * P) (source_exhausted : P -> bool).
Context (observer : Coordinator -> TelemetryRuntime S F -> EngineTickResult -> gset string -> list FeedStatus -> Coordinator * TelemetryRuntime S F).
Context (feature_policy : FeaturePolicy) (warming : WarmingConfig) (scheduler_policy : SchedulerPolicy) (health_policy : HealthPolicy).
Context (run_pipeline : Pipeline -> TelemetryRuntime S F -> option MarketFeatures -> MarketFeatures ->
  result (SignalPipelineResult * Pipeline * TelemetryRuntime S F)).
Context (mono : nat -> float) (loads : string -> loaded).
Implicit Types (d : Daemon P S F) (e : Engine P S F Coordinator).
Abbreviation dispatch_line_of := (dispatch_line collect store uuids tel_wall source_exhausted health_policy mono loads).
Abbreviation handler_of := (handler collect store uuids tel_wall source_exhausted health_policy mono).
Abbreviation tick_round_of := (tick_round fetch_quotes source_exhausted observer feature_policy warming scheduler_policy health_policy run_pipeline mono).
Abbreviation turn_of := (turn collect store uuids tel_wall fetch_quotes source_exhausted observer feature_policy warming scheduler_policy
  health_policy run_pipeline mono loads).
Abbreviation serve_of := (serve collect store uuids tel_wall fetch_quotes source_exhausted observer feature_policy warming scheduler_policy
  health_policy run_pipeline mono loads).

(** A line that is a well-formed command: its type, its id, its members. *)
Definition command_of (line : string) : option (string * string * list (string * json)) :=
  match decode_line loads line with
  | Ok (inl (Some c)) =>
      match jget c "type", jget c "request_id" with
      | JStr t, JStr r => if bool_decide (t ∈ HOST_COMMANDS) && negb (bool_decide (r = "")) then Some (t, r, c) else None
      | _, _ => None
      end
  | _ => None
  end.

Lemma handler_outcome t r c d : t ∈ HOST_COMMANDS -> t <> "shutdown" -> dm_phase d <> Phase.SHUTTING_DOWN ->
  outcome t r d (handler_of t c r d) (huge_timestamp c).
Proof.
  intros Ht Hs Hp.
  assert (N : forall t x, outcome t r d x never -> outcome t r d x (huge_timestamp c)).
  { intros t' x. unfold outcome. destruct (x.1); [done|]. by intros [_ []]. }
  unfold handler.
  destruct (decide (t = "hello")) as [->|?]; [by apply N, hello_outcome|].
  destruct (decide (t = "start")) as [->|?]; [by apply N, start_outcome|].
  destruct (decide (t = "pause")) as [->|?]; [by apply N, pause_outcome|].
  destruct (decide (t = "resume")) as [->|?]; [by apply N, resume_outcome|].
  destruct (decide (t = "set_watchlist")) as [->|?]; [by apply N, watchlist_outcome|].
  destruct (decide (t = "get_state")) as [->|?]; [by apply N, get_state_outcome|].
  destruct (decide (t = "host_interaction")) as [->|?]; [by apply interaction_outcome|].
  destruct (decide (t = "user_feedback")) as [->|?]; [by apply feedback_outcome|].
  exfalso. unfold HOST_COMMANDS in Ht. repeat (apply elem_of_cons in Ht as [->|Ht]; [done|]). by apply elem_of_nil in Ht.
Qed.

(** A dispatched command. *)
Lemma dispatch_command line t r c d : command_of line = Some (t, r, c) ->
  dispatch_line_of line d =
    if bool_decide (t = "shutdown") then shutdown_sync (Some r) d
    else if bool_decide (dm_phase d = Phase.SHUTTING_DOWN) then refuse Code.SHUTTING_DOWN "daemon is shutting down" r d
    else handler_of t c r d.
Proof.
  unfold command_of, dispatch_line. unfold mbind, step_bind, lift. destruct (decode_line loads line) as [[[c'|]|m]|ex]; try done.
  destruct (jget c' "type") eqn:Et; try done. destruct (jget c' "request_id") eqn:Er; try done.
  destruct (bool_decide (s ∈ HOST_COMMANDS)) eqn:Eh; [|done]. destruct (bool_decide (s0 = "")) eqn:Ee; [done|].
  cbn [andb negb]. intros [= <- <- <-]. unfold dispatch. rewrite Et, Er. cbn [as_str default from_option]. unfold id. rewrite Eh, Ee. cbn [negb].
  destruct (bool_decide (s = "shutdown")); [done|]. unfold mbind, step_bind, gets. cbn beta iota. by destruct (bool_decide (dm_phase d = _)).
Qed.

Lemma command_known line t r c : command_of line = Some (t, r, c) -> t ∈ HOST_COMMANDS.
Proof.
  unfold command_of. destruct (decode_line loads line) as [[[c'|]|]|]; try done. destruct (jget c' "type"); try done.
  destruct (jget c' "request_id"); try done. destruct (bool_decide (s ∈ HOST_COMMANDS)) eqn:Eh; [|done].
  destruct (negb _); [|done]. intros [= <- _ _]. by apply bool_decide_eq_true in Eh.
Qed.

(** What a line that is not blank and not a command is refused with, by the first thing
    wrong with it: the JSON, the version, the type's shape, its name, the request id. *)
Definition nonempty_text (v : json) : option string :=
  match v with JStr s => if bool_decide (s = "") then None else Some s | _ => None end.
Definition line_fault (line : string) : option ErrorCode :=
  match loads (strip line) with
  | LoadsRaises _ => None
  | JSONDecodeError => Some Code.INVALID_JSON
  | Parsed (JObj raw) =>
      if negb (is_version (jget raw "protocol_version")) then Some Code.PROTOCOL_MISMATCH
      else match nonempty_text (jget raw "type") with
           | None => Some Code.INVALID_PAYLOAD
           | Some t => if negb (bool_decide (t ∈ HOST_COMMANDS)) then Some Code.UNKNOWN_TYPE
                       else match nonempty_text (jget raw "request_id") with None => Some Code.MISSING_REQUEST_ID | Some _ => None end
           end
  | Parsed _ => Some Code.INVALID_JSON
  end.

Lemma dispatch_blank line d : strip line = "" -> dispatch_line_of line d = (Ok tt, d).
Proof. intros H. unfold dispatch_line, mbind, step_bind, lift, decode_line. by rewrite bool_decide_true. Qed.
Lemma blank_no_command line : strip line = "" -> command_of line = None.
Proof. intros H. unfold command_of, decode_line. by rewrite bool_decide_true. Qed.

(** Any other line that is not blank: one error, as the fault says; or the decoder raises. *)
Lemma dispatch_fault line d : strip line <> "" -> command_of line = None ->
  match dispatch_line_of line d with
  | (Ok _, d') => exists code message request_id, line_fault line = Some code /\ send (encode_error code message request_id) d = (Ok tt, d')
  | (Err ex, d') => d' = d /\ loads (strip line) = LoadsRaises ex
  end.
Proof.
  intros Hb. unfold command_of, dispatch_line, decode_line, line_fault. rewrite bool_decide_false by done. unfold mbind, step_bind, lift.
  destruct (loads (strip line)) as [[| | | | | |raw]| |ex]; try (intros _; by do 3 eexists).
  destruct (negb (is_version _)); [intros _; by do 3 eexists|].
  destruct (jget raw "type") as [| | | |t| |] eqn:Et; try (intros _; by do 3 eexists).
  cbn [nonempty_text]. destruct (bool_decide (t = "")); [intros _; by do 3 eexists|]. rewrite Et. unfold dispatch. rewrite Et.
  cbn [as_str default from_option]. unfold id. destruct (bool_decide (t ∈ HOST_COMMANDS)); cbn [negb andb]; [|intros _; by do 3 eexists].
  destruct (jget raw "request_id") as [| | | |r| |]; try (intros _; by do 3 eexists). cbn [nonempty_text].
  destruct (bool_decide (r = "")); [intros _; by do 3 eexists|done].
Qed.

(** Any other line: nothing for a blank one, else one error; or the decoder raises. *)
Lemma dispatch_other line d : command_of line = None ->
  match dispatch_line_of line d with
  | (Ok _, d') => (strip line = "" /\ d' = d) \/ exists code message request_id, send (encode_error code message request_id) d = (Ok tt, d')
  | (Err ex, d') => d' = d /\ loads (strip line) = LoadsRaises ex
  end.
Proof.
  intros H. destruct (decide (strip line = "")) as [Hb|Hb]; [rewrite (dispatch_blank line d Hb); by left|].
  pose proof (dispatch_fault line d Hb H) as O. destruct (dispatch_line_of line d) as [[[]|ex] d']; [|done].
  destruct O as (code & m & rid & _ & E). right. by exists code, m, rid.
Qed.

(** The abstract machine over turns. *)
Definition spec_turn (p : DaemonPhase) (t : Turn) : DaemonPhase :=
  match t with
  | HostLine line =>
      match command_of line with
      | Some (t, _, _) => if bool_decide (t = "shutdown") then Phase.SHUTTING_DOWN else default p (spec_phase t p)
      | None => p
      end
  | HostEof => Phase.SHUTTING_DOWN
  | Ticker => p
  end.

Lemma spec_turn_shutting t : spec_turn Phase.SHUTTING_DOWN t = Phase.SHUTTING_DOWN.
Proof.
  destruct t as [line| |]; [|done..]. cbn. destruct (command_of line) as [[[t r] c]|]; [|done].
  case_bool_decide; [done|]. unfold spec_phase. by case_decide.
Qed.

Lemma emit_tick_runs results d : exists d' w, emit_tick source_exhausted health_policy mono results d = (Ok tt, d') /\
  dm_phase d' = dm_phase d /\ dm_shutdown d' = dm_shutdown d /\ dm_ticker d' = dm_ticker d /\ keeps (dm_engine d) (dm_engine d') /\
  en_watchlist (dm_engine d') = en_watchlist (dm_engine d) /\
  dm_out d' = dm_out d ++ encode_message "state" None [("state", state_to_wire w)] ::
    (if bool_decide ((map_tick_alerts results).1 = []) then []
     else [encode_message "alert" None [("candidates", JList (alert_to_wire <$> (map_tick_alerts results).1));
                                        ("market_timestamp", jopt JFloat (map_tick_alerts results).2)]]).
Proof.
  unfold emit_tick. unfold mbind at 1, step_bind at 1, on_engine at 1.
  destruct (map_state_runs source_exhausted health_policy mono (dm_engine d)) as (w & e' & E & K & Hw & _). rewrite E. cbn beta iota.
  unfold mbind, step_bind, send at 1, modify at 1. cbn beta iota. destruct (map_tick_alerts results) as [candidates mt]. cbn [fst snd].
  case_bool_decide; eexists _, w; (split; [reflexivity|]); cbn; split_and!; try done. by rewrite <- app_assoc.
Qed.

Lemma tick_round_phase d r d' : tick_round_of d = (r, d') -> dm_phase d' = dm_phase d /\ dm_shutdown d' = dm_shutdown d.
Proof.
  unfold tick_round. unfold mbind at 1, step_bind at 1, gets at 1. cbn beta iota.
  destruct (bool_decide (dm_phase d = _)); [|by intros [= _ <-]].
  unfold mbind at 1, step_bind at 1, on_engine at 1. destruct (engine_tick _ _ _ _ _ _ _ _ _ _) as [[results|ex] e']; [|by intros [= _ <-]].
  unfold mbind at 1, step_bind at 1.
  match goal with |- context [emit_tick _ _ _ results ?d0] => destruct (emit_tick_runs results d0) as (d1 & w & E & Hp & Hs & _) end.
  rewrite E. unfold on_engine. match goal with |- context [let '(_, _) := ?x in _] => destruct x end. by intros [= _ <-].
Qed.

Lemma turn_phase t d d' : dm_phase d <> Phase.SHUTTING_DOWN -> turn_of t d = (None, d') ->
  dm_phase d' = spec_turn (dm_phase d) t /\ (dm_shutdown d' = true <-> dm_shutdown d = true \/ dm_phase d' = Phase.SHUTTING_DOWN).
Proof.
  intros Hp. destruct t as [line| |]; cbn [turn spec_turn].
  - destruct (command_of line) as [[[t r] c]|] eqn:E.
    + rewrite (dispatch_command line t r c d E). case_bool_decide as Es; [by intros [= <-]; cbn; split; [|naive_solver]|].
      rewrite bool_decide_false by done. intros H.
      pose proof (command_known line t r c E) as Ht.
      pose proof (handler_outcome t r c d Ht Es Hp) as O. unfold outcome in O.
      destruct (handler_of t c r d) as [[[]|ex] d1]; [|done]. injection H as <-. cbn [fst snd] in O.
      destruct O as (kind & fields & Ho & Hs & _ & _ & Hr & Ha & Hl). destruct (decide (kind = "error")) as [Hk|Hk].
      * destruct (Hr Hk) as [Hph _]. rewrite Hph. split.
        -- destruct (spec_phase t (dm_phase d)) as [p|] eqn:Ep; [|done]. cbn.
           destruct (decide (t ∈ LIFECYCLE)) as [Hin|Hout]; [by specialize (Hl Hk Hin)|].
           assert (t ∈ ["set_watchlist"; "get_state"; "host_interaction"; "user_feedback"]) as Hother.
           { unfold HOST_COMMANDS, LIFECYCLE in *. set_solver. }
           destruct (decide (dm_phase d = Phase.AWAITING_HELLO)) as [Eph|Eph].
           { rewrite Eph in Ep. unfold spec_phase in Ep. destruct (decide _) as [->|]; [|done]. exfalso. apply Hout. by apply (bool_decide_unpack _). }
           rewrite (spec_phase_other t (dm_phase d) Hother Eph Hp) in Ep. congruence.
        -- rewrite Hs. naive_solver.
      * specialize (Ha Hk). rewrite Ha. split; [done|]. rewrite Hs. split; [auto|]. intros [?|Hsd]; [done|]. exfalso.
        rewrite Hsd in Ha. unfold spec_phase in Ha. repeat case_decide; destruct (dm_phase d); done.
    + pose proof (dispatch_other line d E) as O. destruct (dispatch_line_of line d) as [[[]|ex] d1]; [|done]. intros [= <-].
      destruct O as [[_ ->]|(code & m & rid & [= <-])]; cbn; (split; [done|]); naive_solver.
  - intros [= <-]. cbn. split; [done|]. naive_solver.
  - destruct (dm_ticker d); [intros [= <-]; split; [done|naive_solver]|]. destruct (tick_round_of d) as [r d1] eqn:E.
    destruct (tick_round_phase d r d1 E) as [H1 H2].
    destruct r; intros [= <-]; cbn; rewrite H1, H2; (split; [done|naive_solver]).
Qed.

Lemma serve_phase turns : forall d d', dm_phase d <> Phase.SHUTTING_DOWN -> dm_shutdown d = false -> serve_of turns d = (None, d') ->
  dm_phase d' = foldl spec_turn (dm_phase d) turns /\ (dm_shutdown d' = true <-> dm_phase d' = Phase.SHUTTING_DOWN).
Proof.
  assert (Hstay : forall ts, foldl spec_turn Phase.SHUTTING_DOWN ts = Phase.SHUTTING_DOWN).
  { induction ts as [|t ts IH]; [done|]. cbn [foldl]. by rewrite spec_turn_shutting. }
  induction turns as [|t turns IH]; intros d d' Hp Hs; cbn [serve foldl]; rewrite Hs; [intros [= <-]; rewrite Hs; naive_solver|].
  destruct (turn_of t d) as [[ex|] d1] eqn:E; [done|]. intros H. destruct (turn_phase t d d1 Hp E) as [H1 H2].
  destruct (decide (dm_phase d1 = Phase.SHUTTING_DOWN)) as [Es|Es].
  - assert (Hd : dm_shutdown d1 = true) by naive_solver. assert (d' = d1) as ->.
    { destruct turns; cbn [serve] in H; rewrite Hd in H; by injection H. }
    rewrite <- H1, Es, Hstay. split; [done|]. naive_solver.
  - assert (Hd : dm_shutdown d1 = false) by (destruct (dm_shutdown d1); [|done]; exfalso; destruct H2 as [H2 _]; destruct (H2 eq_refl); congruence).
    destruct (IH d1 d' Es Hd H) as [H3 H4]. rewrite H3, H1. split; [done|]. by rewrite <- H1, <- H3.
Qed.

(** ** The engine under the daemon *)
Context `{!PipelineContract run_pipeline} `{!ProviderContract fetch_quotes}.

Lemma keeps_wf e e' : keeps e e' -> engine_wf fetch_quotes run_pipeline e -> engine_wf fetch_quotes run_pipeline e'.
Proof.
  intros (Hb & Hp & Hs & _ & _ & Hv) [B Pw Vw L]. split; [by rewrite Hb|by rewrite Hp|by rewrite Hv|]. intros x. unfold latest_state. rewrite Hs, Hb. apply L.
Qed.

Lemma tick_round_runs d : engine_wf fetch_quotes run_pipeline (dm_engine d) -> dm_phase d = Phase.RUNNING ->
  exists wait d' results w, tick_round_of d = (Ok wait, d') /\ engine_wf fetch_quotes run_pipeline (dm_engine d') /\ dm_ticker d' = dm_ticker d /\
    en_watchlist (dm_engine d') = en_watchlist (dm_engine d) /\
    (engine_tick fetch_quotes source_exhausted observer feature_policy warming scheduler_policy health_policy run_pipeline mono (dm_engine d)).1 = Ok results /\
    dm_out d' = dm_out d ++ encode_message "state" None [("state", state_to_wire w)] ::
      (if bool_decide ((map_tick_alerts results).1 = []) then []
       else [encode_message "alert" None [("candidates", JList (alert_to_wire <$> (map_tick_alerts results).1));
                                          ("market_timestamp", jopt JFloat (map_tick_alerts results).2)]]).
Proof.
  intros W Hp. unfold tick_round. unfold mbind at 1, step_bind at 1, gets at 1. cbn beta iota. rewrite bool_decide_true by done.
  destruct (tick_runs fetch_quotes source_exhausted observer feature_policy warming scheduler_policy health_policy run_pipeline mono
    (dm_engine d) W) as (results & e' & E & W' & Hw & _).
  unfold mbind at 1, step_bind at 1, on_engine at 1. unfold tick_of in E. unfold engine_tick at 1. rewrite E. cbn beta iota.
  unfold mbind at 1, step_bind at 1.
  match goal with |- context [emit_tick _ _ _ results ?d0] => destruct (emit_tick_runs results d0) as (d1 & w & E1 & _ & _ & Ht & K & Hw1 & Ho) end.
  rewrite E1. unfold on_engine, read_clock, mbind, step_bind, gets. cbn beta iota.
  eexists _, _, results, w. split; [reflexivity|]. cbn [dm_engine dm_ticker dm_out] in *. split; [|split; [done|split; [|split; [|done]]]].
  - apply (keeps_wf (dm_engine d1)); [done|]. by apply (keeps_wf e').
  - cbn. by rewrite Hw1.
  - unfold engine_tick. by rewrite E.
Qed.

(** What can end the daemon early. *)
Definition escapes (ex : exn) : Prop := ex = OverflowError \/ exists text, loads text = LoadsRaises ex.

Lemma turn_safe t d : engine_wf fetch_quotes run_pipeline (dm_engine d) -> dm_ticker d = None ->
  let '(ex, d') := turn_of t d in
  engine_wf fetch_quotes run_pipeline (dm_engine d') /\ dm_ticker d' = None /\ (forall x, ex = Some x -> escapes x).
Proof.
  intros W Ht. destruct t as [line| |]; cbn [turn].
  - destruct (command_of line) as [[[t r] c]|] eqn:E.
    + rewrite (dispatch_command line t r c d E). case_bool_decide as Es; [done|]. case_bool_decide as Ep; [done|].
      pose proof (command_known line t r c E) as Hin.
      pose proof (handler_outcome t r c d Hin Es Ep) as O. unfold outcome in O.
      destruct (handler_of t c r d) as [[[]|ex] d1]; cbn [fst snd] in O.
      * destruct O as (kind & fields & _ & _ & Hk & K & _). split; [by apply (keeps_wf (dm_engine d))|]. by rewrite Hk.
      * destruct O as [-> [-> _]]. split; [done|]. split; [done|]. intros x [= <-]. by left.
    + pose proof (dispatch_other line d E) as O. destruct (dispatch_line_of line d) as [[[]|ex] d1].
      * destruct O as [[_ ->]|(code & m & rid & [= <-])]; done.
      * destruct O as [-> Hl]. split; [done|]. split; [done|]. intros x [= <-]. right. by eexists.
  - done.
  - rewrite Ht. destruct (decide (dm_phase d = Phase.RUNNING)) as [Hp|Hp].
    + destruct (tick_round_runs d W Hp) as (wait & d' & results & w & E & W' & Ht' & _). rewrite E. by rewrite Ht'.
    + unfold tick_round, mbind, step_bind, gets. rewrite bool_decide_false by done. done.
Qed.

Lemma serve_safe turns : forall d, engine_wf fetch_quotes run_pipeline (dm_engine d) -> dm_ticker d = None ->
  let '(ex, d') := serve_of turns d in
  engine_wf fetch_quotes run_pipeline (dm_engine d') /\ dm_ticker d' = None /\ (forall x, ex = Some x -> escapes x).
Proof.
  induction turns as [|t turns IH]; intros d W Ht; cbn [serve]; destruct (dm_shutdown d); try done.
  pose proof (turn_safe t d W Ht) as H. destruct (turn_of t d) as [[ex|] d1]; [done|]. destruct H as (W1 & Ht1 & _). by apply IH.
Qed.
End daemon_facts.

(** ** Replacing the watchlist *)
Definition item_ok (raw : json) (item : WatchItem) : Prop :=
  exists members, raw = JObj members /\ od_get "symbol" members = Some (JStr (wi_symbol item)) /\ wi_symbol item <> "" /\
    (od_get "enabled" members = Some (JBool (wi_enabled item)) \/ od_get "enabled" members = None /\ wi_enabled item = true).

Lemma parse_item_ok raw item : parse_item raw = inl item <-> item_ok raw item.
Proof.
  unfold parse_item, item_ok, jget. destruct raw as [| | | | | |members]; try (split; [done|by intros (? & ? & _)]).
  destruct (od_get "symbol" members) as [[| | | |s| |]|] eqn:Es; cbn [default from_option]; try (split; [done|]; intros (m & [= <-] & H & _); congruence).
  unfold id. case_bool_decide as Hs.
  { split; [done|]. intros (m & [= <-] & H & Hne & _). congruence. }
  destruct (od_get "enabled" members) as [[|b| | | | |]|] eqn:Ee; cbn [default from_option]; unfold id;
    (split; [try done; intros [= <-]; exists members; cbn; naive_solver|]); intros (m & [= <-] & H & _ & [H'|[H' H'']]); destruct item; cbn in *; congruence.
Qed.

Lemma parse_items_ok items : forall parsed, parse_items items = inl parsed <-> Forall2 item_ok items parsed.
Proof.
  induction items as [|raw items IH]; intros parsed; cbn [parse_items].
  - split; [intros [= <-]; constructor|]. by intros ->%Forall2_nil_inv_l.
  - destruct (parse_item raw) as [item|m] eqn:E.
    + apply parse_item_ok in E as E'. destruct (parse_items items) as [rest|m] eqn:Er.
      * split; [intros [= <-]; constructor; [done|by apply IH]|]. intros (y & ys & Hy & Hys & ->)%Forall2_cons_inv_l.
        apply IH in Hys as [= <-]. apply parse_item_ok in Hy. congruence.
      * split; [done|]. intros (y & ys & Hy & Hys & ->)%Forall2_cons_inv_l. by apply IH in Hys.
    + split; [done|]. intros (y & ys & Hy & _)%Forall2_cons_inv_l. apply parse_item_ok in Hy. congruence.
Qed.

(** ** Properties *)
Section properties.
Context {P S F : Type} (collect : Recorder S TelemetryEvent) (store : Recorder F UserFeedback) (uuids : nat -> string) (tel_wall : nat -> float).
Context (fetch_quotes : P -> list string -> result (list MarketSnapshot) * P) (source_exhausted : P -> bool).
Context (observer : Coordinator -> TelemetryRuntime S F -> EngineTickResult -> gset string -> list FeedStatus -> Coordinator * TelemetryRuntime S F).
Context (feature_policy : FeaturePolicy) (warming : WarmingConfig) (scheduler_policy : SchedulerPolicy) (health_policy : HealthPolicy).
Context (run_pipeline : Pipeline -> TelemetryRuntime S F -> option MarketFeatures -> MarketFeatures ->
  result (SignalPipelineResult * Pipeline * TelemetryRuntime S F)).
Context (mono : nat -> float) (loads : string -> loaded).

(** C10: every line is answered, whatever the phase: a blank line by nothing, any other by
    exactly one message; a line that is no command by the error whose code names the first
    thing wrong with it, and only the message is added.  A line whose handling raises sends
    nothing and changes nothing, and that happens only when the JSON decoder raises something
    else than its own error, or with [OverflowError] on an integer timestamp beyond the float
    range. *)
Theorem dispatch_answers line (d : Daemon P S F) :
  let answer := dispatch_line collect store uuids tel_wall source_exhausted health_policy mono loads line d in
  (strip line = "" -> answer = (Ok tt, d)) /\
  (strip line <> "" ->
   match answer with
   | (Ok _, d') => exists m, dm_out d' = dm_out d ++ [m] /\
       (command_of loads line = None -> exists code text request_id, line_fault loads line = Some code /\ m = encode_error code text request_id /\
          d' = mkDaemon (dm_engine d) (dm_phase d) (dm_shutdown d) (dm_ticker d) (dm_out d ++ [m]))
   | (Err ex, d') => d' = d /\
       (loads (strip line) = LoadsRaises ex \/
        ex = OverflowError /\ exists t r c n, command_of loads line = Some (t, r, c) /\ jget c "created_timestamp" = JInt n /\ of_Z n = None)
   end).
Proof.
  cbv zeta. split; [apply dispatch_blank|]. intros Hb. destruct (command_of loads line) as [[[t r] c]|] eqn:E.
  - rewrite (dispatch_command _ _ _ _ _ _ _ loads line t r c d E). case_bool_decide as Es; [by eexists|].
    case_bool_decide as Ep; [by eexists|].
    pose proof (handler_outcome collect store uuids tel_wall source_exhausted health_policy mono t r c d
      (command_known loads line t r c E) Es Ep) as O. unfold outcome in O.
    destruct (handler _ _ _ _ _ _ _ t c r d) as [[[]|ex] d1]; cbn [fst snd] in O.
    + destruct O as (kind & fields & Ho & _). by eexists.
    + destruct O as [-> [-> (n & Hn & Hz)]]. split; [done|]. right. split; [done|]. by exists t, r, c, n.
  - pose proof (dispatch_fault collect store uuids tel_wall source_exhausted health_policy mono loads line d Hb E) as O.
    destruct (dispatch_line _ _ _ _ _ _ _ _ line d) as [[[]|ex] d1].
    + destruct O as (code & m & rid & Hf & [= <-]). eexists. split; [reflexivity|]. intros _. by exists code, m, rid.
    + destruct O as [-> ?]. split; [done|by left].
Qed.

(** C16: a command is answered under its own request id, as the protocol's machine says: when
    the machine refuses it, or the answer is an error, phase and watchlist are unchanged;
    otherwise the phase is the machine's next; a life-cycle command or [get_state] is
    refused only when the machine refuses it.  No command touches the buffers, the
    pipeline, the market states, the scheduler or the coordinator. *)
Theorem dispatch_refines line t r c (d : Daemon P S F) :
  command_of loads line = Some (t, r, c) -> t <> "shutdown" -> dm_phase d <> Phase.SHUTTING_DOWN ->
  match dispatch_line collect store uuids tel_wall source_exhausted health_policy mono loads line d with
  | (Ok _, d') => replied t r d d'
  | (Err ex, d') => d' = d /\ huge_timestamp c ex
  end.
Proof.
  intros E Hs Hp. rewrite (dispatch_command _ _ _ _ _ _ _ loads line t r c d E), !bool_decide_false by done.
  pose proof (handler_outcome collect store uuids tel_wall source_exhausted health_policy mono t r c d
    (command_known loads line t r c E) Hs Hp) as O. unfold outcome in O. by destruct (handler _ _ _ _ _ _ _ t c r d) as [[[]|ex] d1].
Qed.

(** C3: over any interleaving of lines and ticks that raises nothing, the daemon's phase is
    that of the protocol's machine run over the same turns, and the daemon stops exactly
    in its final phase. *)
Theorem phases_refine turns (e : Engine P S F Coordinator) d :
  serve collect store uuids tel_wall fetch_quotes source_exhausted observer feature_policy warming scheduler_policy health_policy
    run_pipeline mono loads turns (daemon_init e) = (None, d) ->
  dm_phase d = foldl (spec_turn loads) Phase.AWAITING_HELLO turns /\ (dm_shutdown d = true <-> dm_phase d = Phase.SHUTTING_DOWN).
Proof. intros H. apply serve_phase in H; done. Qed.

(** C2: over a provider whose quotes passed the normalizer, no sequence of turns can break
    the engine or kill the ticker: the engine's invariant holds to the end, and the only
    exceptions [run] can end with are the decoder's and [OverflowError]. *)
Theorem daemon_safe `{!PipelineContract run_pipeline} `{!ProviderContract fetch_quotes} turns (e : Engine P S F Coordinator) :
  engine_wf fetch_quotes run_pipeline e ->
  let '(ex, d) := run collect store uuids tel_wall fetch_quotes source_exhausted observer feature_policy warming scheduler_policy health_policy
    run_pipeline mono loads turns e in
  engine_wf fetch_quotes run_pipeline (dm_engine d) /\ dm_ticker d = None /\ dm_shutdown d = true /\
  (forall x, ex = Some x -> escapes loads x).
Proof.
  intros W. unfold run.
  set (e0 := set_intelligence _ e). assert (W0 : engine_wf fetch_quotes run_pipeline (dm_engine (daemon_init e0))) by (destruct W as [B Pw Vw L]; by split).
  pose proof (serve_safe collect store uuids tel_wall fetch_quotes source_exhausted observer feature_policy warming scheduler_policy
    health_policy run_pipeline mono loads turns (daemon_init e0) W0 eq_refl) as H.
  destruct (serve _ _ _ _ _ _ _ _ _ _ _ _ _ _ turns (daemon_init e0)) as [ex d]. destruct H as (W1 & Ht & He).
  unfold finalise. rewrite Ht. cbn. split; [|done]. destruct W1 as [B Pw Vw L]. by split.
Qed.

(** C32: a tick happens in the running phase only: outside it the ticker's turn changes
    nothing; in it the ticker sends one state message and then, exactly when the tick has
    alerts, one alert message with all of them in order and the last one's market time. *)
Theorem ticker_spec `{!PipelineContract run_pipeline} `{!ProviderContract fetch_quotes} (d : Daemon P S F) :
  engine_wf fetch_quotes run_pipeline (dm_engine d) -> dm_ticker d = None ->
  let '(ex, d') := turn collect store uuids tel_wall fetch_quotes source_exhausted observer feature_policy warming scheduler_policy
    health_policy run_pipeline mono loads Ticker d in
  ex = None /\ (dm_phase d <> Phase.RUNNING -> d' = d) /\
  (dm_phase d = Phase.RUNNING -> exists results w,
     (tick fetch_quotes source_exhausted observer feature_policy warming scheduler_policy health_policy run_pipeline mono (dm_engine d)).1 = Ok results /\
     let signals := results ≫= tr_alerts in
     dm_out d' = dm_out d ++ encode_message "state" None [("state", state_to_wire w)] ::
       (if bool_decide (signals = []) then []
        else [encode_message "alert" None [("candidates", JList ((fun s => alert_to_wire (map_alert_candidate s)) <$> signals));
                                           ("market_timestamp", jopt JFloat (sig_market_ts <$> last signals))]])).
Proof.
  intros W Ht. cbn [turn]. rewrite Ht. destruct (decide (dm_phase d = Phase.RUNNING)) as [Hp|Hp].
  - destruct (tick_round_runs fetch_quotes source_exhausted observer feature_policy warming scheduler_policy health_policy run_pipeline mono
      d W Hp) as (wait & d' & results & w & E & _ & _ & _ & Et & Ho).
    rewrite E. split; [done|]. split; [done|]. intros _. exists results, w. split; [exact Et|]. cbn zeta. rewrite Ho. do 2 f_equal.
    cbn [map_tick_alerts fst snd]. rewrite <- list_fmap_compose. destruct (results ≫= tr_alerts); done.
  - unfold tick_round, mbind, step_bind, gets. rewrite bool_decide_false by done. by split.
Qed.

(** C29: [set_watchlist] is all or nothing: after [hello], it is acknowledged exactly when
    [items] is a list of well-formed items with distinct symbols within the limit, and then
    the watchlist lists exactly them and the count is theirs; otherwise the watchlist is
    unchanged and the answer is one error. *)
Theorem set_watchlist_atomic c r (d : Daemon P S F) : dm_phase d <> Phase.AWAITING_HELLO ->
  let d' := (set_watchlist_cmd c r d).2 in
  (exists items parsed, jget c "items" = JList items /\ Forall2 item_ok items parsed /\ NoDup (wi_symbol <$> parsed) /\
     Z.of_nat (length parsed) <= wl_limit (en_watchlist (dm_engine d)) /\ list_items (en_watchlist (dm_engine d')) = parsed /\
     dm_out d' = dm_out d ++ [encode_message "ack" (Some r) [("watchlist_count", JInt (Z.of_nat (length parsed)))]]) \/
  ((forall items parsed, jget c "items" = JList items -> Forall2 item_ok items parsed -> NoDup (wi_symbol <$> parsed) ->
     wl_limit (en_watchlist (dm_engine d)) < Z.of_nat (length parsed)) /\
   dm_engine d' = dm_engine d /\ exists code m, dm_out d' = dm_out d ++ [encode_error code m (Some r)]).
Proof.
  intros Hp. cbn zeta. unfold set_watchlist_cmd, require_ready, mbind, step_bind, gets. rewrite bool_decide_false by done.
  destruct (jget c "items") as [| | | | |items|]; try (right; split; [done|split; [done|by do 2 eexists]]).
  destruct (parse_items items) as [parsed|m] eqn:Ei.
  2:{ right. split; [|split; [done|by do 2 eexists]]. intros items' parsed [= <-] H%parse_items_ok. congruence. }
  apply parse_items_ok in Ei as Hok.
  destruct (replace (en_watchlist (dm_engine d)) parsed) as [w'|ex] eqn:E.
  - destruct (replace_outcome _ _ _ E) as (Hl & Hlim & Hnd). left. exists items, parsed. cbn. rewrite Hl. done.
  - right. split.
    + intros items' parsed' [= <-] H%parse_items_ok Hnd. assert (parsed' = parsed) as -> by congruence.
      destruct (Z.lt_ge_cases (wl_limit (en_watchlist (dm_engine d))) (Z.of_nat (length parsed))) as [?|Hle]; [done|].
      destruct (replace_succeeds (en_watchlist (dm_engine d)) parsed Hnd Hle) as [w' E']. congruence.
    + destruct (replace_errors (en_watchlist (dm_engine d)) parsed) as [[w' E']|[[m E']|[m E']]]; rewrite E' in E; [done|..];
        injection E as <-; (split; [done|by do 2 eexists]).
Qed.
End properties.

(** ** Witnesses *)
Definition demo_daemon_engine : Engine unit (list TelemetryEvent) unit Coordinator :=
  mkEngine (en_watchlist demo_engine) tt scheduler_init (en_buffers demo_engine) ∅ ∅ pipeline_init demo_runtime None ∅
    (mkDiagnostics 0 0 0 None) 0.
Lemma demo_daemon_engine_wf : engine_wf demo_fetch demo_run demo_daemon_engine.
Proof. destruct demo_engine_wf as [B Pw Vw L]. split; [exact B|exact Pw|exact Vw|exact L]. Qed.

Definition demo_watch (i : Coordinator) (t : TelemetryRuntime (list TelemetryEvent) unit) (_ : EngineTickResult) (_ : gset string)
  (_ : list FeedStatus) := (i, t).

Definition demo_command (t : string) (fields : list (string * json)) : loaded :=
  Parsed (JObj ([("protocol_version", JInt 1); ("type", JStr t); ("request_id", JStr "r1")] ++ fields)).
Definition demo_items : json := JList [JObj [("symbol", JStr "600519.SH")]; JObj [("symbol", JStr "AAPL.US"); ("enabled", JBool false)]].
Definition demo_loads (text : string) : loaded :=
  if decide (text = "w") then demo_command "set_watchlist" [("items", demo_items)]
  else if decide (text ∈ HOST_COMMANDS) then demo_command text [] else JSONDecodeError.

Definition demo_daemon : Daemon unit (list TelemetryEvent) unit := mkDaemon demo_daemon_engine Phase.READY false None [].
Definition demo_turns : list Turn := [HostLine "start"; HostLine "hello"; HostLine "start"; Ticker; HostLine "nonsense"; HostLine "pause"].

Lemma demo_start : command_of demo_loads "start" = Some ("start", "r1",
  [("protocol_version", JInt 1); ("type", JStr "start"); ("request_id", JStr "r1")]).
Proof. vm_compute. reflexivity. Qed.

Lemma dispatch_answers_witness : exists d' text request_id,
  dispatch_line inmemory_record noop_record demo_ids (fun _ => f0) (fun _ => false) default_health_policy (fun _ => flit 5 0) demo_loads "{" demo_daemon = (Ok tt, d') /\
  dm_out d' = dm_out demo_daemon ++ [encode_error Code.INVALID_JSON text request_id] /\
  dispatch_line inmemory_record noop_record demo_ids (fun _ => f0) (fun _ => false) default_health_policy (fun _ => flit 5 0) demo_loads " " demo_daemon = (Ok tt, demo_daemon).
Proof.
  destruct (dispatch_answers inmemory_record noop_record demo_ids (fun _ => f0) (fun _ => false) default_health_policy (fun _ => flit 5 0) demo_loads "{" demo_daemon)
    as [_ H].
  destruct (dispatch_answers inmemory_record noop_record demo_ids (fun _ => f0) (fun _ => false) default_health_policy (fun _ => flit 5 0) demo_loads " " demo_daemon)
    as [B _].
  specialize (H ltac:(vm_compute; discriminate)). destruct (dispatch_line _ _ _ _ _ _ _ _ "{" demo_daemon) as [[[]|ex] d'].
  - destruct H as (m & Ho & F). destruct (F eq_refl) as (code & text & rid & Hf & -> & _). assert (Some Code.INVALID_JSON = Some code) as [= <-] by exact Hf.
    exists d', text, rid. split; [done|]. split; [exact Ho|]. apply B. vm_compute. reflexivity.
  - exfalso. destruct H as (_ & [H|(_ & t & r & c & n & H & _)]); discriminate H.
Defined.

Lemma dispatch_refines_witness : exists r, dispatch_line inmemory_record noop_record demo_ids (fun _ => f0) (fun _ => false)
    default_health_policy (fun _ => flit 5 0) demo_loads "start" demo_daemon = r /\
  match r with (Ok _, d') => replied "start" "r1" demo_daemon d' | (Err ex, d') => d' = demo_daemon /\ huge_timestamp
    [("protocol_version", JInt 1); ("type", JStr "start"); ("request_id", JStr "r1")] ex end.
Proof.
  eexists. split; [reflexivity|].
  exact (dispatch_refines inmemory_record noop_record demo_ids (fun _ => f0) (fun _ => false) default_health_policy (fun _ => flit 5 0)
    demo_loads "start" "start" "r1" _ demo_daemon demo_start ltac:(discriminate) ltac:(discriminate)).
Defined.

Abbreviation demo_serve := (serve inmemory_record noop_record demo_ids (fun _ => f0) demo_fetch (fun _ => false) demo_watch
  default_feature_policy default_warming default_scheduler_policy default_health_policy demo_run (fun _ => flit 5 0) demo_loads).

Lemma demo_serves : (demo_serve demo_turns (daemon_init demo_daemon_engine)).1 = None.
Proof. vm_compute. reflexivity. Qed.

Lemma phases_refine_witness : exists d, demo_serve demo_turns (daemon_init demo_daemon_engine) = (None, d) /\
  dm_phase d = foldl (spec_turn demo_loads) Phase.AWAITING_HELLO demo_turns.
Proof.
  pose proof (phases_refine inmemory_record noop_record demo_ids (fun _ => f0) demo_fetch (fun _ => false) demo_watch
    default_feature_policy default_warming default_scheduler_policy default_health_policy demo_run (fun _ => flit 5 0) demo_loads
    demo_turns demo_daemon_engine (demo_serve demo_turns (daemon_init demo_daemon_engine)).2) as H.
  pose proof demo_serves as E.
  destruct (demo_serve demo_turns (daemon_init demo_daemon_engine)) as [ex d]. cbn [fst snd] in *. subst ex. exists d.
  split; [reflexivity|]. exact (proj1 (H eq_refl)).
Defined.

(** The messages of the demo run, by type. *)
Definition kind_of (m : json) : option string := match m with JObj fields => as_str (jget fields "type") | _ => None end.
Example demo_messages : omap kind_of (dm_out (demo_serve demo_turns (daemon_init demo_daemon_engine)).2)
  = ["error"; "ready"; "ack"; "state"; "error"; "ack"].
Proof. vm_compute. reflexivity. Qed.

Lemma daemon_safe_witness : exists ex d, run inmemory_record noop_record demo_ids (fun _ => f0) demo_fetch (fun _ => false) demo_watch
    default_feature_policy default_warming default_scheduler_policy default_health_policy demo_run (fun _ => flit 5 0) demo_loads
    demo_turns demo_daemon_engine = (ex, d) /\ dm_ticker d = None.
Proof.
  pose proof (daemon_safe inmemory_record noop_record demo_ids (fun _ => f0) demo_fetch (fun _ => false) demo_watch
    default_feature_policy default_warming default_scheduler_policy default_health_policy demo_run (fun _ => flit 5 0) demo_loads
    demo_turns demo_daemon_engine demo_daemon_engine_wf) as H.
  destruct (run _ _ _ _ _ _ _ _ _ _ _ _ _ _ demo_turns demo_daemon_engine) as [ex d]. exists ex, d. split; [reflexivity|].
  exact (proj1 (proj2 H)).
Defined.

Lemma ticker_spec_witness : exists d', turn inmemory_record noop_record demo_ids (fun _ => f0) demo_fetch (fun _ => false) demo_watch
    default_feature_policy default_warming default_scheduler_policy default_health_policy demo_run (fun _ => flit 5 0) demo_loads
    Ticker demo_daemon = (None, d') /\ d' = demo_daemon.
Proof.
  pose proof (ticker_spec inmemory_record noop_record demo_ids (fun _ => f0) demo_fetch (fun _ => false) demo_watch
    default_feature_policy default_warming default_scheduler_policy default_health_policy demo_run (fun _ => flit 5 0) demo_loads
    demo_daemon demo_daemon_engine_wf eq_refl) as H.
  destruct (turn _ _ _ _ _ _ _ _ _ _ _ _ _ _ Ticker demo_daemon) as [ex d']. destruct H as (-> & H & _). exists d'.
  split; [reflexivity|]. apply H. discriminate.
Defined.

Lemma set_watchlist_atomic_witness :
  list_items (en_watchlist (dm_engine (set_watchlist_cmd [("items", demo_items)] "r1" demo_daemon).2))
    = [mkWatchItem "600519.SH" true; mkWatchItem "AAPL.US" false] /\
  (exists items, jget [("items", demo_items)] "items" = JList items).
Proof.
  split; [vm_compute; reflexivity|].
  destruct (set_watchlist_atomic [("items", demo_items)] "r1" demo_daemon ltac:(discriminate)) as [(items & parsed & E & _)|(_ & _ & _)].
  - exists items. exact E.
  - eexists. reflexivity.
Defined.
