(* ===== verification/Evaluation.v ===== *)
(** * Offline evaluation (src/market_sentinel/evaluation/)

    stats.py, report.py (the allow list and the sanitiser) and aggregate.py: the report of a
    loaded journal, section by section, as the JSON objects the code builds.  Exceptions of
    [float], [datetime.fromtimestamp] and of the sanitiser are errors of [result]. *)
From Stdlib Require Import ZArith Lia Ascii String Sorting.Sorted.
From Corelib Require Import SpecFloat.
From stdpp Require Import prelude strings gmap.
From S2P Require Import Prelude PyFloat Domain Session Normalizer NumberText Json Features Telemetry Jsonl Intelligence.
Local Open Scope Z_scope.

(** ** stats.py *)

(** [n / d] of two non-negative integers, correctly rounded. *)
Definition true_div (n d : nat) : float :=
  match Z.of_nat n, Z.of_nat d with
  | Zpos a, Zpos b =>
      let '(q, e, l) := SFdiv_core_binary 53 1024 (Zpos a) 0 (Zpos b) 0 in binary_round_aux 53 1024 false q e l
  | _, _ => f0
  end.
Definition ratio (numerator denominator : nat) : option float :=
  match denominator with O => None | S _ => Some (true_div numerator denominator) end.

Definition fceil (x : float) : option Z := Z.opp <$> ffloor (fneg x).
Definition float_le (x y : float) : bool := negb (flt y x).
Definition sorted_floats (l : list float) : list float := sort_by float_le l.

(** Nearest rank: [max(1, ceil(pct / 100.0 * n))]. *)
Definition percentile_rank (pct : Z) (n : nat) : nat :=
  match fdiv (flit pct 0) (flit 100 0) with
  | Some q => Z.to_nat (Z.max 1 (default 1 (fceil (fmul q (default f0 (of_Z (Z.of_nat n)))))))
  | None => 1%nat
  end.
Definition percentile (values : list float) (pct : Z) : result (option float) :=
  match values with
  | [] => Ok None
  | _ => let ordered := sorted_floats values in
         v ← of_option IndexError (ordered !! (percentile_rank pct (length ordered) - 1)%nat);
         Ok (Some v)
  end.

Definition jnum (n : nat) : json := JInt (Z.of_nat n).
Definition jfloat (o : option float) : json := match o with Some x => JFloat x | None => JNull end.
Definition strings (l : list string) : json := JList (JStr <$> l).

Definition latency_bundle (samples : list float) (stage : string) : result json :=
  match sorted_floats samples with
  | [] => Ok (JObj [("stage", JStr stage); ("count", JInt 0); ("min_s", JNull); ("median_s", JNull); ("p95_s", JNull); ("max_s", JNull)])
  | lo :: rest =>
      median ← percentile (lo :: rest) 50;
      p95 ← percentile (lo :: rest) 95;
      Ok (JObj [("stage", JStr stage); ("count", jnum (length (lo :: rest))); ("min_s", JFloat lo); ("median_s", jfloat median);
                ("p95_s", jfloat p95); ("max_s", JFloat (default lo (last (lo :: rest))))])
  end.

(** ** report.py *)
Definition EVALUATION_ALLOWLIST : list string :=
  ["metadata"; "data_quality"; "pipeline"; "alert_noise"; "host_interaction"; "intelligence"; "per_symbol"; "per_run";
   "per_market_date"; "explicit_feedback"; "run_ids"; "symbols"; "market_dates"; "filter_run_id"; "input_files"; "records_read";
   "malformed_complete_lines"; "skipped_trailing_partial"; "healthy"; "data_quality_warning"; "semantic_warning_count";
   "runs_insufficient_market_time"; "runs_unsupported_market_scope"; "market_time_coverage"; "min_market_timestamp";
   "max_market_timestamp"; "observed_market_seconds"; "events_generated"; "events_deduped"; "events_clustered";
   "signal_episodes_created"; "signal_escalations"; "alert_candidates"; "alert_suppressed"; "alerts_presented";
   "cluster_tracker_seen_count"; "dedupe_rate"; "event_to_signal_rate"; "signal_to_alert_candidate_rate";
   "candidate_to_presented_rate"; "alert_suppression_rate"; "info_count"; "notice_count"; "important_count"; "critical_count";
   "important_critical_ratio"; "alerts_per_market_hour"; "repeated_episode_signal_count"; "repeated_episode_extra_alert_count";
   "suppression_by_reason"; "cooldown"; "same_tick_duplicate"; "unrecognized_skip_reason_count";
   "unrecognized_fallback_reason_count"; "unrecognized_suppression_reason_count"; "alert_badge_reset"; "signal_opened";
   "alert_dismissed"; "signal_muted"; "open_rate"; "dismiss_rate"; "mute_rate"; "feedback_count"; "useful_count";
   "not_useful_count"; "too_noisy_count"; "too_late_count"; "useful_rate"; "feedback_coverage"; "invalid_feedback_record_count";
   "available"; "value"; "unavailable_reason"; "producer"; "routed"; "skipped"; "succeeded"; "fallback";
   "skip_by_decision_reason"; "fallback_by_fallback_reason"; "latency"; "token_usage"; "router"; "model"; "parse"; "stage"; "count";
   "min_s"; "median_s"; "p95_s"; "max_s"; "token_in_total"; "token_out_total"; "token_total"; "token_events_count"; "symbol"; "run_id";
   "market_date"; "expired_episode"; "suppressed_edge"; "stale_feed"; "insufficient_features"; "not_candidate"; "episode_budget";
   "none"; "timeout"; "transport"; "malformed"; "rate_limited"; "unavailable"; "cancelled"; "stale_work"; "policy"].

Definition KNOWN_SKIP_REASONS : list string :=
  decision_value <$> [EXPIRED_EPISODE; SUPPRESSED_EDGE; STALE_FEED; INSUFFICIENT_FEATURES; NOT_CANDIDATE; EPISODE_BUDGET].
Definition KNOWN_FALLBACK_REASONS : list string :=
  fallback_value <$> [Fallback.NONE; Fallback.NOT_CANDIDATE; Fallback.STALE_FEED; Fallback.INSUFFICIENT_FEATURES;
    Fallback.SUPPRESSED_EDGE; Fallback.EPISODE_BUDGET; Fallback.EXPIRED_EPISODE; Fallback.TIMEOUT; Fallback.TRANSPORT;
    Fallback.MALFORMED; Fallback.RATE_LIMITED; Fallback.UNAVAILABLE; Fallback.CANCELLED; Fallback.STALE_WORK; Fallback.POLICY].
Definition KNOWN_SUPPRESSION_REASONS : list string := suppression_value <$> [COOLDOWN; SAME_TICK_DUPLICATE].

Definition UNAVAILABLE_DENOMINATOR_ZERO : string := "denominator_is_zero".
Definition UNAVAILABLE_PRODUCER : string := "producer_not_implemented".
Definition UNAVAILABLE_NO_USAGE : string := "no_provider_usage".
Definition UNAVAILABLE_MARKET_TIME : string := "insufficient_market_time_evidence".
Definition UNAVAILABLE_MARKET_SCOPE : string := "unsupported_market_scope".
Definition UNAVAILABLE_NO_FEEDBACK : string := "no_explicit_feedback".

Definition unavailable_row (reason : string) (producer : option string) : row :=
  [("available", JBool false); ("value", JNull); ("unavailable_reason", JStr reason);
   ("producer", match producer with Some p => JStr p | None => JNull end)].
Definition unavailable (reason : string) (producer : option string) : result row :=
  project_allowlist (unavailable_row reason producer) EVALUATION_ALLOWLIST.
Definition available_row (value : float) : row :=
  [("available", JBool true); ("value", JFloat value); ("unavailable_reason", JNull); ("producer", JNull)].
Definition available_value (value : float) : result row := project_allowlist (available_row value) EVALUATION_ALLOWLIST.

(** [_all_keys], [_project_tree] and [sanitize_report]. *)
Fixpoint all_keys (payload : json) : list string :=
  match payload with
  | JObj ms => ms.*1 ++ concat (map (fun p => all_keys p.2) ms)
  | JList l => concat (map all_keys l)
  | _ => []
  end.
Definition denied_in (denied : list string) (keys : list string) : bool := existsb (fun k => bool_decide (k ∈ denied)) keys.
Fixpoint project_tree (denied allowed : list string) (payload : json) : result json :=
  match payload with
  | JObj ms =>
      if denied_in denied ms.*1 then Err (ValueError "denied keys")
      else
        out ← (fix members ms :=
          match ms with
          | [] => Ok []
          | (k, v) :: ms =>
              if decide (k ∈ allowed) then v ← project_tree denied allowed v; rest ← members ms; Ok ((k, v) :: rest)
              else members ms
          end) ms;
        Ok (JObj out)
  | JList l =>
      out ← (fix items l := match l with [] => Ok [] | v :: l => v ← project_tree denied allowed v; rest ← items l; Ok (v :: rest) end) l;
      Ok (JList out)
  | _ => Ok payload
  end.
Definition sanitize_report (payload : json) : result json :=
  if denied_in TELEMETRY_DENYLIST (all_keys payload) then Err (ValueError "denied keys")
  else project_tree TELEMETRY_DENYLIST EVALUATION_ALLOWLIST payload.

Record EvaluationReport := mkReport {
  rp_metadata : row;
  rp_data_quality : row;
  rp_pipeline : row;
  rp_alert_noise : row;
  rp_host_interaction : row;
  rp_intelligence : row;
  rp_per_symbol : list row;
  rp_per_run : list row;
  rp_per_market_date : list row;
  rp_explicit_feedback : row
}.
Definition report_raw (r : EvaluationReport) : json :=
  JObj [("metadata", JObj (rp_metadata r)); ("data_quality", JObj (rp_data_quality r)); ("pipeline", JObj (rp_pipeline r));
        ("alert_noise", JObj (rp_alert_noise r)); ("host_interaction", JObj (rp_host_interaction r));
        ("intelligence", JObj (rp_intelligence r)); ("per_symbol", JList (JObj <$> rp_per_symbol r));
        ("per_run", JList (JObj <$> rp_per_run r)); ("per_market_date", JList (JObj <$> rp_per_market_date r));
        ("explicit_feedback", JObj (rp_explicit_feedback r))].
Definition report_to_record (r : EvaluationReport) : result json := sanitize_report (report_raw r).

(** ** aggregate.py: rows *)
Definition is_str (v : json) (s : string) : bool := match v with JStr t => bool_decide (t = s) | _ => false end.
(** [isinstance(v, int | float)]: booleans are integers. *)
Definition is_number (v : json) : bool := match v with JBool _ | JInt _ | JFloat _ => true | _ => false end.
Definition to_float (v : json) : result float := py_float (scalar v).
(** [isinstance(v, int)], with [int(v)]. *)
Definition as_int (v : json) : option Z := match v with JInt n => Some n | JBool b => Some (if b then 1 else 0) | _ => None end.

Definition get (r : row) (k : string) : json := jget r k.
Definition named (n : TelemetryName) (r : row) : bool := is_str (get r "name") (name_value n).

(** [sorted({...})] of strings. *)
Definition sorted_set (l : list string) : list string := sort_by String.leb (remove_dups l).

(** [defaultdict(list)]: groups in order of first appearance. *)
Definition group_by (key : row -> option string) (rows : list row) : list (string * list row) :=
  foldl (fun acc r => match key r with
                      | Some k => od_set k (default [] (od_get k acc) ++ [r]) acc
                      | None => acc
                      end) [] rows.
(** Groups in sorted key order. *)
Definition sorted_groups (key : row -> option string) (rows : list row) : list (string * list row) :=
  let g := group_by key rows in (fun k => (k, default [] (od_get k g))) <$> sort_by String.leb g.*1.

Definition strings_at (k : string) (rows : list row) : list string := omap (fun r => as_str (get r k)) rows.
Definition count_rows (f : row -> bool) (rows : list row) : nat := length (filter (fun r => f r = true) rows).

(** [_count(names, name)] *)
Definition count_name (names : list string) (n : TelemetryName) : nat := length (filter (fun s => s = name_value n) names).

Definition funnel (records : list row) : row :=
  let names := strings_at "name" records in
  [("events_generated", jnum (count_name names EVENT_GENERATED));
   ("signal_episodes_created", jnum (count_name names SIGNAL_EPISODE_CREATED));
   ("alert_candidates", jnum (count_name names ALERT_CANDIDATE));
   ("alert_suppressed", jnum (count_name names ALERT_SUPPRESSED));
   ("alerts_presented", jnum (count_name names ALERT_PRESENTED))].

(** The market timestamps of the rows that carry a number, as floats. *)
Definition stamped_rows (rows : list row) : list row := filter (fun r => is_number (get r "market_timestamp") = true) rows.
Definition stamps (rows : list row) : result (list float) := traverse (fun r => to_float (get r "market_timestamp")) (stamped_rows rows).

Definition metadata (records : list row) (run_id : option string) : result row :=
  dates ← traverse (fun r => x ← to_float (get r "market_timestamp"); session_id x) (stamped_rows records);
  Ok [("run_ids", strings (sorted_set (strings_at "run_id" records)));
      ("symbols", strings (sorted_set (strings_at "symbol" records)));
      ("market_dates", strings (sorted_set dates));
      ("filter_run_id", match run_id with Some r => JStr r | None => JNull end)].

Definition builtin_min (x : float) (l : list float) : float := foldl (fun m y => if flt y m then y else m) x l.

(** ** Pipeline and noise sections *)
Definition clustered_ids (records : list row) : list string :=
  remove_dups (strings_at "event_id" (filter (fun r => named EVENT_CLUSTERED r = true) records)).

Definition pipeline (records : list row) (names : list string) (cluster_seen : option nat) : row :=
  let generated := count_name names EVENT_GENERATED in
  let deduped := count_name names EVENT_DEDUPED in
  let clustered := count_name names EVENT_CLUSTERED in
  let created := count_name names SIGNAL_EPISODE_CREATED in
  let escalated := count_name names SIGNAL_ESCALATED in
  let candidates := count_name names ALERT_CANDIDATE in
  let suppressed := count_name names ALERT_SUPPRESSED in
  let presented := count_name names ALERT_PRESENTED in
  let seen := match cluster_seen with Some n => n | None => length (clustered_ids records) end in
  [("events_generated", jnum generated); ("events_deduped", jnum deduped); ("events_clustered", jnum clustered);
   ("signal_episodes_created", jnum created); ("signal_escalations", jnum escalated); ("alert_candidates", jnum candidates);
   ("alert_suppressed", jnum suppressed); ("alerts_presented", jnum presented); ("cluster_tracker_seen_count", jnum seen);
   ("dedupe_rate", jfloat (ratio deduped generated)); ("event_to_signal_rate", jfloat (ratio created generated));
   ("signal_to_alert_candidate_rate", jfloat (ratio candidates created));
   ("candidate_to_presented_rate", jfloat (ratio presented candidates));
   ("alert_suppression_rate", jfloat (ratio suppressed (candidates + suppressed)))].

Definition PRIORITIES : list string := ["INFO"; "NOTICE"; "IMPORTANT"; "CRITICAL"].
(** How many rows carry the string [s] at [k]. *)
Definition count_at (k s : string) (rows : list row) : nat := count_rows (fun r => is_str (get r k) s) rows.

Definition repeated_episodes (candidates : list row) : nat * nat :=
  let keys := omap (fun r => run ← as_str (get r "run_id"); sid ← as_str (get r "signal_id"); Some (run, sid)) candidates in
  let counts := (fun k => length (filter (fun x => x = k) keys)) <$> remove_dups keys in
  let repeated := filter (fun c => (1 < c)%nat) counts in
  (length repeated, foldl (fun n c => n + (c - 1))%nat 0%nat repeated).

(** Rows of one name, by a reason: the known reasons with their counts, and the rest. *)
Definition by_reason (n : TelemetryName) (k : string) (known : list string) (records : list row) : row * nat :=
  let rows := filter (fun r => named n r = true) records in
  ((fun s => (s, jnum (count_at k s rows))) <$> known,
   count_rows (fun r => negb (existsb (is_str (get r k)) known)) rows).

Definition suppression (records : list row) : row * nat :=
  by_reason ALERT_SUPPRESSED "suppression_reason" KNOWN_SUPPRESSION_REASONS records.

(** ** Market time *)
Inductive Scope := ScopeEmpty | ScopeUnsupported | ScopeAShare.
#[export] Instance Scope_eq : EqDecision Scope.
Proof. solve_decision. Defined.

Definition market_scope (rows : list row) : Scope :=
  match stamped_rows rows with
  | [] => ScopeEmpty
  | stamped =>
      let symbols := filter (fun s => s <> "") (strings_at "symbol" stamped) in
      let saw_other := existsb (fun s => negb (is_a_share_symbol s)) symbols in
      let saw_ashare := existsb is_a_share_symbol symbols in
      if saw_other || bool_decide (symbols = []) then ScopeUnsupported
      else if saw_ashare then ScopeAShare else ScopeUnsupported
  end.

Record Exposure := mkExposure {
  ex_funnel : row;
  ex_observed : float;
  ex_rate : row;
  ex_scope : Scope;
  ex_candidates : nat;
  ex_ok : bool
}.

(** [sorted(set(stamped))] *)
Fixpoint distinct (l : list float) : list float :=
  match l with
  | [] => []
  | x :: l => let l := distinct l in if existsb (feq x) l then l else x :: l
  end.

(** [n / observed * 3600.0] *)
Definition hourly (n : nat) (observed : float) : result float :=
  c ← of_option OverflowError (of_Z (Z.of_nat n));
  q ← of_option ZeroDivisionError (fdiv c observed);
  Ok (fmul q (flit 3600 0)).

Definition run_exposure (rows : list row) : result Exposure :=
  stamped ← stamps rows;
  let unique := sorted_floats (distinct stamped) in
  let candidates := count_rows (named ALERT_CANDIDATE) rows in
  let scope := market_scope rows in
  let without reason observed := r ← unavailable reason None; Ok (mkExposure (funnel rows) observed r scope candidates false) in
  if decide (scope = ScopeUnsupported) then without UNAVAILABLE_MARKET_SCOPE f0
  else
    match unique with
    | first :: (_ :: _) as rest =>
        observed ← cash_session_overlap_s first (default first (last unique));
        if fle observed f0 then without UNAVAILABLE_MARKET_TIME observed
        else
          rate ← hourly candidates observed;
          r ← available_value rate;
          Ok (mkExposure (funnel rows) observed r scope candidates true)
    | _ => without UNAVAILABLE_MARKET_TIME f0
    end.

Record Market := mkMarket {
  mk_rate : row;
  mk_observed : float;
  mk_per_run : list row;
  mk_insufficient : list string;
  mk_unsupported : list string
}.

Definition group_by_run (records : list row) : list (string * list row) :=
  sorted_groups (fun r => as_str (get r "run_id")) records.

Definition per_run_row (p : string * Exposure) : row :=
  ("run_id", JStr p.1) :: ex_funnel p.2 ++
  [("observed_market_seconds", JFloat (ex_observed p.2)); ("alerts_per_market_hour", JObj (ex_rate p.2))].

Definition market_metrics (records : list row) : result Market :=
  let orphans := count_rows (fun r => named ALERT_CANDIDATE r && negb (bool_decide (is_Some (as_str (get r "run_id"))))) records in
  exposures ← traverse (fun p => ex ← run_exposure p.2; Ok (p.1, ex)) (group_by_run records);
  let unsupported := (filter (fun p => ex_scope p.2 = ScopeUnsupported) exposures).*1 in
  let insufficient := (filter (fun p => ex_scope p.2 <> ScopeUnsupported /\ (0 < ex_candidates p.2)%nat /\ ex_ok p.2 = false) exposures).*1
    ++ (if (0 <? orphans)%nat then [""] else []) in
  let observed := foldl (fun o p => if ex_ok p.2 then fadd o (ex_observed p.2) else o) f0 exposures in
  let candidates := (foldl (fun n p => n + ex_candidates p.2)%nat 0%nat exposures + orphans)%nat in
  '(rate, observed) ← (if negb (bool_decide (unsupported = [])) then r ← unavailable UNAVAILABLE_MARKET_SCOPE None; Ok (r, f0)
    else if negb (bool_decide (insufficient = [])) then r ← unavailable UNAVAILABLE_MARKET_TIME None; Ok (r, f0)
    else if fle observed f0 then r ← unavailable UNAVAILABLE_MARKET_TIME None; Ok (r, f0)
    else x ← hourly candidates observed; r ← available_value x; Ok (r, observed));
  Ok (mkMarket rate observed (per_run_row <$> exposures) (filter (fun s => s <> "") insufficient) unsupported).

Definition alert_noise (records : list row) (market : Market) (suppressed : row) (suppression_unknown : nat) : row :=
  let candidates := filter (fun r => named ALERT_CANDIDATE r = true) records in
  let count p := count_at "priority" p candidates in
  let total := (count "INFO" + count "NOTICE" + count "IMPORTANT" + count "CRITICAL")%nat in
  let '(repeated_signals, extra_alerts) := repeated_episodes candidates in
  [("info_count", jnum (count "INFO")); ("notice_count", jnum (count "NOTICE")); ("important_count", jnum (count "IMPORTANT"));
   ("critical_count", jnum (count "CRITICAL"));
   ("important_critical_ratio", jfloat (ratio (count "IMPORTANT" + count "CRITICAL") total));
   ("alerts_per_market_hour", JObj (mk_rate market)); ("observed_market_seconds", JFloat (mk_observed market));
   ("repeated_episode_signal_count", jnum repeated_signals); ("repeated_episode_extra_alert_count", jnum extra_alerts);
   ("suppression_by_reason", JObj suppressed); ("unrecognized_suppression_reason_count", jnum suppression_unknown)].

Definition date_of (r : row) : result (option string) :=
  if is_number (get r "market_timestamp") then x ← to_float (get r "market_timestamp"); d ← session_id x; Ok (Some d) else Ok None.

Definition per_market_date (records : list row) : result (list row) :=
  keys ← traverse date_of records;
  let dated := zip keys records in
  let dates := sorted_set (omap fst dated) in
  traverse (fun d =>
    let subset := snd <$> filter (fun p => p.1 = Some d) dated in
    m ← market_metrics subset;
    Ok (("market_date", JStr d) :: funnel subset ++
        [("observed_market_seconds", JFloat (mk_observed m)); ("alerts_per_market_hour", JObj (mk_rate m))])) dates.

Definition per_symbol (records : list row) : list row :=
  (fun p => ("symbol", JStr p.1) :: funnel p.2) <$> sorted_groups (fun r => as_str (get r "symbol")) records.

(** ** Host, feedback and intelligence sections *)
Definition host (names : list string) : result row :=
  u ← unavailable UNAVAILABLE_PRODUCER None;
  let made_by producer := JObj (od_set "producer" (JStr producer) u) in
  Ok [("alerts_presented", jnum (count_name names ALERT_PRESENTED)); ("alert_badge_reset", jnum (count_name names ALERT_BADGE_RESET));
      ("signal_opened", made_by "signal_opened"); ("alert_dismissed", made_by "alert_dismissed"); ("signal_muted", made_by "signal_muted");
      ("open_rate", made_by "signal_opened"); ("dismiss_rate", made_by "alert_dismissed"); ("mute_rate", made_by "signal_muted")].

Definition FEEDBACK_LABELS : list string := label_value <$> [USEFUL; NOT_USEFUL; TOO_NOISY; TOO_LATE].
Definition OPTIONAL_FEEDBACK_TEXT : list string := ["symbol"; "event_id"; "telemetry_id"].
Definition nonblank (v : json) : bool := match v with JStr s => negb (blank s) | _ => false end.

Definition valid_feedback_row (r : row) : result bool :=
  if existsb (fun k => negb (bool_decide (k ∈ FEEDBACK_ALLOWLIST))) r.*1 then Ok false
  else if negb (nonblank (get r "feedback_id")) then Ok false
  else if negb (nonblank (get r "run_id")) then Ok false
  else if negb (nonblank (get r "signal_id")) then Ok false
  else if negb (existsb (is_str (get r "label")) FEEDBACK_LABELS) then Ok false
  else match get r "created_timestamp" with
       | JInt _ | JFloat _ =>
           created ← to_float (get r "created_timestamp");
           if negb (isfinite created) then Ok false
           else Ok (forallb (fun k => match get r k with JNull => true | v => nonblank v end) OPTIONAL_FEEDBACK_TEXT)
       | _ => Ok false
       end.

Fixpoint split_valid (rows : list row) : result (list row * nat) :=
  match rows with
  | [] => Ok ([], 0%nat)
  | r :: rows => ok ← valid_feedback_row r;
                 '(valid, invalid) ← split_valid rows;
                 Ok (if (ok : bool) then (r :: valid, invalid) else (valid, S invalid))
  end.

(** The pairs [(run_id, signal_id)] of rows, as sets. *)
Definition target (r : row) : option (string * string) :=
  run ← as_str (get r "run_id"); sid ← as_str (get r "signal_id"); Some (run, sid).
Definition presented_keys (rows : list row) : list (string * string) :=
  remove_dups (omap target (filter (fun r => named ALERT_PRESENTED r && nonblank (get r "run_id") && nonblank (get r "signal_id") = true) rows)).

Definition explicit_feedback (feedback_rows telemetry_rows : list row) : result (row * nat) :=
  '(valid, invalid) ← split_valid feedback_rows;
  let count l := count_at "label" (label_value l) valid in
  let total := length valid in
  useful_rate ← (match total with O => unavailable UNAVAILABLE_NO_FEEDBACK None | S _ => available_value (true_div (count USEFUL) total) end);
  let presented := presented_keys telemetry_rows in
  let feedback_keys := remove_dups (omap target valid) in
  coverage ← (match presented with
              | [] => unavailable UNAVAILABLE_DENOMINATOR_ZERO None
              | _ => available_value (true_div (length (filter (fun k => k ∈ presented) feedback_keys)) (length presented))
              end);
  Ok ([("feedback_count", jnum total); ("useful_count", jnum (count USEFUL)); ("not_useful_count", jnum (count NOT_USEFUL));
       ("too_noisy_count", jnum (count TOO_NOISY)); ("too_late_count", jnum (count TOO_LATE)); ("useful_rate", JObj useful_rate);
       ("feedback_coverage", JObj coverage); ("invalid_feedback_record_count", jnum invalid)], invalid).

(** The latencies of one stage, in row order. *)
Definition stage_samples (records : list row) (stage : LatencyStage) : result (list float) :=
  traverse (fun r => to_float (get r "latency_s"))
    (filter (fun r => named INTELLIGENCE_LATENCY r && is_str (get r "latency_stage") (stage_value stage) && is_number (get r "latency_s") = true) records).

Definition sum_ints (k : string) (rows : list row) : Z := foldl Z.add 0 (omap (fun r => as_int (get r k)) rows).

Definition token_usage (records : list row) : row :=
  let rows := filter (fun r => named INTELLIGENCE_TOKEN_USAGE r = true) records in
  match rows with
  | [] => [("available", JBool false); ("unavailable_reason", JStr UNAVAILABLE_NO_USAGE); ("token_in_total", JNull);
           ("token_out_total", JNull); ("token_total", JNull); ("token_events_count", JInt 0)]
  | _ =>
      let token_in := sum_ints "token_in" rows in
      let token_out := sum_ints "token_out" rows in
      [("available", JBool true); ("unavailable_reason", JNull); ("token_in_total", JInt token_in);
       ("token_out_total", JInt token_out); ("token_total", JInt (token_in + token_out)); ("token_events_count", jnum (length rows))]
  end.

Definition intelligence_section (records : list row) (names : list string) : result (row * nat * nat) :=
  let '(skip_counts, skip_unknown) := by_reason INTELLIGENCE_SKIPPED "decision_reason" KNOWN_SKIP_REASONS records in
  let '(fallback_counts, fallback_unknown) := by_reason INTELLIGENCE_FALLBACK "fallback_reason" KNOWN_FALLBACK_REASONS records in
  latency ← traverse (fun stage => samples ← stage_samples records stage;
                                   b ← latency_bundle samples (stage_value stage); Ok (stage_value stage, b)) [ROUTER; MODEL; PARSE];
  Ok ([("routed", jnum (count_name names INTELLIGENCE_ROUTED)); ("skipped", jnum (count_name names INTELLIGENCE_SKIPPED));
       ("succeeded", jnum (count_name names INTELLIGENCE_SUCCEEDED)); ("fallback", jnum (count_name names INTELLIGENCE_FALLBACK));
       ("skip_by_decision_reason", JObj skip_counts); ("fallback_by_fallback_reason", JObj fallback_counts);
       ("unrecognized_skip_reason_count", jnum skip_unknown); ("unrecognized_fallback_reason_count", jnum fallback_unknown);
       ("latency", JObj latency); ("token_usage", JObj (token_usage records))], skip_unknown, fallback_unknown).

(** ** The whole report *)
Definition data_quality (loaded : LoadedTelemetry) (records : list row) (run_id : option string) (market : Market) (semantic : nat)
    (feedback : LoadedTelemetry) (feedback_records_used : nat) : result row :=
  timestamps ← stamps records;
  let coverage := match timestamps with
    | x :: l => [("min_market_timestamp", JFloat (builtin_min x l)); ("max_market_timestamp", JFloat (builtin_max x l));
                 ("observed_market_seconds", JFloat (mk_observed market))]
    | [] => [("min_market_timestamp", JNull); ("max_market_timestamp", JNull); ("observed_market_seconds", JFloat f0)]
    end in
  let records_read := match run_id with
    | None => (lt_records_read loaded + lt_records_read feedback)%nat
    | Some _ => (length records + feedback_records_used)%nat
    end in
  Ok [("input_files", strings (lt_input_files loaded ++ lt_input_files feedback)); ("records_read", jnum records_read);
      ("malformed_complete_lines", jnum (lt_malformed loaded + lt_malformed feedback));
      ("skipped_trailing_partial", JBool (lt_skipped_trailing_partial loaded || lt_skipped_trailing_partial feedback));
      ("healthy", JBool (lt_healthy loaded && lt_healthy feedback));
      ("data_quality_warning", JBool (negb (lt_healthy loaded) || negb (lt_healthy feedback) || (0 <? semantic)%nat));
      ("semantic_warning_count", jnum semantic); ("runs_insufficient_market_time", strings (mk_insufficient market));
      ("runs_unsupported_market_scope", strings (mk_unsupported market));
      ("run_ids", strings (sorted_set (strings_at "run_id" records))); ("market_time_coverage", JObj coverage)].

Definition no_feedback : LoadedTelemetry := mkLoaded [] [] 0 0 false true.
Definition of_run (run_id : option string) (r : row) : bool :=
  match run_id with None => true | Some id => is_str (get r "run_id") id end.
Definition selected (run_id : option string) (records : list row) : list row :=
  filter (fun r => bool_decide (is_Some (as_str (get r "name"))) && of_run run_id r = true) records.

Definition evaluate (loaded : LoadedTelemetry) (run_id : option string) (cluster_seen : option nat) (feedback : option LoadedTelemetry)
    : result EvaluationReport :=
  let records := selected run_id (lt_records loaded) in
  let names := strings_at "name" records in
  '(intelligence, skip_unknown, fallback_unknown) ← intelligence_section records names;
  let '(suppressed, suppression_unknown) := suppression records in
  market ← market_metrics records;
  dates ← per_market_date records;
  let fb_loaded := default no_feedback feedback in
  let fb_records := filter (fun r => of_run run_id r = true) (lt_records fb_loaded) in
  '(fb_section, invalid_fb) ← explicit_feedback fb_records records;
  let semantic := (skip_unknown + fallback_unknown + suppression_unknown + invalid_fb)%nat in
  meta ← metadata records run_id;
  quality ← data_quality loaded records run_id market semantic fb_loaded (length fb_records);
  host_section ← host names;
  Ok (mkReport meta quality (pipeline records names cluster_seen) (alert_noise records market suppressed suppression_unknown)
        host_section intelligence (per_symbol records) (mk_per_run market) dates fb_section).

(** ** The sanitiser keeps a clean tree *)
(** Every key is allowed. *)
Fixpoint clean (allowed : list string) (v : json) : bool :=
  match v with
  | JObj ms => forallb (fun p => bool_decide (p.1 ∈ allowed) && clean allowed p.2) ms
  | JList l => forallb (clean allowed) l
  | _ => true
  end.
Definition disjoint_lists (denied allowed : list string) : bool := forallb (fun k => negb (bool_decide (k ∈ denied))) allowed.

Lemma clean_keys allowed v : clean allowed v = true -> Forall (fun k => k ∈ allowed) (all_keys v).
Proof.
  pattern v. apply json_nested_ind; clear v; [intros u; destruct u; try exact I; intros Hc; constructor|intros l IH|intros ms IH].
  - cbn. induction IH as [|u l Hu _ IHl]; [done|]. cbn. intros [H1 H2]%andb_prop. apply Forall_app. auto.
  - cbn [clean all_keys]. intros H. apply Forall_app. induction IH as [|p ms Hp _ IHm]; [done|]. cbn in H |- *.
    apply andb_prop in H as [[H1 H2]%andb_prop H3]. destruct (IHm H3) as [? ?]. apply bool_decide_eq_true in H1.
    split; [by constructor|]. apply Forall_app. auto.
Qed.

Lemma denied_in_none denied allowed keys : disjoint_lists denied allowed = true -> Forall (fun k => k ∈ allowed) keys -> denied_in denied keys = false.
Proof.
  intros D. unfold disjoint_lists in D. induction 1 as [|k keys Hk _ IH]; [done|].
  change (denied_in denied (k :: keys)) with (bool_decide (k ∈ denied) || denied_in denied keys). rewrite IH, orb_false_r.
  pose proof (forallb_elem _ _ D k Hk) as N. by apply negb_true_iff in N.
Qed.

Lemma project_clean denied allowed v : disjoint_lists denied allowed = true -> clean allowed v = true ->
  project_tree denied allowed v = Ok v.
Proof.
  intros D. pattern v. apply json_nested_ind; clear v; [intros u; by destruct u|intros l IH|intros ms IH].
  - cbn [clean project_tree]. intros H.
    match goal with |- (?f l ≫= _) = _ => enough (f l = Ok l) as ->; [done|] end.
    induction IH as [|u l Hu _ IHl]; [done|]. cbn in H. apply andb_prop in H as [H1 H2]. rewrite Hu by done. cbn [mbind result_bind].
    by rewrite IHl.
  - intros H. pose proof (clean_keys allowed (JObj ms) H) as K. cbn [all_keys] in K. apply Forall_app in K as [K _].
    cbn [project_tree]. rewrite (denied_in_none _ _ _ D K). clear K.
    match goal with |- (?f ms ≫= _) = _ => enough (f ms = Ok ms) as ->; [done|] end.
    cbn [clean] in H. induction IH as [|[k v] ms Hp _ IHm]; [done|]. cbn in H, Hp. apply andb_prop in H as [[H1 H2]%andb_prop H3].
    apply bool_decide_eq_true in H1. rewrite decide_True by done. rewrite Hp by done. cbn [mbind result_bind]. by rewrite IHm.
Qed.

Lemma sanitize_clean v : clean EVALUATION_ALLOWLIST v = true -> sanitize_report v = Ok v.
Proof.
  intros H. unfold sanitize_report.
  assert (D : disjoint_lists TELEMETRY_DENYLIST EVALUATION_ALLOWLIST = true) by (vm_compute; reflexivity).
  rewrite (denied_in_none _ _ _ D) by (by apply clean_keys). by apply project_clean.
Qed.

Definition row_clean (r : row) : bool := clean EVALUATION_ALLOWLIST (JObj r).
Lemma clean_cons k v ms : row_clean ((k, v) :: ms) = bool_decide (k ∈ EVALUATION_ALLOWLIST) && clean EVALUATION_ALLOWLIST v && row_clean ms.
Proof. done. Qed.
Lemma clean_app a b : row_clean (a ++ b) = row_clean a && row_clean b.
Proof. unfold row_clean. cbn. apply forallb_app. Qed.
Lemma clean_strings l : clean EVALUATION_ALLOWLIST (strings l) = true.
Proof. cbn. by induction l. Qed.
Lemma clean_float o : clean EVALUATION_ALLOWLIST (jfloat o) = true.
Proof. by destruct o. Qed.
Lemma clean_rows l : Forall (fun r => row_clean r = true) l -> clean EVALUATION_ALLOWLIST (JList (JObj <$> l)) = true.
Proof. intros H. cbn. induction H as [|r l Hr _ IH]; [done|]. cbn [fmap list_fmap forallb]. rewrite IH, andb_true_r. exact Hr. Qed.

Lemma unavailable_clean reason producer r : unavailable reason producer = Ok r -> row_clean r = true.
Proof.
  unfold unavailable. rewrite project_id; [intros [= <-]; by destruct producer|].
  decide_now.
Qed.
Lemma available_clean x r : available_value x = Ok r -> row_clean r = true.
Proof.
  unfold available_value. rewrite project_id; [by intros [= <-]|]. decide_now.
Qed.

(** Splits a row into its members and evaluates the membership of each key. *)
Ltac clean_members :=
  repeat match goal with
    | |- context [bool_decide (?k ∈ EVALUATION_ALLOWLIST)] =>
        replace (bool_decide (k ∈ EVALUATION_ALLOWLIST)) with true by (vm_compute; reflexivity)
    | |- row_clean ((_, _) :: _) = true => rewrite clean_cons
    | |- row_clean [] = true => reflexivity
    | |- (_ && _) = true => apply andb_true_intro; split
    | |- true = true => reflexivity
    | |- clean _ (jfloat _) = true => apply clean_float
    | |- clean _ (strings _) = true => apply clean_strings
    | |- clean _ (JObj ?r) = true => change (row_clean r = true)
    | |- clean _ _ = true => reflexivity
    end.

Lemma funnel_clean rows : row_clean (funnel rows) = true.
Proof. unfold funnel. clean_members. Qed.
Lemma by_reason_clean n k known records : Forall (fun s => s ∈ EVALUATION_ALLOWLIST) known -> row_clean (by_reason n k known records).1 = true.
Proof.
  intros H. unfold by_reason. cbn [fst]. induction H as [|s known Hs _ IH]; [done|]. cbn [fmap list_fmap]. rewrite clean_cons.
  rewrite bool_decide_eq_true_2 by done. exact IH.
Qed.

Lemma without_clean rows reason observed scope candidates ex :
  (r ← unavailable reason None; Ok (mkExposure (funnel rows) observed r scope candidates false)) = Ok ex ->
  row_clean (ex_funnel ex) = true /\ row_clean (ex_rate ex) = true.
Proof.
  intros (r & Hr & [= <-])%bind_ok. split; [apply funnel_clean|]. by eapply unavailable_clean.
Qed.

Lemma exposure_clean rows ex : run_exposure rows = Ok ex -> row_clean (ex_funnel ex) = true /\ row_clean (ex_rate ex) = true.
Proof.
  unfold run_exposure. intros (stamped & _ & H)%bind_ok. cbv zeta in H. revert H.
  case_decide as Hs; [apply without_clean|].
  destruct (sorted_floats (distinct stamped)) as [|x [|y l]]; [apply without_clean..|].
  intros (o & _ & H)%bind_ok. destruct (fle o f0); [by apply without_clean in H|].
  apply bind_ok in H as (rate & _ & H). apply bind_ok in H as (r & Hr & [= <-]).
  split; [apply funnel_clean|]. by eapply available_clean.
Qed.

Lemma traverse_all {A B} (f : A -> result B) (P : B -> Prop) l ys :
  (forall x y, f x = Ok y -> P y) -> traverse f l = Ok ys -> Forall P ys.
Proof.
  intros H. revert ys. induction l as [|x l IH]; intros ys; cbn; [intros [= <-]; constructor|].
  intros (y & Hy & (ys' & Hys & [= <-])%bind_ok)%bind_ok. constructor; [by eapply H|by apply IH].
Qed.

Lemma market_clean records m : market_metrics records = Ok m ->
  row_clean (mk_rate m) = true /\ Forall (fun r => row_clean r = true) (mk_per_run m).
Proof.
  unfold market_metrics. intros (exposures & Hx & H)%bind_ok. cbv zeta in H.
  assert (P : Forall (fun p => row_clean (ex_funnel p.2) = true /\ row_clean (ex_rate p.2) = true) exposures).
  { eapply traverse_all; [|exact Hx]. intros p q (ex & Hex & [= <-])%bind_ok. by eapply exposure_clean. }
  apply bind_ok in H as ([rate observed] & Hrate & [= <-]). cbn [mk_rate mk_per_run]. split.
  - revert Hrate. repeat case_if_goal; intros (x & Hx' & H)%bind_ok.
    1-3: injection H as <- <-; by eapply unavailable_clean.
    apply bind_ok in H as (r & Hr & [= <- <-]). by eapply available_clean.
  - apply Forall_fmap. eapply Forall_impl; [exact P|]. intros [run ex] [H1 H2]. cbn [snd] in H1, H2.
    unfold compose, per_run_row. cbn [fst snd]. rewrite clean_cons, clean_app, H1. clean_members. exact H2.
Qed.

Lemma dates_clean records l : per_market_date records = Ok l -> Forall (fun r => row_clean r = true) l.
Proof.
  unfold per_market_date. intros (keys & _ & H)%bind_ok. eapply traverse_all; [|exact H].
  intros d r. cbv beta. intros (m & Hm & [= <-])%bind_ok. apply market_clean in Hm as [? _]. clean_members. done.
Qed.

Lemma feedback_clean rows trows r n : explicit_feedback rows trows = Ok (r, n) -> row_clean r = true.
Proof.
  unfold explicit_feedback. intros ([valid invalid] & _ & H)%bind_ok. cbv beta iota zeta in H.
  apply bind_ok in H as (u & Hu & H). apply bind_ok in H as (c & Hc & [= <- <-]).
  assert (row_clean u = true) by (destruct (length valid); [by eapply unavailable_clean|by eapply available_clean]).
  assert (row_clean c = true) by (destruct (presented_keys trows); [by eapply unavailable_clean|by eapply available_clean]).
  clean_members; done.
Qed.

Lemma bundle_clean samples stage b : latency_bundle samples stage = Ok b -> clean EVALUATION_ALLOWLIST b = true.
Proof.
  unfold latency_bundle. destruct (sorted_floats samples) as [|lo rest]; [intros [= <-]; by vm_compute|].
  intros (m & _ & (p & _ & [= <-])%bind_ok)%bind_ok. clean_members.
Qed.

Lemma intelligence_clean records names r a b : intelligence_section records names = Ok (r, a, b) -> row_clean r = true.
Proof.
  unfold intelligence_section.
  pose proof (by_reason_clean INTELLIGENCE_SKIPPED "decision_reason" KNOWN_SKIP_REASONS records) as C1.
  pose proof (by_reason_clean INTELLIGENCE_FALLBACK "fallback_reason" KNOWN_FALLBACK_REASONS records) as C2.
  destruct (by_reason INTELLIGENCE_SKIPPED _ _ _) as [s u]. destruct (by_reason INTELLIGENCE_FALLBACK _ _ _) as [f v].
  specialize (C1 ltac:(decide_now)). specialize (C2 ltac:(decide_now)). cbn [fst] in C1, C2.
  intros (latency & Hl & [= <- <- <-])%bind_ok.
  assert (row_clean latency = true).
  { revert Hl. cbn [traverse]. intros (l1 & H1 & (t1 & (l2 & H2 & (t2 & (l3 & H3 & (t3 & [= <-] & [= <-])%bind_ok)%bind_ok & [= <-])%bind_ok)%bind_ok & [= <-])%bind_ok)%bind_ok.
    apply bind_ok in H1 as (s1 & _ & (b1 & B1 & [= <-])%bind_ok). apply bind_ok in H2 as (s2 & _ & (b2 & B2 & [= <-])%bind_ok).
    apply bind_ok in H3 as (s3 & _ & (b3 & B3 & [= <-])%bind_ok). apply bundle_clean in B1, B2, B3. clean_members; done. }
  assert (row_clean (token_usage records) = true) by (unfold token_usage; destruct (filter _ records); clean_members).
  clean_members; done.
Qed.

(** ** Nearest rank *)
Lemma ffloor_val x : fin x -> ffloor x = Some (fval x / 2 ^ 1074).
Proof.
  intros [V F]. destruct x as [s|s| |s m e]; try done. cbn [ffloor fval]. f_equal.
  pose proof (valid_finite_inv _ _ _ V) as (_ & _ & L).
  destruct (Z.leb_spec 0 e).
  - rewrite (Z.pow_add_r 2 e) by lia. replace (sgn s (Zpos m * (2 ^ e * 2 ^ 1074))) with (sgn s (Zpos m * 2 ^ e) * 2 ^ 1074) by (destruct s; cbn; ring).
    rewrite Z.div_mul by lia. done.
  - replace (2 ^ 1074) with (2 ^ (- e) * 2 ^ (e + 1074)) by (rewrite <- Z.pow_add_r by lia; f_equal; lia).
    replace (sgn s (Zpos m * 2 ^ (e + 1074))) with (sgn s (Zpos m) * 2 ^ (e + 1074)) by (destruct s; cbn [sgn]; lia).
    by rewrite Z.div_mul_cancel_r by (apply Z.pow_nonzero; lia).
Qed.

Lemma fceil_val x : fin x -> fceil x = Some (- (- fval x / 2 ^ 1074)).
Proof. intros F. unfold fceil, fneg. rewrite ffloor_val by (by apply fin_opp). cbn. by rewrite fval_opp. Qed.

Lemma rnd_pos_shift n j : 0 < n < 2 ^ 53 -> 0 <= j -> rnd_pos (n * 2 ^ j) = n * 2 ^ j.
Proof.
  intros Hn Hj. destruct n as [|p|p]; [lia| |lia]. unfold rnd_pos, ulpx. rewrite bits_shift by lia. cbn [bits].
  assert (Hd : Zpos (digits2_pos p) <= 53).
  { destruct (Z.le_gt_cases (Zpos (digits2_pos p)) 53); [done|]. pose proof (digits2_pos_bound p).
    assert (2 ^ 53 <= 2 ^ (Zpos (digits2_pos p) - 1)) by (apply Z.pow_le_mono_r; lia). lia. }
  set (u := Z.max 0 (Zpos (digits2_pos p) + j - 53)).
  replace (Zpos p * 2 ^ j) with (Zpos p * 2 ^ (j - u) * 2 ^ u) by (rewrite <- Z.mul_assoc, <- Z.pow_add_r by lia; do 2 f_equal; lia).
  assert (0 < 2 ^ u) by (apply Z.pow_pos_nonneg; lia).
  rewrite rne_exact by (lia || apply Z.mod_mul; lia). rewrite Z.div_mul by lia. done.
Qed.

Lemma small_scaled n j : 0 < n < 2 ^ 53 -> 0 <= j <= 1074 -> 0 < n * 2 ^ j < fval_max.
Proof.
  intros Hn Hj. assert (0 < 2 ^ j) by (apply Z.pow_pos_nonneg; lia).
  assert (2 ^ j <= 2 ^ 1074) by (apply Z.pow_le_mono_r; lia). split; [lia|].
  apply Z.le_lt_trans with (2 ^ 53 * 2 ^ 1074); [nia|]. rewrite <- Z.pow_add_r by lia. rewrite fval_max_pow.
  apply Z.pow_lt_mono_r; lia.
Qed.

(** The length of a list as a float. *)
Lemma count_float n : (0 < n)%nat -> Z.of_nat n < 2 ^ 53 ->
  let x := default f0 (of_Z (Z.of_nat n)) in fin x /\ fval x = Z.of_nat n * 2 ^ 1074 /\ is_neg x = false.
Proof.
  intros Hn Hb. unfold of_Z. destruct (normalize_spec (Z.of_nat n) 0 false ltac:(lia)) as [N F].
  pose proof (small_scaled (Z.of_nat n) 1074 ltac:(lia) ltac:(lia)) as S.
  assert (F' : fval (binary_normalize 53 1024 (Z.of_nat n) 0 false) = Z.of_nat n * 2 ^ 1074).
  { rewrite F, Z.add_0_l. unfold rnd. destruct (Z.ltb_spec (Z.of_nat n * 2 ^ 1074) 0); [lia|].
    rewrite rnd_pos_shift by lia. apply clamp_small. lia. }
  pose proof (fval_sgn (binary_normalize 53 1024 (Z.of_nat n) 0 false)) as Sg. pose proof fval_max_big.
  pose proof (num_fin _ N ltac:(lia)) as Fi.
  destruct (binary_normalize 53 1024 (Z.of_nat n) 0 false) as [b|b| |b m e] eqn:E; cbn [default from_option id];
    try (by destruct Fi); (split; [done|]; split; [done|]); rewrite F' in Sg; cbn [is_neg] in *; destruct b; cbn [sgn] in Sg; (done || lia).
Qed.

(** [ceil(q * n)] for a factor [0 <= q <= 1]. *)
Definition scaled_ceil (q : float) (n : nat) : Z := default 1 (fceil (fmul q (default f0 (of_Z (Z.of_nat n))))).

Lemma scaled_mul q n : fin q -> 0 <= fval q <= one_val -> is_neg q = false -> (0 < n)%nat -> Z.of_nat n < 2 ^ 53 ->
  let y := fmul q (default f0 (of_Z (Z.of_nat n))) in
  fin y /\ fval y = rmul (fval q * (Z.of_nat n * 2 ^ 1074)) /\ 0 <= fval y <= Z.of_nat n * 2 ^ 1074.
Proof.
  intros Fq Hq Nq Hn Hb. destruct (count_float n Hn Hb) as (Fx & Vx & Nx). cbv zeta. set (x := default f0 _) in *.
  pose proof (small_scaled (Z.of_nat n) 1074 ltac:(lia) ltac:(lia)) as S.
  pose proof (rnd_pos_shift (Z.of_nat n) 1074 ltac:(lia) ltac:(lia)) as R.
  assert (B : Z.abs (fval q * fval x) <= Z.of_nat n * 2 ^ 1074 * 2 ^ 1074).
  { rewrite Vx. unfold one_val in Hq. assert (0 < 2 ^ 1074) by lia. nia. }
  pose proof (fin_fmul_bound q x (Z.of_nat n * 2 ^ 1074) Fq Fx ltac:(lia) R B) as Fy.
  pose proof (fmul_abs_le q x (Z.of_nat n * 2 ^ 1074) Fq Fx ltac:(lia) R B) as Ly.
  destruct (fmul_spec q x Fq Fx) as [_ E]. rewrite Nq, Nx in E. cbn [xorb sgn] in E.
  assert (P : 0 <= fval q * fval x) by nia. rewrite Z.abs_eq in E by done. rewrite Vx in E.
  assert (Rb : rmul (fval q * (Z.of_nat n * 2 ^ 1074)) <= Z.of_nat n * 2 ^ 1074).
  { rewrite Vx in B. rewrite <- R at 2. rewrite <- rmul_scale by lia. apply rmul_mono; [nia|lia]. }
  pose proof (rmul_nonneg (fval q * (Z.of_nat n * 2 ^ 1074)) ltac:(nia)) as Rp.
  rewrite clamp_small in E by lia. split; [done|]. split; [done|]. lia.
Qed.

Lemma scaled_ceil_bounds q n : fin q -> 0 <= fval q <= one_val -> is_neg q = false -> (0 < n)%nat -> Z.of_nat n < 2 ^ 53 ->
  0 <= scaled_ceil q n <= Z.of_nat n.
Proof.
  intros Fq Hq Nq Hn Hb. destruct (scaled_mul q n Fq Hq Nq Hn Hb) as (Fy & _ & By). unfold scaled_ceil.
  rewrite fceil_val by done. cbn [default from_option id]. revert By. generalize (fval (fmul q (default f0 (of_Z (Z.of_nat n))))). intros y By.
  assert (P : 0 < 2 ^ 1074) by lia.
  pose proof (Z.div_le_mono (- y) 0 (2 ^ 1074) P ltac:(lia)) as H1. rewrite Z.div_0_l in H1 by lia.
  pose proof (Z.div_le_mono (- Z.of_nat n * 2 ^ 1074) (- y) (2 ^ 1074) P ltac:(lia)) as H2. rewrite Z.div_mul in H2 by lia. lia.
Qed.

Lemma scaled_ceil_mono q q' n : fin q -> fin q' -> 0 <= fval q -> fval q <= fval q' -> fval q' <= one_val -> is_neg q = false -> is_neg q' = false ->
  (0 < n)%nat -> Z.of_nat n < 2 ^ 53 -> scaled_ceil q n <= scaled_ceil q' n.
Proof.
  intros Fq Fq' H0 Hle H1 Nq Nq' Hn Hb.
  destruct (scaled_mul q n Fq ltac:(lia) Nq Hn Hb) as (Fy & E & _). destruct (scaled_mul q' n Fq' ltac:(lia) Nq' Hn Hb) as (Fy' & E' & _).
  unfold scaled_ceil. rewrite !fceil_val by done. cbn [default from_option id]. rewrite E, E'.
  assert (rmul (fval q * (Z.of_nat n * 2 ^ 1074)) <= rmul (fval q' * (Z.of_nat n * 2 ^ 1074))) by (apply rmul_mono; nia).
  apply Z.opp_le_mono. rewrite !Z.opp_involutive. apply Z.div_le_mono; lia.
Qed.
Lemma percentile_factor pct : pct = 50 \/ pct = 95 ->
  exists q, fdiv (flit pct 0) (flit 100 0) = Some q /\ fin q /\ 0 <= fval q <= one_val /\ is_neg q = false /\
    (pct = 50 -> 2 * fval q = one_val) /\ (pct = 95 -> one_val <= 2 * fval q).
Proof.
  intros [->| ->].
  - exists (flit 5 1). split; [by vm_compute|]. split; [by vm_compute|]. by vm_compute.
  - exists (flit 95 2). split; [by vm_compute|]. split; [by vm_compute|]. by vm_compute.
Qed.

Lemma rank_bounds pct n : pct = 50 \/ pct = 95 -> (0 < n)%nat -> Z.of_nat n < 2 ^ 53 -> (1 <= percentile_rank pct n <= n)%nat.
Proof.
  intros Hp Hn Hb. destruct (percentile_factor pct Hp) as (q & E & F & B & N & _). unfold percentile_rank. rewrite E.
  pose proof (scaled_ceil_bounds q n F B N Hn Hb) as S. unfold scaled_ceil in S. lia.
Qed.
Lemma rank_order n : (0 < n)%nat -> Z.of_nat n < 2 ^ 53 -> (percentile_rank 50 n <= percentile_rank 95 n)%nat.
Proof.
  intros Hn Hb. destruct (percentile_factor 50 ltac:(by left)) as (q & E & F & B & N & M & _).
  destruct (percentile_factor 95 ltac:(by right)) as (q' & E' & F' & B' & N' & _ & M').
  unfold percentile_rank. rewrite E, E'. specialize (M eq_refl). specialize (M' eq_refl).
  pose proof (scaled_ceil_mono q q' n F F' ltac:(lia) ltac:(lia) ltac:(lia) N N' Hn Hb) as S. unfold scaled_ceil in S. lia.
Qed.
(** The median's rank is half the count, rounded up. *)
Lemma rank_median n : (0 < n)%nat -> Z.of_nat n < 2 ^ 53 -> Z.of_nat (percentile_rank 50 n) = (Z.of_nat n + 1) / 2.
Proof.
  intros Hn Hb. destruct (percentile_factor 50 ltac:(by left)) as (q & E & F & B & N & M & _). specialize (M eq_refl).
  unfold percentile_rank. rewrite E. destruct (scaled_mul q n F B N Hn Hb) as (Fy & V & _). rewrite fceil_val by done.
  cbn [default from_option id]. rewrite V.
  assert (Hq : fval q = 2 ^ 1073) by (unfold one_val in M; replace (2 ^ 1074) with (2 * 2 ^ 1073) in M by (rewrite <- Z.pow_succ_r by lia; done); lia).
  rewrite Hq. replace (2 ^ 1073 * (Z.of_nat n * 2 ^ 1074)) with (Z.of_nat n * 2 ^ 1073 * 2 ^ 1074) by ring.
  rewrite rmul_scale by lia. rewrite rnd_pos_shift by lia.
  replace (- (Z.of_nat n * 2 ^ 1073)) with (- Z.of_nat n * 2 ^ 1073) by ring.
  replace (2 ^ 1074) with (2 * 2 ^ 1073) by (rewrite <- Z.pow_succ_r by lia; done).
  rewrite Z.div_mul_cancel_r by lia. rewrite Z2Nat.id by lia. Z.to_euclidean_division_equations. lia.
Qed.

Lemma float_le_val x y : PyFloat.num x -> PyFloat.num y -> float_le x y = (fval x <=? fval y).
Proof. intros Hx Hy. unfold float_le. rewrite flt_val by done. destruct (Z.ltb_spec (fval y) (fval x)), (Z.leb_spec (fval x) (fval y)); (done || lia). Qed.

Lemma strongly_sorted_lookup {A} (R : A -> A -> Prop) l i j x y :
  StronglySorted R l -> (i < j)%nat -> l !! i = Some x -> l !! j = Some y -> R x y.
Proof.
  intros H. revert i j. induction H as [|a l Hs IH Ha]; intros i j Hij Hx Hy; [done|].
  destruct j as [|j]; [lia|]. destruct i as [|i]; cbn in Hx, Hy.
  - simplify_eq. rewrite Forall_forall in Ha. apply Ha. by eapply list_elem_of_lookup_2.
  - apply (IH i j); (done || lia).
Qed.

(** The order statistics of finite samples. *)
Lemma sorted_floats_spec l : Forall PyFloat.num l ->
  Forall PyFloat.num (sorted_floats l) /\ length (sorted_floats l) = length l /\
  forall i j x y, (i <= j)%nat -> sorted_floats l !! i = Some x -> sorted_floats l !! j = Some y -> fval x <= fval y.
Proof.
  intros H. assert (Hn : Forall PyFloat.num (sorted_floats l)) by (unfold sorted_floats; by rewrite sort_by_perm).
  split; [done|]. split; [unfold sorted_floats; by rewrite sort_by_perm|].
  assert (S : StronglySorted (fun a b => float_le a b = true) (sorted_floats l)).
  { apply (sort_by_sorted float_le PyFloat.num); [| |done].
    - intros x y Hx Hy. rewrite !float_le_val by done. lia.
    - intros x y z Hx Hy Hz. rewrite !float_le_val by done. lia. }
  intros i j x y Hij Hx Hy. destruct (decide (i = j)) as [->|]; [by simplify_eq|].
  pose proof (strongly_sorted_lookup _ _ i j x y S ltac:(lia) Hx Hy) as L. rewrite Forall_forall in Hn.
  cbv beta in L. rewrite float_le_val in L by (apply Hn; by eapply list_elem_of_lookup_2). lia.
Qed.

Lemma sorted_twice l : Forall PyFloat.num l -> sorted_floats (sorted_floats l) = sorted_floats l.
Proof.
  intros H. destruct (sorted_floats_spec l H) as (Hn & _ & Hs). revert Hn Hs. generalize (sorted_floats l). clear.
  intros k. induction k as [|x k IH]; [done|]. intros Hn Hs. apply Forall_cons in Hn as [Hx Hn].
  unfold sorted_floats in *. cbn [sort_by]. rewrite IH; [|done|intros i j a b Hij; apply (Hs (S i) (S j)); lia].
  destruct k as [|y k]; [done|]. cbn [insert_by]. apply Forall_cons in Hn as [Hy _].
  rewrite float_le_val by done. specialize (Hs 0%nat 1%nat x y ltac:(lia) eq_refl eq_refl).
  by destruct (Z.leb_spec (fval x) (fval y)); [|lia].
Qed.
(** ** Properties *)

Lemma report_sanitized loaded run_id cluster_seen feedback r :
  evaluate loaded run_id cluster_seen feedback = Ok r -> report_to_record r = Ok (report_raw r).
Proof.
  unfold evaluate. cbv zeta.
  intros ([[intel su] fu] & Hintel & H)%bind_ok. cbv beta iota in H.
  pose proof (by_reason_clean ALERT_SUPPRESSED "suppression_reason" KNOWN_SUPPRESSION_REASONS (selected run_id (lt_records loaded))) as C1.
  fold (suppression (selected run_id (lt_records loaded))) in C1. destruct (suppression _) as [sup pu].
  specialize (C1 ltac:(decide_now)). cbn [fst] in C1.
  apply bind_ok in H as (market & Hm & H). apply bind_ok in H as (dates & Hd & H).
  apply bind_ok in H as ([fb inv] & Hf & H). cbv beta iota in H. apply bind_ok in H as (meta & Hmeta & H).
  apply bind_ok in H as (quality & Hq & H). apply bind_ok in H as (hs & Hh & [= <-]).
  apply market_clean in Hm as [Cm Cr]. apply dates_clean in Hd. apply feedback_clean in Hf. apply intelligence_clean in Hintel.
  apply bind_ok in Hmeta as (ds & _ & [= <-]). apply bind_ok in Hq as (ts & _ & [= <-]).
  apply bind_ok in Hh as (u & Hu & [= <-]).
  apply sanitize_clean. unfold report_raw. cbn [rp_metadata rp_data_quality rp_pipeline rp_alert_noise rp_host_interaction
    rp_intelligence rp_per_symbol rp_per_run rp_per_market_date rp_explicit_feedback].
  assert (forall p, row_clean (od_set "producer" (JStr p) u) = true).
  { intros p. unfold unavailable in Hu. rewrite project_id in Hu by (decide_now). injection Hu as <-. by vm_compute. }
  assert (Forall (fun r => row_clean r = true) (per_symbol (selected run_id (lt_records loaded)))).
  { unfold per_symbol. apply Forall_fmap, Forall_forall. intros p _.
    change (row_clean (("symbol", JStr p.1) :: funnel p.2) = true). rewrite clean_cons, funnel_clean. clean_members. }
  assert (row_clean (alert_noise (selected run_id (lt_records loaded)) market sup pu) = true).
  { unfold alert_noise. destruct (repeated_episodes _) as [rs ea]. clean_members; done. }
  assert (row_clean (pipeline (selected run_id (lt_records loaded)) (strings_at "name" (selected run_id (lt_records loaded))) cluster_seen) = true).
  { unfold pipeline. clean_members. }
  match goal with |- clean _ (JObj ?x) = true => change (row_clean x = true) end.
  repeat (rewrite clean_cons; match goal with |- bool_decide ?P && _ && _ = true =>
    rewrite (bool_decide_eq_true_2 P) by (decide_now); cbn [andb] end; apply andb_true_intro; split);
    try done; try (by apply clean_rows).
  - destruct run_id; clean_members.
  - destruct ts; clean_members.
  - destruct u; clean_members; done.
Qed.

(** The alert rate of a report is one of the two metric records. *)
Lemma market_rate records m : market_metrics records = Ok m ->
  (exists reason, mk_rate m = unavailable_row reason None) \/ exists x, mk_rate m = available_row x.
Proof.
  assert (U : forall reason r, unavailable reason None = Ok r -> r = unavailable_row reason None)
    by (intros reason r; unfold unavailable; rewrite project_id by decide_now; by intros [= <-]).
  unfold market_metrics. intros (exposures & _ & H)%bind_ok. cbv zeta in H. apply bind_ok in H as ([rate observed] & Hrate & [= <-]). cbn [mk_rate].
  revert Hrate. repeat case_if_goal; intros (x & Hx & H)%bind_ok.
  1-3: injection H as <- <-; left; eexists; by apply U.
  right. apply bind_ok in H as (r & Hr & [= <- <-]). exists x. unfold available_value in Hr. rewrite project_id in Hr by decide_now. by injection Hr.
Qed.
Lemma evaluate_sections loaded run_id cluster_seen feedback r : evaluate loaded run_id cluster_seen feedback = Ok r ->
  let records := selected run_id (lt_records loaded) in
  exists market, market_metrics records = Ok market /\ rp_pipeline r = pipeline records (strings_at "name" records) cluster_seen /\
    rp_alert_noise r = alert_noise records market (suppression records).1 (suppression records).2.
Proof.
  unfold evaluate. cbv zeta. intros ([[intel su] fu] & _ & H)%bind_ok. cbv beta iota in H. destruct (suppression _) as [sup pu].
  apply bind_ok in H as (market & Hm & H). exists market. split; [done|]. apply bind_ok in H as (dates & _ & H).
  apply bind_ok in H as ([fb inv] & _ & H). cbv beta iota in H. apply bind_ok in H as (meta & _ & H).
  apply bind_ok in H as (quality & _ & H). by apply bind_ok in H as (hs & _ & [= <-]).
Qed.
Lemma noise_rate records market sup unknown : od_get "alerts_per_market_hour" (alert_noise records market sup unknown) = Some (JObj (mk_rate market)).
Proof. unfold alert_noise. by destruct (repeated_episodes _). Qed.

(** [report_complete] the sanitiser of a report never refuses it and drops nothing of it: every key that any
    section can produce is in the evaluation allow list and none is in the deny list. *)
Theorem report_complete loaded run_id cluster_seen feedback r :
  evaluate loaded run_id cluster_seen feedback = Ok r -> report_to_record r = Ok (report_raw r).
Proof. apply report_sanitized. Qed.

Definition sample_row (name : TelemetryName) (extra : row) : row :=
  [("telemetry_id", JStr "t"); ("name", JStr (name_value name)); ("kind", JStr (kind_value (kind_for name)));
   ("created_timestamp", JFloat (flit 1700000000 0)); ("run_id", JStr "run")] ++ extra.
Definition sample_rows : list row :=
  [sample_row EVENT_GENERATED [("market_timestamp", JFloat (flit 1700013600 0)); ("symbol", JStr "600519.SH")];
   sample_row ALERT_CANDIDATE [("market_timestamp", JFloat (flit 1700015400 0)); ("symbol", JStr "600519.SH");
                               ("signal_id", JStr "s"); ("priority", JStr (priority_value NOTICE))];
   sample_row ALERT_PRESENTED [("symbol", JStr "600519.SH"); ("signal_id", JStr "s")];
   sample_row INTELLIGENCE_LATENCY [("signal_id", JStr "s"); ("latency_stage", JStr "model"); ("latency_s", JFloat (flit 3 1))]].
Definition sample_loaded : LoadedTelemetry := mkLoaded sample_rows ["telemetry.jsonl"] 4 0 false true.
Definition sample_feedback : LoadedTelemetry :=
  mkLoaded [[("feedback_id", JStr "f"); ("created_timestamp", JFloat (flit 1700015500 0)); ("run_id", JStr "run"); ("label", JStr "useful");
             ("signal_id", JStr "s")]] ["feedback.jsonl"] 1 0 false true.
Definition sample_report : result EvaluationReport := evaluate sample_loaded None None (Some sample_feedback).

Lemma report_complete_witness : exists r, sample_report = Ok r /\ report_to_record r = Ok (report_raw r) /\
  od_get "alerts_per_market_hour" (rp_alert_noise r) = Some (JObj (available_row (flit 2 0))).
Proof.
  destruct sample_report as [r|] eqn:E; [|vm_compute in E; discriminate].
  exists r. split; [done|]. split; [exact (report_complete _ _ _ _ _ E)|].
  assert (sample_report = Ok r) as E' by exact E. vm_compute in E'. injection E' as <-. vm_compute. reflexivity.
Defined.

(** ** Latency *)
Lemma percentile_sorted pct k : sorted_floats k = k -> pct = 50 \/ pct = 95 -> (0 < length k)%nat -> Z.of_nat (length k) < 2 ^ 53 ->
  exists v, percentile k pct = Ok (Some v) /\ k !! (percentile_rank pct (length k) - 1)%nat = Some v.
Proof.
  intros E Hp Hl Hb. pose proof (rank_bounds pct (length k) Hp Hl Hb) as R.
  destruct (lookup_lt_is_Some_2 k (percentile_rank pct (length k) - 1)) as [v Hv]; [lia|]. exists v. split; [|done].
  unfold percentile. destruct k as [|x k']; [cbn in Hl; lia|]. rewrite E, Hv. done.
Qed.

Lemma filter_all {A} (P : A -> Prop) `{!forall x, Decision (P x)} (l : list A) : Forall P l -> filter P l = l.
Proof. induction 1 as [|x l Hx _ IH]; [done|]. by rewrite filter_cons_True, IH. Qed.

Lemma count_prefix {A} (P : A -> Prop) `{!forall x, Decision (P x)} (k : list A) n : (n <= length k)%nat ->
  (forall i x, (i < n)%nat -> k !! i = Some x -> P x) -> (n <= length (filter P k))%nat.
Proof.
  intros Hn HP. rewrite <- (take_drop n k), filter_app, length_app.
  assert (filter P (take n k) = take n k) as ->.
  { apply filter_all. apply Forall_lookup. intros i x Hi. apply lookup_take_Some in Hi as [Hi Hl]. by eapply HP. }
  rewrite length_take. lia.
Qed.

(** [latency_bundle_spec] the latency summary of finite samples: it never fails; the reported minimum, median, 95th
    percentile and maximum are samples, in that order; the extremes bound every sample and at
    least half of the samples are at most the median. *)
Theorem latency_bundle_spec samples stage :
  samples <> [] -> Forall PyFloat.num samples -> Z.of_nat (length samples) < 2 ^ 53 ->
  exists lo median p95 hi,
    latency_bundle samples stage = Ok (JObj [("stage", JStr stage); ("count", jnum (length samples)); ("min_s", JFloat lo);
      ("median_s", JFloat median); ("p95_s", JFloat p95); ("max_s", JFloat hi)]) /\
    Forall (fun x => x ∈ samples) [lo; median; p95; hi] /\
    fval lo <= fval median <= fval p95 /\ fval p95 <= fval hi /\
    (forall x, x ∈ samples -> fval lo <= fval x <= fval hi) /\
    (length samples <= 2 * length (filter (fun x => fval x <= fval median)%Z samples))%nat.
Proof.
  intros Hne Hn Hb. destruct (sorted_floats_spec samples Hn) as (Hk & Hlen & Hs). pose proof (sorted_twice samples Hn) as Hid.
  assert (Hperm : sorted_floats samples ≡ₚ samples) by apply sort_by_perm.
  assert (Hpos : (0 < length (sorted_floats samples))%nat) by (rewrite Hlen; destruct samples; [done|cbn; lia]).
  rewrite <- Hlen in Hb. destruct (percentile_sorted 50 _ Hid ltac:(by left) Hpos Hb) as (m & Em & Lm).
  destruct (percentile_sorted 95 _ Hid ltac:(by right) Hpos Hb) as (p & Ep & Lp).
  pose proof (rank_order _ Hpos Hb) as Hord. pose proof (rank_bounds 95 _ ltac:(by right) Hpos Hb) as R95.
  pose proof (rank_bounds 50 _ ltac:(by left) Hpos Hb) as R50. pose proof (rank_median _ Hpos Hb) as Rm.
  destruct (lookup_lt_is_Some_2 (sorted_floats samples) (length (sorted_floats samples) - 1)) as [hi Hhi]; [lia|].
  assert (Hlast : last (sorted_floats samples) = Some hi) by (rewrite last_lookup, <- Hhi; f_equal; lia).
  destruct (sorted_floats samples) as [|lo rest] eqn:Ek; [cbn in Hpos; lia|]. exists lo, m, p, hi.
  assert (Hlo : (lo :: rest) !! 0%nat = Some lo) by done.
  split; [unfold latency_bundle; rewrite Ek, Em, Ep; cbn [mbind result_bind]; by rewrite Hlast, Hlen|].
  assert (Hin : forall i x, (lo :: rest) !! i = Some x -> x ∈ samples) by (intros i x Hx; rewrite <- Hperm; by eapply list_elem_of_lookup_2).
  split; [repeat constructor; eauto|]. split; [split; [eapply Hs; [|exact Hlo|exact Lm]; lia|eapply Hs; [|exact Lm|exact Lp]; lia]|].
  split; [eapply Hs; [|exact Lp|exact Hhi]; lia|]. split.
  - intros x Hx. rewrite <- Hperm in Hx. apply list_elem_of_lookup_1 in Hx as [i Hi]. pose proof (lookup_lt_Some _ _ _ Hi) as Li.
    split; [eapply Hs; [|exact Hlo|exact Hi]; lia|eapply Hs; [|exact Hi|exact Hhi]; lia].
  - rewrite <- Hperm. assert (C : (percentile_rank 50 (length (lo :: rest)) <= length (filter (fun x => fval x <= fval m)%Z (lo :: rest)))%nat).
    { apply count_prefix; [lia|]. intros i x Hi Hx. eapply Hs; [|exact Hx|exact Lm]; lia. }
    set (n := length (lo :: rest)) in *. revert Rm C. generalize (percentile_rank 50 n). intros k Rm C.
    assert (Z.of_nat n <= 2 * Z.of_nat k); [rewrite Rm; Z.to_euclidean_division_equations; lia|lia].
Qed.

Lemma latency_bundle_spec_witness : exists lo median p95 hi,
  latency_bundle [flit 3 1; flit 1 1; flit 25 2] "model" = Ok (JObj [("stage", JStr "model"); ("count", JInt 3); ("min_s", JFloat lo);
      ("median_s", JFloat median); ("p95_s", JFloat p95); ("max_s", JFloat hi)]) /\ median = flit 25 2.
Proof.
  destruct (latency_bundle_spec [flit 3 1; flit 1 1; flit 25 2] "model") as (lo & m & p & hi & E & _).
  - done.
  - by repeat (constructor; [by vm_compute|]).
  - done.
  - exists lo, m, p, hi. split; [exact E|]. vm_compute in E. by injection E as <- <- <- <-.
Defined.

(** ** Groups *)
Definition keyed (key : row -> option string) (rows : list row) : list row := filter (fun r => bool_decide (is_Some (key r)) = true) rows.

Lemma od_set_perm {V} (k : string) (v : V) (d : list (string * V)) : NoDup d.*1 ->
  od_set k v d ≡ₚ (k, v) :: filter (fun p => p.1 <> k) d.
Proof.
  induction d as [|[a b] d IH]; intros Hnd; [done|]. apply NoDup_cons in Hnd as [Ha Hnd]. cbn [od_set]. case_decide as Hk.
  - subst a. rewrite filter_cons_False by (cbn; auto). constructor. rewrite filter_all; [done|].
    apply Forall_forall. intros [c e] Hc. cbn. intros ->. apply Ha. by apply (list_elem_of_fmap_2 fst) in Hc.
  - rewrite filter_cons_True by (cbn; congruence). rewrite (IH Hnd). apply Permutation_swap.
Qed.

Lemma od_get_perm {V} (k : string) (v : V) (d : list (string * V)) : NoDup d.*1 -> od_get k d = Some v ->
  d ≡ₚ (k, v) :: filter (fun p => p.1 <> k) d.
Proof.
  intros Hnd E. rewrite <- (od_set_perm k v d Hnd). revert Hnd E. induction d as [|[a b] d IH]; [done|]. cbn.
  intros [Ha Hnd]%NoDup_cons. case_decide; [intros; simplify_eq; done|]. intros E. by rewrite <- IH.
Qed.

(** The rows of a group list, all together. *)
Definition rows_of (g : list (string * list row)) : list row := g ≫= snd.
#[export] Instance rows_of_proper : Proper ((≡ₚ) ==> (≡ₚ)) rows_of.
Proof. intros g g' H. unfold rows_of. by rewrite H. Qed.

Lemma group_step key g r : NoDup g.*1 ->
  let g' := match key r with Some k => od_set k (default [] (od_get k g) ++ [r]) g | None => g end in
  NoDup g'.*1 /\ rows_of g' ≡ₚ rows_of g ++ keyed key [r].
Proof.
  intros Hnd. unfold keyed. destruct (key r) as [k|] eqn:E; cbn zeta.
  - split; [by apply od_set_nodup|]. rewrite filter_cons_True by (by rewrite E). rewrite filter_nil.
    rewrite od_set_perm by done. change (rows_of ((k, ?a) :: ?b)) with (a ++ rows_of b).
    destruct (od_get k g) as [v|] eqn:Eg; cbn [default from_option id].
    + rewrite (od_get_perm k v g Hnd Eg) at 2. change (rows_of ((k, v) :: ?b)) with (v ++ rows_of b). solve_Permutation.
    + apply od_get_None in Eg. rewrite filter_all; [cbn; solve_Permutation|]. apply Forall_forall. intros p Hp Hk. subst k.
      apply Eg. by apply list_elem_of_fmap_2.
  - split; [done|]. rewrite filter_cons_False by (by rewrite E). by rewrite filter_nil, app_nil_r.
Qed.

Lemma group_by_spec key rows : NoDup (group_by key rows).*1 /\ rows_of (group_by key rows) ≡ₚ keyed key rows.
Proof.
  unfold group_by.
  assert (H : forall rows g, NoDup g.*1 ->
    let g' := foldl (fun acc r => match key r with Some k => od_set k (default [] (od_get k acc) ++ [r]) acc | None => acc end) g rows in
    NoDup g'.*1 /\ rows_of g' ≡ₚ rows_of g ++ keyed key rows).
  { clear rows. induction rows as [|r rows IH]; intros g Hnd; [cbn; by rewrite app_nil_r|]. cbn [foldl].
    destruct (group_step key g r Hnd) as [N P]. destruct (IH _ N) as [N' P']. split; [done|]. rewrite P', P, <- app_assoc.
    f_equiv. unfold keyed. by rewrite <- filter_app. }
  destruct (H rows [] (NoDup_nil_2)) as [N P]. split; [done|]. by rewrite P.
Qed.

(** The groups in sorted order hold the same rows. *)
Lemma sorted_groups_spec key rows : rows_of (sorted_groups key rows) ≡ₚ keyed key rows.
Proof.
  destruct (group_by_spec key rows) as [N P]. rewrite <- P. unfold sorted_groups. cbn zeta.
  set (g := group_by key rows) in *. clearbody g. clear P.
  rewrite (sort_by_perm String.leb g.*1).
  assert (E : (fun k => (k, default [] (od_get k g))) <$> g.*1 = g); [|by rewrite E].
  assert (H : forall h, (forall k v, (k, v) ∈ h -> od_get k g = Some v) -> (fun k => (k, default [] (od_get k g))) <$> h.*1 = h).
  { induction h as [|[k v] h IH]; intros H; [done|]. cbn. rewrite (H k v) by left. cbn. f_equal. apply IH. intros. apply H. by right. }
  apply H. intros k v. by apply od_elem_get.
Qed.

Lemma rows_of_sum (f : row -> bool) g : foldr Nat.add 0%nat ((fun p => count_rows f p.2) <$> g) = count_rows f (rows_of g).
Proof.
  induction g as [|p g IH]; [done|]. cbn. rewrite IH. unfold count_rows. unfold rows_of. cbn. by rewrite filter_app, length_app.
Qed.
#[export] Instance count_rows_proper f : Proper ((≡ₚ) ==> eq) (count_rows f).
Proof. intros l l' H. unfold count_rows. by rewrite H. Qed.

(** [_count(names, name)] counts the rows of that name. *)
Lemma count_name_rows n rows : count_name (strings_at "name" rows) n = count_rows (named n) rows.
Proof.
  unfold count_name, strings_at, count_rows. induction rows as [|r rows IH]; [done|]. cbn [omap list_omap].
  rewrite (filter_cons (fun r => named n r = true)).
  destruct (decide (named n r = true)) as [H|H]; unfold named in H; destruct (get r "name") as [| | | |s| |]; cbn [as_str is_str] in *; try done.
  - apply bool_decide_eq_true in H. rewrite filter_cons_True by done. cbn. by f_equal.
  - rewrite filter_cons_False; [done|]. intros E. apply H. by apply bool_decide_eq_true.
Qed.

(** ** Totals *)
Definition FUNNEL : list (string * TelemetryName) :=
  [("events_generated", EVENT_GENERATED); ("signal_episodes_created", SIGNAL_EPISODE_CREATED); ("alert_candidates", ALERT_CANDIDATE);
   ("alert_suppressed", ALERT_SUPPRESSED); ("alerts_presented", ALERT_PRESENTED)].
(** The count a report row carries at a key. *)
Definition value_at (k : string) (r : row) : Z := match get r k with JInt n => n | _ => 0 end.
Definition total_at (k : string) (rows : list row) : Z := foldr Z.add 0 (value_at k <$> rows).

Lemma exposure_funnel rows ex : run_exposure rows = Ok ex -> ex_funnel ex = funnel rows.
Proof.
  unfold run_exposure. intros (stamped & _ & H)%bind_ok. cbv zeta in H. revert H.
  assert (W : forall reason observed scope candidates ex,
    (r ← unavailable reason None; Ok (mkExposure (funnel rows) observed r scope candidates false)) = Ok ex -> ex_funnel ex = funnel rows)
    by (intros; apply bind_ok in H as (r & _ & H); by injection H as <-).
  case_decide as Hs; [apply W|]. destruct (sorted_floats (distinct stamped)) as [|x [|y l]]; [apply W..|].
  intros (o & _ & H)%bind_ok. destruct (fle o f0); [by apply W in H|].
  apply bind_ok in H as (rate & _ & H). apply bind_ok in H as (r & _ & H). by injection H as <-.
Qed.

Lemma funnel_value k n rows : (k, n) ∈ FUNNEL -> value_at k (funnel rows) = Z.of_nat (count_rows (named n) rows).
Proof.
  intros H. unfold FUNNEL in H. rewrite <- count_name_rows.
  repeat (apply elem_of_cons in H as [[= -> ->]|H]; [reflexivity|]). by apply elem_of_nil in H.
Qed.
Lemma funnel_key k n key v tail rows : (k, n) ∈ FUNNEL -> key <> k ->
  value_at k ((key, v) :: funnel rows ++ tail) = Z.of_nat (count_rows (named n) rows).
Proof.
  intros H Hk. rewrite <- (funnel_value k n rows H). unfold value_at, get, jget. cbn [od_get]. rewrite decide_False by congruence.
  unfold FUNNEL in H. repeat (apply elem_of_cons in H as [[= -> ->]|H]; [reflexivity|]). by apply elem_of_nil in H.
Qed.
Lemma pipeline_value k n rows seen : (k, n) ∈ FUNNEL ->
  value_at k (pipeline rows (strings_at "name" rows) seen) = Z.of_nat (count_rows (named n) rows).
Proof.
  intros H. unfold FUNNEL in H. rewrite <- count_name_rows.
  repeat (apply elem_of_cons in H as [[= -> ->]|H]; [reflexivity|]). by apply elem_of_nil in H.
Qed.
Lemma FUNNEL_keys k n : (k, n) ∈ FUNNEL -> "run_id" <> k /\ "symbol" <> k.
Proof.
  intros H. unfold FUNNEL in H. repeat (apply elem_of_cons in H as [[= -> ->]|H]; [done|]). by apply elem_of_nil in H.
Qed.

Lemma traverse_Forall2_inv {A B} (f : A -> result B) l : forall ys, traverse f l = Ok ys -> Forall2 (fun x y => f x = Ok y) l ys.
Proof.
  induction l as [|x l IH]; intros ys; cbn; [by intros [= <-]|].
  intros (y & Hy & (ys' & Hys & [= <-])%bind_ok)%bind_ok. constructor; auto.
Qed.

Lemma per_run_total records m k n : market_metrics records = Ok m -> (k, n) ∈ FUNNEL ->
  total_at k (mk_per_run m) = Z.of_nat (count_rows (named n) (keyed (fun r => as_str (get r "run_id")) records)).
Proof.
  unfold market_metrics. intros (exposures & Hx & H)%bind_ok Hk. cbv zeta in H. apply bind_ok in H as ([rate observed] & _ & [= <-]).
  cbn [mk_per_run]. rewrite <- sorted_groups_spec, <- rows_of_sum. apply traverse_Forall2_inv in Hx. unfold total_at. fold (group_by_run records).
  induction Hx as [|p q g ex Hp _ IH]; [done|]. cbn [fmap list_fmap foldr]. rewrite IH, Nat2Z.inj_add. f_equal.
  apply bind_ok in Hp as (e & He & [= <-]). unfold per_run_row. cbn [fst snd]. rewrite (exposure_funnel _ _ He).
  apply funnel_key; [done|]. by apply FUNNEL_keys in Hk as [? _].
Qed.
Lemma per_symbol_total records k n : (k, n) ∈ FUNNEL ->
  total_at k (per_symbol records) = Z.of_nat (count_rows (named n) (keyed (fun r => as_str (get r "symbol")) records)).
Proof.
  intros Hk. unfold per_symbol. rewrite <- sorted_groups_spec, <- rows_of_sum. unfold total_at.
  induction (sorted_groups _ records) as [|p g IH]; [done|]. cbn [fmap list_fmap foldr]. rewrite IH, Nat2Z.inj_add. f_equal.
  rewrite <- (app_nil_r (funnel p.2)). apply funnel_key; [done|]. by apply FUNNEL_keys in Hk as [_ ?].
Qed.

Lemma keyed_le f key rows : (count_rows f (keyed key rows) <= count_rows f rows)%nat.
Proof.
  unfold count_rows, keyed. induction rows as [|r rows IH]; [done|]. rewrite !filter_cons.
  repeat (case_decide; rewrite ?filter_cons; cbn [length]); try lia.
Qed.

(** [report_totals] the breakdowns of a report agree with its totals: for each of the five funnel counts, the
    rows per run add up to the pipeline total when every evaluated record carries a run id,
    and the rows per symbol add up to at most it. *)
Theorem report_totals loaded run_id cluster_seen feedback r k n :
  evaluate loaded run_id cluster_seen feedback = Ok r -> (k, n) ∈ FUNNEL ->
  let records := selected run_id (lt_records loaded) in
  (Forall (fun row => is_Some (as_str (get row "run_id"))) records ->
   total_at k (rp_per_run r) = value_at k (rp_pipeline r)) /\
  0 <= total_at k (rp_per_symbol r) <= value_at k (rp_pipeline r) /\
  total_at k (rp_per_run r) <= value_at k (rp_pipeline r).
Proof.
  unfold evaluate. cbv zeta. set (records := selected run_id (lt_records loaded)).
  intros ([[intel su] fu] & _ & H)%bind_ok Hk. cbv beta iota in H. destruct (suppression records) as [sup pu].
  apply bind_ok in H as (market & Hm & H). apply bind_ok in H as (dates & _ & H).
  apply bind_ok in H as ([fb inv] & _ & H). cbv beta iota in H. apply bind_ok in H as (meta & _ & H).
  apply bind_ok in H as (quality & _ & H). apply bind_ok in H as (hs & _ & [= <-]).
  cbn [rp_per_run rp_pipeline rp_per_symbol]. fold (strings_at "name" records).
  rewrite (per_run_total _ _ _ _ Hm Hk), (pipeline_value _ _ _ _ Hk), (per_symbol_total _ _ _ Hk).
  pose proof (keyed_le (named n) (fun r => as_str (get r "run_id")) records).
  pose proof (keyed_le (named n) (fun r => as_str (get r "symbol")) records). split; [|lia].
  intros Hall. unfold keyed. rewrite filter_all; [done|]. eapply Forall_impl; [exact Hall|]. intros x Hx. by apply bool_decide_eq_true.
Qed.

Lemma report_totals_witness : exists r, sample_report = Ok r /\ total_at "alert_candidates" (rp_per_run r) = 1 /\
  value_at "alert_candidates" (rp_pipeline r) = 1.
Proof.
  destruct sample_report as [r|] eqn:E; [|vm_compute in E; discriminate]. exists r. split; [done|].
  destruct (report_totals _ _ _ _ r "alert_candidates" ALERT_CANDIDATE E ltac:(right; right; left)) as (T & _).
  assert (sample_report = Ok r) as E' by exact E.
  rewrite T by (decide_now). vm_compute in E'. injection E' as <-. vm_compute. split; reflexivity.
Defined.

(** ** The rows the producer writes *)
Definition telemetry_row (e : TelemetryEvent) : result row := rec ← to_record e; to_row rec.

Lemma telemetry_row_get e r : telemetry_row e = Ok r ->
  get r "name" = JStr (name_value (te_name e)) /\
  get r "priority" = match te_priority e with Some s => JStr s | None => JNull end.
Proof.
  unfold telemetry_row, to_record. rewrite project_id by decide_now. cbn [mbind result_bind]. intros H.
  assert (G : forall l r', to_row l = Ok r' -> forall k v, od_get k l = Some v -> exists j, to_json v = Ok j /\ od_get k r' = Some j).
  { clear. induction l as [|[a b] l IH]; intros r' H k v; [done|]. unfold to_row in H. cbn [traverse] in H.
    apply bind_ok in H as (p & Hp & H). apply bind_ok in Hp as (j & Hj & [= <-]). apply bind_ok in H as (q & Hq & [= <-]).
    cbn [od_get]. cbn in Hj. case_decide as Hd; [intros [= <-]; by exists j|]. by apply IH. }
  destruct (G _ _ H "name" _ eq_refl) as (j1 & [= <-] & E1).
  destruct (G _ _ H "priority" _ eq_refl) as (j2 & E2 & E3). unfold get, jget. rewrite E1, E3. split; [done|].
  destruct (te_priority e); cbn in E2; by injection E2 as <-.
Qed.

Lemma count_at_cons k s r rows : count_at k s (r :: rows) = ((if is_str (get r k) s then 1 else 0) + count_at k s rows)%nat.
Proof. unfold count_at, count_rows. rewrite filter_cons. case_decide as H; [by rewrite H|]. by destruct (is_str (get r k) s). Qed.

Lemma count_at_none k s rows : (forall r, r ∈ rows -> get r k <> JStr s) -> count_at k s rows = 0%nat.
Proof.
  intros H. unfold count_at, count_rows. induction rows as [|r rows IH]; [done|]. rewrite filter_cons_False.
  - apply IH. intros x Hx. apply H. by right.
  - intros E. apply (H r); [left|]. destruct (get r k); try done. cbn in E. apply bool_decide_eq_true in E. by subst.
Qed.

(** C40: the alert-noise section counts no alert of the program's own journal by priority: the
    pipeline records [SignalPriority] values, which are lower case, and the section looks for
    the upper-case names, so its four counts are zero and its ratio is absent. *)
Theorem noise_misses_priorities es records market sup unknown :
  traverse telemetry_row es = Ok records ->
  Forall (fun e => te_name e = ALERT_CANDIDATE -> exists p, te_priority e = Some (priority_value p)) es ->
  let noise := alert_noise records market sup unknown in
  value_at "info_count" noise = 0 /\ value_at "notice_count" noise = 0 /\ value_at "important_count" noise = 0 /\
  value_at "critical_count" noise = 0 /\ get noise "important_critical_ratio" = JNull.
Proof.
  intros Hr Hes. apply traverse_Forall2_inv in Hr.
  assert (H : forall r, r ∈ filter (fun r => named ALERT_CANDIDATE r = true) records -> exists p, get r "priority" = JStr (priority_value p)).
  { intros r (Hn & Hin)%list_elem_of_filter. apply list_elem_of_lookup_1 in Hin as [i Hi].
    destruct (Forall2_lookup_r _ _ _ _ _ Hr Hi) as (e & He & Ee). apply telemetry_row_get in Ee as [En Ep].
    rewrite Forall_forall in Hes. destruct (Hes e) as [p Hp]; [by eapply list_elem_of_lookup_2| |exists p; by rewrite Ep, Hp].
    unfold named in Hn. rewrite En in Hn. cbn in Hn. apply bool_decide_eq_true in Hn. by destruct (te_name e). }
  assert (Z0 : forall s, s ∈ PRIORITIES -> count_at "priority" s (filter (fun r => named ALERT_CANDIDATE r = true) records) = 0%nat).
  { intros s Hs. apply count_at_none. intros r Hin E. destruct (H r Hin) as [p Hp]. rewrite Hp in E. injection E as <-.
    revert Hs. by destruct p; apply (bool_decide_unpack _). }
  unfold alert_noise. destruct (repeated_episodes _) as [rs ea]. cbn zeta.
  rewrite (Z0 "INFO"), (Z0 "NOTICE"), (Z0 "IMPORTANT"), (Z0 "CRITICAL") by decide_now. done.
Qed.

Definition sample_candidate : TelemetryEvent :=
  mkTelemetry "t" ALERT_CANDIDATE PIPELINE (flit 1700000000 0) "run" None (Some "600519.SH") None (Some "s") None None None
    (Some (priority_value CRITICAL)) None None None None None None None None None.

Lemma noise_misses_priorities_witness : exists records, traverse telemetry_row [sample_candidate] = Ok records /\
  value_at "critical_count" (alert_noise records (mkMarket [] f0 [] [] []) [] 0) = 0 /\
  count_rows (named ALERT_CANDIDATE) records = 1%nat.
Proof.
  destruct (traverse telemetry_row [sample_candidate]) as [records|] eqn:E; [|vm_compute in E; discriminate].
  exists records. split; [done|].
  destruct (noise_misses_priorities [sample_candidate] records (mkMarket [] f0 [] [] []) [] 0 E) as (_ & _ & _ & C & _).
  { constructor; [intros _; by exists CRITICAL|constructor]. }
  split; [exact C|]. vm_compute in E. injection E as <-. vm_compute. reflexivity.
Defined.

(** ** Feedback *)
Lemma split_valid_spec rows : forall valid invalid, split_valid rows = Ok (valid, invalid) ->
  (length valid + invalid = length rows)%nat /\ Forall (fun r => valid_feedback_row r = Ok true) valid.
Proof.
  induction rows as [|r rows IH]; intros valid invalid; cbn [split_valid]; [by intros [= <- <-]|].
  intros (ok & Hok & ([v i] & Hs & H)%bind_ok)%bind_ok. destruct (IH _ _ Hs) as [L F]. destruct ok; injection H as <- <-; cbn.
  - split; [lia|by constructor].
  - split; [lia|done].
Qed.

Lemma valid_label r : valid_feedback_row r = Ok true -> exists l, get r "label" = JStr (label_value l).
Proof.
  unfold valid_feedback_row. destruct (existsb _ r.*1); [done|]. destruct (nonblank (get r "feedback_id")); [|done].
  destruct (nonblank (get r "run_id")); [|done]. destruct (nonblank (get r "signal_id")); [|done]. cbn [negb].
  destruct (existsb (is_str (get r "label")) FEEDBACK_LABELS) eqn:E; [|done]. intros _.
  apply existsb_exists in E as (s & Hs%list_elem_of_In & Es). apply list_elem_of_fmap in Hs as (l & -> & _).
  exists l. destruct (get r "label"); try done. cbn in Es. apply bool_decide_eq_true in Es. by subst.
Qed.

(** [feedback_accounted] explicit feedback is accounted for in full: the valid and the invalid rows make up the rows
    read, and the four label counts make up the valid ones. *)
Theorem feedback_accounted rows trows r invalid : explicit_feedback rows trows = Ok (r, invalid) ->
  value_at "feedback_count" r + Z.of_nat invalid = Z.of_nat (length rows) /\
  value_at "invalid_feedback_record_count" r = Z.of_nat invalid /\
  value_at "useful_count" r + value_at "not_useful_count" r + value_at "too_noisy_count" r + value_at "too_late_count" r
    = value_at "feedback_count" r.
Proof.
  unfold explicit_feedback. intros ([valid inv] & Hs & H)%bind_ok. cbv beta iota zeta in H.
  apply bind_ok in H as (u & _ & H). apply bind_ok in H as (c & _ & [= <- <-]).
  destruct (split_valid_spec _ _ _ Hs) as [L F]. set (n l := Z.of_nat (count_at "label" (label_value l) valid)).
  change (Z.of_nat (length valid) + Z.of_nat inv = Z.of_nat (length rows) /\ Z.of_nat inv = Z.of_nat inv /\
          n USEFUL + n NOT_USEFUL + n TOO_NOISY + n TOO_LATE = Z.of_nat (length valid)).
  split; [lia|]. split; [done|]. unfold n.
  clear - F. induction F as [|x valid Hx _ IH]; [done|]. destruct (valid_label x Hx) as [l Hl].
  rewrite !count_at_cons, Hl. cbn [is_str length]. destruct l;
    repeat first [rewrite bool_decide_eq_true_2 by reflexivity|rewrite bool_decide_eq_false_2 by (vm_compute; discriminate)]; lia.
Qed.
Lemma feedback_accounted_witness : exists r, explicit_feedback (lt_records sample_feedback) sample_rows = Ok (r, 0%nat) /\
  value_at "feedback_count" r = 1.
Proof.
  destruct (explicit_feedback (lt_records sample_feedback) sample_rows) as [[r i]|] eqn:E; [|vm_compute in E; discriminate].
  pose proof (feedback_accounted _ _ _ _ E) as (H & _). assert (i = 0%nat) as -> by (vm_compute in E; by injection E).
  exists r. split; [done|]. cbn in H. lia.
Defined.
