(* ===== verification/Render.v ===== *)
(** * The report as text (src/market_sentinel/evaluation/render.py)

    [render_text] reads the record of a report by key and prints one line per figure.  [str] and
    [repr] of a decoded value are Python's; a string in a container is quoted by the rules for
    printable characters and ASCII controls. *)
From Stdlib Require Import ZArith Lia Ascii String.
From Corelib Require Import SpecFloat.
From stdpp Require Import prelude strings gmap.
From S2P Require Import Prelude PyFloat Domain Normalizer NumberText Json PyText Telemetry Jsonl Evaluation Doctor Display.
Local Open Scope Z_scope.

(** ** [str] and [repr] *)
Definition APOS : ascii := "'"%char.
Definition repr_char (q c : ascii) : string :=
  let n := code c in
  if bool_decide (c = q) || bool_decide (c = BACKSLASH) then String BACKSLASH (String c "")
  else if n =? 10 then String BACKSLASH "n"
  else if n =? 13 then String BACKSLASH "r"
  else if n =? 9 then String BACKSLASH "t"
  else if (n <? 32) || (n =? 127) then String BACKSLASH (String "x" (String (hex_digit (n / 16)) (String (hex_digit (n mod 16)) "")))
  else String c "".
Definition str_repr (s : string) : string :=
  let q := if has_char APOS s && negb (has_char QUOTE s) then QUOTE else APOS in
  String q (foldr (fun c acc => repr_char q c +:+ acc) "" (list_ascii_of_string s) +:+ String q "").
Definition float_str (x : float) : string :=
  match x with
  | S754_nan => "nan"
  | S754_infinity s => if s then "-inf" else "inf"
  | _ => float_repr x
  end.
Fixpoint py_repr (v : json) : string :=
  match v with
  | JNull => "None"
  | JBool b => if b then "True" else "False"
  | JInt n => int_repr n
  | JFloat x => float_str x
  | JStr s => str_repr s
  | JList l => "[" +:+ Json.join ", " (map py_repr l) +:+ "]"
  | JObj ms => "{" +:+ Json.join ", " (map (fun p => str_repr p.1 +:+ ": " +:+ py_repr p.2) ms) +:+ "}"
  end.
Definition py_str (v : json) : string := match v with JStr s => s | v => py_repr v end.
Example py_repr_ex : py_repr (JObj [("a'b", JList [JNull; JBool true; JFloat (flit 5 1)]); ("c", JInt (-3))])
  = "{" +:+ String QUOTE "a'b" +:+ String QUOTE ": [None, True, 0.5], 'c': -3}".
Proof. vm_compute. reflexivity. Qed.

(** ** render.py *)
Definition fmt_ratio (value : json) : result string :=
  match value with
  | JNull => Ok "unavailable"
  | JFloat _ | JInt _ | JBool _ => x ← to_float value; Ok (fixed 4 x)
  | JStr _ => Err (ValueError "Unknown format code 'f'")
  | _ => Err TypeError
  end.
Definition is_true (v : json) : bool := match v with JBool b => b | _ => false end.
Definition fmt_optional (payload : json) : string :=
  match payload with
  | JObj ms =>
      if negb (is_true (jget ms "available")) then
        let reason := if truthy (jget ms "unavailable_reason") then py_str (jget ms "unavailable_reason") else "unavailable" in
        if truthy (jget ms "producer") then "unavailable (" +:+ reason +:+ "; producer=" +:+ py_str (jget ms "producer") +:+ ")"
        else "unavailable (" +:+ reason +:+ ")"
      else py_str (jget ms "value")
  | _ => "unavailable"
  end.
Definition fmt_tokens (payload : json) : string :=
  match payload with
  | JObj ms =>
      if is_true (jget ms "available")
      then "in=" +:+ py_str (jget ms "token_in_total") +:+ " out=" +:+ py_str (jget ms "token_out_total") +:+ " events=" +:+ py_str (jget ms "token_events_count")
      else "unavailable"
  | _ => "unavailable"
  end.

(** [len(value)] *)
Definition py_len (v : json) : result nat :=
  match v with
  | JList l => Ok (length l)
  | JObj ms => Ok (length ms)
  | JStr s => Ok (length (filter (fun c => in_range 128 191 c = false) (list_ascii_of_string s)))
  | _ => Err TypeError
  end.
Definition show (section : json) (label key : string) : result string := v ← item_at section key; Ok (label +:+ py_str v).
Definition bullet (section : json) (key : string) : result string := show section ("- " +:+ key +:+ ": ") key.
Definition ratio_line (section : json) (key : string) : result string :=
  v ← item_at section key; t ← fmt_ratio v; Ok ("- " +:+ key +:+ ": " +:+ t).
Definition optional_line (section : json) (key : string) : result string :=
  v ← item_at section key; Ok ("- " +:+ key +:+ ": " +:+ fmt_optional v).
Definition count_line (record : json) (key : string) : result string :=
  v ← item_at record key; n ← py_len v; Ok ("- " +:+ key +:+ ": " +:+ int_repr (Z.of_nat n)).

Definition quality_lines (quality : json) : result (list string) :=
  warning ← item_at quality "data_quality_warning";
  shown ← traverse (bullet quality) ["healthy"; "records_read"; "malformed_complete_lines"; "skipped_trailing_partial"; "semantic_warning_count"];
  files ← count_line quality "input_files";
  Ok (("- data_quality_warning: " +:+ if truthy warning then "yes" else "no") :: shown ++ [files]).
Definition pipeline_lines (pipeline : json) : result (list string) :=
  shown ← traverse (bullet pipeline) ["events_generated"; "events_deduped"; "events_clustered"; "signal_episodes_created"; "signal_escalations";
    "alert_candidates"; "alert_suppressed"; "alerts_presented"; "cluster_tracker_seen_count"];
  rates ← traverse (ratio_line pipeline) ["dedupe_rate"; "event_to_signal_rate"];
  Ok (shown ++ rates).
Definition noise_lines (record noise : json) : result (list string) :=
  notice ← show noise "- NOTICE: " "notice_count"; important ← show noise " IMPORTANT: " "important_count"; critical ← show noise " CRITICAL: " "critical_count";
  share ← ratio_line noise "important_critical_ratio";
  rate ← optional_line noise "alerts_per_market_hour";
  shown ← traverse (bullet noise) ["observed_market_seconds"; "repeated_episode_signal_count"; "repeated_episode_extra_alert_count"; "suppression_by_reason"];
  counts ← traverse (count_line record) ["per_run"; "per_market_date"];
  Ok ([notice +:+ important +:+ critical; share; rate] ++ shown ++ counts).
Definition host_lines (host : json) : result (list string) :=
  shown ← traverse (bullet host) ["alerts_presented"; "alert_badge_reset"];
  rates ← traverse (optional_line host) ["open_rate"; "dismiss_rate"; "mute_rate"];
  Ok (shown ++ rates).
Definition feedback_lines (feedback : json) : result (list string) :=
  shown ← traverse (bullet feedback) ["feedback_count"; "useful_count"; "not_useful_count"; "too_noisy_count"; "too_late_count"];
  useful ← optional_line feedback "useful_rate";
  coverage ← optional_line feedback "feedback_coverage";
  invalid ← bullet feedback "invalid_feedback_record_count";
  Ok (shown ++ [useful +:+ " (explicit-feedback sample only)"; coverage; invalid]).
Definition intelligence_lines (intel : json) : result (list string) :=
  routed ← show intel "- routed: " "routed"; skipped ← show intel " skipped: " "skipped"; succeeded ← show intel " succeeded: " "succeeded";
  fallback ← show intel " fallback: " "fallback";
  usage ← item_at intel "token_usage";
  Ok [routed +:+ skipped +:+ succeeded +:+ fallback; "- token_usage: " +:+ fmt_tokens usage].

Definition titled_section (title : string) (lines : list string) : list string := [""; "## " +:+ title] ++ lines.
Definition render_lines (report : EvaluationReport) : result (list string) :=
  record ← report_to_record report;
  quality ← item_at record "data_quality";
  pipeline ← item_at record "pipeline";
  noise ← item_at record "alert_noise";
  host ← item_at record "host_interaction";
  intel ← item_at record "intelligence";
  feedback ← item_at record "explicit_feedback";
  quality ← quality_lines quality;
  pipeline ← pipeline_lines pipeline;
  noise ← noise_lines record noise;
  host ← host_lines host;
  feedback ← feedback_lines feedback;
  intel ← intelligence_lines intel;
  Ok ("# Market Sentinel evaluation" :: titled_section "Data quality" quality ++ titled_section "Pipeline" pipeline ++ titled_section "Alert noise" noise
      ++ titled_section "Host interaction" host ++ titled_section "Explicit feedback" feedback ++ titled_section "Intelligence" intel).
Definition render_text (report : EvaluationReport) : result string :=
  lines ← render_lines report; Ok (Json.join newline lines +:+ newline).

(** * Every figure of a report is printed *)
Lemma item_present ms k : k ∈ ms.*1 -> item_at (JObj ms) k = Ok (jget ms k).
Proof. intros H. cbn. unfold jget. destruct (od_get k ms) eqn:E; [done|]. by apply od_get_None in E. Qed.
Lemma traverse_shown {A B} (f : A -> result B) (g : A -> B) l : Forall (fun x => f x = Ok (g x)) l -> traverse f l = Ok (g <$> l).
Proof. induction 1 as [|x l E _ IH]; cbn [traverse]; [done|]. rewrite E. cbn [mbind result_bind]. by rewrite IH. Qed.

(** ** The report, as it is to be read: every line with the figure it must show *)
Definition line (label value : string) : string := "- " +:+ label +:+ ": " +:+ value.
Definition figure (ms : row) (k : string) : string := line k (py_str (jget ms k)).
Definition ratio_text (v : json) : string := match v with JFloat x => fixed 4 x | _ => "unavailable" end.
Definition rate_figure (ms : row) (k : string) : string := line k (ratio_text (jget ms k)).
Definition measure_figure (ms : row) (k : string) : string := line k (fmt_optional (jget ms k)).
Definition size_text (v : json) : string := match v with JList l => int_repr (Z.of_nat (length l)) | _ => "" end.
Definition heading (title : string) : list string := [""; "## " +:+ title].

Definition layout (r : EvaluationReport) : list string :=
  let quality := rp_data_quality r in let pipeline := rp_pipeline r in let noise := rp_alert_noise r in
  let host := rp_host_interaction r in let feedback := rp_explicit_feedback r in let intel := rp_intelligence r in
  ["# Market Sentinel evaluation"]
  ++ heading "Data quality"
  ++ [line "data_quality_warning" (if truthy (jget quality "data_quality_warning") then "yes" else "no")]
  ++ (figure quality <$> ["healthy"; "records_read"; "malformed_complete_lines"; "skipped_trailing_partial"; "semantic_warning_count"])
  ++ [line "input_files" (size_text (jget quality "input_files"))]
  ++ heading "Pipeline"
  ++ (figure pipeline <$> ["events_generated"; "events_deduped"; "events_clustered"; "signal_episodes_created"; "signal_escalations"; "alert_candidates";
        "alert_suppressed"; "alerts_presented"; "cluster_tracker_seen_count"])
  ++ (rate_figure pipeline <$> ["dedupe_rate"; "event_to_signal_rate"])
  ++ heading "Alert noise"
  ++ [line "NOTICE" (py_str (jget noise "notice_count")) +:+ " IMPORTANT: " +:+ py_str (jget noise "important_count")
        +:+ " CRITICAL: " +:+ py_str (jget noise "critical_count");
      rate_figure noise "important_critical_ratio"; measure_figure noise "alerts_per_market_hour"]
  ++ (figure noise <$> ["observed_market_seconds"; "repeated_episode_signal_count"; "repeated_episode_extra_alert_count"; "suppression_by_reason"])
  ++ [line "per_run" (int_repr (Z.of_nat (length (rp_per_run r)))); line "per_market_date" (int_repr (Z.of_nat (length (rp_per_market_date r))))]
  ++ heading "Host interaction"
  ++ (figure host <$> ["alerts_presented"; "alert_badge_reset"]) ++ (measure_figure host <$> ["open_rate"; "dismiss_rate"; "mute_rate"])
  ++ heading "Explicit feedback"
  ++ (figure feedback <$> ["feedback_count"; "useful_count"; "not_useful_count"; "too_noisy_count"; "too_late_count"])
  ++ [measure_figure feedback "useful_rate" +:+ " (explicit-feedback sample only)"; measure_figure feedback "feedback_coverage";
      figure feedback "invalid_feedback_record_count"]
  ++ heading "Intelligence"
  ++ [line "routed" (py_str (jget intel "routed")) +:+ " skipped: " +:+ py_str (jget intel "skipped") +:+ " succeeded: " +:+ py_str (jget intel "succeeded")
        +:+ " fallback: " +:+ py_str (jget intel "fallback");
      line "token_usage" (fmt_tokens (jget intel "token_usage"))].

Section present.
Context (ms : row).
Lemma show_present label k : k ∈ ms.*1 -> show (JObj ms) label k = Ok (label +:+ py_str (jget ms k)).
Proof. intros H. unfold show. by rewrite (item_present ms k H). Qed.
Lemma bullets_present keys : Forall (fun k => k ∈ ms.*1) keys -> traverse (bullet (JObj ms)) keys = Ok (figure ms <$> keys).
Proof. intros H. apply traverse_shown. eapply Forall_impl; [exact H|]. intros k Hk. unfold bullet, figure, line. rewrite show_present by done. by rewrite !app_assoc_str. Qed.
Lemma optional_present k : k ∈ ms.*1 -> optional_line (JObj ms) k = Ok (measure_figure ms k).
Proof. intros H. unfold optional_line. by rewrite (item_present ms k H). Qed.
Lemma optionals_present keys : Forall (fun k => k ∈ ms.*1) keys -> traverse (optional_line (JObj ms)) keys = Ok (measure_figure ms <$> keys).
Proof. intros H. apply traverse_shown. eapply Forall_impl; [exact H|]. intros k. apply optional_present. Qed.
Lemma ratio_present k o : jget ms k = jfloat o -> k ∈ ms.*1 -> ratio_line (JObj ms) k = Ok (rate_figure ms k).
Proof. intros E H. unfold ratio_line, rate_figure. rewrite (item_present ms k H), E. by destruct o. Qed.
Lemma count_present k l : od_get k ms = Some (JList l) -> count_line (JObj ms) k = Ok (line k (size_text (jget ms k))).
Proof. intros E. unfold count_line, jget. cbn [item_at]. by rewrite E. Qed.
End present.

Ltac present := cbn [fmap list_fmap fst app]; decide_now.
Lemma quality_printed loaded records run_id market semantic feedback used q : data_quality loaded records run_id market semantic feedback used = Ok q ->
  quality_lines (JObj q) = Ok ([line "data_quality_warning" (if truthy (jget q "data_quality_warning") then "yes" else "no")]
    ++ (figure q <$> ["healthy"; "records_read"; "malformed_complete_lines"; "skipped_trailing_partial"; "semantic_warning_count"])
    ++ [line "input_files" (size_text (jget q "input_files"))]).
Proof.
  unfold data_quality. intros (ts & _ & H)%bind_ok. cbv zeta in H. injection H as <-. unfold quality_lines.
  rewrite item_present by present. cbn [mbind result_bind]. rewrite bullets_present by present. cbn [mbind result_bind].
  by erewrite count_present by reflexivity.
Qed.
Lemma pipeline_printed records names cluster_seen : let ms := pipeline records names cluster_seen in
  pipeline_lines (JObj ms) = Ok ((figure ms <$> ["events_generated"; "events_deduped"; "events_clustered"; "signal_episodes_created";
    "signal_escalations"; "alert_candidates"; "alert_suppressed"; "alerts_presented"; "cluster_tracker_seen_count"])
    ++ (rate_figure ms <$> ["dedupe_rate"; "event_to_signal_rate"])).
Proof.
  intros ms. unfold pipeline_lines. rewrite bullets_present by (unfold ms, pipeline; present). cbn [mbind result_bind traverse].
  rewrite (ratio_present ms "dedupe_rate" (ratio (count_name names EVENT_DEDUPED) (count_name names EVENT_GENERATED))) by (done || unfold ms, pipeline; present).
  rewrite (ratio_present ms "event_to_signal_rate" (ratio (count_name names SIGNAL_EPISODE_CREATED) (count_name names EVENT_GENERATED))) by (done || unfold ms, pipeline; present).
  done.
Qed.
Lemma noise_printed ms records market sup unknown l l' : let noise := alert_noise records market sup unknown in
  od_get "per_run" ms = Some (JList l) -> od_get "per_market_date" ms = Some (JList l') ->
  noise_lines (JObj ms) (JObj noise) = Ok (
    [line "NOTICE" (py_str (jget noise "notice_count")) +:+ " IMPORTANT: " +:+ py_str (jget noise "important_count")
       +:+ " CRITICAL: " +:+ py_str (jget noise "critical_count");
     rate_figure noise "important_critical_ratio"; measure_figure noise "alerts_per_market_hour"]
    ++ (figure noise <$> ["observed_market_seconds"; "repeated_episode_signal_count"; "repeated_episode_extra_alert_count"; "suppression_by_reason"])
    ++ [line "per_run" (size_text (jget ms "per_run")); line "per_market_date" (size_text (jget ms "per_market_date"))]).
Proof.
  intros noise H1 H2. unfold noise_lines. assert (P : forall k, k ∈ noise.*1 <-> k ∈ ["info_count"; "notice_count"; "important_count"; "critical_count"; "important_critical_ratio";
    "alerts_per_market_hour"; "observed_market_seconds"; "repeated_episode_signal_count"; "repeated_episode_extra_alert_count"; "suppression_by_reason";
    "unrecognized_suppression_reason_count"]) by (intros k; unfold noise, alert_noise; by destruct (repeated_episodes _)).
  assert (exists o, jget noise "important_critical_ratio" = jfloat o) as [o Eo] by (unfold noise, alert_noise; destruct (repeated_episodes _); by eexists).
  rewrite !show_present by (apply P; decide_now). cbn [mbind result_bind].
  rewrite (ratio_present noise _ o Eo) by (apply P; decide_now). cbn [mbind result_bind].
  rewrite optional_present by (apply P; decide_now). cbn [mbind result_bind].
  rewrite bullets_present by (repeat (apply Forall_cons_2; [apply P; decide_now|]); apply Forall_nil_2). cbn [mbind result_bind traverse].
  rewrite (count_present ms "per_run" l H1). cbn [mbind result_bind]. rewrite (count_present ms "per_market_date" l' H2).
  cbn [mbind result_bind]. unfold line. by rewrite !app_assoc_str.
Qed.
Lemma host_printed names h : host names = Ok h ->
  host_lines (JObj h) = Ok ((figure h <$> ["alerts_presented"; "alert_badge_reset"]) ++ (measure_figure h <$> ["open_rate"; "dismiss_rate"; "mute_rate"])).
Proof.
  unfold host. intros (u & _ & H)%bind_ok. cbv zeta in H. injection H as <-. unfold host_lines.
  rewrite bullets_present by present. cbn [mbind result_bind]. by rewrite optionals_present by present.
Qed.
Lemma feedback_printed rows telemetry fb n : explicit_feedback rows telemetry = Ok (fb, n) ->
  feedback_lines (JObj fb) =
    Ok ((figure fb <$> ["feedback_count"; "useful_count"; "not_useful_count"; "too_noisy_count"; "too_late_count"])
        ++ [measure_figure fb "useful_rate" +:+ " (explicit-feedback sample only)"; measure_figure fb "feedback_coverage";
            figure fb "invalid_feedback_record_count"]).
Proof.
  unfold explicit_feedback. intros ([valid invalid] & _ & H)%bind_ok. cbv beta iota zeta in H. apply bind_ok in H as (ur & _ & H).
  apply bind_ok in H as (cov & _ & H). injection H as <- _. unfold feedback_lines.
  rewrite bullets_present by present. cbn [mbind result_bind]. rewrite !optional_present by present. cbn [mbind result_bind]. unfold bullet.
  by rewrite show_present by present.
Qed.
Lemma intelligence_printed records names intel su fu : intelligence_section records names = Ok (intel, su, fu) ->
  intelligence_lines (JObj intel) = Ok
    [line "routed" (py_str (jget intel "routed")) +:+ " skipped: " +:+ py_str (jget intel "skipped") +:+ " succeeded: " +:+ py_str (jget intel "succeeded")
       +:+ " fallback: " +:+ py_str (jget intel "fallback");
     line "token_usage" (fmt_tokens (jget intel "token_usage"))].
Proof.
  unfold intelligence_section. destruct (by_reason INTELLIGENCE_SKIPPED _ _ _) as [sc sk]. destruct (by_reason INTELLIGENCE_FALLBACK _ _ _) as [fc fk].
  intros (latency & _ & H)%bind_ok. injection H as <- _ _. unfold intelligence_lines.
  rewrite !show_present by present. cbn [mbind result_bind]. rewrite item_present by present. cbn [mbind result_bind]. unfold line.
  by rewrite !app_assoc_str.
Qed.

Definition record_members (r : EvaluationReport) : row := match report_raw r with JObj ms => ms | _ => [] end.
Lemma sections_of r : item_at (report_raw r) "data_quality" = Ok (JObj (rp_data_quality r)) /\ item_at (report_raw r) "pipeline" = Ok (JObj (rp_pipeline r)) /\
  item_at (report_raw r) "alert_noise" = Ok (JObj (rp_alert_noise r)) /\ item_at (report_raw r) "host_interaction" = Ok (JObj (rp_host_interaction r)) /\
  item_at (report_raw r) "intelligence" = Ok (JObj (rp_intelligence r)) /\ item_at (report_raw r) "explicit_feedback" = Ok (JObj (rp_explicit_feedback r)).
Proof. by split_and!. Qed.


