(* ===== verification/Tuning.v ===== *)
(** * Offline tuning: parameters and snapshots (src/market_sentinel/tuning/config.py, store.py)

    The inventory of parameters, the strict candidate body and the write-once snapshot
    files.  A file read or written is a JSON text of Json.v in a map from paths to bytes;
    reading translates line ends, which no JSON text can show.  [uuid.UUID] is modelled on
    ASCII strings. *)
From Stdlib Require Import ZArith Lia Ascii String.
From stdpp Require Import prelude strings gmap.
From S2P Require Import Prelude PyFloat Domain Normalizer NumberText Json PyText Features Events Cooldown Cluster Telemetry Jsonl Scheduler Intelligence Evaluation.
Local Open Scope Z_scope.

(** ** config.py: the inventory *)
Definition OFFLINE_TUNING_CONFIG_ALLOWLIST : list string :=
  ["cluster_lookback_s"; "hot_event_severity"; "hot_volume_ratio_5m"; "hot_change_5m"; "warm_change_1m"; "warm_change_5m";
   "warm_volume_ratio"].
Definition DEFERRED_TUNING_PARAMETER_NAMES : list string :=
  ["cooldown_s"; "upgrade_dwell_s"; "hot_downgrade_dwell_s"; "warm_downgrade_dwell_s"; "router_min_priority";
   "router_require_alert_edge"; "router_min_convergence_types"; "episode_max_calls"; "allow_escalation_recall";
   "cold_interval_s"; "warm_interval_s"; "hot_interval_s"; "rapid_1m_sev2"; "rapid_1m_sev3"; "rapid_1m_sev4"; "rapid_5m_sev3";
   "rapid_5m_sev4"; "rapid_5m_sev5"; "vol_5m_sev2"; "vol_5m_sev3"; "vol_1m_sev3"; "vol_5m_sev4"; "vol_5m_sev5"; "breakout_sev4";
   "breakout_sev5"; "vwap_cross_sev3_5m"; "ttl_short_s"; "ttl_long_s"; "prompt_compactness"; "intelligence_timeout_s";
   "volume_ratio_lookback"].

Inductive ParameterStatus := supported | deferred.
#[export] Instance ParameterStatus_eq : EqDecision ParameterStatus.
Proof. solve_decision. Defined.
Record TuningParameterInventory := mkParameter {
  tp_name : string;
  tp_status : ParameterStatus;
  tp_default : json;
  tp_reason : string
}.

Definition FROZEN_MONOTONIC_REASON : string :=
  "Current deterministic M5 Replay freezes monotonic time. Absolute cooldown/dwell seconds are not faithfully comparable.".
Definition INTEL_NOT_ATTACHED_REASON : string :=
  "M5 comparator does not attach Intelligence; parameter cannot affect current comparison execution.".
Definition LIVE_CADENCE_REASON : string :=
  "Replay corpus fetches every fixture tick with 0 intervals; live AdaptiveScheduler cadence is not Replay-comparable.".
Definition EVENT_MODULE_GLOBAL_REASON : string :=
  "Event rule module global; requires EventThresholds injection across rules".
Definition WARMING_REASON : string := "WarmingConfig via WarmingPolicy; comparator observes scheduler tick counts".
Definition TTL_REASON : string := "Event TTL module global; requires EventThresholds injection across rules".

Definition tuning_parameter_inventory : list TuningParameterInventory :=
  let scheduler := default_scheduler_policy in
  let router := default_router_policy in
  let budget := default_budget in
  let warming := default_warming in
  [mkParameter "cluster_lookback_s" supported (JFloat CLUSTER_LOOKBACK_S)
     "SignalComposer lookback_s; comparator observes signal_episodes_created";
   mkParameter "hot_event_severity" supported (JInt (hot_event_severity warming)) WARMING_REASON;
   mkParameter "hot_volume_ratio_5m" supported (JFloat (hot_volume_ratio_5m warming)) WARMING_REASON;
   mkParameter "hot_change_5m" supported (JFloat (hot_change_5m warming)) WARMING_REASON;
   mkParameter "warm_change_1m" supported (JFloat (warm_change_1m warming)) WARMING_REASON;
   mkParameter "warm_change_5m" supported (JFloat (warm_change_5m warming)) WARMING_REASON;
   mkParameter "warm_volume_ratio" supported (JFloat (warm_volume_ratio warming)) WARMING_REASON;
   mkParameter "cooldown_s" deferred (JFloat DEFAULT_COOLDOWN_S) FROZEN_MONOTONIC_REASON;
   mkParameter "upgrade_dwell_s" deferred (JFloat (upgrade_dwell_s scheduler)) FROZEN_MONOTONIC_REASON;
   mkParameter "hot_downgrade_dwell_s" deferred (JFloat (hot_downgrade_dwell_s scheduler)) FROZEN_MONOTONIC_REASON;
   mkParameter "warm_downgrade_dwell_s" deferred (JFloat (warm_downgrade_dwell_s scheduler)) FROZEN_MONOTONIC_REASON;
   mkParameter "router_min_priority" deferred (JStr (priority_value (rp_min_priority router))) INTEL_NOT_ATTACHED_REASON;
   mkParameter "router_require_alert_edge" deferred (JBool (rp_require_edge router)) INTEL_NOT_ATTACHED_REASON;
   mkParameter "router_min_convergence_types" deferred (JInt (rp_min_types router)) INTEL_NOT_ATTACHED_REASON;
   mkParameter "episode_max_calls" deferred (JInt (bd_max_calls budget)) INTEL_NOT_ATTACHED_REASON;
   mkParameter "allow_escalation_recall" deferred (JBool (bd_escalation budget)) INTEL_NOT_ATTACHED_REASON;
   mkParameter "cold_interval_s" deferred (JFloat (cold_interval_s scheduler)) LIVE_CADENCE_REASON;
   mkParameter "warm_interval_s" deferred (JFloat (warm_interval_s scheduler)) LIVE_CADENCE_REASON;
   mkParameter "hot_interval_s" deferred (JFloat (hot_interval_s scheduler)) LIVE_CADENCE_REASON;
   mkParameter "rapid_1m_sev2" deferred (JFloat RAPID_1M_SEV2) EVENT_MODULE_GLOBAL_REASON;
   mkParameter "rapid_1m_sev3" deferred (JFloat RAPID_1M_SEV3) EVENT_MODULE_GLOBAL_REASON;
   mkParameter "rapid_1m_sev4" deferred (JFloat RAPID_1M_SEV4) EVENT_MODULE_GLOBAL_REASON;
   mkParameter "rapid_5m_sev3" deferred (JFloat RAPID_5M_SEV3) EVENT_MODULE_GLOBAL_REASON;
   mkParameter "rapid_5m_sev4" deferred (JFloat RAPID_5M_SEV4) EVENT_MODULE_GLOBAL_REASON;
   mkParameter "rapid_5m_sev5" deferred (JFloat RAPID_5M_SEV5) EVENT_MODULE_GLOBAL_REASON;
   mkParameter "vol_5m_sev2" deferred (JFloat VOL_5M_SEV2) EVENT_MODULE_GLOBAL_REASON;
   mkParameter "vol_5m_sev3" deferred (JFloat VOL_5M_SEV3) EVENT_MODULE_GLOBAL_REASON;
   mkParameter "vol_1m_sev3" deferred (JFloat VOL_1M_SEV3) EVENT_MODULE_GLOBAL_REASON;
   mkParameter "vol_5m_sev4" deferred (JFloat VOL_5M_SEV4) EVENT_MODULE_GLOBAL_REASON;
   mkParameter "vol_5m_sev5" deferred (JFloat VOL_5M_SEV5) EVENT_MODULE_GLOBAL_REASON;
   mkParameter "breakout_sev4" deferred (JFloat BREAKOUT_SEV4) EVENT_MODULE_GLOBAL_REASON;
   mkParameter "breakout_sev5" deferred (JFloat BREAKOUT_SEV5) EVENT_MODULE_GLOBAL_REASON;
   mkParameter "vwap_cross_sev3_5m" deferred (JFloat VWAP_CROSS_SEV3_5M) EVENT_MODULE_GLOBAL_REASON;
   mkParameter "ttl_short_s" deferred (JFloat TTL_SHORT_S) TTL_REASON;
   mkParameter "ttl_long_s" deferred (JFloat TTL_LONG_S) TTL_REASON;
   mkParameter "prompt_compactness" deferred JNull "Intelligence payload shaping is not a typed injectable Offline Replay field";
   mkParameter "intelligence_timeout_s" deferred JNull "Coordinator timeout; M5 comparator does not attach Intelligence";
   mkParameter "volume_ratio_lookback" deferred (JInt 20) "FeatureEngine rolling window; not injected without FeaturePolicy refactor"].

(** ** config.py: the candidate body *)
Definition refuse_config {A} (field why : string) : result A := Err (TuningConfigError (field +:+ why)).

(** [_finite_float] *)
Definition finite_float (value : json) (field : string) (min_exclusive min_inclusive : option float) : result float :=
  match value with
  | JInt _ | JFloat _ =>
      number ← to_float value;
      if negb (isfinite number) then refuse_config field " must be finite"
      else if from_option (fun bound => fle number bound) false min_exclusive
      then refuse_config field (" must be > " +:+ float_text (default f0 min_exclusive))
      else if from_option (fun bound => flt number bound) false min_inclusive
      then refuse_config field (" must be >= " +:+ float_text (default f0 min_inclusive))
      else Ok number
  | _ => refuse_config field " must be a finite number"
  end.

(** [_strict_int] *)
Definition strict_int (value : json) (field : string) (min_inclusive : Z) : result Z :=
  match value with
  | JInt n => if n <? min_inclusive then refuse_config field (" must be >= " +:+ int_repr min_inclusive) else Ok n
  | _ => refuse_config field " must be an int"
  end.

Record OfflineTuningConfig := mkTuningConfig {
  tc_cluster_lookback_s : float;
  tc_hot_event_severity : Z;
  tc_hot_volume_ratio_5m : float;
  tc_hot_change_5m : float;
  tc_warm_change_1m : float;
  tc_warm_change_5m : float;
  tc_warm_volume_ratio : float
}.

Definition positive_float (value : json) (field : string) : result float := finite_float value field (Some f0) None.

(** [__post_init__] *)
Definition config_post_init (c : OfflineTuningConfig) : result unit :=
  _ ← positive_float (JFloat (tc_cluster_lookback_s c)) "cluster_lookback_s";
  _ ← (if (tc_hot_event_severity c <? 1) || (5 <? tc_hot_event_severity c)
       then refuse_config "hot_event_severity" " must be 1..5" else Ok tt);
  _ ← positive_float (JFloat (tc_hot_volume_ratio_5m c)) "hot_volume_ratio_5m";
  _ ← positive_float (JFloat (tc_hot_change_5m c)) "hot_change_5m";
  _ ← positive_float (JFloat (tc_warm_change_1m c)) "warm_change_1m";
  _ ← positive_float (JFloat (tc_warm_change_5m c)) "warm_change_5m";
  _ ← positive_float (JFloat (tc_warm_volume_ratio c)) "warm_volume_ratio";
  Ok tt.

Definition config_raw (c : OfflineTuningConfig) : row :=
  [("cluster_lookback_s", JFloat (tc_cluster_lookback_s c));
   ("hot_event_severity", JInt (tc_hot_event_severity c));
   ("hot_volume_ratio_5m", JFloat (tc_hot_volume_ratio_5m c));
   ("hot_change_5m", JFloat (tc_hot_change_5m c));
   ("warm_change_1m", JFloat (tc_warm_change_1m c));
   ("warm_change_5m", JFloat (tc_warm_change_5m c));
   ("warm_volume_ratio", JFloat (tc_warm_volume_ratio c))].
Definition config_to_record (c : OfflineTuningConfig) : result row :=
  let raw := config_raw c in
  if denied_in TELEMETRY_DENYLIST raw.*1 then Err (TuningConfigError "denied keys")
  else project_allowlist raw OFFLINE_TUNING_CONFIG_ALLOWLIST.

(** [set(payload) & names], [set(payload) - names] and [names - set(payload)], as truth values. *)
Definition some_in (keys names : list string) : bool := existsb (fun k => bool_decide (k ∈ names)) keys.
Definition some_extra (keys names : list string) : bool := existsb (fun k => negb (bool_decide (k ∈ names))) keys.

Definition config_from_record (payload : json) : result OfflineTuningConfig :=
  match payload with
  | JObj ms =>
      if some_in ms.*1 DEFERRED_TUNING_PARAMETER_NAMES
      then Err (TuningConfigError "deferred parameters cannot enter OfflineTuningConfig")
      else if some_extra ms.*1 OFFLINE_TUNING_CONFIG_ALLOWLIST then Err (TuningConfigError "unknown OfflineTuningConfig keys")
      else if some_extra OFFLINE_TUNING_CONFIG_ALLOWLIST ms.*1 then Err (TuningConfigError "missing OfflineTuningConfig keys")
      else
        severity ← strict_int (jget ms "hot_event_severity") "hot_event_severity" 1;
        if 5 <? severity then refuse_config "hot_event_severity" " must be 1..5"
        else
          lookback ← positive_float (jget ms "cluster_lookback_s") "cluster_lookback_s";
          hot_volume ← positive_float (jget ms "hot_volume_ratio_5m") "hot_volume_ratio_5m";
          hot_change ← positive_float (jget ms "hot_change_5m") "hot_change_5m";
          warm_1m ← positive_float (jget ms "warm_change_1m") "warm_change_1m";
          warm_5m ← positive_float (jget ms "warm_change_5m") "warm_change_5m";
          warm_volume ← positive_float (jget ms "warm_volume_ratio") "warm_volume_ratio";
          let c := mkTuningConfig lookback severity hot_volume hot_change warm_1m warm_5m warm_volume in
          _ ← config_post_init c;
          Ok c
  | _ => Err (TuningConfigError "OfflineTuningConfig must be a JSON object")
  end.

Definition warming_config (c : OfflineTuningConfig) : WarmingConfig :=
  mkWarming (tc_hot_event_severity c) (tc_hot_volume_ratio_5m c) (tc_hot_change_5m c) (tc_warm_change_1m c)
    (tc_warm_change_5m c) (tc_warm_volume_ratio c).
Definition capture_baseline_config : OfflineTuningConfig :=
  let w := default_warming in
  mkTuningConfig CLUSTER_LOOKBACK_S (hot_event_severity w) (hot_volume_ratio_5m w) (hot_change_5m w) (warm_change_1m w)
    (warm_change_5m w) (warm_volume_ratio w).

(** ** store.py: snapshot identities *)
Definition TUNING_ARTIFACT_SCHEMA_VERSION : Z := 2.
Definition TUNING_DIR_NAME : string := "tuning".
Definition TUNING_ARTIFACT_TOP_KEYS : list string := ["schema_version"; "snapshot"; "config"].
Definition refuse_snapshot {A} (why : string) : result A := Err (TuningSnapshotError why).

Fixpoint hex_text (digits : nat) (n : Z) (acc : string) : string :=
  match digits with O => acc | S k => hex_text k (n / 16) (String (hex_digit (n mod 16)) acc) end.

(** [uuid.UUID(hex=text).hex]; [None] when it raises [ValueError]. *)
Definition uuid_hex (text : string) : option string :=
  let hex := str_replace "-" "" (strip_chars ["{"%char; "}"%char] (str_replace "uuid:" "" (str_replace "urn:" "" text))) in
  if negb (bool_decide (String.length hex = 32%nat)) then None
  else n ← int_base16 hex;
       if (0 <=? n) && (n <? 2 ^ 128) then Some (hex_text 32 n "") else None.

Definition validate_snapshot_id (snapshot_id : string) : result string :=
  if blank snapshot_id then refuse_snapshot "snapshot_id must be non-empty"
  else if has_char SLASH snapshot_id || has_char BACKSLASH snapshot_id || contains ".." snapshot_id
  then refuse_snapshot "snapshot_id is not a filesystem path"
  else match uuid_hex snapshot_id with
       | None => refuse_snapshot "snapshot_id must be an opaque UUID hex"
       | Some hex => if decide (hex = snapshot_id) then Ok snapshot_id else refuse_snapshot "snapshot_id must be an opaque UUID hex"
       end.

Definition tuning_dir (data_dir : string) : string := data_dir +:+ "/" +:+ TUNING_DIR_NAME.
Definition snapshot_path (data_dir snapshot_id : string) : result string :=
  id ← validate_snapshot_id snapshot_id; Ok (tuning_dir data_dir +:+ "/" +:+ id +:+ ".json").

(** ** store.py: artifacts *)
Record TuningArtifact := mkArtifact {
  ta_snapshot : TuningSnapshot;
  ta_config : OfflineTuningConfig;
  ta_schema_version : Z
}.

Definition artifact_to_record (a : TuningArtifact) : result json :=
  if negb (ta_schema_version a =? TUNING_ARTIFACT_SCHEMA_VERSION) then refuse_snapshot "unsupported tuning artifact schema_version"
  else
    snapshot ← (r ← tuning_record (ta_snapshot a); to_row r);
    config ← config_to_record (ta_config a);
    let raw := JObj [("schema_version", JInt (ta_schema_version a)); ("snapshot", JObj snapshot); ("config", JObj config)] in
    if denied_in TELEMETRY_DENYLIST (all_keys raw) then refuse_snapshot "denied keys" else Ok raw.

(** The constructor of the frozen dataclass. *)
Definition new_snapshot (id : string) (created : float) (source : TuningSource) (version : string) : result TuningSnapshot :=
  let t := mkTuningSnapshot id created source version in _ ← tuning_post_init t; Ok t.

(** [uuid4] is the fresh identity, [wall] the clock's reading. *)
Definition make_artifact (config : OfflineTuningConfig) (config_version : string) (source : TuningSource) (wall : float)
    (uuid4 : string) (snapshot_id : option string) : result TuningArtifact :=
  if blank config_version then refuse_snapshot "config_version must be non-empty"
  else
    let ident := default uuid4 snapshot_id in
    _ ← validate_snapshot_id ident;
    t ← new_snapshot ident wall source config_version;
    Ok (mkArtifact t config TUNING_ARTIFACT_SCHEMA_VERSION).

(** [write_text] opens the file before it encodes: a text it cannot encode leaves an empty file. *)
Definition write_snapshot (fs : files) (data_dir : string) (a : TuningArtifact) : result string * files :=
  match snapshot_path data_dir (ts_id (ta_snapshot a)) with
  | Err e => (Err e, fs)
  | Ok path =>
      if exists_in fs path then (refuse_snapshot "snapshot_id already exists; refusing to overwrite", fs)
      else match (payload ← artifact_to_record a; dumps (indented 2) payload) with
           | Err e => (Err e, fs)
           | Ok text =>
               let body := text +:+ newline in
               if utf8_valid body then (Ok path, <[path := body]> fs)
               else (Err (ValueError "UnicodeEncodeError"), <[path := ""]> fs)
           end
  end.

(** [TuningSource(str(value))]: the text of a value that is not a string is no source. *)
Definition source_of (v : json) : option TuningSource :=
  match v with
  | JStr s => if decide (s = source_value MANUAL) then Some MANUAL else if decide (s = source_value OFFLINE_EVAL) then Some OFFLINE_EVAL else None
  | _ => None
  end.
(** [version != 2] *)
Definition is_two (v : json) : bool :=
  match v with JInt n => n =? 2 | JFloat x => feq x (flit 2 0) | _ => false end.

Definition snapshot_from (ms : row) : result TuningSnapshot :=
  source ← of_option (TuningSnapshotError "invalid snapshot source") (source_of (jget ms "source"));
  match jget ms "snapshot_id", jget ms "created_timestamp", jget ms "config_version" with
  | JStr ident, (JInt _ | JFloat _) as created, JStr version =>
      stamp ← to_float created;
      match new_snapshot ident stamp source version with
      | Ok t => _ ← validate_snapshot_id (ts_id t); Ok t
      | Err _ => refuse_snapshot "invalid snapshot identity"
      end
  | _, _, _ => refuse_snapshot "invalid snapshot identity"
  end.

Definition artifact_from_record (payload : json) : result TuningArtifact :=
  match payload with
  | JObj ms =>
      if some_extra ms.*1 TUNING_ARTIFACT_TOP_KEYS then refuse_snapshot "unknown tuning artifact keys"
      else if some_extra TUNING_ARTIFACT_TOP_KEYS ms.*1 then refuse_snapshot "missing tuning artifact keys"
      else if negb (is_two (jget ms "schema_version")) then refuse_snapshot "unsupported tuning artifact schema_version"
      else match jget ms "snapshot" with
           | JObj raw =>
               if some_extra raw.*1 TUNING_ALLOWLIST then refuse_snapshot "unknown snapshot keys"
               else if some_extra TUNING_ALLOWLIST raw.*1 then refuse_snapshot "missing snapshot keys"
               else
                 t ← snapshot_from raw;
                 match config_from_record (jget ms "config") with
                 | Ok c => Ok (mkArtifact t c 2)
                 | Err _ => refuse_snapshot "invalid OfflineTuningConfig"
                 end
           | _ => refuse_snapshot "snapshot must be an object"
           end
  | _ => refuse_snapshot "tuning snapshot must be a JSON object"
  end.

(** [limit] is the interpreter's recursion limit, as in Json.v. *)
Definition load_snapshot (limit : nat) (fs : files) (data_dir snapshot_id : string) : result TuningArtifact :=
  path ← snapshot_path data_dir snapshot_id;
  match fs !! path with
  | None => refuse_snapshot "tuning snapshot not found"
  | Some text =>
      if negb (utf8_valid text) then refuse_snapshot "tuning snapshot is not valid UTF-8 JSON"
      else match loads limit text with
           | Parsed payload => artifact_from_record payload
           | JSONDecodeError => refuse_snapshot "tuning snapshot is not valid UTF-8 JSON"
           | LoadsRaises e => Err e
           end
  end.

(** * Properties of the candidate body *)
Definition tunable (x : float) : Prop := isfinite x = true /\ flt f0 x = true.
Definition config_floats (c : OfflineTuningConfig) : list float :=
  [tc_cluster_lookback_s c; tc_hot_volume_ratio_5m c; tc_hot_change_5m c; tc_warm_change_1m c; tc_warm_change_5m c;
   tc_warm_volume_ratio c].
Definition config_ok (c : OfflineTuningConfig) : Prop := 1 <= tc_hot_event_severity c <= 5 /\ Forall tunable (config_floats c).

Lemma positive_finite x : isfinite x = true -> fle x f0 = negb (flt f0 x).
Proof. destruct x as [[]|[]| |[] m e]; done. Qed.

Lemma positive_float_ok v f x : positive_float v f = Ok x <-> to_float v = Ok x /\ (forall b, v <> JBool b) /\ (forall s, v <> JStr s) /\ tunable x.
Proof.
  unfold positive_float, finite_float, tunable, refuse_config. split.
  - destruct v; try done; intros (y & E & H)%bind_ok; rewrite E; destruct (isfinite y) eqn:F; try done; cbn in H;
      rewrite (positive_finite y F) in H; destruct (flt f0 y) eqn:P; try done; cbn in H; injection H as <-; repeat split; done.
  - intros (E & Nb & Ns & F & P).
    assert (R : forall r : result float, r = Ok x -> r ≫= (fun number => if negb (isfinite number) then Err (TuningConfigError (f +:+ " must be finite"))
        else if from_option (fun bound => fle number bound) false (Some f0) then Err (TuningConfigError (f +:+ " must be > " +:+ float_text (default f0 (Some f0))))
        else if from_option (fun bound => flt number bound) false None then Err (TuningConfigError (f +:+ " must be >= " +:+ float_text (default f0 None))) else Ok number) = Ok x).
    { intros r ->. cbn. rewrite F. cbn. by rewrite (positive_finite x F), P. }
    destruct v; try done; (by apply R) || (by destruct (Nb b)) || (by destruct (Ns s)).
Qed.
Lemma positive_float_id x f : positive_float (JFloat x) f = Ok x <-> tunable x.
Proof. rewrite positive_float_ok. split; [by intros (_ & _ & _ & ?)|intros; repeat split; try done; apply H]. Qed.

Lemma positive_float_error v f e : positive_float v f = Err e -> (exists m, e = TuningConfigError m) \/ (e = OverflowError /\ to_float v = Err OverflowError).
Proof.
  unfold positive_float, finite_float, refuse_config. destruct v as [| |n|y| | |]; try (intros [= <-]; left; by eexists).
  - unfold to_float. cbn. destruct (of_Z n) as [y|]; cbn; [|intros [= <-]; by right].
    repeat case_match; intros [= <-]; left; by eexists.
  - cbn. repeat case_match; intros [= <-]; left; by eexists.
Qed.

Lemma post_init_ok c : config_post_init c = Ok tt <-> config_ok c.
Proof.
  unfold config_post_init, config_ok, config_floats. rewrite !Forall_cons, Forall_nil. split.
  - intros (x1 & E1 & H)%bind_ok. apply bind_ok in H as ([] & Es & H).
    apply bind_ok in H as (x2 & E2 & H). apply bind_ok in H as (x3 & E3 & H). apply bind_ok in H as (x4 & E4 & H).
    apply bind_ok in H as (x5 & E5 & H). apply bind_ok in H as (x6 & E6 & _).
    destruct (_ || _) eqn:S in Es; [done|]. apply orb_false_iff in S as [S1%Z.ltb_ge S2%Z.ltb_ge]. split; [lia|].
    apply positive_float_ok in E1 as ([= <-] & _ & _ & ?), E2 as ([= <-] & _ & _ & ?), E3 as ([= <-] & _ & _ & ?),
      E4 as ([= <-] & _ & _ & ?), E5 as ([= <-] & _ & _ & ?), E6 as ([= <-] & _ & _ & ?). done.
  - intros (S & T1 & T2 & T3 & T4 & T5 & T6 & _).
    apply (positive_float_id _ "cluster_lookback_s") in T1. apply (positive_float_id _ "hot_volume_ratio_5m") in T2.
    apply (positive_float_id _ "hot_change_5m") in T3. apply (positive_float_id _ "warm_change_1m") in T4.
    apply (positive_float_id _ "warm_change_5m") in T5. apply (positive_float_id _ "warm_volume_ratio") in T6.
    rewrite T1, T2, T3, T4, T5, T6. cbn. rewrite (proj2 (Z.ltb_ge _ _)) by lia. by rewrite (proj2 (Z.ltb_ge _ _)) by lia.
Qed.

(** The float members with the fields they fill, in the order they are read. *)
Definition float_fields (c : OfflineTuningConfig) : list (string * float) :=
  [("cluster_lookback_s", tc_cluster_lookback_s c); ("hot_volume_ratio_5m", tc_hot_volume_ratio_5m c);
   ("hot_change_5m", tc_hot_change_5m c); ("warm_change_1m", tc_warm_change_1m c); ("warm_change_5m", tc_warm_change_5m c);
   ("warm_volume_ratio", tc_warm_volume_ratio c)].
Definition numeric (v : json) : bool := match v with JInt _ | JFloat _ => true | _ => false end.

(** What a payload must be to give a candidate: exactly the seven keys, numbers in range. *)
Definition describes (ms : row) (c : OfflineTuningConfig) : Prop :=
  (forall k, k ∈ ms.*1 <-> k ∈ OFFLINE_TUNING_CONFIG_ALLOWLIST) /\
  jget ms "hot_event_severity" = JInt (tc_hot_event_severity c) /\
  Forall (fun p => numeric (jget ms p.1) = true /\ to_float (jget ms p.1) = Ok p.2) (float_fields c) /\
  config_ok c.

Lemma some_in_false keys names : some_in keys names = false <-> forall k, k ∈ keys -> k ∉ names.
Proof.
  unfold some_in. rewrite <- not_true_iff_false, existsb_exists. split.
  - intros H k Hk Hn. apply H. exists k. split; [by apply list_elem_of_In|by apply bool_decide_eq_true].
  - intros H (k & Hk%list_elem_of_In & Hn%bool_decide_eq_true). by apply (H k).
Qed.
Lemma some_extra_false keys names : some_extra keys names = false <-> forall k, k ∈ keys -> k ∈ names.
Proof.
  unfold some_extra. rewrite <- not_true_iff_false, existsb_exists. split.
  - intros H k Hk. destruct (decide (k ∈ names)) as [|Hn]; [done|]. destruct H. exists k.
    split; [by apply list_elem_of_In|]. by rewrite bool_decide_eq_false_2.
  - intros H (k & Hk%list_elem_of_In & Hn%negb_true_iff%bool_decide_eq_false). by apply Hn, H.
Qed.

Lemma deferred_disjoint : Forall (fun k => k ∉ DEFERRED_TUNING_PARAMETER_NAMES) OFFLINE_TUNING_CONFIG_ALLOWLIST.
Proof. decide_now. Qed.

Lemma positive_numeric v f x : positive_float v f = Ok x <-> numeric v = true /\ to_float v = Ok x /\ tunable x.
Proof.
  rewrite positive_float_ok. split.
  - intros (E & Nb & Ns & T). repeat split; try done; try apply T. destruct v; try done; [by destruct (Nb b)|by destruct (Ns s)].
  - intros (N & E & T). by destruct v.
Qed.

Lemma from_record_accepts p c : config_from_record p = Ok c <-> exists ms, p = JObj ms /\ describes ms c.
Proof.
  split.
  - destruct p as [| | | | | |ms]; try done. cbn [config_from_record]. intros H. exists ms. split; [done|]. revert H.
    destruct (some_in _ _) eqn:D; [done|]. destruct (some_extra ms.*1 _) eqn:U; [done|]. destruct (some_extra _ ms.*1) eqn:M; [done|].
    intros (s & Es & H)%bind_ok. destruct (5 <? s) eqn:S5; [done|].
    apply bind_ok in H as (x1 & E1 & H). apply bind_ok in H as (x2 & E2 & H). apply bind_ok in H as (x3 & E3 & H).
    apply bind_ok in H as (x4 & E4 & H). apply bind_ok in H as (x5 & E5 & H). apply bind_ok in H as (x6 & E6 & H).
    apply bind_ok in H as ([] & Ei & [= <-]). apply post_init_ok in Ei.
    rewrite some_extra_false in U, M. split; [by split; auto|]. split; [|split; [|exact Ei]].
    + unfold strict_int in Es. destruct (jget ms "hot_event_severity"); try done. by destruct (n <? 1); [|injection Es as <-].
    + apply positive_numeric in E1, E2, E3, E4, E5, E6. unfold float_fields. repeat constructor; tauto.
  - intros (ms & -> & K & Es & F & C). pose proof C as [S T]. cbn [config_from_record].
    assert (Hk : forall k, k ∈ ms.*1 -> k ∈ OFFLINE_TUNING_CONFIG_ALLOWLIST) by (intros k Hk; by apply K).
    rewrite (proj2 (some_in_false _ _)) by (intros k Hin; pose proof deferred_disjoint as DD; rewrite Forall_forall in DD; by apply DD, Hk).
    rewrite (proj2 (some_extra_false _ _)) by done. rewrite (proj2 (some_extra_false _ _)) by (intros k Hin; by apply K).
    rewrite Es. cbn [strict_int]. rewrite (proj2 (Z.ltb_ge _ _)) by lia. cbn [mbind result_bind]. rewrite (proj2 (Z.ltb_ge _ _)) by lia.
    unfold float_fields in F. unfold config_floats in T. rewrite !Forall_cons in F. rewrite !Forall_cons in T. cbn [fst snd] in F.
    destruct F as ([N1 F1] & [N2 F2] & [N3 F3] & [N4 F4] & [N5 F5] & [N6 F6] & _). destruct T as (T1 & T2 & T3 & T4 & T5 & T6 & _).
    rewrite (proj2 (positive_numeric _ "cluster_lookback_s" _) (conj N1 (conj F1 T1))),
      (proj2 (positive_numeric _ "hot_volume_ratio_5m" _) (conj N2 (conj F2 T2))), (proj2 (positive_numeric _ "hot_change_5m" _) (conj N3 (conj F3 T3))),
      (proj2 (positive_numeric _ "warm_change_1m" _) (conj N4 (conj F4 T4))), (proj2 (positive_numeric _ "warm_change_5m" _) (conj N5 (conj F5 T5))),
      (proj2 (positive_numeric _ "warm_volume_ratio" _) (conj N6 (conj F6 T6))).
    cbn [mbind result_bind]. cbv zeta. destruct c. cbn [tc_cluster_lookback_s tc_hot_event_severity tc_hot_volume_ratio_5m tc_hot_change_5m
      tc_warm_change_1m tc_warm_change_5m tc_warm_volume_ratio]. by rewrite (proj2 (post_init_ok _) C).
Qed.

(** How a payload is refused. *)
Definition config_error (e : exn) : Prop := (exists m, e = TuningConfigError m) \/ e = OverflowError.
Lemma positive_config_error v f e : positive_float v f = Err e -> config_error e.
Proof. intros [?|[-> _]]%positive_float_error; [by left|by right]. Qed.
Lemma refuse_config_error {A} f why e : @refuse_config A f why = Err e -> config_error e.
Proof. intros [= <-]. left. by eexists. Qed.
Lemma strict_int_error v f n e : strict_int v f n = Err e -> config_error e.
Proof. unfold strict_int. destruct v; try case_match; (apply refuse_config_error || done). Qed.

(** Through the checks of a body, each of which fails with an error of the configuration. *)
Ltac config_checks :=
  repeat first [apply bind_error; [solve [eauto using positive_config_error, strict_int_error]|intros ? ?]
               | case_match; [apply refuse_config_error|]].

Lemma post_init_error c e : config_post_init c = Err e -> config_error e.
Proof.
  unfold config_post_init. revert e.
  assert (Hs : forall e, (if (tc_hot_event_severity c <? 1) || (5 <? tc_hot_event_severity c)
    then refuse_config "hot_event_severity" " must be 1..5" else Ok tt) = Err e -> config_error e)
    by (intros ?; case_match; [apply refuse_config_error|done]).
  intros e. repeat (apply bind_error; [solve [eauto using positive_config_error]|intros ? ?]). done.
Qed.
Lemma from_record_error p e : config_from_record p = Err e -> config_error e.
Proof.
  destruct p as [| | | | | |ms]; try (intros [= <-]; left; by eexists). cbn [config_from_record].
  do 3 (case_match; [intros [= <-]; left; by eexists|]). config_checks. cbv zeta. apply bind_error; [apply post_init_error|done].
Qed.
Lemma from_record_dichotomy p : (exists c, config_from_record p = Ok c) \/ exists e, config_from_record p = Err e /\ config_error e.
Proof. destruct (config_from_record p) as [c|e] eqn:E; [left; by eexists|right; exists e; split; [done|by eapply from_record_error]]. Qed.

Lemma to_record_config c : config_to_record c = Ok (config_raw c).
Proof.
  unfold config_to_record. cbv zeta.
  replace (denied_in TELEMETRY_DENYLIST (config_raw c).*1) with false by (vm_compute; reflexivity).
  apply project_id. cbn [config_raw fmap list_fmap fst]. decide_now.
Qed.

Lemma config_raw_nodup c : NoDup (config_raw c).*1.
Proof. cbn [config_raw fmap list_fmap fst]. decide_now. Qed.

(** Members in any order describe the configuration they were printed from. *)
Lemma describes_raw c ms : config_ok c -> ms ≡ₚ config_raw c -> describes ms c.
Proof.
  intros C P. assert (Pk : ms.*1 ≡ₚ (config_raw c).*1) by by rewrite P.
  assert (N : NoDup ms.*1) by (rewrite Pk; apply config_raw_nodup).
  assert (G : forall k v, (k, v) ∈ config_raw c -> jget ms k = v).
  { intros k v Hin. unfold jget. rewrite (od_elem_get k v ms N); [done|by rewrite P]. }
  split; [intros k; by rewrite Pk|]. split; [apply G; cbn; set_solver|]. split; [|done].
  unfold float_fields. rewrite !Forall_cons. cbn [fst snd].
  do 6 (split; [match goal with |- context [jget ms ?k] => erewrite (G k) by (unfold config_raw; repeat first [apply list_elem_of_here|apply list_elem_of_further]) end; by split|]). done.
Qed.

(** * Snapshot identities are 32 lower-case hexadecimal digits *)
Definition is_hex (c : ascii) : bool := is_digit c || in_range 97 102 c.
Fixpoint all_hex (s : string) : bool := match s with "" => true | String c s => is_hex c && all_hex s end.
Definition uuid_text (s : string) : Prop := String.length s = 32%nat /\ all_hex s = true.

Lemma all_hex_app a b : all_hex (a +:+ b) = all_hex a && all_hex b.
Proof. induction a as [|c a IH]; [done|]. rewrite append_cons. cbn. by rewrite IH, andb_assoc. Qed.
Lemma all_hex_rev s : all_hex (String.rev s) = all_hex s.
Proof. induction s as [|c s IH]; [done|]. rewrite rev_cons, all_hex_app, IH. cbn. by rewrite andb_true_r, andb_comm. Qed.

(** What a hexadecimal digit is not. *)
Definition NOT_HEX : list ascii := ["{"; "}"; "-"; "+"; "_"; "/"; "."; "u"; "x"; "X"]%char ++ [BACKSLASH].
Lemma hex_char c : is_hex c = true -> is_space c = false /\ (c ∉ NOT_HEX) /\
  exists d, hex_of c = Some d /\ 0 <= d < 16 /\ hex_digit d = c.
Proof. intros H. destruct c as [[] [] [] [] [] [] [] []]; try discriminate H; (split; [reflexivity|]; split; [decide_now|]; eexists; split; [vm_compute; reflexivity|]; split; [lia|reflexivity]). Qed.
Lemma hex_digit_hex d : 0 <= d < 16 -> is_hex (hex_digit d) = true.
Proof.
  intros H. assert (A : d ∈ seqZ 0 16) by (apply elem_of_seqZ; lia). revert A. clear H.
  assert (F : Forall (fun d => is_hex (hex_digit d) = true) (seqZ 0 16)) by decide_now. rewrite Forall_forall in F. apply F.
Qed.

Lemma hex_text_hex k : forall n t, all_hex t = true -> all_hex (hex_text k n t) = true /\ String.length (hex_text k n t) = (k + String.length t)%nat.
Proof.
  induction k as [|k IH]; intros n t H; [done|]. cbn [hex_text].
  assert (Hd : is_hex (hex_digit (n mod 16)) = true) by (apply hex_digit_hex, Z.mod_pos_bound; lia).
  destruct (IH (n / 16) (String (hex_digit (n mod 16)) t)) as [A L]; [cbn; by rewrite Hd|]. rewrite A, L. cbn. split; [done|lia].
Qed.
Lemma hex_text_plus a b : forall n t, hex_text (b + a) n t = hex_text a (n / 16 ^ Z.of_nat b) (hex_text b n t).
Proof.
  induction b as [|b IH]; intros n t; [cbn [hex_text Nat.add]; by rewrite Z.pow_0_r, Z.div_1_r|].
  cbn [Nat.add hex_text]. rewrite IH. rewrite Z.div_div by lia. f_equal. f_equal.
  rewrite Nat2Z.inj_succ, Z.pow_succ_r by lia. lia.
Qed.

Fixpoint hex_val (acc : Z) (s : string) : Z :=
  match s with "" => acc | String c s => hex_val (16 * acc + default 0 (hex_of c)) s end.
Lemma hex_run_val s : all_hex s = true -> forall acc, hex_run true acc s = Some (hex_val acc s).
Proof.
  induction s as [|c s IH]; [done|]. cbn [all_hex]. intros [Hc H]%andb_prop acc. cbn [hex_run hex_val].
  destruct (hex_char c Hc) as (_ & N & d & E & _). rewrite decide_False by (intros ->; by apply N; decide_now). rewrite E. by apply IH.
Qed.
Lemma hex_val_bounds s : all_hex s = true -> forall acc, 0 <= acc ->
  acc * 16 ^ Z.of_nat (String.length s) <= hex_val acc s < (acc + 1) * 16 ^ Z.of_nat (String.length s).
Proof.
  induction s as [|c s IH]; [cbn; lia|]. cbn [all_hex]. intros [Hc H]%andb_prop acc Ha. cbn [hex_val].
  destruct (hex_char c Hc) as (_ & _ & d & E & Hd & _). rewrite E. cbn [default String.length].
  specialize (IH H (16 * acc + d) ltac:(lia)). rewrite Nat2Z.inj_succ, Z.pow_succ_r by lia.
  assert (0 < 16 ^ Z.of_nat (String.length s)) by (apply Z.pow_pos_nonneg; lia). unfold id. nia.
Qed.
Lemma hex_text_val s : all_hex s = true -> forall acc t, 0 <= acc -> hex_text (String.length s) (hex_val acc s) t = s +:+ t.
Proof.
  induction s as [|c s IH]; [done|]. cbn [all_hex]. intros [Hc H]%andb_prop acc t Ha. cbn [String.length hex_val].
  destruct (hex_char c Hc) as (_ & _ & d & E & Hd & Ec). rewrite E. cbn [default]. unfold id.
  replace (S (String.length s)) with (String.length s + 1)%nat by lia. rewrite hex_text_plus, IH by (done || lia).
  pose proof (hex_val_bounds s H (16 * acc + d) ltac:(lia)) as B.
  assert (0 < 16 ^ Z.of_nat (String.length s)) by (apply Z.pow_pos_nonneg; lia).
  replace (hex_val (16 * acc + d) s / 16 ^ Z.of_nat (String.length s)) with (16 * acc + d) by (apply (Z.div_unique_pos _ _ _ (hex_val (16 * acc + d) s - (16 * acc + d) * 16 ^ Z.of_nat (String.length s))); lia).
  cbn [hex_text]. replace ((16 * acc + d) mod 16) with d by (apply (Z.mod_unique_pos _ _ acc); lia). by rewrite Ec, append_cons.
Qed.

(** A character that does not occur cannot start an occurrence. *)
Lemma replace_absent c sub new s : has_char c s = false -> str_replace (String c sub) new s = s.
Proof.
  unfold str_replace. induction s as [|d s IH]; [done|]. cbn [has_char]. intros [Hd H]%orb_false_iff.
  apply bool_decide_eq_false in Hd. cbn [replace_from]. unfold eat_str at 1. cbn [eat].
  rewrite decide_False by done. cbn. by rewrite IH.
Qed.
Lemma hex_no_char c s : c ∈ NOT_HEX -> all_hex s = true -> has_char c s = false.
Proof.
  intros Hc. induction s as [|d s IH]; [done|]. cbn [all_hex has_char]. intros [Hd H]%andb_prop. rewrite IH by done.
  rewrite bool_decide_eq_false_2; [done|]. intros ->. by destruct (hex_char c Hd) as (_ & N & _).
Qed.
Lemma hex_strip s : all_hex s = true -> strip s = s.
Proof.
  assert (D : forall s, all_hex s = true -> drop_spaces s = s).
  { intros [|c s']; [done|]. cbn. intros [Hc _]%andb_prop. by destruct (hex_char c Hc) as (-> & _). }
  intros H. unfold strip. rewrite (D s) by done. rewrite (D (String.rev s)) by (by rewrite all_hex_rev). apply rev_involutive.
Qed.
Lemma hex_strip_braces s : all_hex s = true -> strip_chars ["{"%char; "}"%char] s = s.
Proof.
  assert (D : forall s, all_hex s = true -> lstrip_chars ["{"%char; "}"%char] s = s).
  { intros [|c s']; [done|]. cbn [all_hex lstrip_chars]. intros [Hc _]%andb_prop. destruct (hex_char c Hc) as (_ & N & _).
    rewrite decide_False; [done|]. intros Hin. apply N. revert Hin. clear. set_solver. }
  intros H. unfold strip_chars. rewrite (D s) by done. rewrite (D (String.rev s)) by (by rewrite all_hex_rev). apply rev_involutive.
Qed.

Lemma uuid_accepts s : uuid_text s -> uuid_hex s = Some s.
Proof.
  intros [L H]. unfold uuid_hex.
  assert (R : forall c sub, c ∈ NOT_HEX -> str_replace (String c sub) "" s = s) by (intros c sub Hc; by apply replace_absent, hex_no_char).
  rewrite !R by decide_now. rewrite (hex_strip_braces s H), R by decide_now.
  rewrite bool_decide_eq_true_2 by done. cbn [negb]. unfold int_base16. rewrite (hex_strip s H).
  destruct s as [|a s]; [done|]. pose proof H as Hs. cbn [all_hex] in Hs. apply andb_prop in Hs as [Ha Hs].
  destruct (hex_char a Ha) as (_ & N & d & E & Hd & Ed). unfold split_sign.
  rewrite !bool_decide_eq_false_2 by (intros ->; apply N; decide_now).
  assert (X : (match s with
               | String b r => if bool_decide (a = "0"%char) && bool_decide (b = "x"%char \/ b = "X"%char)
                               then match r with String u r' => if decide (u = "_"%char) then r' else r | "" => r end else String a s
               | "" => String a s end) = String a s).
  { destruct s as [|b r]; [done|]. cbn [all_hex] in Hs. apply andb_prop in Hs as [Hb _]. destruct (hex_char b Hb) as (_ & Nb & _).
    rewrite (bool_decide_eq_false_2 (b = _ \/ _)), andb_false_r; [done|]. intros [->| ->]; apply Nb; decide_now. }
  rewrite X. clear X. cbn [hex_run]. rewrite decide_False by (intros ->; apply N; decide_now). rewrite E, hex_run_val by done.
  cbn [mbind option_bind]. cbn [String.length] in L.
  pose proof (hex_val_bounds (String a s) H 0 ltac:(lia)) as B. cbn [hex_val String.length] in B. rewrite E, L in B. cbn [default] in B. unfold id in B.
  rewrite (proj2 (Z.leb_le _ _)), (proj2 (Z.ltb_lt _ _)) by lia. cbn [andb].
  pose proof (hex_text_val (String a s) H 0 "" ltac:(lia)) as T. cbn [hex_val] in T. rewrite E in T. cbn [default] in T. unfold id in T.
  cbn [String.length] in T. rewrite L in T. by rewrite T, app_nil_str.
Qed.

Lemma contains_hex c sub s : c ∈ NOT_HEX -> all_hex s = true -> contains (String c sub) s = false.
Proof.
  intros Hc H. apply not_true_is_false. intros (a & b & ->)%contains_app. rewrite append_cons, all_hex_app in H. cbn [all_hex] in H.
  apply andb_prop in H as [_ [Hh _]%andb_prop]. by destruct (hex_char c Hh) as (_ & N & _).
Qed.

Lemma validate_accepts s : uuid_text s -> validate_snapshot_id s = Ok s.
Proof.
  intros U. pose proof U as [L H]. unfold validate_snapshot_id, blank. rewrite (hex_strip s H).
  rewrite bool_decide_eq_false_2 by (intros ->; done).
  rewrite !hex_no_char by (done || decide_now). rewrite (contains_hex "."%char "." s) by (done || decide_now). cbn [orb]. rewrite (uuid_accepts s U). by rewrite decide_True.
Qed.
Lemma validate_inv s t : validate_snapshot_id s = Ok t -> t = s /\ uuid_text s.
Proof.
  unfold validate_snapshot_id. destruct (blank s); [done|]. destruct (_ || _); [done|].
  destruct (uuid_hex s) as [h|] eqn:E; [|done]. case_decide as Hh; [|done]. intros [= <-]. split; [done|]. subst h. revert E.
  unfold uuid_hex. destruct (negb _); [done|]. destruct (int_base16 _) as [n|]; [|done]. cbn [mbind option_bind].
  destruct (_ && _); [|done]. intros E%(f_equal (default "")). change (hex_text 32 n "" = s) in E. destruct (hex_text_hex 32 n "" eq_refl) as [A L].
  rewrite E in A, L. by split.
Qed.
Lemma validate_error s e : validate_snapshot_id s = Err e -> exists m, e = TuningSnapshotError m.
Proof. unfold validate_snapshot_id, refuse_snapshot. repeat case_match; intros [= <-]; by eexists. Qed.

(** * The snapshot store *)
Definition snapshot_row (t : TuningSnapshot) : row :=
  [("snapshot_id", JStr (ts_id t)); ("created_timestamp", JFloat (ts_created t)); ("source", JStr (source_value (ts_source t)));
   ("config_version", JStr (ts_version t))].
Definition artifact_json (a : TuningArtifact) : json :=
  JObj [("schema_version", JInt (ta_schema_version a)); ("snapshot", JObj (snapshot_row (ta_snapshot a)));
        ("config", JObj (config_raw (ta_config a)))].
Definition artifact_text (a : TuningArtifact) : string := text (indented 2) 0 (artifact_json a) +:+ newline.

(** An artifact the file can carry: what [make_artifact] builds from a valid candidate (below). *)
Definition publishable (a : TuningArtifact) : Prop :=
  ta_schema_version a = TUNING_ARTIFACT_SCHEMA_VERSION /\ uuid_text (ts_id (ta_snapshot a)) /\
  fin (ts_created (ta_snapshot a)) /\ blank (ts_version (ta_snapshot a)) = false /\ utf8_valid (ts_version (ta_snapshot a)) = true /\
  config_ok (ta_config a) /\ Forall (fun x => valid x = true) (config_floats (ta_config a)).

Lemma hex_not_blank s : uuid_text s -> blank s = false.
Proof. intros [L H]. unfold blank. rewrite (hex_strip s H). apply bool_decide_eq_false_2. by intros ->. Qed.

Lemma make_artifact_publishable c version source wall uuid id a :
  make_artifact c version source wall uuid id = Ok a -> config_ok c -> Forall (fun x => valid x = true) (config_floats c) ->
  valid wall = true -> utf8_valid version = true -> publishable a /\ ta_config a = c.
Proof.
  unfold make_artifact. destruct (blank version) eqn:B; [done|]. cbv zeta. intros (t0 & V & H)%bind_ok C F W U.
  apply validate_inv in V as [-> V]. apply bind_ok in H as (t & Ht & [= <-]). unfold new_snapshot, tuning_post_init, require_text, require_finite, require in Ht.
  cbn in Ht. rewrite (hex_not_blank _ V), B in Ht. cbn in Ht. destruct (isfinite wall) eqn:Fw; [|done]. cbn in Ht. injection Ht as <-.
  split; [|done]. repeat split; try done; apply C || apply V.
Qed.

Lemma artifact_record a : publishable a -> artifact_to_record a = Ok (artifact_json a).
Proof.
  intros (S & _). unfold artifact_to_record. rewrite S. cbn [negb Z.eqb]. unfold TUNING_ARTIFACT_SCHEMA_VERSION at 1. rewrite Z.eqb_refl. cbn [negb].
  unfold tuning_record. rewrite project_id by (cbn [fmap list_fmap fst]; decide_now). cbn [mbind result_bind].
  rewrite to_record_config. cbn [mbind result_bind to_row traverse to_json fst snd].
  unfold to_row. cbn [traverse to_json fst snd mbind result_bind mret result_ret]. cbv zeta.
  change (refuse_snapshot "denied keys") with (Err (A := json) (TuningSnapshotError "denied keys")).
  match goal with |- (if denied_in _ (all_keys ?r) then _ else _) = _ => replace (denied_in TELEMETRY_DENYLIST (all_keys r)) with false by (vm_compute; reflexivity) end.
  unfold artifact_json. by rewrite S.
Qed.

Lemma artifact_fits a limit : (2 <= limit)%nat -> publishable a -> fits limit (artifact_json a) = true.
Proof.
  intros L (S & _ & [V _] & _ & _ & [B _] & F). destruct limit as [|[|limit]]; [lia..|].
  unfold config_floats in F. rewrite !Forall_cons in F. destruct F as (F1 & F2 & F3 & F4 & F5 & F6 & _).
  assert (D : digits_ok (tc_hot_event_severity (ta_config a)) = true).
  { assert (I : tc_hot_event_severity (ta_config a) ∈ seqZ 1 5) by (apply elem_of_seqZ; lia). revert I.
    assert (A : Forall (fun n => digits_ok n = true) (seqZ 1 5)) by decide_now. rewrite Forall_forall in A. apply A. }
  unfold artifact_json. rewrite S. cbn [fits forallb fst snd snapshot_row config_raw]. rewrite V, F1, F2, F3, F4, F5, F6, D.
  repeat (rewrite bool_decide_eq_true_2 by (cbn [fmap list_fmap fst]; decide_now)). reflexivity.
Qed.

Lemma artifact_encodable a : publishable a -> encodable (artifact_json a) = true.
Proof.
  intros (S & [_ U] & [V _] & _ & W & _ & F). unfold config_floats in F. rewrite !Forall_cons in F. destruct F as (F1 & F2 & F3 & F4 & F5 & F6 & _).
  assert (E : utf8_valid (ts_id (ta_snapshot a)) = true).
  { revert U. generalize (ts_id (ta_snapshot a)). induction s as [|c s IH]; [done|]. cbn [all_hex]. intros [Hc Hs]%andb_prop.
    rewrite utf8_char; [by apply IH|]. revert Hc. clear. destruct c as [[] [] [] [] [] [] [] []]; vm_compute; congruence. }
  unfold artifact_json. cbn [strings_ok forallb fst snd snapshot_row config_raw]. rewrite V, W, E, F1, F2, F3, F4, F5, F6.
  by destruct (ts_source (ta_snapshot a)).
Qed.

Lemma snapshot_round t : uuid_text (ts_id t) -> isfinite (ts_created t) = true -> blank (ts_version t) = false ->
  snapshot_from (snapshot_row t) = Ok t.
Proof.
  destruct t as [id created source version]. cbn [ts_id ts_created ts_version]. intros U F B.
  assert (N : new_snapshot id created source version = Ok (mkTuningSnapshot id created source version)).
  { unfold new_snapshot, tuning_post_init, require_text, require_finite. cbn [ts_id ts_created ts_version]. by rewrite (hex_not_blank _ U), B, F. }
  unfold snapshot_from, snapshot_row. cbn [ts_id ts_created ts_version ts_source].
  match goal with |- context [jget ?m "source"] => change (jget m "source") with (JStr (source_value source));
    change (jget m "snapshot_id") with (JStr id); change (jget m "created_timestamp") with (JFloat created);
    change (jget m "config_version") with (JStr version) end.
  replace (source_of (JStr (source_value source))) with (Some source) by (by destruct source).
  cbn [of_option mbind result_bind]. change (to_float (JFloat created)) with (Ok created). cbn [mbind result_bind].
  rewrite N. cbn [ts_id]. by rewrite (validate_accepts _ U).
Qed.

Lemma artifact_round a : publishable a -> artifact_from_record (artifact_json a) = Ok a.
Proof.
  intros (S & U & [_ F] & B & _ & C & _). unfold artifact_json. rewrite S. cbn [artifact_from_record].
  assert (Hc : config_from_record (JObj (config_raw (ta_config a))) = Ok (ta_config a)).
  { apply from_record_accepts. eexists. split; [done|]. by apply describes_raw. }
  match goal with |- context [some_extra ?k ?n] => replace (some_extra k n) with false by (vm_compute; reflexivity) end.
  match goal with |- context [some_extra ?k ?n] => replace (some_extra k n) with false by (vm_compute; reflexivity) end.
  match goal with |- context [jget ?m "schema_version"] => change (jget m "schema_version") with (JInt TUNING_ARTIFACT_SCHEMA_VERSION);
    change (jget m "snapshot") with (JObj (snapshot_row (ta_snapshot a))); change (jget m "config") with (JObj (config_raw (ta_config a))) end.
  cbn [is_two negb]. rewrite Z.eqb_refl. cbn [negb].
  replace (some_extra (snapshot_row (ta_snapshot a)).*1 TUNING_ALLOWLIST) with false by (vm_compute; reflexivity).
  replace (some_extra TUNING_ALLOWLIST (snapshot_row (ta_snapshot a)).*1) with false by (vm_compute; reflexivity).
  rewrite (snapshot_round _ U F B), Hc. cbn. destruct a. cbn in S. by subst.
Qed.

(** ** Files *)
Definition path_of (dd id : string) : string := tuning_dir dd +:+ "/" +:+ id +:+ ".json".
Lemma append_inj_l a b c : a +:+ b = a +:+ c -> b = c.
Proof. induction a as [|d a IH]; [done|]. rewrite !append_cons. intros [= H]. by apply IH. Qed.
Lemma append_inj_r c : forall a b, String.length a = String.length b -> a +:+ c = b +:+ c -> a = b.
Proof.
  induction a as [|x a IH]; intros [|y b]; try done. cbn. intros [= L] H. rewrite !append_cons in H. injection H as -> H. f_equal. by apply IH.
Qed.
Lemma path_inj dd id id' : uuid_text id -> uuid_text id' -> path_of dd id = path_of dd id' -> id = id'.
Proof.
  intros [L _] [L' _]. unfold path_of. intros H. repeat apply append_inj_l in H.
  apply (append_inj_r ".json"); [by rewrite L, L'|done].
Qed.
Lemma snapshot_path_ok dd id : uuid_text id -> snapshot_path dd id = Ok (path_of dd id).
Proof. intros U. unfold snapshot_path. by rewrite (validate_accepts _ U). Qed.

Definition publish (dd : string) (fs : files) (a : TuningArtifact) : files := (write_snapshot fs dd a).2.

(** No write, of any artifact, changes a file that exists. *)
Lemma write_keeps dd fs a p s : fs !! p = Some s -> publish dd fs a !! p = Some s.
Proof.
  intros H. unfold publish, write_snapshot. destruct (snapshot_path _ _) as [q|e]; [|done].
  destruct (exists_in fs q) eqn:E; [done|]. assert (N : q <> p) by (intros ->; unfold exists_in in E; by rewrite H in E).
  destruct (_ ≫= _); [|done]. case_match; cbn; by rewrite lookup_insert_ne.
Qed.
Lemma publish_keeps dd l : forall fs p s, fs !! p = Some s -> foldl (publish dd) fs l !! p = Some s.
Proof. induction l as [|a l IH]; intros fs p s H; [done|]. cbn. by apply IH, write_keeps. Qed.

(** The outcome of writing a publishable artifact. *)
Lemma write_outcome dd fs a : publishable a ->
  write_snapshot fs dd a =
    if exists_in fs (path_of dd (ts_id (ta_snapshot a))) then (refuse_snapshot "snapshot_id already exists; refusing to overwrite", fs)
    else (Ok (path_of dd (ts_id (ta_snapshot a))), <[path_of dd (ts_id (ta_snapshot a)) := artifact_text a]> fs).
Proof.
  intros P. pose proof P as (_ & U & _). unfold write_snapshot. rewrite (snapshot_path_ok _ _ U). destruct (exists_in _ _); [done|].
  rewrite (artifact_record a P). cbn [mbind result_bind]. unfold dumps.
  rewrite (fits_ints 2 _ (artifact_fits a 2 ltac:(lia) P)). fold (artifact_text a).
  assert (utf8_valid (artifact_text a) = true) as ->; [|done].
  apply utf8_both; [|done]. apply text_utf8; [apply indented_utf8|]. by apply artifact_encodable.
Qed.

Lemma loads_trailing limit v : fits limit v = true -> loads limit (text (indented 2) 0 v +:+ newline) = Parsed v.
Proof.
  intros F. pose proof (text_skip (indented 2) 0 limit v newline F) as S.
  pose proof (scan_text (indented 2) (indented_ok 2) limit limit v 0 newline F ltac:(lia) eq_refl) as E.
  unfold loads. rewrite S, E.
  assert (eat_str BOM (text (indented 2) 0 v +:+ newline) = None) as ->; [|done].
  destruct (text_head (indented 2) 0 limit v F) as (c & r & -> & _ & _ & _ & N). rewrite append_cons. cbn [BOM eat_str]. by rewrite eat_other.
Qed.

Lemma load_written limit dd fs a : (2 <= limit)%nat -> publishable a ->
  fs !! path_of dd (ts_id (ta_snapshot a)) = Some (artifact_text a) -> load_snapshot limit fs dd (ts_id (ta_snapshot a)) = Ok a.
Proof.
  intros L P H. pose proof P as (_ & U & _). unfold load_snapshot. rewrite (snapshot_path_ok _ _ U). cbn [mbind result_bind]. rewrite H.
  assert (utf8_valid (artifact_text a) = true) as ->.
  { apply utf8_both; [|done]. apply text_utf8; [apply indented_utf8|]. by apply artifact_encodable. }
  cbn [negb]. unfold artifact_text. rewrite loads_trailing by (by apply artifact_fits). by apply artifact_round.
Qed.

(** ** The abstract store: the first artifact published under an identity *)
Definition first_with (id : string) (l : list TuningArtifact) : option TuningArtifact :=
  head (filter (fun a => ts_id (ta_snapshot a) = id) l).

Lemma first_with_snoc id l a : first_with id (l ++ [a]) =
  match first_with id l with Some b => Some b | None => if decide (ts_id (ta_snapshot a) = id) then Some a else None end.
Proof.
  unfold first_with. rewrite filter_app. destruct (filter _ l) as [|b k] eqn:E; [|done]. cbn [app head].
  destruct (decide (ts_id (ta_snapshot a) = id)); [by rewrite filter_cons_True|by rewrite filter_cons_False].
Qed.

(** The files are exactly the texts of the first artifacts. *)
Lemma published_files dd l : Forall publishable l -> forall id, uuid_text id ->
  foldl (publish dd) ∅ l !! path_of dd id = artifact_text <$> first_with id l.
Proof.
  induction l as [|a l IH] using rev_ind; intros P id U; [done|].
  apply Forall_app in P as [P Pa]. rewrite Forall_singleton in Pa. pose proof Pa as (_ & Ua & _). rewrite foldl_app. cbn [foldl]. unfold publish at 1.
  rewrite write_outcome by done. rewrite first_with_snoc. specialize (IH P). unfold exists_in. rewrite (IH _ Ua).
  destruct (decide (ts_id (ta_snapshot a) = id)) as [<-|Ne].
  - destruct (first_with _ l) as [b|] eqn:E; cbn.
    + by rewrite (IH _ Ua), E.
    + by rewrite lookup_insert_eq.
  - assert (Np : path_of dd (ts_id (ta_snapshot a)) <> path_of dd id) by (intros E; by apply Ne, (path_inj dd)).
    case_bool_decide; cbn; [|rewrite lookup_insert_ne by done]; rewrite (IH _ U); by destruct (first_with id l).
Qed.

(** C13: snapshots are write-once and read back as they were written.  After any sequence of
    publications to an empty directory, an identity that is not 32 lower-case hexadecimal
    digits is refused, and any other loads the first artifact published under it, or is
    "not found"; publishing succeeds exactly for a new identity.  A later write of any artifact
    at all, valid or not, changes no published snapshot. *)
Theorem snapshots_write_once limit dd l a b id :
  (2 <= limit)%nat -> Forall publishable l -> publishable a ->
  let fs := foldl (publish dd) ∅ l in
  (load_snapshot limit fs dd id =
     match validate_snapshot_id id with
     | Ok id => of_option (TuningSnapshotError "tuning snapshot not found") (first_with id l)
     | Err e => Err e
     end) /\
  ((exists t, validate_snapshot_id id = Ok t) <-> uuid_text id) /\
  (is_ok (write_snapshot fs dd a).1 = true <-> first_with (ts_id (ta_snapshot a)) l = None) /\
  (is_Some (first_with id l) -> load_snapshot limit (publish dd fs b) dd id = load_snapshot limit fs dd id).
Proof.
  intros L P Pa fs.
  assert (Hload : forall fs' c, fs' !! path_of dd (ts_id (ta_snapshot c)) = Some (artifact_text c) -> c ∈ l ->
    load_snapshot limit fs' dd (ts_id (ta_snapshot c)) = Ok c) by (intros fs' c Hf Hc; rewrite Forall_forall in P; by apply load_written, Hf; [|apply P]).
  assert (Hfirst : forall i c, first_with i l = Some c -> c ∈ l /\ ts_id (ta_snapshot c) = i).
  { intros i c Hc. unfold first_with in Hc. apply head_Some_elem_of, list_elem_of_filter in Hc as [??]. done. }
  split; [|split; [|split]].
  - destruct (validate_snapshot_id id) as [t|e] eqn:V; [|unfold load_snapshot, snapshot_path; by rewrite V].
    apply validate_inv in V as [-> U]. pose proof (published_files dd l P id U) as F. destruct (first_with id l) as [c|] eqn:E.
    + destruct (Hfirst _ _ E) as [Hc <-]. by apply Hload.
    + unfold load_snapshot. rewrite (snapshot_path_ok _ _ U). cbn [mbind result_bind]. fold fs in F. by rewrite F.
  - split; [by intros (t & [_ ?]%validate_inv)|intros U; exists id; by apply validate_accepts].
  - rewrite write_outcome by done. destruct Pa as (_ & Ua & _). pose proof (published_files dd l P _ Ua) as F. fold fs in F. unfold exists_in. rewrite F.
    by destruct (first_with _ l).
  - intros [c E]. destruct (Hfirst _ _ E) as [Hc <-]. pose proof Hc as Pc. rewrite Forall_forall in P. apply P in Pc as (_ & U & _).
    pose proof (published_files dd l ltac:(by rewrite Forall_forall) _ U) as F. fold fs in F. rewrite E in F.
    rewrite (Hload fs c F Hc). apply Hload; [|done]. by apply write_keeps.
Qed.

Definition sample_id : string := "0123456789abcdef0123456789abcdef".
Definition sample_artifact : TuningArtifact :=
  mkArtifact (mkTuningSnapshot sample_id (flit 17 0) OFFLINE_EVAL "v1") capture_baseline_config 2.
Definition other_artifact : TuningArtifact :=
  mkArtifact (mkTuningSnapshot sample_id (flit 18 0) MANUAL "v2") capture_baseline_config 2.

Lemma sample_publishable : publishable sample_artifact /\ publishable other_artifact.
Proof. split; (split; [reflexivity|]; repeat split; first [vm_compute; reflexivity|repeat constructor; vm_compute; reflexivity|vm_compute; discriminate]). Qed.

Lemma snapshots_write_once_witness :
  load_snapshot 50 (foldl (publish "data") ∅ [sample_artifact; other_artifact]) "data" sample_id = Ok sample_artifact.
Proof.
  destruct sample_publishable as [P1 P2].
  assert (P : Forall publishable [sample_artifact; other_artifact]) by (repeat apply Forall_cons_2; [assumption..|apply Forall_nil_2]).
  assert (L : (2 <= 50)%nat) by lia.
  destruct (snapshots_write_once 50 "data" [sample_artifact; other_artifact] sample_artifact sample_artifact sample_id L P P1) as [E _].
  rewrite E. vm_compute. reflexivity.
Defined.

(** * Candidate bodies *)

(** C36: the candidate body is strict.  A payload is accepted exactly when it is an object with the
    seven supported keys and no other, an integer severity from 1 to 5 and finite positive
    numbers; any refusal is a [TuningConfigError], except for an integer beyond the floats; the
    members of a printed configuration, in any order, are read back as that configuration; the
    inventory declares the accepted names supported and all others deferred, with the
    production defaults as the baseline. *)
Theorem config_strict :
  (forall p c, config_from_record p = Ok c <-> exists ms, p = JObj ms /\ describes ms c) /\
  (forall p e, config_from_record p = Err e -> config_error e) /\
  (forall c ms, config_ok c -> ms ≡ₚ config_raw c -> config_to_record c = Ok (config_raw c) /\ config_from_record (JObj ms) = Ok c) /\
  tp_name <$> filter (fun p => tp_status p = supported) tuning_parameter_inventory = OFFLINE_TUNING_CONFIG_ALLOWLIST /\
  tp_name <$> filter (fun p => tp_status p = deferred) tuning_parameter_inventory = DEFERRED_TUNING_PARAMETER_NAMES /\
  config_raw capture_baseline_config =
    (fun p => (tp_name p, tp_default p)) <$> filter (fun p => tp_status p = supported) tuning_parameter_inventory /\
  config_ok capture_baseline_config /\ warming_config capture_baseline_config = default_warming.
Proof.
  split; [apply from_record_accepts|]. split; [apply from_record_error|].
  split; [intros c ms C P; split; [apply to_record_config|apply from_record_accepts; eexists; split; [done|by apply describes_raw]]|].
  split; [vm_compute; reflexivity|]. split; [vm_compute; reflexivity|]. split; [vm_compute; reflexivity|].
  split; [|done]. split; [vm_compute; split; discriminate|]. repeat constructor; vm_compute; reflexivity.
Qed.

(** * Loading a snapshot *)
Definition snapshot_error (e : exn) : Prop := exists m, e = TuningSnapshotError m.
(** The payload's creation time is an integer beyond the floats. *)
Definition huge_created (payload : json) : Prop :=
  exists ms raw n, payload = JObj ms /\ jget ms "snapshot" = JObj raw /\ jget raw "created_timestamp" = JInt n /\ of_Z n = None.

Lemma snapshot_from_error raw e : snapshot_from raw = Err e ->
  snapshot_error e \/ (e = OverflowError /\ exists n, jget raw "created_timestamp" = JInt n /\ of_Z n = None).
Proof.
  unfold snapshot_from, refuse_snapshot. destruct (source_of _); cbn [of_option mbind result_bind]; [|intros [= <-]; left; by eexists].
  assert (R : forall why, Err (A := TuningSnapshot) (TuningSnapshotError why) = Err e -> snapshot_error e \/ (e = OverflowError /\ exists n, jget raw "created_timestamp" = JInt n /\ of_Z n = None))
    by (intros why [= <-]; left; by eexists).
  destruct (jget raw "snapshot_id"); try apply R. destruct (jget raw "created_timestamp") as [| |n|x| | |] eqn:Ec; try apply R;
    destruct (jget raw "config_version"); try apply R.
  - unfold to_float. cbn. destruct (of_Z n) as [x|] eqn:En; cbn; [|intros [= <-]; right; eauto].
    destruct (new_snapshot _ _ _ _); [|apply R]. destruct (validate_snapshot_id _) eqn:V; [done|]. intros [= <-]. left. by eapply validate_error.
  - cbn. destruct (new_snapshot _ _ _ _); [|apply R]. destruct (validate_snapshot_id _) eqn:V; [done|]. intros [= <-]. left. by eapply validate_error.
Qed.

Lemma from_artifact_error p e : artifact_from_record p = Err e -> snapshot_error e \/ (e = OverflowError /\ huge_created p).
Proof.
  unfold artifact_from_record, refuse_snapshot. destruct p as [| | | | | |ms]; try (intros [= <-]; left; by eexists).
  do 3 (case_match; [intros [= <-]; left; by eexists|]). destruct (jget ms "snapshot") as [| | | | | |raw] eqn:Es; try (intros [= <-]; left; by eexists).
  do 2 (case_match; [intros [= <-]; left; by eexists|]). destruct (snapshot_from raw) as [t|e'] eqn:Et; cbn.
  - destruct (config_from_record _); [done|]. intros [= <-]. left. by eexists.
  - intros [= <-]. apply snapshot_from_error in Et as [?|[-> (n & E & N)]]; [by left|]. right. split; [done|]. by exists ms, raw, n.
Qed.

Lemma new_snapshot_ok id created source version t : new_snapshot id created source version = Ok t ->
  t = mkTuningSnapshot id created source version /\ blank version = false /\ isfinite created = true.
Proof.
  unfold new_snapshot, tuning_post_init, require_text, require_finite, require. cbn. destruct (blank id); [done|]. destruct (blank version); [done|].
  destruct (isfinite created); [|done]. by intros [= <-].
Qed.
Lemma snapshot_from_ok raw t : snapshot_from raw = Ok t -> uuid_text (ts_id t) /\ blank (ts_version t) = false /\ isfinite (ts_created t) = true.
Proof.
  unfold snapshot_from. intros (s & _ & H)%bind_ok. revert H. destruct (jget raw "snapshot_id"); try done. destruct (jget raw "created_timestamp"); try done;
    destruct (jget raw "config_version"); try done; intros (y & _ & H)%bind_ok;
    destruct (new_snapshot _ _ _ _) as [t'|] eqn:N; try done; apply bind_ok in H as (u & [-> V]%validate_inv & [= <-]); apply new_snapshot_ok in N as (-> & B & F); done.
Qed.
Lemma from_artifact_ok p a : artifact_from_record p = Ok a ->
  ta_schema_version a = 2 /\ uuid_text (ts_id (ta_snapshot a)) /\ blank (ts_version (ta_snapshot a)) = false /\
  isfinite (ts_created (ta_snapshot a)) = true /\ config_ok (ta_config a).
Proof.
  unfold artifact_from_record. destruct p as [| | | | | |ms]; try done. do 3 (case_match; [done|]). destruct (jget ms "snapshot") as [| | | | | |raw]; try done.
  do 2 (case_match; [done|]). intros (t & Ht & R)%bind_ok. destruct (config_from_record _) as [c|] eqn:Ec; [|done]. injection R as <-.
  apply from_record_accepts in Ec as (m & _ & D). apply snapshot_from_ok in Ht as (U & B & F). cbn. split; [done|]. split; [done|]. split; [done|]. split; [done|]. apply D.
Qed.

(** [load_snapshot_closed] loading a snapshot fails closed.  Whatever the directory holds, a loaded artifact has the
    current schema, a well-formed identity, a non-empty version, a finite time and a valid
    configuration; every failure is a [TuningSnapshotError] except for what [json.loads] raises
    beyond a decode error, and the [OverflowError] of a creation time beyond the floats. *)
Theorem load_snapshot_closed limit fs dd id :
  match load_snapshot limit fs dd id with
  | Ok a => ta_schema_version a = 2 /\ uuid_text (ts_id (ta_snapshot a)) /\ blank (ts_version (ta_snapshot a)) = false /\
            isfinite (ts_created (ta_snapshot a)) = true /\ config_ok (ta_config a)
  | Err e => snapshot_error e \/ exists path text, snapshot_path dd id = Ok path /\ fs !! path = Some text /\
               (loads limit text = LoadsRaises e \/ (e = OverflowError /\ exists p, loads limit text = Parsed p /\ huge_created p))
  end.
Proof.
  unfold load_snapshot. destruct (snapshot_path dd id) as [path|e] eqn:Ep; cbn [mbind result_bind].
  2: { left. unfold snapshot_path in Ep. destruct (validate_snapshot_id id) eqn:V; [done|]. injection Ep as <-. by eapply validate_error. }
  destruct (fs !! path) as [text|] eqn:Ef; [|left; by eexists]. destruct (utf8_valid text); cbn [negb]; [|left; by eexists].
  destruct (loads limit text) as [p| |e] eqn:El; [|left; by eexists|right; exists path, text; auto].
  destruct (artifact_from_record p) as [a|e] eqn:Ea; [by eapply from_artifact_ok|].
  apply from_artifact_error in Ea as [?|[-> Hh]]; [by left|]. right. exists path, text. eauto 8.
Qed.
