(* ===== verification/Replay.v ===== *)
(** * The offline replay of a candidate configuration (src/market_sentinel/tuning/replay.py)

    [run_tuned_replay] drives an isolated engine over a recorded corpus: one tick per batch,
    the fake wall clock set to the batch's market time before it and the monotonic clock at
    zero throughout.  The fixture directory is a finite map from file names to the lines of
    each file, the work directory one from file names to watchlist payloads; uuid4 draws are
    oracles.  The engine is the one of Engine.v with the replay provider of Providers.v. *)
From Stdlib Require Import ZArith Lia Ascii String Sorting.Sorted.
From stdpp Require Import prelude strings gmap.
From S2P Require Import Prelude PyFloat Domain RingBuffer Normalizer NumberText Json PyText Features Events Cooldown Cluster Composer Telemetry Jsonl Pipeline Scheduler Health Watchlist Engine Providers Evaluation Tuning.
Local Open Scope Z_scope.

Definition DEFAULT_CORPUS : list string :=
  ["normal_market"; "rapid_move"; "volume_spike"; "price_volume_breakout"; "reversal"; "episode_lifecycle"].
Definition DEFAULT_REPLAY_SYMBOL : string := "600519.SH".

Definition validate_corpus (corpus : list string) : result (list string) :=
  if bool_decide (corpus = []) then Err (TuningConfigError "corpus must contain at least one corpus_id")
  else if negb (length corpus =? length (remove_dups corpus))%nat then Err (TuningConfigError "duplicate corpus_id")
  else Ok corpus.

(** The file of a corpus, among those of the fixture directory. *)
Definition corpus_fixture_path {A} (fixture_dir : gmap string A) (corpus_id : string) : result string :=
  if has_char "/" corpus_id || has_char "\" corpus_id || contains ".." corpus_id || bool_decide (strip corpus_id = "")
  then Err (TuningConfigError "corpus_id is not a filesystem path")
  else
    let path := corpus_id +:+ ".jsonl" in
    match fixture_dir !! path with
    | Some _ => Ok path
    | None => Err (TuningConfigError ("corpus fixture not found: " +:+ path))
    end.

Definition scheduler_policy_for_replay : SchedulerPolicy :=
  let production := default_scheduler_policy in
  mkSchedulerPolicy f0 f0 f0 (upgrade_dwell_s production) (hot_downgrade_dwell_s production) (warm_downgrade_dwell_s production).

(** ** The facts of a tick *)
Record TickFact := mkFact {
  tf_event_types : list string;
  tf_alert_count : nat;
  tf_priorities : list string;
  tf_families : list string;
  tf_level : string
}.
Definition fact_of (item : SymbolTickResult) : TickFact :=
  mkFact (sort_by String.leb ((fun e => type_value (ev_type e)) <$> tr_accepted item)) (length (tr_alerts item))
    ((fun s => priority_value (sig_priority s)) <$> tr_alerts item) (sig_family <$> tr_alerts item) (level_value (tr_level_after item)).
Definition tick_facts (results : list EngineTickResult) (symbol : string) : list TickFact :=
  omap (fun tick => fact_of <$> for_symbol tick symbol) results.

Record TunedReplayResult := mkReplayResult {
  rr_corpus_id : string;
  rr_records : list row;
  rr_facts : list TickFact
}.

(** [float(batch[0]["market_timestamp"])] *)
Definition batch_time (batch : json) : result float :=
  v ← first_item batch; t ← item_at v "market_timestamp"; to_float t.

(** The uuid4 draws of one run. *)
Record Uuids := mkUuids { telemetry_ids : nat -> string; event_ids : nat -> string; signal_ids : nat -> string }.

Section replay.
(** The decoder's digit limit, and [str] and [bool] of values a watchlist file does not hold. *)
Context (limit : nat) (str_other : pyval -> string) (bool_other : pyval -> bool).

Abbreviation TunedEngine := (Engine ReplayProvider (list TelemetryEvent) unit unit).
Definition frozen_clock (n : nat) : float := f0.

Definition build_tuned_engine (watchlist : Watchlist) (provider : ReplayProvider) (telemetry : TelemetryRuntime (list TelemetryEvent) unit) : TunedEngine :=
  engine_init watchlist provider telemetry None.

(** The engine's pipeline, and its tick, while the wall clock reads [now]. *)
Definition tuned_pipeline (u : Uuids) (config : OfflineTuningConfig) (now : float) :=
  engine_pipeline (F := unit) inmemory_record (telemetry_ids u) (fun _ => now) (event_ids u) (signal_ids u) (fun _ => now) (fun _ => now)
    frozen_clock (tc_cluster_lookback_s config) DEFAULT_COOLDOWN_S.
(** No intelligence observer is attached. *)
Definition unattached (i : unit) (t : TelemetryRuntime (list TelemetryEvent) unit) (_ : EngineTickResult) (_ : gset string) (_ : list FeedStatus) := (i, t).
Definition tuned_tick (u : Uuids) (config : OfflineTuningConfig) (now : float) : Step TunedEngine EngineTickResult :=
  tick (replay_fetch now) source_exhausted unattached default_feature_policy (warming_config config) scheduler_policy_for_replay
    default_health_policy (tuned_pipeline u config now) frozen_clock.

Fixpoint replay_batches (u : Uuids) (config : OfflineTuningConfig) (batches : list json) : Step TunedEngine (list EngineTickResult) :=
  match batches with
  | [] => mret []
  | batch :: batches =>
      now ← lift (batch_time batch);
      r ← tuned_tick u config now;
      rest ← replay_batches u config batches;
      mret (r :: rest)
  end.

Definition watchlist_file (corpus_id : string) : string := "watchlist-" +:+ corpus_id +:+ ".json".
Definition tuned_watchlist (corpus_id symbol : string) (work_dir : gmap string Payload) : result Watchlist :=
  w ← watchlist_init str_other bool_other true 10 true (work_dir !! watchlist_file corpus_id);
  '(_, w) ← add w symbol; Ok w.

(** [run_tuned_replay]; the watchlist is on disk once it is built, whatever follows. *)
Definition run_tuned_replay (u : Uuids) (config : OfflineTuningConfig) (corpus_id : string) (fixture_dir : gmap string (list string))
    (work_dir : gmap string Payload) (symbol : string) : result TunedReplayResult * gmap string Payload :=
  match (path ← corpus_fixture_path fixture_dir corpus_id;
         batches ← loads_lines limit (default [] (fixture_dir !! path));
         _ ← (match batches with [] => Err (TuningConfigError "empty replay corpus") | b :: _ => _ ← batch_time b; Ok tt end);
         watchlist ← tuned_watchlist corpus_id symbol work_dir;
         Ok (path, batches, watchlist)) with
  | Err e => (Err e, work_dir)
  | Ok (path, batches, watchlist) =>
      let work_dir := match wl_file watchlist with Some rows => <[watchlist_file corpus_id := rows]> work_dir | None => work_dir end in
      let telemetry := runtime_init (telemetry_ids u) [] tt None in
      (provider ← replay_init limit (default [] (fixture_dir !! path));
       let '(results, engine) := replay_batches u config batches (build_tuned_engine watchlist provider telemetry) in
       results ← results;
       records ← traverse telemetry_row (rt_collector (en_telemetry engine));
       Ok (mkReplayResult corpus_id records (tick_facts results symbol)), work_dir)
  end.
End replay.

(** * A replay completes, and its levels never fall *)

(** A batch the replay can be timed by. *)
Definition timed (batch : json) : Prop := exists t, batch_time batch = Ok t.
Definition batch_ok (batch : json) : Prop := batch_valid batch /\ timed batch.
Definition rising (levels : list SchedulerLevel) : Prop := StronglySorted (fun a b => level_rank a <= level_rank b) levels.

Lemma tunable_fin x : valid x = true -> tunable x -> fin x /\ 0 <= fval x.
Proof.
  intros V [F P]. assert (Fx : fin x) by done. split; [done|]. rewrite flt_val in P by auto with fl. apply Z.ltb_lt in P.
  rewrite fval_f0 in P. lia.
Qed.

Section runs.
Context (u : Uuids) (config : OfflineTuningConfig) (Hevents : Inj (=) (=) (event_ids u)) (Hsignals : Inj (=) (=) (signal_ids u)).
Context (Hconfig : config_ok config) (Hvalid : valid (tc_cluster_lookback_s config) = true) (symbol : string).
Lemma lookback_ok : fin (tc_cluster_lookback_s config) /\ 0 <= fval (tc_cluster_lookback_s config).
Proof. destruct Hconfig as [_ F]. apply Forall_cons in F as [F _]. by apply tunable_fin. Qed.

#[local] Instance tuned_contract now : PipelineContract (tuned_pipeline u config now) :=
  engine_pipeline_contract inmemory_record _ _ _ _ _ _ _ _ _ Hevents Hsignals (proj1 lookback_ok) (proj2 lookback_ok).
Abbreviation TunedEngine := (Engine ReplayProvider (list TelemetryEvent) unit unit).
Definition wf_at (now : float) (e : TunedEngine) : Prop := engine_wf (replay_fetch now) (tuned_pipeline u config now) e.

(** The invariant does not depend on the time of the tick. *)
Lemma wf_any now now' e : wf_at now e -> wf_at now' e.
Proof. intros [B P V L]. by split. Qed.

Record replaying (e : TunedEngine) : Prop := {
  rp_wf : forall now, wf_at now e;
  rp_enabled : enabled_symbols (en_watchlist e) = [symbol];
  rp_stamped : stamped frozen_clock (en_scheduler e);
  rp_recorded : recorded f0 (en_scheduler e)
}.

Lemma always_due e : replaying e -> due_now scheduler_policy_for_replay frozen_clock e = [symbol].
Proof.
  intros R. unfold due_now, due_symbols. rewrite (rp_enabled _ R). rewrite filter_cons_True; [done|]. unfold is_due.
  destruct (sc_last_fetch (en_scheduler e) !! symbol) as [t|] eqn:E; [|done]. destruct (rp_stamped _ R _ _ E) as [n ->].
  by destruct (get_level (en_scheduler e) symbol).
Qed.

Lemma replay_tick now e : replaying e -> exists item e', tuned_tick u config now e = (Ok [item], e') /\ replaying e' /\
  tr_symbol item = symbol /\ rank (en_scheduler e) symbol <= level_rank (tr_level_after item) <= rank (en_scheduler e') symbol.
Proof.
  intros R. destruct (tick_runs (replay_fetch now) source_exhausted unattached default_feature_policy (warming_config config) scheduler_policy_for_replay
    default_health_policy (tuned_pipeline u config now) frozen_clock e (rp_wf _ R now)) as (rs & e' & E & W & Hw & M & Hs & L).
  rewrite (always_due e R) in Hs. destruct rs as [|item [|]]; [done| |done]. injection Hs as Hs.
  assert (Frozen : forall s s', sched_steps scheduler_policy_for_replay frozen_clock s s' -> recorded f0 s -> recorded f0 s' /\ forall x, rank s x <= rank s' x)
    by (intros s s'; by apply steps_frozen).
  apply Forall_singleton in L as (s & S1 & S2 & Hl). destruct (Frozen _ _ S1 (rp_recorded _ R)) as [Rs Up1]. destruct (Frozen _ _ S2 Rs) as [Re Up2].
  exists item, e'. split; [exact E|]. split.
  - split; [intros n; by eapply wf_any|by rewrite Hw; apply R|eapply steps_stamped; [exact M|apply R]|done].
  - split; [done|]. rewrite Hl, Hs. split; [apply Up1|apply Up2].
Qed.

Lemma replay_batches_run batches : Forall batch_ok batches -> forall e, replaying e ->
  exists results e', replay_batches u config batches e = (Ok results, e') /\ replaying e' /\
    Forall (fun r => exists item, r = [item] /\ tr_symbol item = symbol) results /\ length results = length batches /\
    exists levels, tf_level <$> tick_facts results symbol = level_value <$> levels /\ length levels = length batches /\
      rising levels /\ Forall (fun l => rank (en_scheduler e) symbol <= level_rank l) levels.
Proof.
  induction 1 as [|batch batches [_ [now Et]] _ IH]; intros e R; cbn [replay_batches].
  { exists [], e. split; [done|]. split; [done|]. split; [constructor|]. split; [done|]. exists []. by repeat split; try constructor. }
  destruct (replay_tick now e R) as (item & e1 & E1 & R1 & Hs & Hup). destruct (IH e1 R1) as (rest & e2 & E2 & R2 & Hr & Hn & levels & Hf & Hl & Hrise & Hlow).
  exists ([item] :: rest), e2. unfold mbind at 1, step_bind at 1, lift at 1. rewrite Et. cbn beta iota. unfold mbind at 1, step_bind at 1. rewrite E1.
  unfold mbind at 1, step_bind at 1. rewrite E2. split; [done|]. split; [done|]. split; [constructor; [by exists item|done]|]. split; [cbn; lia|].
  exists (tr_level_after item :: levels). split; [|split; [cbn; lia|split]].
  - unfold tick_facts, for_symbol. cbn [omap list_omap filter list_filter]. rewrite decide_True by done. cbn. f_equal. exact Hf.
  - constructor; [done|]. eapply Forall_impl; [exact Hlow|]. cbn. intros l Hl'. lia.
  - constructor; [lia|]. eapply Forall_impl; [exact Hlow|]. cbn. intros l Hl'. lia.
Qed.
End runs.

Lemma to_row_runs l : Forall (fun p => p.2 <> PyOther) l -> exists r, to_row l = Ok r.
Proof.
  unfold to_row. induction 1 as [|[k v] l Hv _ [ys IH]]; [by exists []|]. cbn [traverse fst snd]. rewrite IH. by destruct v; try done; eexists.
Qed.
Lemma telemetry_row_runs e : exists r, telemetry_row e = Ok r.
Proof.
  unfold telemetry_row, to_record. rewrite project_id by decide_now. cbn [mbind result_bind]. apply to_row_runs.
  repeat (apply Forall_cons_2; [cbn [snd]; unfold opt_str, opt_float, opt_int; by repeat case_match|]). apply Forall_nil_2.
Qed.
Lemma telemetry_rows_run l : exists rows, traverse telemetry_row l = Ok rows.
Proof.
  induction l as [|e l [rows IH]]; [by exists []|]. destruct (telemetry_row_runs e) as [r E]. exists (r :: rows). cbn [traverse]. by rewrite E, IH.
Qed.

(** ** The start of a replay *)
Definition own_payload (symbol : string) : Payload := payload [(symbol, mkWatchItem symbol true)].
(** What an earlier replay of the corpus may have left in the work directory. *)
Definition work_ready (corpus_id symbol : string) (work_dir : gmap string Payload) : Prop :=
  match work_dir !! watchlist_file corpus_id with None => True | Some rows => rows = own_payload symbol end.

Lemma tuned_watchlist_ok so bo corpus_id symbol work_dir : work_ready corpus_id symbol work_dir ->
  exists w, tuned_watchlist so bo corpus_id symbol work_dir = Ok w /\ enabled_symbols w = [symbol] /\ wl_file w = Some (own_payload symbol).
Proof.
  unfold work_ready, tuned_watchlist, watchlist_init. cbn [andb negb]. destruct (work_dir !! _) as [rows|].
  - intros ->. unfold load. cbn [wl_path wl_file own_payload payload fmap list_fmap load_rows wl_items]. unfold load_row.
    rewrite row_symbol, row_enabled. cbn [of_option mbind result_bind default py_str py_bool od_set load_rows]. unfold add. cbn [wl_items od_get].
    rewrite decide_True by done. eexists. split; [reflexivity|]. unfold enabled_symbols. cbn. done.
  - intros _. unfold load, add. cbn. eexists. split; [reflexivity|]. done.
Qed.

Lemma initial_replaying u config Hev Hsig Hc Hv symbol w ticks : enabled_symbols w = [symbol] -> Forall batch_valid ticks ->
  replaying u config Hev Hsig Hc Hv symbol (build_tuned_engine w (mkReplay ticks 0) (runtime_init (telemetry_ids u) [] tt None)).
Proof.
  intros Hw Vt. split; [|done|by intros x t; cbn; rewrite lookup_empty|apply init_recorded].
  intros now. apply engine_init_wf; [apply pipeline_init_wf|exact Vt].
Qed.

(** C14: The offline replay of an accepted candidate completes.  For a corpus that is a file of the
    fixture directory, decodes to at least one batch and whose batches carry their market time,
    [run_tuned_replay] returns, with one fact per batch and the watchlist left in the work
    directory; a second replay over that directory does the same.  Because the replay's
    monotonic clock stands still, no downgrade dwell ever elapses: the levels of the facts never
    fall. *)
Theorem replay_complete limit so bo u config corpus_id path fixture_dir work_dir symbol lines batches :
  Inj (=) (=) (event_ids u) -> Inj (=) (=) (signal_ids u) -> config_post_init config = Ok tt -> valid (tc_cluster_lookback_s config) = true ->
  corpus_fixture_path fixture_dir corpus_id = Ok path -> fixture_dir !! path = Some lines -> loads_lines limit lines = Ok batches ->
  batches <> [] -> Forall timed batches -> work_ready corpus_id symbol work_dir ->
  exists r levels, run_tuned_replay limit so bo u config corpus_id fixture_dir work_dir symbol
      = (Ok r, <[watchlist_file corpus_id := own_payload symbol]> work_dir) /\
    work_ready corpus_id symbol (<[watchlist_file corpus_id := own_payload symbol]> work_dir) /\
    rr_corpus_id r = corpus_id /\ length (rr_facts r) = length batches /\
    tf_level <$> rr_facts r = level_value <$> levels /\ rising levels.
Proof.
  intros Hev Hsig Hc%post_init_ok Hv Hp Hl Hb Hne Ht Hw. pose proof (loads_lines_valid _ _ _ Hb) as Vt.
  assert (Hok : Forall batch_ok batches) by (rewrite Forall_forall in Vt, Ht |- *; intros x Hx; split; [by apply Vt|by apply Ht]).
  destruct (tuned_watchlist_ok so bo _ _ _ Hw) as (w & Ew & En & Ef).
  destruct batches as [|b batches]; [done|]. destruct (Forall_inv Hok) as [_ [t Et]].
  destruct (replay_batches_run u config Hev Hsig Hc Hv symbol (b :: batches) Hok _ (initial_replaying u config Hev Hsig Hc Hv symbol w _ En Vt))
    as (results & e' & Er & _ & _ & _ & levels & Hf & Hn & Hr & _).
  destruct (telemetry_rows_run (rt_collector (en_telemetry e'))) as [rows Erows].
  exists (mkReplayResult corpus_id rows (tick_facts results symbol)), levels. split.
  - unfold run_tuned_replay, replay_init. rewrite Hp. cbn [mbind result_bind]. rewrite Hl. cbn [from_option id]. rewrite Hb. cbn [mbind result_bind].
    rewrite Et. cbn [mbind result_bind]. rewrite Ew. cbn [mbind result_bind]. rewrite Ef, Hl. cbn [from_option id]. rewrite Hb. cbn [mbind result_bind]. rewrite Er. cbn [mbind result_bind]. by rewrite Erows.
  - split; [unfold work_ready; by rewrite lookup_insert_eq|]. cbn [rr_corpus_id rr_facts]. split; [done|]. split; [|by split].
    apply (f_equal length) in Hf. rewrite !length_fmap in Hf. lia.
Qed.

Definition demo_row (price stamp : Z) : json :=
  JObj [("symbol", JStr "600519.SH"); ("price", JInt price); ("open", JInt 100); ("high", JInt 110); ("low", JInt 90);
        ("prev_close", JInt 100); ("volume", JInt (1000 + stamp - 1705282200)); ("market_timestamp", JInt stamp); ("turnover", JInt 100000)].
Definition demo_batches : list json := [JList [demo_row 100 1705282200]; JList [demo_row 103 1705282260]; JList [demo_row 103 1705282261]].
Definition demo_fixtures : gmap string (list string) := {["rapid_move.jsonl" := text compact 0 <$> demo_batches]}.
Definition demo_uuids : Uuids := mkUuids demo_ids demo_ids demo_ids.

Lemma demo_batches_timed : Forall timed demo_batches.
Proof. repeat (apply Forall_cons_2; [eexists; vm_compute; reflexivity|]). apply Forall_nil_2. Qed.

Lemma replay_complete_witness : exists r levels,
  (run_tuned_replay 4300 (fun _ => "") (fun _ => false) demo_uuids capture_baseline_config "rapid_move" demo_fixtures ∅ DEFAULT_REPLAY_SYMBOL).1 = Ok r /\
  length (rr_facts r) = 3%nat /\ tf_level <$> rr_facts r = level_value <$> levels /\ rising levels.
Proof.
  destruct (replay_complete 4300 (fun _ => "") (fun _ => false) demo_uuids capture_baseline_config "rapid_move" "rapid_move.jsonl" demo_fixtures ∅
    DEFAULT_REPLAY_SYMBOL (text compact 0 <$> demo_batches) demo_batches demo_ids_inj demo_ids_inj)
    as (r & levels & E & _ & _ & Hn & Hf & Hr); [vm_compute; reflexivity|vm_compute; reflexivity|vm_compute; reflexivity|
    vm_compute; reflexivity|vm_compute; reflexivity|done|exact demo_batches_timed|exact I|].
  exists r, levels. rewrite E. split; [done|]. split; [exact Hn|]. by split.
Defined.
