(* ===== verification/Evidence.v ===== *)
(** * The feedback evidence of a comparison (src/market_sentinel/tuning/feedback.py)

    Which explicit feedback rows count: those whose signal left evidence in the journal, the
    latest of each target winning. *)
From Stdlib Require Import ZArith Lia Ascii String Sorting.Sorted.
From stdpp Require Import prelude strings gmap.
From S2P Require Import Prelude PyFloat Domain Normalizer Json PyText Features Cluster Telemetry Jsonl Evaluation.
Local Open Scope Z_scope.

(** ** feedback.py *)
Definition JOINABLE_SIGNAL_EVIDENCE : list TelemetryName := [SIGNAL_EPISODE_CREATED; SIGNAL_ESCALATED; ALERT_CANDIDATE; ALERT_SUPPRESSED].

Record TuningFeedbackDataset := mkDataset {
  fd_raw : nat;
  fd_valid : nat;
  fd_eligible : nat;
  fd_orphan : nat;
  fd_superseded : nat;
  fd_useful : nat;
  fd_not_useful : nat;
  fd_too_noisy : nat;
  fd_too_late : nat
}.
Definition dataset_to_record (d : TuningFeedbackDataset) : row :=
  [("raw_feedback_count", jnum (fd_raw d)); ("semantic_valid_feedback_count", jnum (fd_valid d));
   ("eligible_target_count", jnum (fd_eligible d)); ("orphan_feedback_count", jnum (fd_orphan d));
   ("superseded_feedback_count", jnum (fd_superseded d)); ("useful", jnum (fd_useful d)); ("not_useful", jnum (fd_not_useful d));
   ("too_noisy", jnum (fd_too_noisy d)); ("too_late", jnum (fd_too_late d))].

(** Membership of a frozenset: a list or an object is unhashable. *)
Definition joinable_name (v : json) : result bool :=
  match v with JList _ | JObj _ => Err TypeError | v => Ok (existsb (fun n => is_str v (name_value n)) JOINABLE_SIGNAL_EVIDENCE) end.
Fixpoint joinable_keys (telemetry : list row) : result (list (string * string)) :=
  match telemetry with
  | [] => Ok []
  | r :: telemetry =>
      joinable ← joinable_name (get r "name");
      rest ← joinable_keys telemetry;
      Ok (if (joinable : bool) && nonblank (get r "run_id") && nonblank (get r "signal_id")
          then match target r with Some key => key :: rest | None => rest end else rest)
  end.

(** [_sort_key], of a row whose fields passed [_valid_feedback_row]. *)
Definition sort_key (r : row) : result (float * string) :=
  created ← to_float (get r "created_timestamp"); Ok (created, default "" (as_str (get r "feedback_id"))).
(** [a < b] of the two keys, as Python compares tuples. *)
Definition key_lt (a b : float * string) : bool := if feq a.1 b.1 then String.ltb a.2 b.2 else flt a.1 b.1.
Definition key_le (a b : (float * string) * row) : bool := negb (key_lt b.1 a.1).
(** The last row of [sorted(rows, key=_sort_key)]. *)
Definition winner (rows : list row) : result (option row) :=
  keyed ← traverse (fun r => k ← sort_key r; Ok (k, r)) rows; Ok (snd <$> last (sort_by key_le keyed)).

(** Whether the feedback of a row has its target among [keys]. *)
Definition joins (keys : list (string * string)) (r : row) : bool := from_option (fun k => bool_decide (k ∈ keys)) false (target r).
Definition rows_at (rows : list row) (key : string * string) : list row := filter (fun r => target r = Some key) rows.

Definition build_tuning_feedback_dataset (feedback_rows telemetry_rows : list row) : result TuningFeedbackDataset :=
  '(valid, _) ← split_valid feedback_rows;
  joinable ← joinable_keys telemetry_rows;
  let orphan := count_rows (fun r => negb (joins joinable r)) valid in
  let eligible := filter (fun r => joins joinable r = true) valid in
  let by_target := remove_dups (omap target eligible) in
  let superseded := foldr Nat.add 0%nat ((fun key => (length (rows_at eligible key) - 1)%nat) <$> by_target) in
  winners ← traverse (fun key => winner (rows_at eligible key)) by_target;
  let label l := count_at "label" (label_value l) (omap id winners) in
  Ok (mkDataset (length feedback_rows) (length valid) (length by_target) orphan superseded
        (label USEFUL) (label NOT_USEFUL) (label TOO_NOISY) (label TOO_LATE)).

(** * Feedback: every valid row is accounted for, and the latest one of a target counts *)
Lemma label_total rows : Forall (fun r => exists l, get r "label" = JStr (label_value l)) rows ->
  (count_at "label" (label_value USEFUL) rows + count_at "label" (label_value NOT_USEFUL) rows +
   count_at "label" (label_value TOO_NOISY) rows + count_at "label" (label_value TOO_LATE) rows)%nat = length rows.
Proof.
  induction 1 as [|r rows [l Hl] _ IH]; [done|]. rewrite !count_at_cons, Hl. cbn [is_str length]. destruct l;
    repeat first [rewrite bool_decide_eq_true_2 by reflexivity|rewrite bool_decide_eq_false_2 by (vm_compute; discriminate)]; lia.
Qed.

Abbreviation keyed_row := ((float * string) * row)%type.
Definition key_fin (a : keyed_row) : Prop := fin a.1.1.
Lemma key_le_spec a b : key_fin a -> key_fin b -> key_le a b = true <->
  fval a.1.1 < fval b.1.1 \/ (fval a.1.1 = fval b.1.1 /\ String.leb a.1.2 b.1.2 = true).
Proof.
  unfold key_le, key_lt, key_fin. intros Fa Fb. destruct (feq b.1.1 a.1.1) eqn:E.
  - fcmp. rewrite negb_sltb. rewrite E. intuition lia.
  - rewrite negb_true_iff. destruct (flt b.1.1 a.1.1) eqn:E2; fcmp; intuition (try done; lia).
Qed.
Lemma keyed_sorted l : Forall key_fin l -> StronglySorted (fun a b => key_le a b = true) (sort_by key_le l).
Proof.
  apply (sort_by_sorted key_le key_fin).
  - intros a b Fa Fb. rewrite !key_le_spec by done.
    destruct (Z.lt_trichotomy (fval a.1.1) (fval b.1.1)) as [?|[?|?]]; [auto| |auto]. destruct (String.leb_total a.1.2 b.1.2); auto.
  - intros a b c Fa Fb Fc. rewrite !key_le_spec by done. pose proof (sle_trans a.1.2 b.1.2 c.1.2). intuition lia.
Qed.
Lemma sorted_last {A} (R : A -> A -> Prop) (l : list A) x y : R x x -> StronglySorted R l -> last l = Some x -> y ∈ l -> R y x.
Proof.
  intros Hr S. revert Hr. revert x y. induction S as [|a l S IH Ha]; intros x y Hr; [done|]. destruct l as [|b l].
  - cbn. by intros [= <-] ->%list_elem_of_singleton.
  - change (last (a :: b :: l)) with (last (b :: l)). intros Hl [->|Hy]%elem_of_cons; [|by apply IH].
    rewrite Forall_forall in Ha. apply Ha. by apply last_Some_elem_of.
Qed.

Lemma split_valid_elem rows : forall valid n, split_valid rows = Ok (valid, n) -> forall r, r ∈ valid <-> r ∈ rows /\ valid_feedback_row r = Ok true.
Proof.
  induction rows as [|x rows IH]; intros valid n; cbn [split_valid].
  { intros [= <- <-] r. split; [by intros ?%elem_of_nil|by intros [?%elem_of_nil _]]. }
  intros (ok & Eok & H)%bind_ok. apply bind_ok in H as ([v m] & Ev & H). specialize (IH _ _ Ev). intros r.
  destruct ok; injection H as <- <-; rewrite !elem_of_cons, IH; split.
  - intros [->|[? ?]]; [split; [by left|done]|split; [by right|done]].
  - intros [[->|?] ?]; [by left|by right].
  - intros [? ?]. split; [by right|done].
  - intros [[->|?] V]; [congruence|done].
Qed.

(** The stamp of a row holds a float of the machine. *)
Definition stamp_ok (r : row) : Prop := raw_valid (scalar (get r "created_timestamp")).

Lemma valid_row_inv r : valid_feedback_row r = Ok true ->
  (exists key, target r = Some key) /\ exists created, to_float (get r "created_timestamp") = Ok created /\ isfinite created = true.
Proof.
  unfold valid_feedback_row. destruct (existsb _ r.*1); [done|]. destruct (nonblank (get r "feedback_id")); [|done].
  destruct (nonblank (get r "run_id")) eqn:E1; [|done]. destruct (nonblank (get r "signal_id")) eqn:E2; [|done]. cbn [negb].
  destruct (existsb (is_str (get r "label")) FEEDBACK_LABELS); [|done]. cbn [negb]. intros H. split.
  - unfold target. destruct (get r "run_id"); try done. destruct (get r "signal_id"); try done. by eexists.
  - destruct (get r "created_timestamp"); try done; apply bind_ok in H as (y & Ey & H); exists y; split; try done; by destruct (isfinite y).
Qed.
Lemma valid_key r : valid_feedback_row r = Ok true -> stamp_ok r -> exists k, sort_key r = Ok k /\ fin k.1.
Proof.
  intros H S. destruct (valid_row_inv r H) as (_ & x & Ex & Fx). unfold sort_key. rewrite Ex. eexists. split; [reflexivity|].
  split; [|done]. by eapply py_float_valid.
Qed.

(** No row of the target comes after the winner. *)
Definition not_after (w r : row) : Prop := exists kw kr, sort_key w = Ok kw /\ sort_key r = Ok kr /\ key_lt kw kr = false.

Lemma winner_spec rows : rows <> [] -> Forall (fun r => valid_feedback_row r = Ok true /\ stamp_ok r) rows ->
  exists w, winner rows = Ok (Some w) /\ w ∈ rows /\ Forall (not_after w) rows.
Proof.
  intros Hne F. unfold winner.
  assert (K : exists keyed, traverse (fun r => k ← sort_key r; Ok (k, r)) rows = Ok keyed /\ snd <$> keyed = rows /\
    Forall (fun a => key_fin a /\ sort_key a.2 = Ok a.1) keyed).
  { clear Hne. induction F as [|r rows [Hr Hs] _ (keyed & E & Er & Fk)]; [by exists []|].
    destruct (valid_key r Hr Hs) as (k & Ek & Hk). exists ((k, r) :: keyed). cbn [traverse]. rewrite Ek. cbn [mbind result_bind]. rewrite E.
    split; [done|]. split; [cbn; by f_equal|]. by constructor. }
  destruct K as (keyed & -> & Er & Fk). cbn [mbind result_bind].
  assert (Ff : Forall key_fin keyed) by (eapply Forall_impl; [exact Fk|]; by intros a []).
  destruct (last (sort_by key_le keyed)) as [a|] eqn:El; [|apply last_None in El; apply sort_by_nil in El; by subst keyed; cbn in Er; subst].
  assert (Ha : a ∈ keyed) by (rewrite <- (elem_of_sort_by key_le); by apply last_Some_elem_of).
  exists a.2. split; [done|]. split; [rewrite <- Er; by apply list_elem_of_fmap_2|]. apply Forall_forall. rewrite <- Er.
  intros r (b & -> & Hb)%list_elem_of_fmap. rewrite Forall_forall in Fk. destruct (Fk a Ha) as [Fa Ka]. destruct (Fk b Hb) as [Fb Kb].
  exists a.1, b.1. split; [done|]. split; [done|]. apply negb_true_iff. change (key_le b a = true).
  apply (sorted_last (fun a b => key_le a b = true) (sort_by key_le keyed)); [|by apply keyed_sorted|exact El|by apply elem_of_sort_by].
  apply key_le_spec; [done..|]. right. split; [done|]. by destruct (String.leb_total a.1.2 a.1.2).
Qed.

Definition total (l : list nat) : nat := foldr Nat.add 0%nat l.
Lemma total_map {A} (f g : A -> nat) l : total ((fun x => f x + g x)%nat <$> l) = (total (f <$> l) + total (g <$> l))%nat.
Proof. induction l as [|x l IH]; [done|]. cbn in *. unfold total in *. cbn. lia. Qed.
Lemma total_indicator {A} `{!EqDecision A} (k : A) ks : NoDup ks -> k ∈ ks -> total ((fun x => if decide (x = k) then 1 else 0)%nat <$> ks) = 1%nat.
Proof.
  assert (Z : forall l, k ∉ l -> total ((fun x => if decide (x = k) then 1 else 0)%nat <$> l) = 0%nat).
  { induction l as [|x l IH]; [done|]. intros [H1 H2]%not_elem_of_cons. unfold total in *. cbn. rewrite decide_False by congruence. by apply IH. }
  induction 1 as [|x ks Hx N IH]; [by intros ?%elem_of_nil|]. intros [->|Hk]%elem_of_cons; unfold total in *; cbn.
  - rewrite decide_True by done. specialize (Z ks Hx). cbn in Z. lia.
  - rewrite decide_False by (intros ->; done). cbn. by apply IH.
Qed.
(** The groups of the rows by target hold every row once. *)
Lemma total_groups ks rows : NoDup ks -> Forall (fun r => exists k, target r = Some k /\ k ∈ ks) rows ->
  total ((fun key => length (rows_at rows key)) <$> ks) = length rows.
Proof.
  intros N. induction 1 as [|r rows (k & Hk & Hin) _ IH].
  { clear. induction ks as [|k ks IH]; [done|]. cbn. exact IH. }
  cbn [length]. rewrite <- IH. pose proof (total_indicator k ks N Hin) as I. rewrite <- Nat.add_1_l, <- I, <- total_map. f_equal.
  apply list_fmap_ext. intros i x _. unfold rows_at. rewrite filter_cons, Hk. by repeat case_decide; simplify_eq.
Qed.
Lemma total_superseded {A} (f : A -> nat) ks : Forall (fun k => 1 <= f k)%nat ks ->
  (length ks + total ((fun k => f k - 1) <$> ks))%nat = total (f <$> ks).
Proof. induction 1 as [|k ks H _ IH]; [done|]. unfold total in *. cbn in *. lia. Qed.
Lemma count_split (f : row -> bool) rows : (count_rows (fun r => negb (f r)) rows + length (filter (fun r => f r = true) rows))%nat = length rows.
Proof.
  unfold count_rows. induction rows as [|r rows IH]; [done|]. rewrite !filter_cons. destruct (f r); cbn [negb]; repeat case_decide; try done; cbn; lia.
Qed.

Definition won (rows : list row) (key : string * string) (w : row) : Prop :=
  target w = Some key /\ w ∈ rows /\ Forall (not_after w) (rows_at rows key).
Lemma group_winner rows key r : Forall (fun r => valid_feedback_row r = Ok true /\ stamp_ok r) rows -> r ∈ rows -> target r = Some key ->
  exists w, winner (rows_at rows key) = Ok (Some w) /\ won rows key w.
Proof.
  intros F Hr Hk. assert (Hx : r ∈ rows_at rows key) by (by apply list_elem_of_filter). rewrite Forall_forall in F.
  destruct (winner_spec (rows_at rows key)) as (w & Ew & Hw & Hn).
  - intros E. rewrite E in Hx. by apply elem_of_nil in Hx.
  - apply Forall_forall. intros x [_ H]%list_elem_of_filter. by apply F.
  - exists w. split; [done|]. by apply list_elem_of_filter in Hw as [Ht Hw].
Qed.
Lemma groups_won rows ks : Forall (fun key => exists w, winner (rows_at rows key) = Ok (Some w) /\ won rows key w) ks ->
  forall ws, traverse (fun key => winner (rows_at rows key)) ks = Ok ws ->
  exists winners, omap id ws = winners /\ Forall2 (won rows) ks winners.
Proof.
  induction 1 as [|key ks (w & Ew & Hw) _ IH]; intros ws; cbn [traverse]; [intros [= <-]; exists []; by split|].
  rewrite Ew. cbn [mbind result_bind]. intros (rest & Er & [= <-])%bind_ok. destruct (IH _ Er) as (winners & El & F).
  exists (w :: winners). cbn. split; [by f_equal|by constructor].
Qed.
Lemma won_targets rows ks winners : Forall2 (won rows) ks winners -> target <$> winners = Some <$> ks.
Proof. induction 1 as [|key w ks winners [Ht _] _ IH]; [done|]. cbn. by rewrite Ht, IH. Qed.

Lemma Forall2_elem_l {A B} (R : A -> B -> Prop) l k x : Forall2 R l k -> x ∈ l -> exists y, y ∈ k /\ R x y.
Proof. intros F (i & Hi)%list_elem_of_lookup. destruct (Forall2_lookup_l _ _ _ _ _ F Hi) as (y & Hy & ?). exists y. split; [by eapply list_elem_of_lookup_2|done]. Qed.
Lemma Forall2_elem_r {A B} (R : A -> B -> Prop) l k y : Forall2 R l k -> y ∈ k -> exists x, x ∈ l /\ R x y.
Proof. intros F%Forall2_flip Hy. by destruct (Forall2_elem_l _ _ _ _ F Hy) as (x & ? & ?); exists x. Qed.

(** What the rows that join amount to. *)
Record joined (feedback_rows : list row) (keys : list (string * string)) (eligible winners : list row) : Prop := {
  jn_elem : forall r, r ∈ eligible <-> r ∈ feedback_rows /\ valid_feedback_row r = Ok true /\ joins keys r = true;
  jn_target : Forall (fun r => exists key, target r = Some key /\ key ∈ remove_dups (omap target eligible)) eligible;
  jn_won : Forall2 (won eligible) (remove_dups (omap target eligible)) winners
}.
Lemma eligible_joined feedback_rows keys valid n ws : split_valid feedback_rows = Ok (valid, n) -> Forall stamp_ok feedback_rows ->
  let eligible := filter (fun r => joins keys r = true) valid in
  traverse (fun key => winner (rows_at eligible key)) (remove_dups (omap target eligible)) = Ok ws ->
  joined feedback_rows keys eligible (omap id ws).
Proof.
  intros Ev Hs eligible Ew. pose proof (split_valid_elem _ _ _ Ev) as V. rewrite Forall_forall in Hs.
  assert (E : forall r, r ∈ eligible <-> r ∈ feedback_rows /\ valid_feedback_row r = Ok true /\ joins keys r = true)
    by (intros r; unfold eligible; rewrite list_elem_of_filter, V; tauto).
  split; [done| |].
  - apply Forall_forall. intros r Hr. pose proof (proj1 (E r) Hr) as (_ & Hv & _). destruct (valid_row_inv r Hv) as ([k Hk] & _).
    exists k. split; [done|]. apply elem_of_remove_dups, list_elem_of_omap. by exists r.
  - edestruct (groups_won eligible) as (winners & <- & F); [|exact Ew|exact F].
    apply Forall_forall. intros k (r & Hr & Hk)%elem_of_remove_dups%list_elem_of_omap. eapply group_winner; [|exact Hr|exact Hk].
    apply Forall_forall. intros x (Hin & Hv & _)%E. split; [done|by apply Hs].
Qed.

(** C34: The feedback evidence of a comparison accounts for every row.  The semantically valid rows
    are the orphans (whose signal left no evidence in the journal), the superseded ones, and one
    winner per eligible target; the four label counts are those of the winners and add up to the
    eligible targets; every winner is a valid row whose target the journal joins, and no valid
    row of its target comes after it, by creation time and then id. *)
Theorem feedback_joined feedback_rows telemetry_rows keys d :
  joinable_keys telemetry_rows = Ok keys -> build_tuning_feedback_dataset feedback_rows telemetry_rows = Ok d -> Forall stamp_ok feedback_rows ->
  exists winners, length winners = fd_eligible d /\ NoDup (target <$> winners) /\
    fd_raw d = length feedback_rows /\ fd_valid d = (fd_orphan d + fd_eligible d + fd_superseded d)%nat /\
    (fd_useful d + fd_not_useful d + fd_too_noisy d + fd_too_late d)%nat = fd_eligible d /\
    fd_useful d = count_at "label" (label_value USEFUL) winners /\ fd_not_useful d = count_at "label" (label_value NOT_USEFUL) winners /\
    fd_too_noisy d = count_at "label" (label_value TOO_NOISY) winners /\ fd_too_late d = count_at "label" (label_value TOO_LATE) winners /\
    Forall (fun w => w ∈ feedback_rows /\ valid_feedback_row w = Ok true /\ joins keys w = true) winners /\
    forall r, r ∈ feedback_rows -> valid_feedback_row r = Ok true -> joins keys r = true ->
      exists w, w ∈ winners /\ target w = target r /\ not_after w r.
Proof.
  intros Ek H Hs. unfold build_tuning_feedback_dataset in H. apply bind_ok in H as ([valid n] & Ev & H). rewrite Ek in H. cbn [mbind result_bind] in H.
  apply bind_ok in H as (ws & Ew & [= <-]). destruct (eligible_joined _ keys _ _ _ Ev Hs Ew) as [El Et Wn].
  cbn [fd_raw fd_valid fd_eligible fd_orphan fd_superseded fd_useful fd_not_useful fd_too_noisy fd_too_late].
  set (eligible := filter _ valid) in *. set (ks := remove_dups _) in *. set (winners := omap id ws) in *. exists winners.
  pose proof (won_targets _ _ _ Wn) as Ht. rewrite Forall_forall in Et.
  assert (Fall : Forall (fun w => w ∈ feedback_rows /\ valid_feedback_row w = Ok true /\ joins keys w = true) winners).
  { apply Forall_forall. intros w Hw. destruct (Forall2_elem_r _ _ _ w Wn Hw) as (k & _ & _ & He & _). by apply El. }
  assert (Hlen : length winners = length ks) by (apply (f_equal length) in Ht; by rewrite !length_fmap in Ht).
  split; [done|]. split; [rewrite Ht; apply NoDup_fmap_2; [by intros ?? [= ->]|apply NoDup_remove_dups]|]. split; [done|]. split.
  { rewrite <- (count_split (joins keys) valid). fold eligible. rewrite <- Nat.add_assoc. f_equal. fold (total ((fun key => (length (rows_at eligible key) - 1)%nat) <$> ks)).
    rewrite (total_superseded (fun key => length (rows_at eligible key)) ks); [symmetry; apply total_groups; [apply NoDup_remove_dups|by apply Forall_forall]|].
    apply Forall_forall. intros k (r & Hr & Hk)%elem_of_remove_dups%list_elem_of_omap.
    assert (Hx : r ∈ rows_at eligible k) by (by apply list_elem_of_filter). destruct (rows_at eligible k); [by apply elem_of_nil in Hx|cbn; lia]. }
  split; [rewrite label_total; [done|]; eapply Forall_impl; [exact Fall|]; intros w (_ & Hv & _); by apply valid_label|].
  do 4 (split; [done|]). split; [done|]. intros r Hr Hv Hj. assert (He : r ∈ eligible) by (by apply El).
  destruct (Et r He) as (k & Hk & Hin). destruct (Forall2_elem_l _ _ _ k Wn Hin) as (w & Hw & Hwt & _ & Hn).
  exists w. split; [done|]. split; [congruence|]. rewrite Forall_forall in Hn. apply Hn. by apply list_elem_of_filter.
Qed.

Definition demo_feedback (id label : string) (created : Z) : row :=
  [("feedback_id", JStr id); ("run_id", JStr "run-1"); ("signal_id", JStr "sig-1"); ("label", JStr label); ("created_timestamp", JInt created)].
Definition demo_feedbacks : list row :=
  [demo_feedback "f1" "useful" 10; demo_feedback "f3" "too_noisy" 20; demo_feedback "f2" "too_late" 20;
   [("feedback_id", JStr "f4"); ("run_id", JStr "run-9"); ("signal_id", JStr "sig-9"); ("label", JStr "useful"); ("created_timestamp", JInt 5)]; []].
Definition demo_evidence : list row := [[("name", JStr "alert_candidate"); ("run_id", JStr "run-1"); ("signal_id", JStr "sig-1")]].
Lemma feedback_joined_witness : exists d, build_tuning_feedback_dataset demo_feedbacks demo_evidence = Ok d /\
  (fd_raw d, fd_valid d, fd_orphan d, fd_eligible d, fd_superseded d) = (5, 4, 1, 1, 2)%nat /\
  (fd_useful d + fd_not_useful d + fd_too_noisy d + fd_too_late d)%nat = fd_eligible d.
Proof.
  destruct (build_tuning_feedback_dataset demo_feedbacks demo_evidence) as [d|] eqn:E; [|vm_compute in E; discriminate].
  destruct (feedback_joined demo_feedbacks demo_evidence [("run-1", "sig-1")] d eq_refl E) as (winners & _ & _ & _ & _ & L & _).
  { repeat (apply Forall_cons_2; [exact I|]). apply Forall_nil_2. }
  exists d. split; [done|]. split; [|exact L]. vm_compute in E. injection E as <-. vm_compute. reflexivity.
Defined.
