(* ===== verification/Compare.v ===== *)
(** * Comparing candidate configurations (src/market_sentinel/tuning/report.py and compare.py)

    The metrics of a replay, their totals and deltas over a corpus, and the report with its
    sanitiser.  Metrics are the JSON objects the code builds, and a count is read back from
    them as the code does, by key. *)
From Stdlib Require Import ZArith Lia Ascii String Sorting.Sorted.
From stdpp Require Import prelude strings gmap.
From S2P Require Import Prelude PyFloat Domain Normalizer Json PyText Features Telemetry Jsonl Watchlist Scheduler Engine Evaluation Tuning Replay Evidence.
Local Open Scope Z_scope.

(** ** report.py *)
Definition TUNING_COMPARISON_SCHEMA_VERSION : Z := 2.
Definition UNAVAILABLE_HOST_OFFLINE : string := "host_not_in_offline_replay".
Definition UNAVAILABLE_INTEL_OFFLINE : string := "intelligence_not_in_offline_replay".
Definition RECOMMENDATION_DENIED_KEYS : list string :=
  ["recommended"; "optimal"; "better"; "best"; "ship"; "winner"; "score"; "rank"; "approve"; "apply"; "promote"; "activate"; "deploy"].
Definition TUNING_COMPARISON_ALLOWLIST : list string :=
  ["schema_version"; "baseline_snapshot"; "candidate_snapshot"; "baseline_config"; "candidate_config"; "corpus"; "baseline_metrics";
   "candidate_metrics"; "delta"; "feedback_evidence"; "data_quality"; "per_fixture"; "corpus_id"; "snapshot_id"; "created_timestamp";
   "source"; "config_version"; "pipeline"; "noise"; "scheduler"; "intelligence"; "cold_tick_count"; "warm_tick_count"; "hot_tick_count";
   "level_transition_count"; "processed_tick_count"; "events_generated"; "events_deduped"; "events_clustered"; "signal_episodes_created";
   "signal_escalations"; "alert_candidates"; "alert_suppressed"; "alerts_presented"; "info_count"; "notice_count"; "important_count";
   "critical_count"; "suppression_by_reason"; "cooldown"; "same_tick_duplicate"; "repeated_episode_signal_count";
   "repeated_episode_extra_alert_count"; "alerts_per_market_hour"; "available"; "value"; "unavailable_reason"; "producer"; "baseline";
   "candidate"; "raw_feedback_count"; "semantic_valid_feedback_count"; "eligible_target_count"; "orphan_feedback_count";
   "superseded_feedback_count"; "useful"; "not_useful"; "too_noisy"; "too_late"; "orphan_count"; "snapshot_valid"; "wrote_telemetry_jsonl";
   "wrote_feedback_jsonl"; "cluster_lookback_s"; "hot_event_severity"; "hot_volume_ratio_5m"; "hot_change_5m"; "warm_change_1m";
   "warm_change_5m"; "warm_volume_ratio"; "facts_match"].

Definition unavailable_metric (reason : string) : row := unavailable_row reason None.

(** [sanitize_comparison]: two refusals over every key of the tree, then the projection. *)
Definition sanitize_comparison (payload : json) : result json :=
  if denied_in TELEMETRY_DENYLIST (all_keys payload) then Err (ValueError "denied keys")
  else if denied_in RECOMMENDATION_DENIED_KEYS (all_keys payload) then Err (ValueError "recommendation keys")
  else project_tree (TELEMETRY_DENYLIST ++ RECOMMENDATION_DENIED_KEYS) TUNING_COMPARISON_ALLOWLIST payload.

Record TuningComparisonReport := mkComparison {
  cr_schema_version : Z;
  cr_baseline_snapshot : row;
  cr_candidate_snapshot : row;
  cr_baseline_config : row;
  cr_candidate_config : row;
  cr_corpus : list string;
  cr_baseline_metrics : row;
  cr_candidate_metrics : row;
  cr_delta : row;
  cr_feedback_evidence : row;
  cr_data_quality : row;
  cr_per_fixture : list row
}.
Definition comparison_raw (r : TuningComparisonReport) : json :=
  JObj [("schema_version", JInt (cr_schema_version r)); ("baseline_snapshot", JObj (cr_baseline_snapshot r));
        ("candidate_snapshot", JObj (cr_candidate_snapshot r)); ("baseline_config", JObj (cr_baseline_config r));
        ("candidate_config", JObj (cr_candidate_config r)); ("corpus", strings (cr_corpus r));
        ("baseline_metrics", JObj (cr_baseline_metrics r)); ("candidate_metrics", JObj (cr_candidate_metrics r));
        ("delta", JObj (cr_delta r)); ("feedback_evidence", JObj (cr_feedback_evidence r)); ("data_quality", JObj (cr_data_quality r));
        ("per_fixture", JList (JObj <$> cr_per_fixture r))].
Definition comparison_to_record (r : TuningComparisonReport) : result json :=
  if negb (cr_schema_version r =? TUNING_COMPARISON_SCHEMA_VERSION) then Err (ValueError "unsupported tuning comparison schema_version")
  else sanitize_comparison (comparison_raw r).

(** ** compare.py: the metrics of one replay *)
Definition PIPELINE_COUNTS : list string :=
  ["events_generated"; "events_deduped"; "events_clustered"; "signal_episodes_created"; "signal_escalations"; "alert_candidates"; "alert_suppressed"].
Definition NOISE_COUNTS : list string :=
  ["info_count"; "notice_count"; "important_count"; "critical_count"; "repeated_episode_signal_count"; "repeated_episode_extra_alert_count"].
Definition SCHEDULER_COUNTS : list string :=
  ["cold_tick_count"; "warm_tick_count"; "hot_tick_count"; "level_transition_count"; "processed_tick_count"].
Definition SUPPRESSION_COUNTS : list string := ["cooldown"; "same_tick_duplicate"].
Definition PRIORITY_KEYS : list (string * string) :=
  [("INFO", "info_count"); ("NOTICE", "notice_count"); ("IMPORTANT", "important_count"); ("CRITICAL", "critical_count")].

Definition candidates (records : list row) : list row := filter (fun r => named ALERT_CANDIDATE r = true) records.

(** [_priority_counts]: the priority in upper case picks the counter. *)
Definition at_priority (p : string) (r : row) : bool := match get r "priority" with JStr s => bool_decide (upper s = p) | _ => false end.
Definition priority_counts (records : list row) : row :=
  (fun p => (p.2, jnum (count_rows (at_priority p.1) (candidates records)))) <$> PRIORITY_KEYS.

(** [_repeated]: the alerts of each episode, in a dict. *)
Definition grouped (records : list row) : list ((string * string) * nat) :=
  foldl (fun g r => match target r with Some key => od_set key (default 0 (od_get key g) + 1)%nat g | None => g end) [] (candidates records).
Definition repeated (records : list row) : nat * nat :=
  foldl (fun acc count => if (1 <? count)%nat then (acc.1 + 1, acc.2 + (count - 1))%nat else acc) (0, 0)%nat (grouped records).*2.

Definition suppression_counts (records : list row) : row :=
  let rows := filter (fun r => named ALERT_SUPPRESSED r = true) records in
  (fun reason => (suppression_value reason, jnum (count_at "suppression_reason" (suppression_value reason) rows))) <$> [COOLDOWN; SAME_TICK_DUPLICATE].

(** [scheduler_metrics_from_facts]: the loop's counters. *)
Record LevelTally := mkTally { lt_cold : nat; lt_warm : nat; lt_hot : nat; lt_transitions : nat; lt_previous : option string }.
Definition is_level (s : string) : bool := bool_decide (s ∈ level_value <$> [COLD; WARM; HOT]).
Definition tally_fact (t : LevelTally) (f : TickFact) : LevelTally :=
  let level := tf_level f in
  let one (l : SchedulerLevel) := (if bool_decide (level = level_value l) then 1 else 0)%nat in
  let moved := match lt_previous t with Some p => negb (bool_decide (level = p)) | None => false end in
  mkTally (lt_cold t + one COLD) (lt_warm t + one WARM) (lt_hot t + one HOT)
    (if is_level level && moved then lt_transitions t + 1 else lt_transitions t)%nat
    (if is_level level then Some level else lt_previous t).
Definition tally_facts (facts : list TickFact) : LevelTally := foldl tally_fact (mkTally 0 0 0 0 None) facts.
Definition scheduler_metrics_from_facts (facts : list TickFact) : row :=
  let t := tally_facts facts in
  [("cold_tick_count", jnum (lt_cold t)); ("warm_tick_count", jnum (lt_warm t)); ("hot_tick_count", jnum (lt_hot t));
   ("level_transition_count", jnum (lt_transitions t)); ("processed_tick_count", jnum (length facts))].

(** [row[key]] *)
Definition getitem (r : row) (key : string) : result json := of_option KeyError (od_get key r).
Definition getrow (r : row) (key : string) : result row :=
  v ← getitem r key; match v with JObj ms => Ok ms | _ => Err TypeError end.
(** [int(row[key])], of a count. *)
Definition getint (r : row) (key : string) : result Z := v ← getitem r key; of_option TypeError (as_int v).

Definition metrics_from_records (records : list row) (facts : list TickFact) : result row :=
  let loaded := mkLoaded records ["memory"] (length records) 0 false true in
  report ← evaluate loaded None None None;
  evaluation ← report_to_record report;
  noise_section ← (match evaluation with JObj ms => getrow ms "alert_noise" | _ => Err TypeError end);
  hour ← getitem noise_section "alerts_per_market_hour";
  let '(repeated_signals, extra_alerts) := repeated records in
  let count n := jnum (count_rows (named n) records) in
  let pipeline :=
    [("events_generated", count EVENT_GENERATED); ("events_deduped", count EVENT_DEDUPED); ("events_clustered", count EVENT_CLUSTERED);
     ("signal_episodes_created", count SIGNAL_EPISODE_CREATED); ("signal_escalations", count SIGNAL_ESCALATED);
     ("alert_candidates", count ALERT_CANDIDATE); ("alert_suppressed", count ALERT_SUPPRESSED);
     ("alerts_presented", JObj (unavailable_metric UNAVAILABLE_HOST_OFFLINE))] in
  let noise := priority_counts records ++
    [("suppression_by_reason", JObj (suppression_counts records)); ("repeated_episode_signal_count", jnum repeated_signals);
     ("repeated_episode_extra_alert_count", jnum extra_alerts); ("alerts_per_market_hour", hour)] in
  Ok [("pipeline", JObj pipeline); ("noise", JObj noise); ("scheduler", JObj (scheduler_metrics_from_facts facts));
      ("intelligence", JObj (unavailable_metric UNAVAILABLE_INTEL_OFFLINE))].

(** ** compare.py: totals and deltas *)

(** A dict comprehension over the keys of two sections. *)
Definition pointwise (f : Z -> Z -> json) (keys : list string) (left right : row) : result row :=
  traverse (fun key => x ← getint left key; y ← getint right key; Ok (key, f x y)) keys.
Definition is_unavailable (hour : json) : bool := match hour with JObj ms => match jget ms "available" with JBool false => true | _ => false end | _ => false end.
(** [str(hour.get("unavailable_reason") or ...)]: the reason is a string or [None]. *)
Definition reason_of (hour : json) : string :=
  match hour with
  | JObj ms => match jget ms "unavailable_reason" with JStr "" => "unsupported_market_scope" | JStr s => s | _ => "unsupported_market_scope" end
  | _ => "unsupported_market_scope"
  end.
Definition combine_hour (left right : json) : row :=
  if is_unavailable left && is_unavailable right then unavailable_metric (reason_of left) else unavailable_metric "incomparable_market_hour".

(** The shape [_add_metrics] and [_metric_delta] share: section by section, [f] of the two counts. *)
Definition combine_metrics (f : Z -> Z -> json) (left right : row) : result row :=
  lp ← getrow left "pipeline"; rp ← getrow right "pipeline"; pipeline ← pointwise f PIPELINE_COUNTS lp rp;
  ln ← getrow left "noise"; rn ← getrow right "noise"; noise ← pointwise f NOISE_COUNTS ln rn;
  ls ← getrow ln "suppression_by_reason"; rs ← getrow rn "suppression_by_reason"; suppression ← pointwise f SUPPRESSION_COUNTS ls rs;
  lh ← getitem ln "alerts_per_market_hour"; rh ← getitem rn "alerts_per_market_hour";
  lsch ← getrow left "scheduler"; rsch ← getrow right "scheduler"; scheduler ← pointwise f SCHEDULER_COUNTS lsch rsch;
  Ok [("pipeline", JObj (pipeline ++ [("alerts_presented", JObj (unavailable_metric UNAVAILABLE_HOST_OFFLINE))]));
      ("noise", JObj (noise ++ [("suppression_by_reason", JObj suppression); ("alerts_per_market_hour", JObj (combine_hour lh rh))]));
      ("scheduler", JObj scheduler); ("intelligence", JObj (unavailable_metric UNAVAILABLE_INTEL_OFFLINE))].
Definition add_metrics : row -> row -> result row := combine_metrics (fun x y => JInt (x + y)).
Definition count_delta (baseline candidate : Z) : json :=
  JObj [("baseline", JInt baseline); ("candidate", JInt candidate); ("delta", JInt (candidate - baseline))].
Definition metric_delta : row -> row -> result row := combine_metrics count_delta.

(** ** compare.py: the comparison *)
Definition empty_feedback_dataset : TuningFeedbackDataset := mkDataset 0 0 0 0 0 0 0 0 0.

Section compare.
(** The decoder's digit limit, [str] and [bool] of foreign values, and the uuid4 draws of each run. *)
Context (limit : nat) (str_other : pyval -> string) (bool_other : pyval -> bool) (uuids : nat -> Uuids).
Context (fixture_dir : gmap string (list string)).
Abbreviation Work := (gmap string Payload).

Definition replay_run (n : nat) (config : OfflineTuningConfig) (corpus_id : string) : Step Work TunedReplayResult :=
  state (fun work_dir => run_tuned_replay limit str_other bool_other (uuids n) config corpus_id fixture_dir work_dir DEFAULT_REPLAY_SYMBOL).

Definition fixture_row (corpus_id : string) (baseline candidate delta : row) : row :=
  [("corpus_id", JStr corpus_id); ("baseline_metrics", JObj baseline); ("candidate_metrics", JObj candidate); ("delta", JObj delta)].

(** The loop over the corpus, with the totals so far; [n] counts the replays. *)
Fixpoint compare_fixtures (baseline candidate : OfflineTuningConfig) (corpus : list string) (n : nat) (totals : option (row * row))
    : Step Work (list row * option (row * row)) :=
  match corpus with
  | [] => mret ([], totals)
  | corpus_id :: corpus =>
      left ← replay_run n baseline corpus_id;
      right ← replay_run (S n) candidate corpus_id;
      left_metrics ← lift (metrics_from_records (rr_records left) (rr_facts left));
      right_metrics ← lift (metrics_from_records (rr_records right) (rr_facts right));
      delta ← lift (metric_delta left_metrics right_metrics);
      totals ← lift (match totals with
                     | None => Ok (left_metrics, right_metrics)
                     | Some (b, c) => b ← add_metrics b left_metrics; c ← add_metrics c right_metrics; Ok (b, c)
                     end);
      '(rest, totals) ← compare_fixtures baseline candidate corpus (S (S n)) (Some totals);
      mret (fixture_row corpus_id left_metrics right_metrics delta :: rest, totals)
  end.

Definition snapshot_record (a : TuningArtifact) : result row := r ← tuning_record (ta_snapshot a); to_row r.

Definition compare_artifacts (baseline candidate : TuningArtifact) (corpus : list string) (feedback : option TuningFeedbackDataset)
    : Step Work TuningComparisonReport :=
  _ ← lift (artifact_to_record baseline);
  _ ← lift (artifact_to_record candidate);
  let evidence := default empty_feedback_dataset feedback in
  corpus ← lift (validate_corpus corpus);
  '(per_fixture, totals) ← compare_fixtures (ta_config baseline) (ta_config candidate) corpus 0 None;
  '(totals_b, totals_c) ← lift (of_option (TuningConfigError "corpus must contain at least one corpus_id") totals);
  baseline_snapshot ← lift (snapshot_record baseline);
  candidate_snapshot ← lift (snapshot_record candidate);
  baseline_config ← lift (config_to_record (ta_config baseline));
  candidate_config ← lift (config_to_record (ta_config candidate));
  delta ← lift (metric_delta totals_b totals_c);
  mret (mkComparison TUNING_COMPARISON_SCHEMA_VERSION baseline_snapshot candidate_snapshot baseline_config candidate_config corpus
    totals_b totals_c delta (dataset_to_record evidence)
    [("snapshot_valid", JBool true); ("orphan_count", jnum (fd_orphan evidence)); ("orphan_feedback_count", jnum (fd_orphan evidence));
     ("wrote_telemetry_jsonl", JBool false); ("wrote_feedback_jsonl", JBool false)]
    per_fixture).
End compare.

(** * Counts are read, added and subtracted key by key *)

(** The counts of a metrics object: the way to each section, and its keys. *)
Definition SECTIONS : list (list string * list string) :=
  [(["pipeline"], PIPELINE_COUNTS); (["noise"], NOISE_COUNTS); (["noise"; "suppression_by_reason"], SUPPRESSION_COUNTS);
   (["scheduler"], SCHEDULER_COUNTS)].
Definition counter (path : list string) (k : string) : Prop := exists keys, (path, keys) ∈ SECTIONS /\ k ∈ keys.
Fixpoint getpath (m : row) (path : list string) : result row :=
  match path with [] => Ok m | s :: path => r ← getrow m s; getpath r path end.
Definition value_of (m : row) (path : list string) (k : string) : result json := r ← getpath m path; getitem r k.
Definition count_of (m : row) (path : list string) (k : string) : result Z := r ← getpath m path; getint r k.

Lemma count_value m path k n : value_of m path k = Ok (JInt n) -> count_of m path k = Ok n.
Proof. unfold value_of, count_of, getint. destruct (getpath m path) as [r|]; [|done]. cbn. by intros ->. Qed.

Lemma pointwise_spec f keys left right out : pointwise f keys left right = Ok out ->
  out.*1 = keys /\ forall k, k ∈ keys -> exists x y, getint left k = Ok x /\ getint right k = Ok y /\ od_get k out = Some (f x y).
Proof.
  unfold pointwise. revert out. induction keys as [|key keys IH]; intros out; cbn [traverse]; [intros [= <-]; split; [done|by intros k ?%elem_of_nil]|].
  intros (p & (x & Ex & (y & Ey & [= <-])%bind_ok)%bind_ok & H)%bind_ok. apply bind_ok in H as (rest & Er & [= <-]). destruct (IH _ Er) as [Hk Hv].
  split; [cbn; by rewrite Hk|]. intros k Hin. cbn [od_get]. case_decide as Heq; [subst k; by exists x, y|].
  apply elem_of_cons in Hin as [->|Hin]; [done|by apply Hv].
Qed.
Lemma od_get_left (k : string) (a b : row) v : od_get k a = Some v -> od_get k (a ++ b) = Some v.
Proof. induction a as [|[k' v'] a IH]; [done|]. cbn [app od_get]. case_decide; [done|apply IH]. Qed.
Lemma od_get_right (k : string) (a b : row) : k ∉ a.*1 -> od_get k (a ++ b) = od_get k b.
Proof. induction a as [|[k' v'] a IH]; [done|]. cbn. intros [H1 H2]%not_elem_of_cons. rewrite decide_False by done. by apply IH. Qed.
Lemma getitem_some r k v : od_get k r = Some v -> getitem r k = Ok v.
Proof. unfold getitem. by intros ->. Qed.

Lemma getrow_found m k r : od_get k m = Some (JObj r) -> getrow m k = Ok r.
Proof. unfold getrow. by intros ->%getitem_some. Qed.

Lemma combine_spec f left right m : combine_metrics f left right = Ok m -> forall path k, counter path k ->
  exists x y, count_of left path k = Ok x /\ count_of right path k = Ok y /\ value_of m path k = Ok (f x y).
Proof.
  unfold combine_metrics. intros (lp & Elp & H)%bind_ok. apply bind_ok in H as (rp & Erp & H). apply bind_ok in H as (p & Ep & H).
  apply bind_ok in H as (ln & Eln & H). apply bind_ok in H as (rn & Ern & H). apply bind_ok in H as (no & En & H).
  apply bind_ok in H as (ls & Els & H). apply bind_ok in H as (rs & Ers & H). apply bind_ok in H as (su & Es & H).
  apply bind_ok in H as (lh & _ & H). apply bind_ok in H as (rh & _ & H). apply bind_ok in H as (lsch & El & H).
  apply bind_ok in H as (rsch & Er & H). apply bind_ok in H as (sch & Esch & [= <-]).
  apply pointwise_spec in Ep as [_ Ep]. apply pointwise_spec in En as [Nk En]. apply pointwise_spec in Es as [_ Es]. apply pointwise_spec in Esch as [_ Esch].
  intros path k (keys & [[= -> ->]|[[= -> ->]|[[= -> ->]|[[= -> ->]|?%elem_of_nil]%elem_of_cons]%elem_of_cons]%elem_of_cons]%elem_of_cons & Hk); [..|done].
  - destruct (Ep k Hk) as (x & y & Hx & Hy & Hv). exists x, y. unfold count_of, value_of. cbn [getpath]. rewrite Elp, Erp. split; [done|]. split; [done|].
    apply getitem_some, od_get_left, Hv.
  - destruct (En k Hk) as (x & y & Hx & Hy & Hv). exists x, y. unfold count_of, value_of. cbn [getpath]. rewrite Eln, Ern. split; [done|]. split; [done|].
    apply getitem_some, od_get_left, Hv.
  - destruct (Es k Hk) as (x & y & Hx & Hy & Hv). exists x, y. unfold count_of, value_of. cbn [getpath]. rewrite Eln, Ern. cbn [mbind result_bind].
    rewrite Els, Ers. split; [done|]. split; [done|].
    erewrite (getrow_found _ "noise"); [|reflexivity]. cbn [mbind result_bind]. erewrite getrow_found; [|rewrite od_get_right by (rewrite Nk; decide_now); reflexivity].
    apply getitem_some, Hv.
  - destruct (Esch k Hk) as (x & y & Hx & Hy & Hv). exists x, y. unfold count_of, value_of. cbn [getpath]. rewrite El, Er. split; [done|]. split; [done|].
    apply getitem_some, Hv.
Qed.

(** * The comparison of two artifacts *)
Record FixtureRun := mkRun { fr_id : string; fr_baseline : row; fr_candidate : row; fr_delta : row }.
Definition run_row (r : FixtureRun) : row := fixture_row (fr_id r) (fr_baseline r) (fr_candidate r) (fr_delta r).
Definition sum (l : list Z) : Z := foldr Z.add 0 l.
(** The runs' counts of one counter. *)
Definition counts (side : FixtureRun -> row) (path : list string) (k : string) (runs : list FixtureRun) (l : list Z) : Prop :=
  Forall2 (fun r n => count_of (side r) path k = Ok n) runs l.
Definition counted (m : row) : Prop := forall path k, counter path k -> exists n, count_of m path k = Ok n.
Definition from_replay (m : row) : Prop := exists records facts, metrics_from_records records facts = Ok m.
Definition measured (r : FixtureRun) : Prop :=
  metric_delta (fr_baseline r) (fr_candidate r) = Ok (fr_delta r) /\ from_replay (fr_baseline r) /\ from_replay (fr_candidate r).

Lemma delta_counted b c d : metric_delta b c = Ok d -> counted b /\ counted c.
Proof. intros H. split; intros path k Hk; destruct (combine_spec _ _ _ _ H path k Hk) as (x & y & ? & ? & _); eauto. Qed.
Lemma add_counts b m t : add_metrics b m = Ok t -> forall path k, counter path k ->
  exists x y, count_of b path k = Ok x /\ count_of m path k = Ok y /\ count_of t path k = Ok (x + y).
Proof.
  intros H path k Hk. destruct (combine_spec _ _ _ _ H path k Hk) as (x & y & Hx & Hy & Hv). exists x, y. split; [done|]. split; [done|].
  by apply count_value.
Qed.
Lemma counts_exist side path k runs : counter path k -> Forall (fun r => counted (side r)) runs -> exists l, counts side path k runs l.
Proof.
  intros Hk. induction 1 as [|r runs Hr _ [l Hl]]; [exists []; constructor|]. destruct (Hr path k Hk) as [n Hn]. exists (n :: l). by constructor.
Qed.
Lemma measured_counted runs : Forall measured runs -> Forall (fun r => counted (fr_baseline r)) runs /\ Forall (fun r => counted (fr_candidate r)) runs.
Proof. intros F. split; (eapply Forall_impl; [exact F|]; intros r [H _]; by destruct (delta_counted _ _ _ H)). Qed.

(** A total over the runs, from a total so far. *)
Definition totalled (side : FixtureRun -> row) (start final : row) (runs : list FixtureRun) : Prop :=
  forall path k, counter path k -> forall x, count_of start path k = Ok x ->
    forall l, counts side path k runs l -> count_of final path k = Ok (x + sum l).

Lemma totalled_nil side t : totalled side t t [].
Proof. intros path k Hk x Hx l Hl. inversion Hl; subst. cbn. by rewrite Z.add_0_r. Qed.
Lemma totalled_cons side t t' t'' r runs : add_metrics t (side r) = Ok t' -> totalled side t' t'' runs -> totalled side t t'' (r :: runs).
Proof.
  intros Ha Ht path k Hk x Hx l Hl. inversion Hl as [|? n ? l' Hn Hl']; subst. destruct (add_counts _ _ _ Ha path k Hk) as (x' & y & Ex & Ey & Et).
  rewrite Hx in Ex. injection Ex as <-. rewrite Hn in Ey. injection Ey as <-. rewrite (Ht path k Hk _ Et _ Hl'). cbn. by rewrite Z.add_assoc.
Qed.

Section comparison.
Context (limit : nat) (so : pyval -> string) (bo : pyval -> bool) (uuids : nat -> Uuids) (fixture_dir : gmap string (list string)).
Abbreviation fixtures_of := (compare_fixtures limit so bo uuids fixture_dir).

Lemma lift_ok {E A} (r : result A) (e : E) a e' : lift r e = (Ok a, e') -> r = Ok a /\ e' = e.
Proof. unfold lift. by intros [= -> ->]. Qed.

(** The runs of the loop: fixture by fixture, a replay of the baseline's configuration and then one of the
    candidate's, each in the work directory the last one left, with ids of its own; and the metrics of each. *)
Inductive replayed (b c : OfflineTuningConfig) : nat -> gmap string Payload -> list FixtureRun -> gmap string Payload -> Prop :=
  | replayed_nil n work : replayed b c n work [] work
  | replayed_cons n work work1 work2 work' r runs left right :
      run_tuned_replay limit so bo (uuids n) b (fr_id r) fixture_dir work DEFAULT_REPLAY_SYMBOL = (Ok left, work1) ->
      run_tuned_replay limit so bo (uuids (S n)) c (fr_id r) fixture_dir work1 DEFAULT_REPLAY_SYMBOL = (Ok right, work2) ->
      metrics_from_records (rr_records left) (rr_facts left) = Ok (fr_baseline r) ->
      metrics_from_records (rr_records right) (rr_facts right) = Ok (fr_candidate r) ->
      metric_delta (fr_baseline r) (fr_candidate r) = Ok (fr_delta r) ->
      replayed b c (S (S n)) work2 runs work' -> replayed b c n work (r :: runs) work'.

(** One turn of the loop. *)
Lemma fixtures_step b c id corpus n totals work rows final work' : fixtures_of b c (id :: corpus) n totals work = (Ok (rows, final), work') ->
  exists r tb tc rest work1, measured r /\ (forall runs w', replayed b c (S (S n)) work1 runs w' -> replayed b c n work (r :: runs) w') /\
    fr_id r = id /\ rows = run_row r :: rest /\
    fixtures_of b c corpus (S (S n)) (Some (tb, tc)) work1 = (Ok (rest, final), work') /\
    match totals with None => (tb, tc) = (fr_baseline r, fr_candidate r) | Some (b0, c0) => add_metrics b0 (fr_baseline r) = Ok tb /\ add_metrics c0 (fr_candidate r) = Ok tc end.
Proof.
  cbn [compare_fixtures]. intros (left & w1 & Rl & H)%step_inv. apply step_inv in H as (right & w2 & Rr & H). unfold replay_run, state in Rl, Rr.
  apply step_inv in H as (lm & w3 & [Hl ->]%lift_ok & H). apply step_inv in H as (rm & w4 & [Hrm ->]%lift_ok & H). apply step_inv in H as (d & w5 & [Hd ->]%lift_ok & H).
  apply step_inv in H as ([tb tc] & w6 & [Ht ->]%lift_ok & H). apply step_inv in H as ([rest fin] & w7 & Hr & [= <- <- <-]).
  exists (mkRun id lm rm d), tb, tc, rest, w2. split; [by split; [|split; do 2 eexists]|].
  split; [intros runs w'; by apply (replayed_cons _ _ _ _ w1 w2 _ _ _ left right)|]. split; [done|]. split; [done|]. split; [done|]. cbn.
  destruct totals as [[b0 c0]|]; [|by injection Ht as <- <-]. apply bind_ok in Ht as (b1 & Hb & Ht). apply bind_ok in Ht as (c1 & Hc & [= <- <-]). done.
Qed.

Lemma fixtures_some b c corpus : forall n tb tc work rows final work', fixtures_of b c corpus n (Some (tb, tc)) work = (Ok (rows, final), work') ->
  exists runs tb' tc', replayed b c n work runs work' /\ fr_id <$> runs = corpus /\ rows = run_row <$> runs /\ Forall measured runs /\ final = Some (tb', tc') /\
    totalled fr_baseline tb tb' runs /\ totalled fr_candidate tc tc' runs.
Proof.
  induction corpus as [|id corpus IH]; intros n tb tc work rows final work'.
  { intros [= <- <- <-]. exists [], tb, tc. split; [constructor|]. repeat split; try constructor; apply totalled_nil. }
  intros (r & tb1 & tc1 & rest & w & Hm & Hp & Hid & -> & Hr & Hb & Hc)%fixtures_step.
  destruct (IH _ _ _ _ _ _ _ Hr) as (runs & tb' & tc' & Hps & Hids & -> & F & -> & Tb & Tc). exists (r :: runs), tb', tc'. split; [by apply Hp|].
  split; [cbn; by rewrite Hid, Hids|]. split; [done|]. split; [by constructor|]. split; [done|]. split; by eapply totalled_cons.
Qed.

Lemma fixtures_total b c corpus n work rows tb tc work' : fixtures_of b c corpus n None work = (Ok (rows, Some (tb, tc)), work') ->
  exists runs, replayed b c n work runs work' /\ fr_id <$> runs = corpus /\ rows = run_row <$> runs /\ Forall measured runs /\
    forall path k, counter path k -> exists bs cs, counts fr_baseline path k runs bs /\ counts fr_candidate path k runs cs /\
      count_of tb path k = Ok (sum bs) /\ count_of tc path k = Ok (sum cs).
Proof.
  destruct corpus as [|id corpus]; [done|]. intros (r & tb1 & tc1 & rest & w & Hm & Hp & Hid & -> & Hr & [= -> ->])%fixtures_step.
  destruct (fixtures_some _ _ _ _ _ _ _ _ _ _ Hr) as (runs & tb' & tc' & Hps & Hids & -> & F & [= <- <-] & Tb & Tc).
  exists (r :: runs). split; [by apply Hp|]. split; [cbn; by rewrite Hid, Hids|]. split; [done|]. split; [by constructor|]. intros path k Hk.
  destruct (measured_counted runs F) as [Cb Cc]. destruct (delta_counted _ _ _ (proj1 Hm)) as [Rb Rc].
  destruct (counts_exist _ _ _ _ Hk Cb) as [bs Hbs]. destruct (counts_exist _ _ _ _ Hk Cc) as [cs Hcs].
  destruct (Rb path k Hk) as [x Hx]. destruct (Rc path k Hk) as [y Hy]. exists (x :: bs), (y :: cs).
  split; [by constructor|]. split; [by constructor|]. split; [by apply (Tb path k Hk _ Hx)|by apply (Tc path k Hk _ Hy)].
Qed.
End comparison.

Lemma remove_dups_le (l : list string) : (length (remove_dups l) <= length l)%nat.
Proof. induction l as [|x l IH]; [done|]. cbn. case_decide; cbn; lia. Qed.
Lemma validate_corpus_ok corpus ids : validate_corpus corpus = Ok ids -> ids = corpus /\ corpus <> [] /\ NoDup corpus.
Proof.
  unfold validate_corpus. case_bool_decide as He; [done|]. destruct (Nat.eqb_spec (length corpus) (length (remove_dups corpus))) as [E|]; [|done].
  intros [= <-]. split; [done|]. split; [done|]. clear He. induction corpus as [|x corpus IH]; [constructor|]. cbn in E.
  pose proof (remove_dups_le corpus). case_decide; [lia|]. cbn in E. constructor; [done|]. apply IH. lia.
Qed.

(** The differences, run by run. *)
Definition differences (bs cs : list Z) : list Z := zip_with (fun b c => c - b) bs cs.
Lemma sum_delta bs : forall cs, length bs = length cs -> sum (differences bs cs) = sum cs - sum bs.
Proof. induction bs as [|b bs IH]; intros [|c cs]; try done. intros [= H]. cbn. unfold differences, sum in *. rewrite IH by done. lia. Qed.
Lemma run_deltas path k runs bs cs : counter path k -> Forall measured runs -> counts fr_baseline path k runs bs -> counts fr_candidate path k runs cs ->
  Forall2 (fun r d => value_of (fr_delta r) path k = Ok (count_delta d.1 d.2)) runs (zip bs cs).
Proof.
  intros Hk F. revert bs cs. induction F as [|r runs Hm _ IH]; intros bs cs Hb Hc; inversion Hb; inversion Hc; subst; cbn; constructor.
  - destruct (combine_spec _ _ _ _ (proj1 Hm) path k Hk) as (b & c & Eb & Ec & Ev). cbn. congruence.
  - by apply IH.
Qed.

(** C30: A comparison adds up.  When [compare_artifacts] returns a report, its corpus is the one asked
    for, not empty and without a repeated fixture; for each fixture in order the baseline's configuration
    was replayed and then the candidate's, from one work directory to the next, and its row has the
    metrics of those two replays, each on its side, and their delta; and for every counter of every section the
    reported totals of baseline and candidate are the sums over the fixtures, the delta of the
    totals is made of those sums, each fixture's delta of that fixture's counts, and the
    difference of the totals is the sum of the fixtures' differences. *)
Theorem comparison_adds limit so bo uuids fixture_dir baseline candidate corpus feedback work_dir r work_dir' :
  compare_artifacts limit so bo uuids fixture_dir baseline candidate corpus feedback work_dir = (Ok r, work_dir') ->
  cr_corpus r = corpus /\ corpus <> [] /\ NoDup corpus /\
  exists runs, fr_id <$> runs = corpus /\ cr_per_fixture r = run_row <$> runs /\
    replayed limit so bo uuids fixture_dir (ta_config baseline) (ta_config candidate) 0 work_dir runs work_dir' /\
    forall path k, counter path k -> exists bs cs,
      counts fr_baseline path k runs bs /\ counts fr_candidate path k runs cs /\
      count_of (cr_baseline_metrics r) path k = Ok (sum bs) /\ count_of (cr_candidate_metrics r) path k = Ok (sum cs) /\
      value_of (cr_delta r) path k = Ok (count_delta (sum bs) (sum cs)) /\
      Forall2 (fun run d => value_of (fr_delta run) path k = Ok (count_delta d.1 d.2)) runs (zip bs cs) /\
      sum cs - sum bs = sum (differences bs cs).
Proof.
  unfold compare_artifacts. intros (? & w1 & [_ ->]%lift_ok & H)%step_inv. apply step_inv in H as (? & w2 & [_ ->]%lift_ok & H). cbv zeta in H.
  apply step_inv in H as (ids & w3 & [Hv ->]%lift_ok & H). apply validate_corpus_ok in Hv as (-> & Hne & Hnd).
  apply step_inv in H as ([rows totals] & w4 & Hf & H). apply step_inv in H as ([tb tc] & w5 & [Ht ->]%lift_ok & H).
  destruct totals as [[b c]|]; [|done]. injection Ht as -> ->. do 4 (apply step_inv in H as (? & ? & [_ ->]%lift_ok & H)).
  apply step_inv in H as (delta & w6 & [Hd ->]%lift_ok & [= <- <-]). cbn [cr_corpus cr_per_fixture cr_baseline_metrics cr_candidate_metrics cr_delta].
  split; [done|]. split; [done|]. split; [done|]. destruct (fixtures_total _ _ _ _ _ _ _ _ _ _ _ _ _ _ Hf) as (runs & Hr & Hids & -> & F & Hc).
  exists runs. split; [done|]. split; [done|]. split; [exact Hr|]. intros path k Hk. destruct (Hc path k Hk) as (bs & cs & Hb & Hcs & Tb & Tc). exists bs, cs.
  do 4 (split; [done|]). split; [|split; [by apply run_deltas|symmetry; apply sum_delta; by rewrite <- (Forall2_length _ _ _ Hb), <- (Forall2_length _ _ _ Hcs)]].
  destruct (combine_spec _ _ _ _ Hd path k Hk) as (n1 & n2 & Ex & Ey & Ev). congruence.
Qed.

Definition demo_corpus : list string := ["rapid_move"; "normal_market"].
Definition demo_directory : gmap string (list string) :=
  {["rapid_move.jsonl" := text compact 0 <$> demo_batches; "normal_market.jsonl" := text compact 0 <$> take 1 demo_batches]}.
(** The baseline against a candidate that needs a larger move for the top level. *)
Definition demo_candidate : TuningArtifact :=
  mkArtifact (ta_snapshot sample_artifact) (mkTuningConfig (flit 90 0) 5 (flit 9 0) (flit 5 1) (flit 4 3) (flit 8 3) (flit 15 1)) 2.
Definition demo_comparison : result TuningComparisonReport * gmap string Payload :=
  compare_artifacts 4300 (fun _ => "") (fun _ => false) (fun _ => demo_uuids) demo_directory sample_artifact demo_candidate demo_corpus None ∅.
Lemma demo_values : match demo_comparison.1 with
  | Ok r => cr_corpus r = demo_corpus /\ count_of (cr_baseline_metrics r) ["scheduler"] "hot_tick_count" = Ok 2 /\
            value_of (cr_delta r) ["scheduler"] "hot_tick_count" = Ok (count_delta 2 0)
  | Err _ => False
  end.
Proof. vm_compute. by split_and!. Qed.
Lemma demo_returns : exists r work_dir, demo_comparison = (Ok r, work_dir).
Proof. pose proof demo_values as V. destruct demo_comparison as [[r|e] w]; [by exists r, w|destruct V]. Qed.
Lemma comparison_adds_witness : exists r work_dir, demo_comparison = (Ok r, work_dir) /\ cr_corpus r = demo_corpus /\
  count_of (cr_baseline_metrics r) ["scheduler"] "hot_tick_count" = Ok 2 /\
  value_of (cr_delta r) ["scheduler"] "hot_tick_count" = Ok (count_delta 2 0).
Proof.
  pose proof demo_values as V. destruct demo_returns as (r & w & E). exists r, w. split; [exact E|]. rewrite E in V. cbn [fst] in V.
  destruct (comparison_adds _ _ _ _ _ _ _ _ _ _ _ _ E) as (Hc & _). split; [exact Hc|]. exact (proj2 V).
Defined.

(** * The report drops nothing *)
Abbreviation allowed := (clean TUNING_COMPARISON_ALLOWLIST).
Definition row_allowed (r : row) : Prop := allowed (JObj r) = true.

Lemma allowed_cons k v r : row_allowed ((k, v) :: r) <-> k ∈ TUNING_COMPARISON_ALLOWLIST /\ allowed v = true /\ row_allowed r.
Proof.
  unfold row_allowed. change (allowed (JObj ((k, v) :: r))) with (bool_decide (k ∈ TUNING_COMPARISON_ALLOWLIST) && allowed v && allowed (JObj r)).
  rewrite !andb_true_iff, bool_decide_eq_true. tauto.
Qed.
Lemma allowed_app a b : row_allowed (a ++ b) <-> row_allowed a /\ row_allowed b.
Proof. induction a as [|[k v] a IH]; cbn [app]; [by split; [|intros []]|]. rewrite !allowed_cons, IH. tauto. Qed.
Lemma allowed_rows l : Forall row_allowed l -> allowed (JList (JObj <$> l)) = true.
Proof. intros H. cbn. induction H as [|r l Hr _ IH]; [done|]. cbn [fmap list_fmap forallb]. rewrite IH, andb_true_r. exact Hr. Qed.

Lemma metrics_allowed m : from_replay m -> row_allowed m.
Proof.
  intros (records & facts & H). unfold metrics_from_records in H. apply bind_ok in H as (report & Er & H).
  rewrite (report_sanitized _ _ _ _ _ Er) in H. destruct (evaluate_sections _ _ _ _ _ Er) as (market & Hm & _ & Hn).
  cbn [mbind result_bind] in H. unfold report_raw in H. erewrite getrow_found in H by reflexivity. cbn [mbind result_bind] in H.
  rewrite Hn, (getitem_some _ _ _ (noise_rate _ _ _ _)) in H. cbn [mbind result_bind] in H. destruct (repeated records) as [rs ea]. injection H as <-.
  destruct (market_rate _ _ Hm) as [[reason ->]|[x ->]]; vm_compute; reflexivity.
Qed.

Lemma pointwise_allowed f keys left right out : (forall x y, allowed (f x y) = true) -> Forall (fun k => k ∈ TUNING_COMPARISON_ALLOWLIST) keys ->
  pointwise f keys left right = Ok out -> row_allowed out.
Proof.
  intros Hf F. unfold pointwise. revert out. induction F as [|k keys Hk _ IH]; intros out; cbn [traverse]; [by intros [= <-]|].
  intros (p & (x & _ & (y & _ & [= <-])%bind_ok)%bind_ok & H)%bind_ok. apply bind_ok in H as (rest & Er & [= <-]).
  apply allowed_cons. split; [done|]. split; [done|by apply IH].
Qed.
Lemma combine_allowed f left right m : (forall x y, allowed (f x y) = true) -> combine_metrics f left right = Ok m -> row_allowed m.
Proof.
  intros Hf. unfold combine_metrics. intros (lp & _ & H)%bind_ok. apply bind_ok in H as (rp & _ & H). apply bind_ok in H as (p & Ep & H).
  apply bind_ok in H as (ln & _ & H). apply bind_ok in H as (rn & _ & H). apply bind_ok in H as (no & En & H).
  apply bind_ok in H as (ls & _ & H). apply bind_ok in H as (rs & _ & H). apply bind_ok in H as (su & Es & H).
  apply bind_ok in H as (lh & _ & H). apply bind_ok in H as (rh & _ & H). apply bind_ok in H as (lsch & _ & H).
  apply bind_ok in H as (rsch & _ & H). apply bind_ok in H as (sch & Esch & [= <-]).
  apply pointwise_allowed in Ep; [|done|decide_now]. apply pointwise_allowed in En; [|done|decide_now].
  apply pointwise_allowed in Es; [|done|decide_now]. apply pointwise_allowed in Esch; [|done|decide_now].
  assert (Hh : allowed (JObj (combine_hour lh rh)) = true) by (unfold combine_hour; destruct (_ && _); vm_compute; reflexivity).
  apply allowed_cons. split; [decide_now|]. split; [apply allowed_app; split; [done|reflexivity]|].
  apply allowed_cons. split; [decide_now|]. split.
  { apply allowed_app. split; [done|]. apply allowed_cons. split; [decide_now|]. split; [done|]. apply allowed_cons. split; [decide_now|]. by split. }
  apply allowed_cons. split; [decide_now|]. split; [done|]. apply allowed_cons. by split; [decide_now|].
Qed.
Lemma delta_allowed left right m : metric_delta left right = Ok m -> row_allowed m.
Proof. by apply combine_allowed. Qed.
Lemma add_allowed left right m : add_metrics left right = Ok m -> row_allowed m.
Proof. by apply combine_allowed. Qed.

Lemma run_allowed r : measured r -> row_allowed (run_row r).
Proof.
  intros (Hd & Hb & Hc). apply delta_allowed in Hd. apply metrics_allowed in Hb, Hc. unfold run_row, fixture_row.
  repeat (apply allowed_cons; split; [decide_now|split; [first [done|reflexivity]|]]). done.
Qed.
Lemma totals_allowed limit so bo uuids fixture_dir b c corpus : forall n totals work rows tb tc work',
  compare_fixtures limit so bo uuids fixture_dir b c corpus n totals work = (Ok (rows, Some (tb, tc)), work') ->
  (forall b0 c0, totals = Some (b0, c0) -> row_allowed b0 /\ row_allowed c0) ->
  Forall row_allowed rows /\ row_allowed tb /\ row_allowed tc.
Proof.
  induction corpus as [|id corpus IH]; intros n totals work rows tb tc work'; [by intros [= <- -> _] Hs; destruct (Hs _ _ eq_refl)|].
  intros (r & b1 & c1 & rest & w & Hm & _ & _ & -> & Hr & Ht)%fixtures_step Hs. destruct (IH _ _ _ _ _ _ _ Hr) as (F & B & C).
  - intros b0 c0 [= <- <-]. destruct totals as [[b2 c2]|]; [destruct Ht as [Hb Hc]; by apply add_allowed in Hb, Hc|].
    injection Ht as -> ->. destruct Hm as (_ & Hb & Hc). by apply metrics_allowed in Hb, Hc.
  - split; [constructor; [by apply run_allowed|done]|done].
Qed.
Lemma snapshot_allowed a r : snapshot_record a = Ok r -> row_allowed r.
Proof.
  unfold snapshot_record, tuning_record. rewrite project_id by (cbn [fmap list_fmap fst]; decide_now). unfold to_row. cbn. intros [= <-].
  repeat (apply allowed_cons; split; [decide_now|split; [reflexivity|]]). done.
Qed.
Lemma config_allowed c r : config_to_record c = Ok r -> row_allowed r.
Proof.
  rewrite to_record_config. intros [= <-]. unfold config_raw. repeat (apply allowed_cons; split; [decide_now|split; [reflexivity|]]). done.
Qed.
Lemma dataset_allowed d : row_allowed (dataset_to_record d).
Proof. unfold dataset_to_record. repeat (apply allowed_cons; split; [decide_now|split; [reflexivity|]]). done. Qed.
Lemma sanitize_allowed v : allowed v = true -> sanitize_comparison v = Ok v.
Proof.
  intros H. unfold sanitize_comparison. rewrite (denied_in_none TELEMETRY_DENYLIST TUNING_COMPARISON_ALLOWLIST) by (solve [vm_compute; reflexivity | by apply clean_keys]).
  rewrite (denied_in_none RECOMMENDATION_DENIED_KEYS TUNING_COMPARISON_ALLOWLIST) by (solve [vm_compute; reflexivity | by apply clean_keys]).
  apply project_clean; [vm_compute; reflexivity|done].
Qed.

(** [comparison_published] The report of a comparison is published as it was computed.  Whatever the artifacts, the corpus
    and the feedback, the record of a report that [compare_artifacts] returns is its raw content:
    no key is denied, none recommends a candidate, and the allow list drops nothing. *)
Theorem comparison_published limit so bo uuids fixture_dir baseline candidate corpus feedback work_dir r work_dir' :
  compare_artifacts limit so bo uuids fixture_dir baseline candidate corpus feedback work_dir = (Ok r, work_dir') ->
  comparison_to_record r = Ok (comparison_raw r).
Proof.
  unfold compare_artifacts. intros (? & w1 & _ & H)%step_inv. apply step_inv in H as (? & w2 & _ & H). cbv zeta in H.
  apply step_inv in H as (ids & w3 & [_ ->]%lift_ok & H).
  apply step_inv in H as ([rows totals] & w4 & Hf & H). apply step_inv in H as ([tb tc] & w5 & [Ht ->]%lift_ok & H).
  destruct totals as [[b c]|]; [|done]. injection Ht as -> ->. destruct (totals_allowed _ _ _ _ _ _ _ _ _ _ _ _ _ _ _ Hf ltac:(done)) as (Fr & Ab & Ac).
  apply step_inv in H as (bs & ? & [Hbs%snapshot_allowed ->]%lift_ok & H). apply step_inv in H as (cs & ? & [Hcs%snapshot_allowed ->]%lift_ok & H).
  apply step_inv in H as (bc & ? & [Hbc%config_allowed ->]%lift_ok & H). apply step_inv in H as (cc & ? & [Hcc%config_allowed ->]%lift_ok & H).
  apply step_inv in H as (delta & ? & [Hd%delta_allowed ->]%lift_ok & [= <- _]).
  unfold comparison_to_record. cbn [cr_schema_version]. rewrite Z.eqb_refl. cbn [negb]. apply sanitize_allowed.
  match goal with |- allowed (comparison_raw ?r) = true => change (row_allowed (match comparison_raw r with JObj ms => ms | _ => [] end)) end.
  unfold comparison_raw. cbn [cr_schema_version cr_baseline_snapshot cr_candidate_snapshot cr_baseline_config cr_candidate_config cr_corpus
    cr_baseline_metrics cr_candidate_metrics cr_delta cr_feedback_evidence cr_data_quality cr_per_fixture].
  repeat (apply allowed_cons; split; [decide_now|split; [first [assumption|apply dataset_allowed|by apply allowed_rows|reflexivity|idtac]|]]); [|done].
  clear. by induction ids.
Qed.
Lemma comparison_published_witness : exists r work_dir, demo_comparison = (Ok r, work_dir) /\ comparison_to_record r = Ok (comparison_raw r).
Proof.
  destruct demo_returns as (r & w & E). exists r, w. split; [exact E|]. exact (comparison_published _ _ _ _ _ _ _ _ _ _ _ _ E).
Defined.

(** * The levels of a replay *)
Definition level_count (l : SchedulerLevel) (levels : list SchedulerLevel) : nat := length (filter (fun x => x = l) levels).
(** How often a level differs from the one before. *)
Fixpoint changes (levels : list SchedulerLevel) : nat :=
  match levels with
  | a :: ((b :: _) as rest) => ((if decide (a = b) then 0 else 1) + changes rest)%nat
  | _ => 0%nat
  end.

Lemma tally_level t f l : tf_level f = level_value l -> tally_fact t f =
  mkTally (lt_cold t + if decide (l = COLD) then 1 else 0) (lt_warm t + if decide (l = WARM) then 1 else 0)
    (lt_hot t + if decide (l = HOT) then 1 else 0)
    (if match lt_previous t with Some p => negb (bool_decide (level_value l = p)) | None => false end then lt_transitions t + 1 else lt_transitions t)
    (Some (level_value l)).
Proof. intros E. unfold tally_fact. rewrite E. by destruct l. Qed.

Lemma tally_from facts : forall t levels p, tf_level <$> facts = level_value <$> levels -> lt_previous t = level_value <$> p ->
  let t' := foldl tally_fact t facts in
  lt_cold t' = (lt_cold t + level_count COLD levels)%nat /\ lt_warm t' = (lt_warm t + level_count WARM levels)%nat /\
  lt_hot t' = (lt_hot t + level_count HOT levels)%nat /\
  lt_transitions t' = (lt_transitions t + changes (from_option (fun p => [p]) [] p ++ levels))%nat.
Proof.
  induction facts as [|f facts IH]; intros t [|l levels] p; try done.
  { intros _ _. cbn. unfold level_count. cbn. destruct p; cbn; lia. }
  intros [= Hl Hr] Hp. cbn [foldl]. rewrite (tally_level t f l Hl). rewrite Hp.
  match goal with |- context [foldl tally_fact ?t1 facts] => destruct (IH t1 levels (Some l) Hr eq_refl) as (C & W & H & T) end.
  rewrite C, W, H, T. cbn [lt_cold lt_warm lt_hot lt_transitions].
  unfold level_count. rewrite !filter_cons. split; [|split; [|split]]; [repeat case_decide; cbn [length]; done || lia..|].
  destruct p as [p|]; cbn [fmap option_fmap option_map from_option app]; [|done]. cbn [changes].
  destruct (decide (p = l)) as [->|Ne]; [rewrite bool_decide_eq_true_2 by done|rewrite bool_decide_eq_false_2 by (by destruct l, p)]; cbn [negb]; lia.
Qed.

Lemma changes_rising levels : rising levels -> forall a, hd_error levels = Some a -> Z.of_nat (changes levels) <= 2 - level_rank a.
Proof.
  induction levels as [|a levels IH]; [done|]. intros R x [= <-]. apply StronglySorted_inv in R as [R F]. destruct levels as [|b levels].
  - cbn. destruct a; cbn; lia.
  - specialize (IH R b eq_refl). apply Forall_cons in F as [F _]. cbn [changes]. case_decide as Hab; [subst; cbn [Nat.add]; exact IH|].
    assert (level_rank a <> level_rank b) by (destruct a, b; done). cbn [changes] in *. lia.
Qed.

(** [scheduler_section] The scheduler section counts every tick once: the three level counts add up to the processed
    ticks and each is the number of facts at that level, and the transitions are the adjacent
    pairs of facts that differ.  When the levels never fall, as in a replay, there are at most
    two. *)
Theorem scheduler_section facts levels : tf_level <$> facts = level_value <$> levels ->
  let m := scheduler_metrics_from_facts facts in
  getint m "cold_tick_count" = Ok (Z.of_nat (level_count COLD levels)) /\ getint m "warm_tick_count" = Ok (Z.of_nat (level_count WARM levels)) /\
  getint m "hot_tick_count" = Ok (Z.of_nat (level_count HOT levels)) /\
  getint m "level_transition_count" = Ok (Z.of_nat (changes levels)) /\ getint m "processed_tick_count" = Ok (Z.of_nat (length levels)) /\
  (level_count COLD levels + level_count WARM levels + level_count HOT levels)%nat = length levels /\
  (rising levels -> (changes levels <= 2)%nat).
Proof.
  intros E. destruct (tally_from facts (mkTally 0 0 0 0 None) levels None E eq_refl) as (C & W & H & T). fold (tally_facts facts) in C, W, H, T.
  cbn [lt_cold lt_warm lt_hot lt_transitions from_option app Nat.add] in C, W, H, T. unfold scheduler_metrics_from_facts. cbv zeta. rewrite C, W, H, T.
  assert (Hn : length facts = length levels) by (apply (f_equal length) in E; by rewrite !length_fmap in E). rewrite Hn.
  do 5 (split; [reflexivity|]). split.
  - clear. unfold level_count. induction levels as [|l levels IH]; [done|]. rewrite !filter_cons. repeat case_decide; cbn [length]; destruct l; try done; lia.
  - intros R. destruct levels as [|a levels]; [cbn; lia|]. pose proof (changes_rising _ R a eq_refl). assert (0 <= level_rank a) by (destruct a; cbn; lia). lia.
Qed.
Definition demo_facts : list TickFact := (fun l => mkFact [] 0 [] [] (level_value l)) <$> [COLD; WARM; WARM; HOT].
Lemma scheduler_section_witness : getint (scheduler_metrics_from_facts demo_facts) "level_transition_count" = Ok 2 /\ (changes [COLD; WARM; WARM; HOT] <= 2)%nat.
Proof.
  destruct (scheduler_section demo_facts [COLD; WARM; WARM; HOT] eq_refl) as (_ & _ & _ & T & _ & _ & R). split; [exact T|].
  apply R. repeat constructor; cbn; lia.
Defined.

(** * The same journal, the same counts as the evaluation report *)
Lemma selected_rows (f : row -> bool) records : (forall r, f r = true -> is_Some (as_str (get r "name"))) ->
  filter (fun r => f r = true) (selected None records) = filter (fun r => f r = true) records.
Proof.
  intros Hf. unfold selected, of_run. induction records as [|r records IH]; [done|]. rewrite !(filter_cons _ r records).
  destruct (decide (f r = true)) as [Hr|Hr].
  - rewrite decide_True by (rewrite bool_decide_eq_true_2 by (by apply Hf); done). rewrite filter_cons_True by done. by rewrite IH.
  - case_decide; [rewrite filter_cons_False by done|]; apply IH.
Qed.
Lemma named_selected n records : filter (fun r => named n r = true) (selected None records) = filter (fun r => named n r = true) records.
Proof. apply selected_rows. intros r. unfold named, is_str. destruct (get r "name"); by try done. Qed.

Lemma grouped_from rows : forall g, NoDup g.*1 ->
  let g' := foldl (fun g r => match target r with Some key => od_set key (default 0 (od_get key g) + 1)%nat g | None => g end) g rows in
  NoDup g'.*1 /\ (forall k, k ∈ g'.*1 <-> k ∈ g.*1 \/ k ∈ omap target rows) /\
  forall k, default 0%nat (od_get k g') = (default 0 (od_get k g) + length (filter (fun x => x = k) (omap target rows)))%nat.
Proof.
  induction rows as [|r rows IH]; intros g N; [cbn; split; [done|]; split; [intros k; rewrite elem_of_nil; tauto|intros k; lia]|].
  cbn [foldl omap list_omap]. destruct (target r) as [key|]; [|by apply IH]. destruct (IH (od_set key (default 0 (od_get key g) + 1)%nat g)) as (N' & K & V).
  { by apply od_set_nodup. }
  split; [done|]. split.
  - intros k. rewrite K, elem_of_cons, od_set_keys. case_decide as Hin; [|rewrite elem_of_app, list_elem_of_singleton; naive_solver].
    split; [tauto|]. intros [?|[->|?]]; auto.
  - intros k. rewrite V, od_get_set, filter_cons. repeat case_decide; subst; cbn; try done; lia.
Qed.
Lemma values_of (g : list ((string * string) * nat)) : NoDup g.*1 -> g.*2 = (fun k => default 0%nat (od_get k g)) <$> g.*1.
Proof.
  intros N. rewrite <- list_fmap_compose. apply list_fmap_ext. intros i [k v] Hi. cbn. apply list_elem_of_lookup_2 in Hi. by rewrite (od_elem_get k v g N Hi).
Qed.
(** The dictionary's values are, in some order, the number of rows of each key. *)
Lemma grouped_values rows : let keys := omap target rows in
  (foldl (fun g r => match target r with Some key => od_set key (default 0 (od_get key g) + 1)%nat g | None => g end) [] rows).*2
    ≡ₚ (fun k => length (filter (fun x => x = k) keys)) <$> remove_dups keys.
Proof.
  intros keys. destruct (grouped_from rows [] ltac:(constructor)) as (N & K & V). rewrite (values_of _ N).
  erewrite list_fmap_ext; [|intros i k _; apply V]. apply fmap_Permutation, NoDup_Permutation; [done|apply NoDup_remove_dups|].
  intros k. rewrite K, elem_of_remove_dups, elem_of_nil. tauto.
Qed.

Lemma repeats_fold l : forall a b, foldl (fun acc count => if (1 <? count)%nat then (acc.1 + 1, acc.2 + (count - 1))%nat else acc) (a, b) l =
  ((a + length (filter (fun c => (1 < c)%nat) l))%nat, (b + total ((fun c => c - 1)%nat <$> filter (fun c => (1 < c)%nat) l))%nat).
Proof.
  induction l as [|c l IH]; intros a b; [cbn; by rewrite !Nat.add_0_r|]. cbn [foldl]. rewrite filter_cons. destruct (Nat.ltb_spec 1 c).
  - rewrite decide_True by done. rewrite IH. unfold total. cbn. f_equal; lia.
  - rewrite decide_False by lia. apply IH.
Qed.
Lemma extra_fold l : forall n, foldl (fun n c => n + (c - 1))%nat n l = (n + total ((fun c => c - 1)%nat <$> l))%nat.
Proof. induction l as [|c l IH]; intros n; cbn; [lia|]. rewrite IH. unfold total. cbn. lia. Qed.
Lemma total_perm l k : l ≡ₚ k -> total l = total k.
Proof. induction 1; unfold total in *; cbn; lia. Qed.

Lemma repeated_agrees records : repeated records = repeated_episodes (candidates records).
Proof.
  unfold repeated, repeated_episodes, grouped. cbv zeta. rewrite repeats_fold, extra_fold. cbn [Nat.add].
  pose proof (grouped_values (candidates records)) as P. cbv zeta in P.
  change (omap (fun r => run ← as_str (get r "run_id"); sid ← as_str (get r "signal_id"); Some (run, sid)) (candidates records)) with (omap target (candidates records)).
  f_equal; [by rewrite P|]. apply total_perm. by rewrite P.
Qed.

(** Every candidate carries the value of a [SignalPriority]. *)
Definition prioritised (records : list row) : Prop :=
  forall r, r ∈ candidates records -> exists p, get r "priority" = JStr (priority_value p).
Lemma count_rows_cons f r rows : count_rows f (r :: rows) = ((if f r then 1 else 0) + count_rows f rows)%nat.
Proof. unfold count_rows. rewrite filter_cons. case_decide as H; [by rewrite H|]. by destruct (f r). Qed.
Lemma one_priority r p : get r "priority" = JStr (priority_value p) ->
  ((if at_priority "INFO" r then 1 else 0) + (if at_priority "NOTICE" r then 1 else 0) + (if at_priority "IMPORTANT" r then 1 else 0) +
   (if at_priority "CRITICAL" r then 1 else 0))%nat = 1%nat.
Proof. unfold at_priority. intros ->. destruct p; vm_compute; reflexivity. Qed.
Lemma priorities_total records : prioritised records ->
  let n p := count_rows (at_priority p) (candidates records) in
  (n "INFO" + n "NOTICE" + n "IMPORTANT" + n "CRITICAL")%nat = length (candidates records).
Proof.
  unfold prioritised. generalize (candidates records) as rows. induction rows as [|r rows IH]; [done|]. intros Hp. cbv zeta.
  specialize (IH (fun r' Hr => Hp r' (list_elem_of_further _ _ _ Hr))). cbv zeta in IH. destruct (Hp r (list_elem_of_here _ _)) as [p E].
  rewrite !count_rows_cons. pose proof (one_priority r p E). cbn [length]. lia.
Qed.

(** The counts of a metrics object, by section. *)
Lemma metrics_sections records facts m : metrics_from_records records facts = Ok m ->
  exists hour, getpath m ["pipeline"] = Ok
      ([("events_generated", jnum (count_rows (named EVENT_GENERATED) records)); ("events_deduped", jnum (count_rows (named EVENT_DEDUPED) records));
        ("events_clustered", jnum (count_rows (named EVENT_CLUSTERED) records)); ("signal_episodes_created", jnum (count_rows (named SIGNAL_EPISODE_CREATED) records));
        ("signal_escalations", jnum (count_rows (named SIGNAL_ESCALATED) records)); ("alert_candidates", jnum (count_rows (named ALERT_CANDIDATE) records));
        ("alert_suppressed", jnum (count_rows (named ALERT_SUPPRESSED) records)); ("alerts_presented", JObj (unavailable_metric UNAVAILABLE_HOST_OFFLINE))]) /\
    getpath m ["noise"] = Ok (priority_counts records ++ [("suppression_by_reason", JObj (suppression_counts records));
      ("repeated_episode_signal_count", jnum (repeated records).1); ("repeated_episode_extra_alert_count", jnum (repeated records).2);
      ("alerts_per_market_hour", hour)]) /\
    getpath m ["scheduler"] = Ok (scheduler_metrics_from_facts facts).
Proof.
  unfold metrics_from_records. cbv zeta. intros (report & _ & H)%bind_ok. apply bind_ok in H as (ev & _ & H). apply bind_ok in H as (ns & _ & H).
  apply bind_ok in H as (hour & _ & H). exists hour. destruct (repeated records) as [rs ea]. injection H as <-. by split_and!.
Qed.

Lemma getpath_one m s r : getpath m [s] = Ok r -> getrow m s = Ok r.
Proof. cbn. by destruct (getrow m s). Qed.

(** C33: The metrics of a replay and the evaluation report read one journal alike: the seven pipeline
    counts, the suppressions by reason and the repeated-episode counts are those of the report,
    although the comparison counts repeats in a dictionary of its own.  Unlike the report, it
    compares priorities without regard to case, so its four priority counts add up to the alert
    candidates when every candidate carries the value of a [SignalPriority]. *)
Theorem metrics_agree records facts report m :
  evaluate (mkLoaded records ["memory"] (length records) 0 false true) None None None = Ok report -> metrics_from_records records facts = Ok m ->
  (forall k, k ∈ PIPELINE_COUNTS -> count_of m ["pipeline"] k = Ok (value_at k (rp_pipeline report))) /\
  (exists reasons, get (rp_alert_noise report) "suppression_by_reason" = JObj reasons /\
    forall k, k ∈ SUPPRESSION_COUNTS -> count_of m ["noise"; "suppression_by_reason"] k = Ok (value_at k reasons)) /\
  (forall k, k ∈ ["repeated_episode_signal_count"; "repeated_episode_extra_alert_count"] -> count_of m ["noise"] k = Ok (value_at k (rp_alert_noise report))) /\
  (prioritised records -> exists info notice important critical, count_of m ["noise"] "info_count" = Ok info /\
    count_of m ["noise"] "notice_count" = Ok notice /\ count_of m ["noise"] "important_count" = Ok important /\
    count_of m ["noise"] "critical_count" = Ok critical /\ count_of m ["pipeline"] "alert_candidates" = Ok (info + notice + important + critical)).
Proof.
  intros Er Em. destruct (evaluate_sections _ _ _ _ _ Er) as (market & _ & Hp & Hn). cbn [lt_records] in Hp, Hn.
  destruct (metrics_sections _ _ _ Em) as (hour & Gp & Gn & _). unfold count_of. rewrite Gp, Gn. cbn [mbind result_bind].
  assert (C : forall n, count_name (strings_at "name" (selected None records)) n = count_rows (named n) records)
    by (intros n; rewrite count_name_rows; unfold count_rows; by rewrite named_selected).
  split; [|split; [|split]].
  - rewrite Hp. unfold pipeline. cbv zeta. rewrite !C. intros k Hk. repeat (apply elem_of_cons in Hk as [->|Hk]; [reflexivity|]). by apply elem_of_nil in Hk.
  - exists (suppression (selected None records)).1. split; [rewrite Hn; unfold alert_noise; by destruct (repeated_episodes _)|].
    unfold suppression, by_reason. rewrite named_selected. intros k Hk. cbn [getpath].
    rewrite (getpath_one _ _ _ Gn). cbn [mbind result_bind]. erewrite getrow_found by reflexivity. cbn [mbind result_bind].
    repeat (apply elem_of_cons in Hk as [->|Hk]; [reflexivity|]). by apply elem_of_nil in Hk.
  - rewrite Hn. unfold alert_noise. rewrite named_selected. fold (candidates records). rewrite <- repeated_agrees. destruct (repeated records) as [rs ea].
    intros k Hk. repeat (apply elem_of_cons in Hk as [->|Hk]; [reflexivity|]). by apply elem_of_nil in Hk.
  - intros P. pose proof (priorities_total records P) as T.
    set (n p := count_rows (at_priority p) (candidates records)).
    change ((n "INFO" + n "NOTICE" + n "IMPORTANT" + n "CRITICAL")%nat = length (candidates records)) in T.
    exists (Z.of_nat (n "INFO")), (Z.of_nat (n "NOTICE")), (Z.of_nat (n "IMPORTANT")), (Z.of_nat (n "CRITICAL")). do 4 (split; [reflexivity|]).
    rewrite <- !Nat2Z.inj_add, T. reflexivity.
Qed.
Definition demo_replay : result TunedReplayResult :=
  (run_tuned_replay 4300 (fun _ => "") (fun _ => false) demo_uuids capture_baseline_config "rapid_move" demo_fixtures ∅ DEFAULT_REPLAY_SYMBOL).1.
Definition demo_metrics : result (EvaluationReport * row * list row * list TickFact) :=
  r ← demo_replay;
  report ← evaluate (mkLoaded (rr_records r) ["memory"] (length (rr_records r)) 0 false true) None None None;
  m ← metrics_from_records (rr_records r) (rr_facts r);
  Ok (report, m, rr_records r, rr_facts r).
Lemma demo_counts : match demo_metrics with
  | Ok (report, m, _, _) => value_at "alert_candidates" (rp_pipeline report) = 2 /\ value_at "repeated_episode_signal_count" (rp_alert_noise report) = 0 /\
      count_of m ["noise"] "info_count" = Ok 1
  | Err _ => False
  end.
Proof. vm_compute. by split_and!. Qed.
Lemma metrics_agree_witness : exists r m, demo_replay = Ok r /\ metrics_from_records (rr_records r) (rr_facts r) = Ok m /\
  count_of m ["pipeline"] "alert_candidates" = Ok 2 /\ count_of m ["noise"] "info_count" = Ok 1 /\ count_of m ["noise"] "repeated_episode_signal_count" = Ok 0.
Proof.
  pose proof demo_counts as V. unfold demo_metrics in V. destruct demo_replay as [r|] eqn:E; [|destruct V]. cbn [mbind result_bind] in V.
  destruct (evaluate _ None None None) as [report|] eqn:Er; [|destruct V]. cbn [mbind result_bind] in V.
  destruct (metrics_from_records (rr_records r) (rr_facts r)) as [m|] eqn:Em; [|destruct V]. destruct V as (V1 & V2 & V3).
  exists r, m. split; [reflexivity|]. split; [exact Em|]. destruct (metrics_agree _ _ _ _ Er Em) as (P & _ & Q & _).
  split; [rewrite (P "alert_candidates" ltac:(decide_now)), V1; reflexivity|]. split; [exact V3|].
  rewrite (Q "repeated_episode_signal_count" ltac:(decide_now)), V2. reflexivity.
Defined.
