(* ===== verification/Cli.v ===== *)
(** * The command line (src/market_sentinel/cli/main.py and mcp.py)

    The handlers of the commands, from parsed arguments to the exit code and the printed texts.
    A handler that lets an exception escape gives [Err]; the interpreter then prints a traceback
    and exits with 1.  The watchlist file enters as its rows, the data directory as a map from
    paths to bytes.  The sidecar's workers, which run between the rounds of [run], touch only
    the coordinator and the telemetry; the rounds are modelled without them, between the start and the
    shutdown of the coordinator.  [run] ends by its own return, by an exception or by Ctrl-C, in the two ways
    asyncio delivers it ([Interrupt]), here between two rounds. *)
From Stdlib Require Import ZArith Lia Ascii String.
From stdpp Require Import prelude strings gmap.
From S2P Require Import Prelude PyFloat Domain Normalizer NumberText Json PyText Features Cooldown Cluster Composer Telemetry Jsonl Pipeline Scheduler Health Watchlist Engine Providers Coordinator Wire Daemon Capabilities Standalone Doctor Display Evaluation Render Tuning Replay Evidence Compare.
Local Open Scope Z_scope.

(** An exit code and what was printed. *)
Abbreviation Exit := (Z * list string)%type.

(** ** watchlist *)
Inductive WatchlistCommand := WAdd (symbol : string) | WRemove (symbol : string) | WEnable (symbol : string) | WDisable (symbol : string) | WList.
Definition WATCHLIST_LIMIT : Z := 10.

Section watchlist.
Context (str_other : pyval -> string) (bool_other : pyval -> bool).
Definition perform (c : WatchlistCommand) (w : Watchlist) : result Watchlist :=
  match c with
  | WAdd s => '(_, w) ← add w s; Ok w
  | WRemove s => remove w s
  | WEnable s => '(_, w) ← enable w s; Ok w
  | WDisable s => '(_, w) ← disable w s; Ok w
  | WList => Ok w
  end.
Definition item_line (item : WatchItem) : string := wi_symbol item +:+ " " +:+ (if wi_enabled item then "on" else "off").
(** [main] with the command [watchlist]: one process, from the file to the file. *)
Definition handle_watchlist (file : option Payload) (c : WatchlistCommand) : result Exit * option Payload :=
  match (w ← watchlist_init str_other bool_other true WATCHLIST_LIMIT true file; perform c w) with
  | Ok w => (Ok (0, item_line <$> list_items w), wl_file w)
  | Err e => (Err e, file)
  end.
End watchlist.

(** ** tuning *)
(** What the [except] clauses of the tuning handlers name. *)
Definition handled (e : exn) : bool := match e with ValueError _ | TuningConfigError _ | TuningSnapshotError _ => true | _ => false end.
Definition exit_2 (r : result Exit) : result Exit := match r with Err e => if handled e then Ok (2, []) else Err e | r => r end.
(** [path.name] *)
Definition path_name (path : string) : string := List.last (split_on SLASH path) "".

Section tuning.
Context (limit : nat) (fs : files) (data_dir : string).

Definition config_of (config : option ConfigFile) : result OfflineTuningConfig :=
  match config with
  | None => Ok capture_baseline_config
  | Some (FileText text) =>
      match loads limit text with
      | Parsed payload => config_from_record payload
      | JSONDecodeError => Err (ValueError "JSONDecodeError")
      | LoadsRaises e => Err e
      end
  | Some _ => Err (ValueError "OSError")      (* or [UnicodeError]: handled as well *)
  end.
Definition snapshot_line (a : TuningArtifact) (path : string) : result string :=
  dumps spaced (JObj [("snapshot_id", JStr (ts_id (ta_snapshot a))); ("config_version", JStr (ts_version (ta_snapshot a))); ("path_name", JStr (path_name path))]).
Definition handle_tuning_snapshot (config : option ConfigFile) (version : string) (source : TuningSource) (wall : float) (uuid4 : string) : result Exit * files :=
  match (config ← config_of config; make_artifact config version source wall uuid4 None) with
  | Err e => (exit_2 (Err e), fs)
  | Ok a =>
      match write_snapshot fs data_dir a with
      | (Err e, fs) => (exit_2 (Err e), fs)
      | (Ok path, fs) => (line ← snapshot_line a path; Ok (0, [line]), fs)
      end
  end.

Definition parse_corpus (raw : string) : result (list string) :=
  if bool_decide (strip raw = "") || bool_decide (strip raw = "default") then Ok DEFAULT_CORPUS
  else validate_corpus (filter (fun part => part <> "") (strip <$> split_on "," raw)).

Definition telemetry_path : string := data_dir +:+ "/telemetry.jsonl".
Definition feedback_path : string := data_dir +:+ "/feedback.jsonl".
Definition empty_loaded : LoadedTelemetry := mkLoaded [] [] 0 0 false true.
Definition optional_tuning_feedback : result TuningFeedbackDataset :=
  if negb (exists_in fs telemetry_path) && negb (exists_in fs feedback_path) then Ok empty_feedback_dataset
  else
    telemetry ← (if exists_in fs telemetry_path then Jsonl.load limit fs telemetry_path DEFAULT_BACKUP_COUNT else Ok empty_loaded);
    feedback ← (if exists_in fs feedback_path then Jsonl.load limit fs feedback_path DEFAULT_BACKUP_COUNT else Ok empty_loaded);
    build_tuning_feedback_dataset (lt_records feedback) (lt_records telemetry).

(** The record is built after the [try]. *)
Definition handle_tuning_compare (str_other : pyval -> string) (bool_other : pyval -> bool) (uuids : nat -> Uuids)
    (fixture_dir : option (gmap string (list string))) (baseline candidate raw : string) : Engine.Step (gmap string Payload) Exit := fun work_dir =>
  let attempt : result (TuningComparisonReport + Exit) * gmap string Payload :=
    (baseline ← lift (load_snapshot limit fs data_dir baseline);
     candidate ← lift (load_snapshot limit fs data_dir candidate);
     match fixture_dir with
     | None => mret (inr (2, []))
     | Some fixture_dir =>
         corpus ← lift (parse_corpus raw);
         feedback ← lift optional_tuning_feedback;
         report ← compare_artifacts limit str_other bool_other uuids fixture_dir baseline candidate corpus (Some feedback);
         mret (inl report)
     end) work_dir in
  match attempt with
  | (Ok (inl report), work_dir) => (record ← comparison_to_record report; text ← dumps (indented 2) record; Ok (0, [text]), work_dir)
  | (Ok (inr exit), work_dir) => (Ok exit, work_dir)
  | (Err e, work_dir) => (exit_2 (Err e), work_dir)
  end.

(** ** telemetry *)
Definition handle_telemetry (run_id : option string) (as_text : bool) : result Exit :=
  loaded ← Jsonl.load limit fs telemetry_path DEFAULT_BACKUP_COUNT;
  feedback ← Jsonl.load limit fs feedback_path DEFAULT_BACKUP_COUNT;
  report ← evaluate loaded run_id None (Some feedback);
  record ← report_to_record report;
  text ← (if as_text then render_text report else dumps (indented 2) record);
  Ok (0, [text]).
End tuning.

Definition intelligence_override (flag : option string) : option bool :=
  match flag with Some f => if decide (f = "on") then Some true else if decide (f = "off") then Some false else None | None => None end.

(** ** mcp *)
Definition explicit_symbols (raw : option string) : list string :=
  match raw with Some raw => filter (fun symbol => symbol <> "") (strip <$> split_on "," raw) | None => [] end.

Section engine.
Context {S F : Type} (environ : string -> option string) (sdk_installed : bool) (limit : nat).
Context (create : nat -> Sdk unit) (quote : nat -> list string -> Sdk (list VendorQuote)).
Context (str_other : pyval -> string) (bool_other : pyval -> bool) (text_of : exn -> string).
Context (mono wall : nat -> float) (telemetry : TelemetryRuntime S F).
Context (run_pipeline : Pipeline -> TelemetryRuntime S F -> option MarketFeatures -> MarketFeatures ->
  result (SignalPipelineResult * Pipeline * TelemetryRuntime S F)).
Context (scheduler_policy : SchedulerPolicy).
Abbreviation Eng := (Engine MarketProvider S F Coordinator).
Abbreviation Rt := (StandaloneRuntime S F).

(** The MCP package may be absent.  [ts] are the turns of the server until its input ends. *)
Definition run_mcp (mcp_installed : bool) (symbols : option string) (provider_name : string) (replay : option (list string))
    (watchlist : option Payload) (live : bool) (ts : list RuntimeTurn) : result Z :=
  if negb mcp_installed then Ok 2
  else
    let explicit := explicit_symbols symbols in
    match (symbols ← resolve_watchlist_symbols str_other bool_other limit provider_name replay explicit (if bool_decide (explicit = []) then watchlist else None);
           standalone_init provider_name replay symbols live) with
    | Err (McpConfigError _) => Ok 2
    | Err e => Err e
    | Ok rt =>
        match (serve_mcp environ sdk_installed limit create quote str_other bool_other text_of mono wall telemetry run_pipeline scheduler_policy ts (rt : Rt)).1 with
        | Err (McpConfigError _) => Ok 2
        | Err e => Err e
        | Ok _ => Ok 0
        end
    end.

(** ** run *)
Definition shown_symbols (w : Watchlist) : list string :=
  if bool_decide (enabled_symbols w = []) then wi_symbol <$> list_items w else enabled_symbols w.
(** [now] is the wall clock's reading. *)
Definition print_dashboard (results : EngineTickResult) (now : float) (verbose : bool) : Engine.Step Eng string :=
  symbols ← gets (fun e => shown_symbols (en_watchlist e));
  states ← gets (fun e => snapshot_for (en_states e) symbols);
  feed ← health_aggregate default_health_policy mono symbols;
  updated ← lift (format_updated now);
  gets (fun e => format_dashboard feed states (Z.of_nat (length (list_items (en_watchlist e)))) (Some results) (Some updated) verbose).

Context (observe : Coordinator -> TelemetryRuntime S F -> EngineTickResult -> gset string -> list FeedStatus -> Coordinator * TelemetryRuntime S F).
Definition run_tick : Engine.Step Eng EngineTickResult :=
  tick (market_fetch environ create quote mono wall) market_exhausted observe default_feature_policy default_warming scheduler_policy default_health_policy
    run_pipeline mono.
(** One round: the dashboard. *)
Definition run_round (verbose : bool) (now : float) : Engine.Step Eng string :=
  results ← run_tick; print_dashboard results now verbose.
(** The rounds, one for every reading of the wall clock: what was printed, and the exception that ended them. *)
Fixpoint run_rounds (verbose : bool) (nows : list float) (e : Eng) : list string * option exn * Eng :=
  match nows with
  | [] => ([], None, e)
  | now :: nows =>
      match run_round verbose now e with
      | (Err x, e) => ([], Some x, e)
      | (Ok text, e) => let '(texts, x, e) := run_rounds verbose nows e in (text :: texts, x, e)
      end
  end.

(** How Ctrl-C reaches the loop.  [asyncio.run] answers the first one by cancelling the main task: a
    [CancelledError] at the await, which the handler of [KeyboardInterrupt] does not catch, and a
    [KeyboardInterrupt] out of [asyncio.run] once the task has ended.  A second one, before that, raises
    [KeyboardInterrupt] where the task is. *)
Inductive Interrupt := TaskCancelled | RaisedInside.
(** One tick, or ticks until the interrupt. *)
Inductive RunMode := Once (now : float) | Loop (nows : list float) (how : Interrupt).
Definition readings (m : RunMode) : list float := match m with Once now => [now] | Loop nows _ => nows end.
(** The process exits with a code, dies of the interrupt, or of another exception. *)
Inductive RunEnd := Exited (code : Z) | Interrupted | Escaped (e : exn).

(** [_intelligence_lifecycle] around the rounds. *)
Definition handle_run (watchlist : Watchlist) (provider_name : string) (replay : option (list string)) (intelligence : option Coordinator)
    (mode : RunMode) (verbose : bool) : RunEnd * list string * option Eng :=
  match create_provider environ sdk_installed limit provider_name replay false with
  | Err (ValueError _) | Err (ProviderError _) => (Exited 2, [], None)
  | Err e => (Escaped e, [], None)
  | Ok provider =>
      let e := engine_init watchlist provider telemetry (Coordinator.start <$> intelligence) in
      let '(texts, failed, e) := run_rounds verbose (readings mode) e in
      let e := set_intelligence (Coordinator.shutdown <$> en_intelligence e) e in
      match failed with
      | Some x => (Escaped x, texts, Some e)
      | None => (match mode with Loop _ TaskCancelled => Interrupted | _ => Exited 0 end, texts, Some e)
      end
  end.

(** ** daemon *)
(** The exit code and the messages sent; [turns] are the host's lines and the ticker's. *)
Definition handle_daemon (store : Recorder F UserFeedback) (collect : Recorder S TelemetryEvent) (uuids : nat -> string) (tel_wall : nat -> float)
    (provider_name : string) (replay : option (list string)) (intelligence : option Coordinator) (turns : list Turn) : result (Z * list json) :=
  match create_provider environ sdk_installed limit provider_name replay false with
  | Err (ValueError _) | Err (ProviderError _) => Ok (2, [])
  | Err e => Err e
  | Ok provider =>
      match watchlist_init str_other bool_other false WATCHLIST_LIMIT false None with
      | Err e => Err e
      | Ok w =>
          let e := engine_init w provider telemetry intelligence in
          match Daemon.run collect store uuids tel_wall (market_fetch environ create quote mono wall) market_exhausted observe default_feature_policy
                  default_warming scheduler_policy default_health_policy run_pipeline mono (loads limit) turns e with
          | (None, d) => Ok (0, dm_out d)
          | (Some ex, _) => Err ex
          end
      end
  end.
End engine.

(** * The watchlist command: every invocation is a process of its own *)
Definition op_of (c : WatchlistCommand) : option Op :=
  match c with WAdd s => Some (Add s) | WRemove s => Some (Remove s) | WEnable s => Some (Enable s) | WDisable s => Some (Disable s) | WList => None end.
Definition fresh_watchlist : Watchlist := mkWatchlist true WATCHLIST_LIMIT true [] None.

Lemma perform_op c w : match perform c w with Ok w' => w' | Err _ => w end = from_option (apply_op w) w (op_of c).
Proof.
  destruct c as [s|s|s|s|]; cbn [perform op_of from_option apply_op]; [| | | |done].
  - by destruct (add w s) as [[? ?]|].
  - by destruct (remove w s).
  - by destruct (enable w s) as [[? ?]|].
  - by destruct (disable w s) as [[? ?]|].
Qed.

Lemma save_path w : wl_path (save w) = wl_path w.
Proof. unfold save. by destruct (negb _ || _). Qed.
Lemma apply_op_path w o : wl_path (apply_op w o) = wl_path w.
Proof.
  destruct o as [s|s|items|s|s]; cbn [apply_op]; unfold add, remove, replace, enable, disable, set_enabled.
  - destruct (od_get _ _); [done|]. destruct (_ <=? _); [done|]. cbn [snd]. by rewrite save_path.
  - destruct (require_item w s); cbn; [|done]. by rewrite save_path.
  - destruct (collect_unique [] items); cbn [mbind result_bind]; [|done]. destruct (_ <? _); [done|]. cbn [id]. by rewrite save_path.
  - destruct (require_item w s); cbn [mbind result_bind snd]; [|done]. by rewrite save_path.
  - destruct (require_item w s); cbn [mbind result_bind snd]; [|done]. by rewrite save_path.
Qed.

(** A watchlist of the command line: loaded again, it is itself. *)
Definition kept (w : Watchlist) : Prop := watchlist_wf w /\ wl_limit w = WATCHLIST_LIMIT /\ wl_persist w = true /\ wl_path w = true.
Lemma fresh_kept : kept fresh_watchlist.
Proof. split; [|done]. split; [by split; constructor|cbn; unfold WATCHLIST_LIMIT; lia|]. intros _. split; [done|by right]. Qed.
Lemma kept_op w o : kept w -> kept (apply_op w o).
Proof. intros (W & L & P & H). destruct (apply_op_wf w o W) as (W' & L' & P'). split; [done|]. rewrite apply_op_path. split_and!; congruence. Qed.
Lemma kept_reload so bo w : kept w -> watchlist_init so bo true WATCHLIST_LIMIT true (wl_file w) = Ok w.
Proof.
  intros (W & L & P & H). destruct (reload_items so bo w W P) as (w' & E & Ei). rewrite H, L in E. rewrite E. f_equal.
  unfold watchlist_init in E. cbn [negb andb] in E. unfold load in E. cbn [wl_path wl_file] in E. destruct w as [p l b items file]. cbn in *. subst p l b.
  destruct file as [rows|]; [|by injection E as <-; cbn in Ei; subst]. apply bind_ok in E as (its & _ & [= <-]). cbn in Ei. by subst its.
Qed.

Section watchlist_runs.
Context (so : pyval -> string) (bo : pyval -> bool).
Lemma handle_kept c w : kept w -> exists w', kept w' /\ w' = from_option (apply_op w) w (op_of c) /\
  handle_watchlist so bo (wl_file w) c = (w' ← perform c w; Ok (0, item_line <$> list_items w'), wl_file w').
Proof.
  intros K. exists (from_option (apply_op w) w (op_of c)). split; [destruct c; try done; by apply kept_op|]. split; [done|].
  unfold handle_watchlist. rewrite (kept_reload so bo w K). cbn [mbind result_bind]. rewrite <- perform_op. by destruct (perform c w).
Qed.
Lemma handle_all cs : forall w, kept w ->
  kept (foldl apply_op w (omap op_of cs)) /\
  foldl (fun file c => (handle_watchlist so bo file c).2) (wl_file w) cs = wl_file (foldl apply_op w (omap op_of cs)).
Proof.
  induction cs as [|c cs IH]; intros w K; [done|]. destruct (handle_kept c w K) as (w' & K' & -> & E). cbn [foldl]. rewrite E. cbn [snd].
  destruct (IH _ K') as [K2 E2]. cbn [omap list_omap]. by destruct (op_of c).
Qed.
End watchlist_runs.

(** C25: The invocations of [watchlist] compose.  Each is a process that reads the file, performs one command and
    writes the file; any sequence of them, refused ones included, from no file at all leaves the file of one
    watchlist in memory on which the commands were performed, and the next invocation prints exactly what that
    watchlist lists after it, or raises the error of the refused operation; what is printed never repeats a symbol
    nor exceeds ten lines. *)
Theorem watchlist_commands so bo cs c :
  let w := foldl apply_op fresh_watchlist (omap op_of cs) in
  let file := foldl (fun file c => (handle_watchlist so bo file c).2) None cs in
  file = wl_file w /\
  (handle_watchlist so bo file c).1 = (w' ← perform c w; Ok (0, item_line <$> list_items w')) /\
  forall w', perform c w = Ok w' -> NoDup (wi_symbol <$> list_items w') /\ Z.of_nat (length (list_items w')) <= 10.
Proof.
  intros w file. destruct (handle_all so bo cs _ fresh_kept) as [K E]. fold w in K, E. change (wl_file fresh_watchlist) with (@None Payload) in E. fold file in E.
  split; [done|]. rewrite E. destruct (handle_kept so bo c w K) as (w1 & K1 & E1 & ->). split; [done|]. intros w' P.
  pose proof (perform_op c w) as Q. rewrite P, <- E1 in Q. subst w'. destruct K1 as ([[N F] L _] & Hl & _).
  assert (Es : wi_symbol <$> list_items w1 = (wl_items w1).*1).
  { unfold list_items. rewrite <- list_fmap_compose. apply list_fmap_ext. intros i x Hx%list_elem_of_lookup_2. rewrite Forall_forall in F. by apply F. }
  rewrite Es. split; [done|]. unfold list_items. rewrite length_fmap. by rewrite Hl in L.
Qed.

(** * Publishing a snapshot *)
Lemma split_on_some sep s : split_on sep s <> [].
Proof. destruct s as [|c s]; cbn [split_on]; [done|]. case_decide; [done|]. by destruct (split_on sep s). Qed.
Lemma split_on_app sep a b : split_on sep (a +:+ String sep b) = split_on sep a ++ split_on sep b.
Proof.
  induction a as [|c a IH]; [change ("" +:+ String sep b) with (String sep b); cbn [split_on]; by rewrite decide_True|]. rewrite append_cons. cbn [split_on]. rewrite IH.
  destruct (decide (c = sep)); [done|]. pose proof (split_on_some sep a). by destruct (split_on sep a).
Qed.
Lemma split_on_none sep s : has_char sep s = false -> split_on sep s = [s].
Proof.
  induction s as [|c s IH]; [done|]. cbn [has_char split_on]. intros [Hc Hs]%orb_false_iff. rewrite (IH Hs), decide_False; [done|].
  by apply bool_decide_eq_false in Hc.
Qed.
Lemma last_app_one {A} (l : list A) x d : List.last (l ++ [x]) d = x.
Proof. induction l as [|y l IH]; [done|]. cbn. rewrite IH. by destruct l. Qed.
Lemma path_name_of dd id : has_char SLASH id = false -> path_name (path_of dd id) = id +:+ ".json".
Proof.
  intros H. unfold path_name, path_of. change ("/" +:+ id +:+ ".json") with (String SLASH (id +:+ ".json")). rewrite split_on_app.
  rewrite (split_on_none SLASH (id +:+ ".json")); [apply last_app_one|]. revert H. clear. induction id as [|c id IH]; [done|].
  rewrite append_cons. cbn [has_char]. intros [-> H]%orb_false_iff. by apply IH.
Qed.
Lemma hex_no_slash id : uuid_text id -> has_char SLASH id = false.
Proof.
  intros [_ H]. revert H. clear. induction id as [|c id IH]; [done|]. cbn [all_hex has_char]. intros [Hc H]%andb_prop. rewrite (IH H), orb_false_r.
  revert Hc. clear. destruct c as [[] [] [] [] [] [] [] []]; vm_compute; congruence.
Qed.

(** The floats of an accepted candidate are canonical when those of its text are. *)
Lemma to_float_valid v x : floats_ok v = true -> to_float v = Ok x -> valid x = true.
Proof. intros F. apply py_float_valid. by destruct v. Qed.
Lemma candidate_valid p c : floats_ok p = true -> config_from_record p = Ok c -> config_ok c /\ Forall (fun x => valid x = true) (config_floats c).
Proof.
  intros F (ms & -> & _ & _ & Hf & C)%from_record_accepts. split; [done|].
  assert (G : Forall (fun q => valid q.2 = true) (float_fields c)).
  { eapply Forall_impl; [exact Hf|]. intros [k x] [_ E]. cbn in E |- *. eapply to_float_valid; [|exact E]. unfold jget.
    destruct (od_get k ms) as [v|] eqn:Ev; [|done]. apply od_get_elem in Ev. exact (forallb_elem _ _ F _ Ev). }
  unfold float_fields in G. rewrite !Forall_cons in G. unfold config_floats. rewrite !Forall_cons. cbn in G.
  destruct G as (?&?&?&?&?&?&_). by split_and!.
Qed.
Lemma baseline_valid : config_ok capture_baseline_config /\ Forall (fun x => valid x = true) (config_floats capture_baseline_config).
Proof. split; [split; [vm_compute; split; discriminate|repeat constructor; vm_compute; reflexivity]|]. repeat constructor. Qed.

(** The configuration asked for. *)
Definition asked (limit : nat) (config : option ConfigFile) (c : OfflineTuningConfig) : Prop :=
  match config with
  | None => c = capture_baseline_config
  | Some (FileText text) => exists p, loads limit text = Parsed p /\ config_from_record p = Ok c
  | Some _ => False
  end.
Lemma config_of_spec limit config : match config_of limit config with
  | Ok c => asked limit config c /\ config_ok c /\ Forall (fun x => valid x = true) (config_floats c)
  | Err e => handled e = true \/ e = OverflowError \/ e = RuntimeError "RecursionError"
  end.
Proof.
  destruct config as [[| |text]|]; cbn [config_of]; [by left|by left| |by split; [|apply baseline_valid]].
  destruct (loads limit text) as [p| |e] eqn:L; [|by left|by apply loads_raises in L as [-> | ->]; [left|auto]].
  destruct (config_from_record p) as [c|e] eqn:E; [split; [by exists p|]; eapply candidate_valid; [by eapply loads_floats|done]|].
  apply from_record_error in E as [[m ->]| ->]; [by left|auto].
Qed.
Lemma make_artifact_error c version source wall uuid e : make_artifact c version source wall uuid None = Err e -> handled e = true.
Proof.
  unfold make_artifact. destruct (blank version); [by intros [= <-]|]. cbv zeta. cbn [from_option id].
  destruct (validate_snapshot_id uuid) as [t|x] eqn:V; cbn [mbind result_bind]; [|apply validate_error in V as [m ->]; by intros [= <-]].
  unfold new_snapshot, tuning_post_init, require_text, require_finite, require. cbv zeta. cbn [ts_id ts_version ts_created].
  destruct (blank uuid); cbn [negb mbind result_bind]; [by intros [= <-]|]. destruct (blank version); cbn [negb mbind result_bind]; [by intros [= <-]|].
  destruct (isfinite wall); cbn [mbind result_bind]; [done|by intros [= <-]].
Qed.

(** C24: [tuning snapshot] publishes or changes nothing.  Over a directory of published snapshots, with a clock whose
    reading is a float and a version that can be encoded: the command exits with 0 exactly after writing a new
    artifact with the configuration asked for, which loads back, and prints one JSON text with its identity, its
    version and the name of its file; with 2 it has written and printed nothing; and no published snapshot
    changes in any case.  Only an integer beyond the floats and a nesting beyond the recursion limit in the
    configuration's text escape the handler, before anything is written. *)
Theorem snapshot_command limit dd l config version source wall uuid4 :
  (2 <= limit)%nat -> Forall publishable l -> valid wall = true -> utf8_valid version = true ->
  let fs := foldl (publish dd) ∅ l in
  let '(r, fs') := handle_tuning_snapshot limit fs dd config version source wall uuid4 in
  match r with
  | Ok (code, out) =>
      (code = 0 /\ exists a line, asked limit config (ta_config a) /\ ts_version (ta_snapshot a) = version /\ ts_id (ta_snapshot a) = uuid4 /\
         first_with uuid4 l = None /\ load_snapshot limit fs' dd uuid4 = Ok a /\ out = [line] /\
         loads limit line = Parsed (JObj [("snapshot_id", JStr uuid4); ("config_version", JStr version); ("path_name", JStr (uuid4 +:+ ".json"))])) \/
      (code = 2 /\ out = [] /\ fs' = fs)
  | Err e => (e = OverflowError \/ e = RuntimeError "RecursionError") /\ fs' = fs
  end /\
  forall id a, first_with id l = Some a -> load_snapshot limit fs' dd id = Ok a.
Proof.
  intros Hl P W U fs. assert (Old : forall fs', (forall p s, fs !! p = Some s -> fs' !! p = Some s) -> forall id a, first_with id l = Some a -> load_snapshot limit fs' dd id = Ok a).
  { intros fs' K id a Ha. pose proof Ha as Hh. unfold first_with in Hh. apply head_Some_elem_of, list_elem_of_filter in Hh as [<- Hin].
    rewrite Forall_forall in P. pose proof (P _ Hin) as Pa. apply load_written; [done..|]. apply K. subst fs.
    pose proof (published_files dd l ltac:(by rewrite Forall_forall) (ts_id (ta_snapshot a)) (proj1 (proj2 Pa))) as Hf. by rewrite Hf, Ha. }
  assert (Refused : forall e, handled e = true -> match exit_2 (Err e) with
    | Ok (code, out) => code = 2 /\ out = [] | Err _ => False end) by (intros e He; cbn; by rewrite He).
  unfold handle_tuning_snapshot. pose proof (config_of_spec limit config) as C. destruct (config_of limit config) as [c|e]; cbn [mbind result_bind].
  2:{ split; [|by apply Old]. cbn [exit_2]. destruct C as [He|[-> | ->]]; [rewrite He; by right|cbn; auto..]. }
  destruct C as (Ha & Hc & Hv). destruct (make_artifact c version source wall uuid4 None) as [a|e] eqn:E.
  2:{ apply make_artifact_error in E. split; [|by apply Old]. cbn [exit_2]. rewrite E. by right. }
  destruct (make_artifact_publishable _ _ _ _ _ _ _ E Hc Hv W U) as [Pa Ec]. assert (Hid : ts_id (ta_snapshot a) = uuid4 /\ ts_version (ta_snapshot a) = version).
  { unfold make_artifact in E. destruct (blank version); [done|]. cbv zeta in E. apply bind_ok in E as (? & _ & E). apply bind_ok in E as (t & Et & [= <-]).
    unfold new_snapshot in Et. cbv zeta in Et. by apply bind_ok in Et as (? & _ & [= <-]). }
  destruct Hid as [Hid Hver]. pose proof Pa as (_ & Ua & _). rewrite Hid in Ua. rewrite write_outcome by done. rewrite Hid. unfold exists_in.
  pose proof (published_files dd l P uuid4 Ua) as Hf. fold fs in Hf. rewrite Hf. destruct (first_with uuid4 l) as [b|] eqn:Ef.
  { split; [|by apply Old]. cbn. by right. }
  cbn [fmap option_fmap option_map]. rewrite bool_decide_false by (by intros [? ?]). split.
  2:{ apply Old. intros p s Hp. rewrite lookup_insert_ne; [done|]. intros <-. rewrite Hf in Hp. done. }
  unfold snapshot_line. rewrite Hid, Hver, (path_name_of dd uuid4 (hex_no_slash _ Ua)).
  match goal with |- context [dumps spaced ?v] => destruct (loads_dumps spaced limit v spaced_ok) as (line & El & Ll) end.
  { destruct limit as [|limit]; [lia|]. reflexivity. }
  rewrite El. cbn [mbind result_bind]. left. split; [done|]. exists a, line. rewrite Ec. split_and!; try done.
  rewrite <- Hid at 2. apply load_written; [done..|]. by rewrite Hid, lookup_insert_eq.
Qed.

(** * The run command *)
Section runs.
Context {S F : Type} (environ : string -> option string) (sdk_installed : bool) (limit : nat).
Context (create : nat -> Sdk unit) (quote : nat -> list string -> Sdk (list VendorQuote)).
Context (mono wall : nat -> float) (telemetry : TelemetryRuntime S F).
Context (run_pipeline : Pipeline -> TelemetryRuntime S F -> option MarketFeatures -> MarketFeatures ->
  result (SignalPipelineResult * Pipeline * TelemetryRuntime S F)).
Context (scheduler_policy : SchedulerPolicy).
Context (observe : Coordinator -> TelemetryRuntime S F -> EngineTickResult -> gset string -> list FeedStatus -> Coordinator * TelemetryRuntime S F).
Context `{!PipelineContract run_pipeline} (fresh_pipeline : pipe_wf pipeline_init).
Context (wall_valid : forall n, valid (wall n) = true) (quotes_valid : forall k l qs, quote k l = Answered qs -> Forall quote_valid qs).
#[local] Instance run_provider : ProviderContract (market_fetch environ create quote mono wall) :=
  market_contract environ create quote mono wall wall_valid quotes_valid.
Abbreviation Eng := (Engine MarketProvider S F Coordinator).
Abbreviation wf := (engine_wf (market_fetch environ create quote mono wall) run_pipeline (S := S) (F := F) (I := Coordinator)).
Abbreviation rounds := (run_rounds environ create quote mono wall run_pipeline scheduler_policy observe).
Abbreviation handle := (handle_run environ sdk_installed limit create quote mono wall telemetry run_pipeline scheduler_policy observe).

(** What the dashboard shows: the engine as a tick left it and the rows of that tick. *)
Definition dashboard (verbose : bool) (results : EngineTickResult) (stamp : string) (e : Eng) : string :=
  let symbols := shown_symbols (en_watchlist e) in
  format_dashboard (aggregate_status default_health_policy (en_health e) symbols mono (en_mono e)).1 (snapshot_for (en_states e) symbols)
    (Z.of_nat (length (list_items (en_watchlist e)))) (Some results) (Some stamp) verbose.
Definition datable (now : float) : Prop := exists t, format_updated now = Ok t.

(** The run as it should be: a tick at each reading, of the due symbols, in a well-formed engine over the same
    watchlist, then its dashboard, which touches only the clock and the status kept for the log. *)
Inductive displayed (verbose : bool) : Eng -> list float -> list string -> Eng -> Prop :=
  | displayed_nil e : displayed verbose e [] [] e
  | displayed_cons e now nows results e1 stamp e2 texts e3 :
      run_tick environ create quote mono wall run_pipeline scheduler_policy observe e = (Ok results, e1) ->
      tr_symbol <$> results = due_now scheduler_policy mono e -> wf e1 -> en_watchlist e1 = en_watchlist e ->
      format_updated now = Ok stamp -> seen same_facts e1 e2 -> displayed verbose e2 nows texts e3 ->
      displayed verbose e (now :: nows) (dashboard verbose results stamp e1 :: texts) e3.

Lemma displayed_length verbose e nows texts e' : displayed verbose e nows texts e' -> length texts = length nows /\ en_watchlist e' = en_watchlist e.
Proof. induction 1 as [|e now nows rs e1 st e2 texts e3 _ _ _ Hw _ (Hs & _) _ [IH1 IH2]]; [done|]. cbn. split; [by rewrite IH1|congruence]. Qed.

Lemma round_seen_wf e e' : wf e -> seen same_facts e e' -> wf e'.
Proof. intros [B P V L] (?&Hp&?&Hb&Hs&_&Hl&_). split; [by rewrite Hb|by rewrite Hl|by rewrite Hp|]. intros x. rewrite Hb. unfold latest_state. rewrite Hs. apply L. Qed.

Lemma rounds_display verbose nows : forall e, wf e -> Forall datable nows -> exists texts e',
  rounds verbose nows e = (texts, None, e') /\ displayed verbose e nows texts e'.
Proof.
  induction nows as [|now nows IH]; intros e W D; cbn [run_rounds]; [exists [], e; by split; [|constructor]|].
  apply Forall_cons in D as [[t Et] D]. destruct (tick_runs (market_fetch environ create quote mono wall) market_exhausted observe default_feature_policy default_warming
    scheduler_policy default_health_policy run_pipeline mono e W) as (rs & e1 & E & W1 & Hw & _ & Hd & _). unfold tick_of in E.
  assert (Er : run_tick environ create quote mono wall run_pipeline scheduler_policy observe e = (Ok rs, e1)) by exact E.
  assert (P : exists e2, print_dashboard mono rs now verbose e1 = (Ok (dashboard verbose rs t e1), e2) /\ seen same_facts e1 e2).
  { unfold print_dashboard, dashboard, mbind, step_bind, gets, lift, health_aggregate. cbn beta iota zeta.
    pose proof (aggregate_facts default_health_policy (en_health e1) (shown_symbols (en_watchlist e1)) mono (en_mono e1)) as F'.
    destruct (aggregate_status _ _ _ _ _) as [feed h]. rewrite Et. eexists. split; [reflexivity|]. unfold seen. cbn in F' |- *. by split_and!. }
  destruct P as (e2 & Ep & Hs). destruct (IH e2 (round_seen_wf _ _ W1 Hs) D) as (texts & e3 & E3 & K).
  exists (dashboard verbose rs t e1 :: texts), e3. split; [|by eapply displayed_cons].
  unfold run_round, mbind at 1, step_bind. rewrite Er, Ep. by rewrite E3.
Qed.

Lemma created_wf w name replay quote_client intelligence p : create_provider environ sdk_installed limit name replay quote_client = Ok p ->
  wf (engine_init w p telemetry intelligence).
Proof.
  intros Hp. apply engine_init_wf; [done|]. cbn. unfold create_provider in Hp. case_decide; [injection Hp as <-; intros ? ?; cbn; by rewrite lookup_empty|].
  case_decide.
  - destruct replay as [lines|]; [|done]. unfold replay_init in Hp. destruct (loads_lines limit lines) as [ticks|] eqn:El; [|done].
    injection Hp as <-. by eapply loads_lines_valid.
  - case_decide; [done|]. case_decide; [|done]. by destruct (longbridge_init _ _ _ _); [injection Hp as <-|].
Qed.

(** Building a provider fails in the two handled ways, or on a fixture nested beyond the recursion limit. *)
Lemma provider_not_built name replay quote_client e : create_provider environ sdk_installed limit name replay quote_client = Err e ->
  (exists m, e = ValueError m) \/ (exists m, e = ProviderError m) \/ (name = "replay" /\ e = RuntimeError "RecursionError").
Proof.
  unfold create_provider. case_decide; [done|]. case_decide as Hr.
  - destruct replay as [lines|]; [|intros [= <-]; left; by eexists]. unfold replay_init, loads_lines. destruct (traverse _ _) as [|x] eqn:T; [done|].
    cbn [mbind result_bind]. intros [= <-]. apply traverse_error in T as (line & _ & [[m ->]|E%loads_raises]%loads_line_error); [left; by eexists|].
    destruct E as [-> | ->]; [left; by eexists|by right; right].
  - case_decide; [intros [= <-]; left; by eexists|]. case_decide; [|intros [= <-]; left; by eexists]. unfold longbridge_init, require_installed_sdk.
    repeat (case_match; cbn [mbind result_bind]; try done; try (intros [= <-]; first [left; by eexists|right; left; by eexists])).
Qed.


(** The daemon's process: 0 after serving its host, 2 without a provider, and a traceback in three ways only: an
    integer beyond the floats, one of too many digits, and a nesting beyond the recursion limit. *)
Lemma daemon_exits so bo store collect uuids tel_wall name replay intelligence turns :
  match handle_daemon environ sdk_installed limit create quote so bo mono wall telemetry run_pipeline scheduler_policy observe store collect uuids tel_wall
          name replay intelligence turns with
  | Ok (code, out) =>
      (code = 0 /\ exists p, create_provider environ sdk_installed limit name replay false = Ok p) \/
      (code = 2 /\ out = [] /\ exists e, create_provider environ sdk_installed limit name replay false = Err e)
  | Err e => e = OverflowError \/ raisable e
  end.
Proof.
  unfold handle_daemon. destruct (create_provider _ _ _ _ _ _) as [p|e] eqn:Ep.
  2:{ destruct (provider_not_built _ _ _ _ Ep) as [[m ->]|[[m ->]|[-> ->]]]; [right..|by right; right]; (split; [done|]; split; [done|]; by eexists). }
  set (w := mkWatchlist false WATCHLIST_LIMIT false [] None). change (watchlist_init so bo false WATCHLIST_LIMIT false None) with (@Ok Watchlist w). cbv zeta.
  pose proof (created_wf w name replay false intelligence p Ep) as W. unfold Daemon.run.
  set (e0 := set_intelligence _ _). assert (W0 : wf (dm_engine (daemon_init e0))) by (destruct W as [B Pw Vw L]; by split).
  pose proof (serve_safe collect store uuids tel_wall (market_fetch environ create quote mono wall) market_exhausted observe default_feature_policy default_warming
    scheduler_policy default_health_policy run_pipeline mono (loads limit) turns (daemon_init e0) W0 eq_refl) as H.
  destruct (Daemon.serve _ _ _ _ _ _ _ _ _ _ _ _ _ _ turns (daemon_init e0)) as [ex d]. destruct H as (_ & Ht & He). unfold finalise. rewrite Ht.
  destruct ex as [x|]; [|left; split; [done|by exists p]]. destruct (He x eq_refl) as [?|[text E]]; [by left|]. right. by eapply loads_raises.
Qed.
End runs.

(** ** Witnesses *)
Lemma watchlist_commands_witness :
  let file := foldl (fun file c => (handle_watchlist (fun _ => "") (fun _ => true) file c).2) None [WAdd "600519.SH"; WRemove "x"; WAdd "000001.SZ"; WDisable "600519.SH"] in
  (handle_watchlist (fun _ => "") (fun _ => true) file (WAdd "000001.SZ")).1 = Ok (0, ["600519.SH off"; "000001.SZ on"]).
Proof.
  destruct (watchlist_commands (fun _ => "") (fun _ => true) [WAdd "600519.SH"; WRemove "x"; WAdd "000001.SZ"; WDisable "600519.SH"] (WAdd "000001.SZ"))
    as (_ & E & _). cbv zeta. rewrite E. vm_compute. reflexivity.
Defined.

Definition demo_config : ConfigFile := FileText (text compact 0 (JObj (config_raw capture_baseline_config))).
Definition new_id : string := "00000000000000000000000000000abc".
Definition demo_command : result Exit * files :=
  handle_tuning_snapshot 50 (foldl (publish "data") ∅ [sample_artifact]) "data" (Some demo_config) "v3" OFFLINE_EVAL (flit 19 0) new_id.
Lemma demo_command_runs : match demo_command.1 with Ok (code, _) => code | Err _ => 1 end = 0.
Proof. vm_compute. reflexivity. Qed.
Lemma snapshot_command_witness : exists a, load_snapshot 50 demo_command.2 "data" new_id = Ok a /\ ta_config a = capture_baseline_config /\
  load_snapshot 50 demo_command.2 "data" sample_id = Ok sample_artifact.
Proof.
  destruct sample_publishable as [P1 _].
  pose proof (snapshot_command 50 "data" [sample_artifact] (Some demo_config) "v3" OFFLINE_EVAL (flit 19 0) new_id ltac:(lia)
    ltac:(apply Forall_cons_2; [exact P1|apply Forall_nil_2]) eq_refl ltac:(vm_compute; reflexivity)) as H.
  cbv zeta in H. fold demo_command in H. pose proof demo_command_runs as R. destruct demo_command as [[[code out]|e] fs']; [|discriminate R].
  cbn [fst snd] in R |- *. subst code. destruct H as [[(_ & a & line & (p & Hp & Hc) & _ & _ & _ & L & _)|(N & _)] Old]; [|discriminate N].
  exists a. split; [exact L|]. split; [|apply Old; vm_compute; reflexivity].
  assert (Ep : Parsed (JObj (config_raw capture_baseline_config)) = Parsed p) by (rewrite <- Hp; vm_compute; reflexivity).
  injection Ep as <-. assert (Ec : Ok (ta_config a) = Ok capture_baseline_config) by (rewrite <- Hc; vm_compute; reflexivity). by injection Ec.
Defined.

Definition demo_watchlist : Watchlist := apply_op fresh_watchlist (Add "600519.SH").
Definition keep_quiet (c : Coordinator) (t : TelemetryRuntime unit unit) (_ : EngineTickResult) (_ : gset string) (_ : list FeedStatus) := (c, t).
Definition demo_run (mode : RunMode) := handle_run (fun _ => None) false 100 no_sdk no_quotes noon noon mcp_telemetry mcp_pipeline default_scheduler_policy keep_quiet
  demo_watchlist "fake" None (Some coordinator_init) mode true.
Definition demo_readings : list float := [flit 1753263000 0; flit 1753263003 0].
Lemma demo_datable : Forall datable demo_readings.
Proof. repeat (apply Forall_cons_2; [eexists; vm_compute; reflexivity|]). apply Forall_nil_2. Qed.
Lemma demo_provider : is_ok (create_provider (fun _ => None) false 100 "fake" None false) = true.
Proof. vm_compute. reflexivity. Qed.
